(** * WeensyOS kernel (kernel.cc): frame allocator, address spaces, fork, exit,
    scheduler, boot

    A shallow embedding of the virtual-memory and process-lifecycle code of
    [kernel.cc].  The kernel is single-threaded and runs with interrupts
    disabled, so every kernel entry is a function from kernel state to
    kernel state.  Unsigned machine integers are [Z] with the wrap-around
    written out where the code can wrap. *)

From stdpp Require Import base numbers list gmap strings.

Local Open Scope Z_scope.

(** ** Constants *)

Definition PAGESIZE : Z := 4096.

(** Hardware page-table entry flags and the physical-address mask of an
    x86-64 leaf entry. *)
Definition PTE_P : Z := 1.
Definition PTE_W : Z := 2.
Definition PTE_U : Z := 4.
Definition PTE_PAMASK : Z := 0x000FFFFFFFFFF000.

(** [(uint64_t) -1], the value an iterator's [pa()] has on an entry that is
    not present (see line 408 of kernel.cc). *)
Definition NO_PA : Z := 2 ^ 64 - 1.

(** Conversion of an [int] result to [uintptr_t], as done by the [return]
    statements of [syscall]. *)
Definition to_uintptr (x : Z) : Z := x mod 2 ^ 64.

(** Modelled from the spec: the system-call numbers of the user ABI (the
    header that defines them is not part of the sources); section 4.G lists
    them as 1..6. *)
Definition SYSCALL_PANIC : Z := 1.
Definition SYSCALL_GETPID : Z := 2.
Definition SYSCALL_YIELD : Z := 3.
Definition SYSCALL_PAGE_ALLOC : Z := 4.
Definition SYSCALL_FORK : Z := 5.
Definition SYSCALL_EXIT : Z := 6.

(** The memory-layout constants and the allocation policy come from
    [kernel.hh], which is not part of the sources: the kernel is
    parameterised by them.  [refcount_bits] is the width of the unsigned
    [refcount] field of [physpageinfo]. *)
Class machine := Machine {
  PROC_START_ADDR : Z;
  MEMSIZE_PHYSICAL : Z;
  MEMSIZE_VIRTUAL : Z;
  CONSOLE_ADDR : Z;
  NPROC : nat;
  refcount_bits : Z;
  allocatable_physical_address : Z → bool
}.

(** What [kernel.hh] guarantees about the constants: all addresses are page
    aligned, the console cell lies in the kernel range, and an address fits
    a machine word. *)
Definition machine_wf `{machine} : bool :=
  bool_decide (PROC_START_ADDR mod PAGESIZE = 0)
  && bool_decide (MEMSIZE_PHYSICAL mod PAGESIZE = 0)
  && bool_decide (MEMSIZE_VIRTUAL mod PAGESIZE = 0)
  && bool_decide (CONSOLE_ADDR mod PAGESIZE = 0)
  && bool_decide (0 < CONSOLE_ADDR < PROC_START_ADDR)
  && bool_decide (PROC_START_ADDR < MEMSIZE_VIRTUAL)
  && bool_decide (0 < MEMSIZE_PHYSICAL)
  && bool_decide (MEMSIZE_VIRTUAL < 2 ^ 47)
  && bool_decide (MEMSIZE_PHYSICAL < 2 ^ 47)
  && bool_decide (0 < refcount_bits)
  && bool_decide (1 < NPROC)%nat.

(** ** Data model *)

Inductive procstate := P_FREE | P_RUNNABLE | P_FAULTED | P_BROKEN.

Global Instance procstate_eq_dec : EqDecision procstate.
Proof. solve_decision. Defined.

(** The saved registers the kernel code reads or writes. *)
Record regstate := Regstate {
  reg_rax : Z;
  reg_rdi : Z;
  reg_rip : Z;
  reg_rsp : Z
}.

Definition regs_zero : regstate := Regstate 0 0 0 0.

(** A process descriptor.  [pagetable] is the address of the root of the
    process's page table ([x86_64_pagetable*]); 0 is [nullptr]. *)
Record proc := Proc {
  pid : Z;
  state : procstate;
  regs : regstate;
  pagetable : Z
}.

(** Modelled from the spec: the page table below one root (the hardware
    walker and the iterators over it are not part of the sources).  It is
    the 4-level radix tree of section 3 kept by its nodes: [pt_tables] holds
    the physical address of every interior node, keyed by its level (3, 2
    or 1) and by the index of the virtual range it covers; [pt_leaves] holds
    the leaf entries [pa | perm], keyed by virtual page number.  A missing
    key is an entry that is zero. *)
Record pagetable_tree := PagetableTree {
  pt_tables : gmap (Z * Z) Z;
  pt_leaves : gmap Z Z
}.

Definition empty_tree : pagetable_tree := PagetableTree ∅ ∅.

(** The kernel state: the globals of kernel.cc ([ptable], [current],
    [physpages]), physical memory as bytes, and the page tables that live
    in it, by the address of their root.  [current] is the index of the
    running descriptor. *)
Record kstate := KState {
  ptable : list proc;
  current : nat;
  physpages : list Z;
  physmem : Z → Z;
  pagetables : gmap Z pagetable_tree
}.

Definition set_ptable (f : list proc → list proc) (st : kstate) : kstate :=
  KState (f (ptable st)) (current st) (physpages st) (physmem st) (pagetables st).
Definition set_physpages (f : list Z → list Z) (st : kstate) : kstate :=
  KState (ptable st) (current st) (f (physpages st)) (physmem st) (pagetables st).
Definition set_physmem (f : (Z → Z) → (Z → Z)) (st : kstate) : kstate :=
  KState (ptable st) (current st) (physpages st) (f (physmem st)) (pagetables st).
Definition set_pagetables
    (f : gmap Z pagetable_tree → gmap Z pagetable_tree) (st : kstate) : kstate :=
  KState (ptable st) (current st) (physpages st) (physmem st) (f (pagetables st)).
Definition set_current (i : nat) (st : kstate) : kstate :=
  KState (ptable st) i (physpages st) (physmem st) (pagetables st).

Definition proc_default : proc := Proc 0 P_FREE regs_zero 0.

(** [ptable[i]] and [*current]. *)
Definition proc_at (st : kstate) (i : nat) : proc :=
  default proc_default (ptable st !! i).
Definition current_proc (st : kstate) : proc := proc_at st (current st).

Definition update_proc (i : nat) (f : proc → proc) (st : kstate) : kstate :=
  set_ptable (λ t, <[i := f (proc_at st i)]> t) st.

Definition with_state (s : procstate) (p : proc) : proc :=
  Proc (pid p) s (regs p) (pagetable p).
Definition with_pagetable (pt : Z) (p : proc) : proc :=
  Proc (pid p) (state p) (regs p) pt.
Definition with_regs (r : regstate) (p : proc) : proc :=
  Proc (pid p) (state p) r (pagetable p).
Definition with_pid (i : Z) (p : proc) : proc :=
  Proc i (state p) (regs p) (pagetable p).
Definition with_rax (v : Z) (r : regstate) : regstate :=
  Regstate v (reg_rdi r) (reg_rip r) (reg_rsp r).
Definition with_rip (v : Z) (r : regstate) : regstate :=
  Regstate (reg_rax r) (reg_rdi r) v (reg_rsp r).
Definition with_rsp (v : Z) (r : regstate) : regstate :=
  Regstate (reg_rax r) (reg_rdi r) (reg_rip r) v.

(** ** Physical memory *)

Definition in_range (a n x : Z) : bool := (a <=? x) && (x <? a + n).

(** [memset((void* ) a, v, n)] *)
Definition memset (m : Z → Z) (a v n : Z) : Z → Z :=
  λ x, if in_range a n x then v else m x.

(** [memcpy((void* ) dst, (void* ) src, n)], both in kernel memory. *)
Definition memcpy (m : Z → Z) (dst src n : Z) : Z → Z :=
  λ x, if in_range dst n x then m (src + (x - dst)) else m x.

(** [memcpy((void* ) dst, data, n)] from the bytes [data] of a program
    image. *)
Definition memcpy_data (m : Z → Z) (dst : Z) (data : list Z) (n : Z) : Z → Z :=
  λ x, if in_range dst n x then default 0 (data !! Z.to_nat (x - dst)) else m x.

Section Kernel.
Context `{M : machine}.

Definition NPAGES : nat := Z.to_nat (MEMSIZE_PHYSICAL / PAGESIZE).

(** ** The frame table *)

(** Index of a frame in [physpages]: [pa / PAGESIZE]. *)
Definition frame_index (pa : Z) : nat := Z.to_nat (pa / PAGESIZE).

(** [physpages[pa / PAGESIZE].refcount] *)
Definition refcount (st : kstate) (pa : Z) : Z :=
  default 0 (physpages st !! frame_index pa).

(** The unsigned [refcount] field wraps at its width. *)
Definition wrap_refcount (x : Z) : Z := x mod 2 ^ refcount_bits.

Definition set_refcount (pa v : Z) (st : kstate) : kstate :=
  set_physpages (λ t, <[frame_index pa := v]> t) st.

(** ** kalloc, kfree (lines 116-141) *)

(** The scan of [kalloc]: [n] frames are left to look at, starting at
    [pa]. *)
Fixpoint kalloc_scan (n : nat) (pa : Z) (st : kstate) : Z * kstate :=
  match n with
  | O => (0, st)
  | S n' =>
      if allocatable_physical_address pa && bool_decide (refcount st pa = 0)
      then (pa, set_physmem (λ m, memset m pa 0xCC PAGESIZE)
                  (set_refcount pa (wrap_refcount (refcount st pa + 1)) st))
      else kalloc_scan n' (pa + PAGESIZE) st
  end.

(** [kalloc(sz)]; the result 0 is [nullptr]. *)
Definition kalloc (sz : Z) (st : kstate) : Z * kstate :=
  if bool_decide (sz > PAGESIZE) then (0, st)
  else kalloc_scan NPAGES 0 st.

(** [kfree(kptr)] *)
Definition kfree (kptr : Z) (st : kstate) : kstate :=
  if bool_decide (kptr = 0) then st
  else set_refcount kptr (wrap_refcount (refcount st kptr - 1)) st.

(** ** Page tables and their iterators

    [vmiter] walks the leaf entries of a page table, [ptiter] enumerates
    its interior nodes, and [kalloc_pagetable] makes an empty root.  Their
    code (k-vmiter.hh, k-hardware.cc) is not part of the sources; they are
    modelled from sections 3, 4.C and 6 of the spec and from the way
    kernel.cc calls them. *)

Definition tree_of (st : kstate) (root : Z) : pagetable_tree :=
  default empty_tree (pagetables st !! root).

Definition set_tree (root : Z) (t : pagetable_tree) (st : kstate) : kstate :=
  set_pagetables (λ s, <[root := t]> s) st.

(** Modelled from the spec: the radix tree has 4 KiB nodes of 512 entries.
    The interior node of level [lvl] on the path to [va]: a level-1 node
    covers 2^21 bytes, a level-2 node 2^30, a level-3 node 2^39. *)
Definition table_key (lvl va : Z) : Z * Z := (lvl, Z.shiftr va (12 + 9 * lvl)).

Definition has_table (t : pagetable_tree) (lvl va : Z) : bool :=
  bool_decide (is_Some (pt_tables t !! table_key lvl va)).

Definition has_path (t : pagetable_tree) (va : Z) : bool :=
  has_table t 3 va && has_table t 2 va && has_table t 1 va.

(** Modelled from the spec: the leaf entry the walk for [va] arrives at;
    0 when an interior node on the way is missing or nothing was ever
    mapped there. *)
Definition pte (t : pagetable_tree) (va : Z) : Z :=
  if has_path t va then default 0 (pt_leaves t !! (va / PAGESIZE)) else 0.

Definition pte_present (e : Z) : bool := negb (Z.land e PTE_P =? 0).

(** The entry for [va] is present. *)
Definition vmiter_present (t : pagetable_tree) (va : Z) : bool :=
  pte_present (pte t va).

(** Modelled from the spec: [vmiter::pa()], the physical address mapped
    at [va], or the distinguished absent marker [NO_PA]. *)
Definition vmiter_pa (t : pagetable_tree) (va : Z) : Z :=
  let e := pte t va in
  if pte_present e then Z.land e PTE_PAMASK + Z.land va (PAGESIZE - 1)
  else NO_PA.

(** Modelled from the spec: [vmiter::perm()], the permission bits of a
    present entry, else 0. *)
Definition vmiter_perm (t : pagetable_tree) (va : Z) : Z :=
  let e := pte t va in
  if pte_present e then Z.land e (PAGESIZE - 1) else 0.

(** Modelled from the spec: [vmiter::user()] and [vmiter::writable()],
    present and user-accessible, present and writable. *)
Definition vmiter_user (t : pagetable_tree) (va : Z) : bool :=
  Z.land (vmiter_perm t va) (Z.lor PTE_P PTE_U) =? Z.lor PTE_P PTE_U.
Definition vmiter_writable (t : pagetable_tree) (va : Z) : bool :=
  Z.land (vmiter_perm t va) (Z.lor PTE_P PTE_W) =? Z.lor PTE_P PTE_W.

Definition add_table (root : Z) (k : Z * Z) (pt : Z) (st : kstate) : kstate :=
  let t := tree_of st root in
  set_tree root (PagetableTree (<[k := pt]> (pt_tables t)) (pt_leaves t)) st.

Definition set_leaf (root va e : Z) (st : kstate) : kstate :=
  let t := tree_of st root in
  set_tree root (PagetableTree (pt_tables t) (<[va / PAGESIZE := e]> (pt_leaves t))) st.

(** Modelled from the spec: intermediate tables are allocated as needed
    through [kalloc], from the top level down, and zeroed; the first failed
    allocation ends the walk with -1 and keeps the tables made so far. *)
Fixpoint new_tables (lvls : list Z) (root va : Z) (st : kstate) : Z * kstate :=
  match lvls with
  | [] => (0, st)
  | lvl :: rest =>
      if has_table (tree_of st root) lvl va then new_tables rest root va st
      else
        let '(pt, st1) := kalloc PAGESIZE st in
        if bool_decide (pt = 0) then (-1, st1)
        else new_tables rest root va
               (add_table root (table_key lvl va) pt
                  (set_physmem (λ m, memset m pt 0 PAGESIZE) st1))
  end.

(** Modelled from the spec: [vmiter::try_map(pa, perm)] with the iterator
    at [va] in the table below [root]; 0 on success, -1 when a table could
    not be allocated.  A mapping without permission bits installs an entry
    that is absent and allocates nothing; kernel.cc passes the marker
    [NO_PA] with permission 0 for the unmapped address 0 (lines 157 and
    382), which stores the entry 0. *)
Definition try_map (root va pa perm : Z) (st : kstate) : Z * kstate :=
  let pa := if bool_decide (pa = NO_PA) && bool_decide (perm = 0) then 0 else pa in
  let '(r, st1) :=
    if bool_decide (perm = 0) then (0, st) else new_tables [3; 2; 1] root va st in
  if bool_decide (r = 0)
  then (0, if has_path (tree_of st1 root) va
           then set_leaf root va (Z.lor pa perm) st1 else st1)
  else (-1, st1).

(** Modelled from the spec: [ptiter], the physical addresses of the
    interior nodes (every node of the tree but the root). *)
Definition ptiter_pages (t : pagetable_tree) : list Z :=
  (map_to_list (pt_tables t)).*2.

(** Modelled from the spec: [kalloc_pagetable()], a fresh root frame,
    zeroed, or [nullptr]. *)
Definition kalloc_pagetable (st : kstate) : Z * kstate :=
  let '(pt, st1) := kalloc PAGESIZE st in
  if bool_decide (pt = 0) then (0, st1)
  else (pt, set_tree pt empty_tree (set_physmem (λ m, memset m pt 0 PAGESIZE) st1)).

(** [kernel_pagetable] below [PROC_START_ADDR] as [kernel_start] leaves it
    (lines 63-74): the identity mapping, without permissions at address 0,
    user-accessible at the console cell, kernel-only elsewhere. *)
Definition kernel_perm (va : Z) : Z :=
  if bool_decide (va = 0) then 0
  else if bool_decide (va ≠ CONSOLE_ADDR) then Z.lor PTE_P PTE_W
  else Z.lor (Z.lor PTE_P PTE_W) PTE_U.

Definition kernel_pa (va : Z) : Z :=
  if pte_present (kernel_perm va) then va else NO_PA.

(** Number of iterations of [for (va = 0; va < limit; va += PAGESIZE)]. *)
Definition pages_below (limit : Z) : nat :=
  Z.to_nat ((limit + PAGESIZE - 1) / PAGESIZE).

(** ** process_setup (lines 148-207) *)

(** Modelled from the spec: a loadable segment of a program image with
    its [va], [size], [data], [data_size] and [writable], and an image with
    its entry point (section 6; the loader is not part of the sources). *)
Record segment := Segment {
  seg_va : Z;
  seg_size : Z;
  seg_data : list Z;
  seg_data_size : Z;
  seg_writable : bool
}.

Record program_image := ProgramImage {
  pgm_entry : Z;
  pgm_segments : list segment
}.

Definition round_down (x m : Z) : Z := x - x mod m.

(** Modelled from the spec: [vmiter::map], a [try_map] that must succeed;
    [None] is the kernel panic of a failed boot-time allocation. *)
Definition vmiter_map (root va pa perm : Z) (st : kstate) : option kstate :=
  let '(r, st1) := try_map root va pa perm st in
  if bool_decide (r = 0) then Some st1 else None.

(** Lines 156-159: copy the kernel mappings into the new table. *)
Fixpoint setup_kernel_loop (n : nat) (va root : Z) (st : kstate) : option kstate :=
  match n with
  | O => Some st
  | S n' =>
      st1 ← vmiter_map root va (kernel_pa va) (kernel_perm va) st;
      setup_kernel_loop n' (va + PAGESIZE) root st1
  end.

(** Lines 165-182: one frame per page of a segment. *)
Fixpoint setup_segment_pages (n : nat) (a root : Z) (seg : segment) (st : kstate)
    : option kstate :=
  match n with
  | O => Some st
  | S n' =>
      let '(pa, st1) := kalloc PAGESIZE st in
      if bool_decide (pa = 0) then None
      else
        let perm :=
          if seg_writable seg then Z.lor (Z.lor PTE_W PTE_P) PTE_U
          else Z.lor PTE_P PTE_U in
        st2 ← vmiter_map root a pa perm st1;
        setup_segment_pages n' (a + PAGESIZE) root seg st2
  end.

Definition segment_page_count (seg : segment) : nat :=
  let a0 := round_down (seg_va seg) PAGESIZE in
  pages_below (seg_va seg + seg_size seg - a0).

Fixpoint setup_segments (segs : list segment) (root : Z) (st : kstate)
    : option kstate :=
  match segs with
  | [] => Some st
  | seg :: rest =>
      st1 ← setup_segment_pages (segment_page_count seg)
               (round_down (seg_va seg) PAGESIZE) root seg st;
      setup_segments rest root st1
  end.

(** Lines 186-190: zero the segment, then copy its initialized bytes, both
    through the physical address that [seg.va()] is mapped to.  The bytes
    written are bytes of [physmem]; the page tables are kept apart from
    them, in [pagetables], so a write that lands on a frame holding a page
    table would not show in [tree_of].  [loader_writes] below is the range
    written, and what is stated of the tables of a loaded process is stated
    where that range holds none of their frames. *)
Definition init_segment (root : Z) (seg : segment) (st : kstate) : kstate :=
  let pa := vmiter_pa (tree_of st root) (seg_va seg) in
  set_physmem (λ m, memcpy_data (memset m pa 0 (seg_size seg))
                      pa (seg_data seg) (seg_data_size seg)) st.

Definition init_segments (segs : list segment) (root : Z) (st : kstate) : kstate :=
  foldl (λ s seg, init_segment root seg s) st segs.

(** [process_setup(pid, program_name)], given the image the name refers
    to; [None] is a kernel panic.  [init_process] (not part of the sources)
    clears the saved registers. *)
Definition process_setup (i : nat) (pgm : program_image) (st : kstate)
    : option kstate :=
  let st0 := update_proc i (λ p, with_regs regs_zero (with_pid (Z.of_nat i) p)) st in
  let '(root, st1) := kalloc_pagetable st0 in
  let st2 := update_proc i (with_pagetable root) st1 in
  st3 ← setup_kernel_loop (pages_below PROC_START_ADDR) 0 root st2;
  st4 ← setup_segments (pgm_segments pgm) root st3;
  let st5 := init_segments (pgm_segments pgm) root st4 in
  let st6 := update_proc i (λ p, with_regs (with_rip (pgm_entry pgm) (regs p)) p) st5 in
  let stack_addr := MEMSIZE_VIRTUAL - PAGESIZE in
  let '(pa, st7) := kalloc PAGESIZE st6 in
  if bool_decide (pa = 0) then None
  else
    st8 ← vmiter_map root stack_addr pa (Z.lor (Z.lor PTE_W PTE_P) PTE_U) st7;
    Some (update_proc i
            (λ p, with_state P_RUNNABLE
                    (with_regs (with_rsp (stack_addr + PAGESIZE) (regs p)) p)) st8).

(** *** Where [process_setup] stops

    [process_setup] ends in a panic where [kalloc] or [vmiter::map] fails
    (lines 157, 172-174, 177-180, 199-201 and 203); what it has done up to
    there stays done.  The functions below follow the ones above step by
    step and give the state at that point, for a [process_setup] that is
    [None]. *)

Definition vmiter_map_stop (root va pa perm : Z) (st : kstate) : kstate :=
  (try_map root va pa perm st).2.

Fixpoint setup_kernel_loop_stop (n : nat) (va root : Z) (st : kstate) : kstate :=
  match n with
  | O => st
  | S n' =>
      match vmiter_map root va (kernel_pa va) (kernel_perm va) st with
      | Some st1 => setup_kernel_loop_stop n' (va + PAGESIZE) root st1
      | None => vmiter_map_stop root va (kernel_pa va) (kernel_perm va) st
      end
  end.

Fixpoint setup_segment_pages_stop (n : nat) (a root : Z) (seg : segment)
    (st : kstate) : kstate :=
  match n with
  | O => st
  | S n' =>
      let '(pa, st1) := kalloc PAGESIZE st in
      if bool_decide (pa = 0) then st1
      else
        let perm :=
          if seg_writable seg then Z.lor (Z.lor PTE_W PTE_P) PTE_U
          else Z.lor PTE_P PTE_U in
        match vmiter_map root a pa perm st1 with
        | Some st2 => setup_segment_pages_stop n' (a + PAGESIZE) root seg st2
        | None => vmiter_map_stop root a pa perm st1
        end
  end.

Fixpoint setup_segments_stop (segs : list segment) (root : Z) (st : kstate)
    : kstate :=
  match segs with
  | [] => st
  | seg :: rest =>
      let n := segment_page_count seg in
      let a := round_down (seg_va seg) PAGESIZE in
      match setup_segment_pages n a root seg st with
      | Some st1 => setup_segments_stop rest root st1
      | None => setup_segment_pages_stop n a root seg st
      end
  end.

Definition process_setup_stop (i : nat) (pgm : program_image) (st : kstate)
    : kstate :=
  let st0 := update_proc i (λ p, with_regs regs_zero (with_pid (Z.of_nat i) p)) st in
  let '(root, st1) := kalloc_pagetable st0 in
  let st2 := update_proc i (with_pagetable root) st1 in
  match setup_kernel_loop (pages_below PROC_START_ADDR) 0 root st2 with
  | None => setup_kernel_loop_stop (pages_below PROC_START_ADDR) 0 root st2
  | Some st3 =>
      match setup_segments (pgm_segments pgm) root st3 with
      | None => setup_segments_stop (pgm_segments pgm) root st3
      | Some st4 =>
          let st5 := init_segments (pgm_segments pgm) root st4 in
          let st6 :=
            update_proc i (λ p, with_regs (with_rip (pgm_entry pgm) (regs p)) p) st5 in
          let '(pa, st7) := kalloc PAGESIZE st6 in
          if bool_decide (pa = 0) then st7
          else vmiter_map_stop root (MEMSIZE_VIRTUAL - PAGESIZE) pa
                 (Z.lor (Z.lor PTE_W PTE_P) PTE_U) st7
      end
  end.

(** ** syscall_exit (lines 344-357) *)

(** Lines 346-350: free every user-accessible page except the console. *)
Fixpoint exit_loop (n : nat) (va root : Z) (st : kstate) : kstate :=
  match n with
  | O => st
  | S n' =>
      let t := tree_of st root in
      let st1 :=
        if vmiter_user t va && bool_decide (va ≠ CONSOLE_ADDR)
        then kfree (vmiter_pa t va) st else st in
      exit_loop n' (va + PAGESIZE) root st1
  end.

(** [syscall_exit(&ptable[i])] *)
Definition syscall_exit (i : nat) (st : kstate) : kstate :=
  let pt := pagetable (proc_at st i) in
  let st1 := exit_loop (pages_below MEMSIZE_VIRTUAL) 0 pt st in
  let st2 := foldl (λ s pa, kfree pa s) st1 (ptiter_pages (tree_of st1 pt)) in
  let st3 := kfree pt st2 in
  update_proc i (with_state P_FREE) st3.

(** ** syscall_fork (lines 364-428) *)

(** Lines 366-371: the lowest free slot from [i] on, 0 when there is
    none. *)
Fixpoint find_free_slot (n : nat) (i : nat) (st : kstate) : nat :=
  match n with
  | O => O
  | S n' =>
      if bool_decide (state (proc_at st i) = P_FREE) then i
      else find_free_slot n' (S i) st
  end.

(** One iteration of the loop of lines 380-421 at [va], for the child in
    slot [child]: [inl] is the state to go on with, [inr] the state in
    which fork returns -1. *)
Definition fork_page (child : nat) (va : Z) (st : kstate) : kstate + kstate :=
  let pit := tree_of st (pagetable (current_proc st)) in
  let croot := pagetable (proc_at st child) in
  let fail (s : kstate) : kstate + kstate := inr (syscall_exit child s) in
  if bool_decide (va < PROC_START_ADDR) then
    let '(r, st1) := try_map croot va (vmiter_pa pit va) (vmiter_perm pit va) st in
    if bool_decide (r ≠ 0) then fail st1 else inl st1
  else if vmiter_writable pit va && vmiter_user pit va then
    let '(pa, st1) := kalloc PAGESIZE st in
    if bool_decide (pa = 0) then fail st1
    else
      let st2 := set_physmem (λ m, memcpy m pa (vmiter_pa pit va) PAGESIZE) st1 in
      let '(r, st3) := try_map croot va pa (vmiter_perm pit va) st2 in
      if bool_decide (r ≠ 0) then fail st3 else inl st3
  else if negb (vmiter_writable pit va) && vmiter_user pit va then
    let '(r, st1) := try_map croot va (vmiter_pa pit va) (vmiter_perm pit va) st in
    if bool_decide (r ≠ 0) then fail st1
    else
      let pa := vmiter_pa (tree_of st1 (pagetable (current_proc st1))) va in
      if bool_decide (pa ≠ NO_PA)
      then inl (set_refcount pa (wrap_refcount (refcount st1 pa + 1)) st1)
      else inl st1
  else
    let '(r, st1) := try_map croot va (vmiter_pa pit va) (vmiter_perm pit va) st in
    if bool_decide (r ≠ 0) then fail st1 else inl st1.

Fixpoint fork_loop (n : nat) (va : Z) (child : nat) (st : kstate) : kstate + kstate :=
  match n with
  | O => inl st
  | S n' =>
      match fork_page child va st with
      | inl st1 => fork_loop n' (va + PAGESIZE) child st1
      | inr st1 => inr st1
      end
  end.

(** [syscall_fork()]: the [int] it returns and the state it leaves. *)
Definition syscall_fork (st : kstate) : Z * kstate :=
  let child := find_free_slot (NPROC - 1) 1 st in
  if bool_decide (child = O) then (-1, st)
  else
    let '(root, st1) := kalloc_pagetable st in
    let st2 := update_proc child (with_pagetable root) st1 in
    if bool_decide (root = 0) then (-1, st2)
    else
      match fork_loop (pages_below MEMSIZE_VIRTUAL) 0 child st2 with
      | inr st3 => (-1, st3)
      | inl st3 =>
          (Z.of_nat child,
           update_proc child
             (λ p, with_state P_RUNNABLE
                     (with_pid (Z.of_nat child)
                        (with_regs (with_rax 0 (regs (current_proc st3))) p))) st3)
      end.

(** ** syscall_page_alloc (lines 441-457) *)

Definition syscall_page_alloc (addr : Z) (st : kstate) : Z * kstate :=
  if bool_decide (addr < PROC_START_ADDR) || bool_decide (addr >= MEMSIZE_VIRTUAL)
     || bool_decide (addr mod 4096 ≠ 0)
  then (-1, st)
  else
    let root := pagetable (current_proc st) in
    let '(pa, st1) := kalloc PAGESIZE st in
    if bool_decide (pa = 0) then (-1, st1)
    else
      let '(r, st2) := try_map root addr pa (Z.lor (Z.lor PTE_P PTE_W) PTE_U) st1 in
      if bool_decide (r ≠ 0) then (-1, st2)
      else
        (0, set_physmem
              (λ m, memset m (vmiter_pa (tree_of st2 root) addr) 0 PAGESIZE) st2).

(** ** syscall (lines 292-339) *)

(** How a kernel entry ends: it returns a value to the calling process, it
    hands the processor to [schedule], or the kernel stops in [panic] or
    [user_panic]. *)
Inductive sysresult :=
  | SysReturn (v : Z) (st : kstate)
  | SysSchedule (st : kstate)
  | SysUserPanic (st : kstate)
  | SysPanic (st : kstate).

(** [syscall(regs)] *)
Definition syscall (r : regstate) (st : kstate) : sysresult :=
  let st := update_proc (current st) (with_regs r) st in
  let rax := reg_rax (regs (current_proc st)) in
  if bool_decide (rax = SYSCALL_PANIC) then SysUserPanic st
  else if bool_decide (rax = SYSCALL_GETPID) then
    SysReturn (to_uintptr (pid (current_proc st))) st
  else if bool_decide (rax = SYSCALL_YIELD) then
    SysSchedule (update_proc (current st) (λ p, with_regs (with_rax 0 (regs p)) p) st)
  else if bool_decide (rax = SYSCALL_PAGE_ALLOC) then
    let '(v, st1) := syscall_page_alloc (reg_rdi (regs (current_proc st))) st in
    SysReturn (to_uintptr v) st1
  else if bool_decide (rax = SYSCALL_FORK) then
    let '(v, st1) := syscall_fork st in
    SysReturn (to_uintptr v) st1
  else if bool_decide (rax = SYSCALL_EXIT) then
    SysSchedule (syscall_exit (current st) st)
  else SysPanic st.

(** ** Predicates used in the statements *)

(** [pa] is the address of a frame of physical memory. *)
Definition is_frame (pa : Z) : Prop :=
  0 ≤ pa < MEMSIZE_PHYSICAL ∧ pa mod PAGESIZE = 0.

(** The frame at [pa] may be handed out by the allocator. *)
Definition frame_free (st : kstate) (pa : Z) : Prop :=
  allocatable_physical_address pa = true ∧ refcount st pa = 0.

(** The frame table is the array [physpages[NPAGES]]. *)
Definition frame_table_ok (st : kstate) : Prop :=
  length (physpages st) = NPAGES.

(** What a successful [kalloc] does to the state: refcount 0 -> 1 and the
    frame filled with [0xCC]. *)
Definition allocated_at (pa : Z) (st st' : kstate) : Prop :=
  refcount st' pa = 1
  ∧ (∀ pa', is_frame pa' → pa' ≠ pa → refcount st' pa' = refcount st pa')
  ∧ (∀ x, pa ≤ x < pa + PAGESIZE → physmem st' x = 0xCC)
  ∧ (∀ x, ¬ (pa ≤ x < pa + PAGESIZE) → physmem st' x = physmem st x)
  ∧ ptable st' = ptable st ∧ current st' = current st
  ∧ pagetables st' = pagetables st.

(** The raw leaf slot of a page. *)
Definition leaf_slot (t : pagetable_tree) (va : Z) : Z :=
  default 0 (pt_leaves t !! (va / PAGESIZE)).

(** What a step may change in the page tables: only the tree below
    [root], and of its leaves only the slot of [va]. *)
Definition only_leaf_at (root va : Z) (st st1 : kstate) : Prop :=
  ptable st1 = ptable st
  ∧ current st1 = current st
  ∧ (∀ root', root' ≠ root → tree_of st1 root' = tree_of st root')
  ∧ (∀ va', va' / PAGESIZE ≠ va / PAGESIZE →
       leaf_slot (tree_of st1 root) va' = leaf_slot (tree_of st root) va').

End Kernel.

(** ** schedule, run, exception (lines 222-278 and 464-502) *)

Section Scheduler.
Context `{M : machine}.

(** The state a system call leaves, however it ends. *)
Definition sysresult_state (r : sysresult) : kstate :=
  match r with
  | SysReturn _ st | SysSchedule st | SysUserPanic st | SysPanic st => st
  end.

(** How a kernel entry that does not return to its caller ends: a process
    is resumed in user mode ([exception_return]), the kernel spins in
    [schedule] without a process to run, or it stops in [panic] or a failed
    assertion. *)
Inductive kresult :=
  | KRun (st : kstate)
  | KSpin (st : kstate)
  | KPanic (st : kstate).

Definition kresult_state (r : kresult) : kstate :=
  match r with KRun st | KSpin st | KPanic st => st end.

(** [run(&ptable[i])]: the assertion, then [current = p] and the return to
    user mode. *)
Definition run (i : nat) (st : kstate) : kresult :=
  if bool_decide (state (proc_at st i) = P_RUNNABLE)
  then KRun (set_current i st) else KPanic st.

(** The loop of [schedule] for [spins] iterations from [pid]: the slot it
    runs, or [None] when it is still spinning.  [%] on [int] truncates, as
    [Z.rem] does.  Nothing the loop does changes the table it reads. *)
Fixpoint schedule_loop (spins : nat) (i : Z) (st : kstate) : option nat :=
  match spins with
  | O => None
  | S n =>
      let i' := Z.rem (i + 1) (Z.of_nat NPROC) in
      if bool_decide (state (proc_at st (Z.to_nat i')) = P_RUNNABLE)
      then Some (Z.to_nat i')
      else schedule_loop n i' st
  end.

(** [schedule()], cut after [spins] iterations. *)
Definition schedule_spins (spins : nat) (st : kstate) : kresult :=
  match schedule_loop spins (pid (current_proc st)) st with
  | Some i => run i st
  | None => KSpin st
  end.

(** [schedule()]: one round over the table decides (lemma
    [schedule_loop_round] below: more iterations find nothing else). *)
Definition schedule (st : kstate) : kresult := schedule_spins NPROC st.

(** ** kernel_start (lines 51-92) *)

(** Modelled from the spec: [program_image(name)] for a name the boot image
    does not hold is empty, without segments. *)
Definition empty_image : program_image := ProgramImage 0 [].

(** Lines 77-80: every descriptor gets its index as pid and is marked
    free. *)
Definition init_ptable (st : kstate) : kstate :=
  set_ptable (imap (λ i p, with_state P_FREE (with_pid (Z.of_nat i) p))) st.

(** Lines 84-87: the four default programs, one after the other; a panic
    in one ends the boot. *)
Definition setup_defaults (image : string → option program_image) (st : kstate)
    : option kstate :=
  st1 ← process_setup 1 (default empty_image (image "allocator")) st;
  st2 ← process_setup 2 (default empty_image (image "allocator2")) st1;
  st3 ← process_setup 3 (default empty_image (image "allocator3")) st2;
  process_setup 4 (default empty_image (image "allocator4")) st3.

(** The state in which that panic stops the kernel: the programs before the
    failing one are loaded. *)
Definition setup_defaults_stop (image : string → option program_image)
    (st : kstate) : kstate :=
  let pgm1 := default empty_image (image "allocator") in
  let pgm2 := default empty_image (image "allocator2") in
  let pgm3 := default empty_image (image "allocator3") in
  let pgm4 := default empty_image (image "allocator4") in
  match process_setup 1 pgm1 st with
  | None => process_setup_stop 1 pgm1 st
  | Some st1 =>
      match process_setup 2 pgm2 st1 with
      | None => process_setup_stop 2 pgm2 st1
      | Some st2 =>
          match process_setup 3 pgm3 st2 with
          | None => process_setup_stop 3 pgm3 st2
          | Some st3 => process_setup_stop 4 pgm4 st3
          end
      end
  end.

(** The programs [kernel_start] loads, each with its slot (lines
    81-88). *)
Definition boot_programs (command : option string)
    (image : string → option program_image) : list (nat * program_image) :=
  let defaults :=
    [(1%nat, default empty_image (image "allocator"));
     (2%nat, default empty_image (image "allocator2"));
     (3%nat, default empty_image (image "allocator3"));
     (4%nat, default empty_image (image "allocator4"))] in
  match command with
  | Some c =>
      match image c with
      | Some pgm => [(1%nat, pgm)]
      | None => defaults
      end
  | None => defaults
  end.

(** Lines 81-88 as one loop over [boot_programs]. *)
Fixpoint load_all (l : list (nat * program_image)) (st : kstate) : option kstate :=
  match l with
  | [] => Some st
  | (i, pgm) :: rest => st1 ← process_setup i pgm st; load_all rest st1
  end.

(** [kernel_start(command)] on the state the hardware initialization
    leaves, with the program images the kernel was built with: the value of
    [ticks] and how the boot ends.  The kernel page table it sets up first
    is [kernel_perm]. *)
Definition kernel_start (command : option string)
    (image : string → option program_image) (st : kstate) : Z * kresult :=
  let st0 := init_ptable st in
  let loaded :=
    match command with
    | Some c =>
        match image c with
        | Some pgm => process_setup 1 pgm st0
        | None => setup_defaults image st0
        end
    | None => setup_defaults image st0
    end in
  let stopped :=
    match command with
    | Some c =>
        match image c with
        | Some pgm => process_setup_stop 1 pgm st0
        | None => setup_defaults_stop image st0
        end
    | None => setup_defaults_stop image st0
    end in
  (1, match loaded with
      | Some st1 => run 1 st1
      | None => KPanic stopped
      end).

(** Slot [k] holds the program [pgm], ready to run from its entry point
    on an empty stack. *)
Definition loaded_as (k : nat) (pgm : program_image) (st : kstate) : Prop :=
  state (proc_at st k) = P_RUNNABLE
  ∧ pid (proc_at st k) = Z.of_nat k
  ∧ regs (proc_at st k) = Regstate 0 0 (pgm_entry pgm) MEMSIZE_VIRTUAL.

(** The interrupt numbers come from a header that is not part of the
    sources. *)
Context (INT_PF INT_IRQ IRQ_TIMER : Z).

(** [exception(regs)], given the interrupt number and the error code that
    come with the registers, and the counter [ticks] (an unsigned long): the
    new value of [ticks] and how the entry ends.  The console output and the
    keyboard poll are left out. *)
Definition exception (r : regstate) (reg_intno reg_errcode : Z) (ticks : Z)
    (st : kstate) : Z * kresult :=
  let st := update_proc (current st) (with_regs r) st in
  if bool_decide (reg_intno = INT_IRQ + IRQ_TIMER) then
    ((ticks + 1) mod 2 ^ 64, schedule st)
  else if bool_decide (reg_intno = INT_PF) then
    if bool_decide (Z.land reg_errcode PTE_U = 0) then (ticks, KPanic st)
    else
      let st1 := update_proc (current st) (with_state P_FAULTED) st in
      (ticks,
       if bool_decide (state (current_proc st1) = P_RUNNABLE)
       then run (current st1) st1 else schedule st1)
  else (ticks, KPanic st).

End Scheduler.

(** ** memshow (lines 510-536) *)

(** [HZ], the timer frequency (line 30). *)
Definition HZ : Z := 100.

(** The two [static] variables of [memshow]: an [unsigned] and an [int]. *)
Record memshow_state := MemshowState { last_ticks : Z; showing : Z }.

Section Memshow.
Context `{M : machine}.

(** A process [memshow] can show: live, with a page table. *)
Definition can_show (st : kstate) (j : nat) : Prop :=
  state (proc_at st j) ≠ P_FREE ∧ pagetable (proc_at st j) ≠ 0.

(** Lines 521-528: the search for a process to show, over [n] slots from
    [showing] on: the process found, if any, and where [showing] stops. *)
Fixpoint memshow_search (n : nat) (showing : Z) (st : kstate) : option nat * Z :=
  match n with
  | O => (None, showing)
  | S n' =>
      let p := proc_at st (Z.to_nat showing) in
      if bool_decide (state p ≠ P_FREE) && bool_decide (pagetable p ≠ 0)
      then (Some (Z.to_nat showing), showing)
      else memshow_search n' (Z.rem (showing + 1) (Z.of_nat NPROC)) st
  end.

(** [memshow()], given the value of [ticks] (an unsigned long): the process
    handed to [console_memviewer], [None] for [nullptr], and the statics it
    leaves.  What is drawn on the console is left out. *)
Definition memshow (ticks : Z) (ms : memshow_state) (st : kstate)
    : option nat * memshow_state :=
  let ms1 :=
    if bool_decide (last_ticks ms = 0)
       || bool_decide ((ticks - last_ticks ms) mod 2 ^ 64 >= HZ / 2)
    then MemshowState (ticks mod 2 ^ 32) (Z.rem (showing ms + 1) (Z.of_nat NPROC))
    else ms in
  let '(p, sh) := memshow_search NPROC (showing ms1) st in
  (p, MemshowState (last_ticks ms1) sh).

End Memshow.

(** ** Reference accounting and the rules of a page table

    The notions the statements about fork and exit use: what an entry
    means, which frames a teardown releases, and a refcount going up or down
    by one. *)

Section Accounting.
Context `{M : machine}.

(** The address, the permissions and the user bit of a leaf entry, as the
    iterator reports them. *)
Definition entry_pa (e va : Z) : Z :=
  if pte_present e then Z.land e PTE_PAMASK + Z.land va (PAGESIZE - 1) else NO_PA.
Definition entry_perm (e : Z) : Z :=
  if pte_present e then Z.land e (PAGESIZE - 1) else 0.
Definition entry_user (e : Z) : bool :=
  Z.land (entry_perm e) (Z.lor PTE_P PTE_U) =? Z.lor PTE_P PTE_U.

(** The frame the loop of [syscall_exit] frees at [va], if any. *)
Definition freed_frame (e va : Z) : option Z :=
  if entry_user e && bool_decide (va ≠ CONSOLE_ADDR) then Some (entry_pa e va)
  else None.

(** The frames the loop of [syscall_exit] frees over the pages [vas]. *)
Definition user_frames (t : pagetable_tree) (vas : list Z) : list Z :=
  omap (λ va, freed_frame (pte t va) va) vas.

(** The [n] pages a walk visits from [va] on. *)
Definition walk_pages (n : nat) (va : Z) : list Z :=
  (λ k, va + Z.of_nat k * PAGESIZE) <$> seq 0 n.

(** The refcount of the frame at [pa] changed by [d], in the frame table
    [l]; and the same for a list of frames. *)
Definition bump (d pa : Z) (l : list Z) : list Z :=
  alter (λ x, (x + d) mod 2 ^ refcount_bits) (frame_index pa) l.
Definition bumps (d : Z) (pas : list Z) (l : list Z) : list Z :=
  foldr (bump d) l pas.

(** Every refcount fits the field. *)
Definition refcounts_ok (st : kstate) : Prop :=
  Forall (λ x, 0 ≤ x < 2 ^ refcount_bits) (physpages st).

(** In a tree the kernel built, a leaf is written only below a complete
    path. *)
Definition tree_ok (t : pagetable_tree) : Prop :=
  ∀ va, has_path t va = true ∨ leaf_slot t va = 0.

(** What the kernel keeps true of a process's page table: below
    [PROC_START_ADDR] only the console page is user-accessible, and no
    user-accessible page is mapped to physical address 0. *)
Definition kernel_range_private (t : pagetable_tree) : Prop :=
  ∀ va, va mod PAGESIZE = 0 → va < PROC_START_ADDR → va ≠ CONSOLE_ADDR →
        vmiter_user t va = false.
Definition user_pages_nonnull (t : pagetable_tree) : Prop :=
  ∀ va, va mod PAGESIZE = 0 → vmiter_user t va = true → vmiter_pa t va ≠ 0.

(** The two as a check over the leaves of a tree. *)
Definition leaf_ok (ke : Z * Z) : bool :=
  let va := ke.1 * PAGESIZE in
  negb (entry_user ke.2)
  || (bool_decide (PROC_START_ADDR ≤ va ∨ va = CONSOLE_ADDR)
      && bool_decide (entry_pa ke.2 va ≠ 0)).
Definition leaves_ok (t : pagetable_tree) : bool :=
  forallb leaf_ok (map_to_list (pt_leaves t)).

(** [tree_ok] as a check over the leaves of a tree. *)
Definition leaf_rooted (t : pagetable_tree) (ke : Z * Z) : bool :=
  (ke.2 =? 0) || has_path t (ke.1 * PAGESIZE).
Definition leaves_rooted (t : pagetable_tree) : bool :=
  forallb (leaf_rooted t) (map_to_list (pt_leaves t)).

(** The same of one leaf entry [e] at the page [va]. *)
Definition leaf_safe (e va : Z) : Prop :=
  entry_user e = true →
  (PROC_START_ADDR ≤ va ∨ va = CONSOLE_ADDR) ∧ entry_pa e va ≠ 0.

(** The three rules together: a well-formed table that keeps the kernel
    range private and has no user page on physical address 0.  They say
    what the entries of one table are; they say nothing of which other
    table or page shares a frame with it. *)
Definition pagetable_safe (t : pagetable_tree) : Prop :=
  tree_ok t ∧ kernel_range_private t ∧ user_pages_nonnull t.

(** A step that takes frames for the table below [root] alone: frames in
    use keep their refcount, the other tables are untouched and the frame
    table keeps its size. *)
Definition keeps_others (root : Z) (s s' : kstate) : Prop :=
  (∀ f, refcount s f ≠ 0 → refcount s' f = refcount s f)
  ∧ (∀ r, r ≠ root → tree_of s' r = tree_of s r)
  ∧ length (physpages s') = length (physpages s).

(** ** Page tables and the frames they live in

    A page table is kept here by its entries, apart from the bytes of
    [physmem]; on the machine it is the contents of its frames.  The two
    agree as long as nothing but the page-table code writes to a frame that
    holds a table.  [kalloc] hands out frames whose refcount is 0, so the
    tables are out of its reach while their frames are in use; the notions
    below say so. *)

(** The frames that hold the page table below [root]: the root and the
    interior nodes. *)
Definition table_frames (st : kstate) (root : Z) : list Z :=
  root :: ptiter_pages (tree_of st root).

(** ... are all in use. *)
Definition tables_in_use (st : kstate) (root : Z) : Prop :=
  ∀ f, f ∈ table_frames st root → refcount st f ≠ 0.

(** [tables_in_use] as a check over the frames of the table. *)
Definition tables_in_use_check (st : kstate) (root : Z) : bool :=
  forallb (λ f, negb (bool_decide (refcount st f = 0))) (table_frames st root).

(** No byte of a frame that is in use in [st] has another value in
    [st']. *)
Definition frames_in_use_kept (st st' : kstate) : Prop :=
  ∀ f x, f mod PAGESIZE = 0 → refcount st f ≠ 0 → f ≤ x < f + PAGESIZE →
         physmem st' x = physmem st x.

(** A step that does nothing but take free frames, for the table below
    [root] or for pages: besides [keeps_others], a free frame stays free or
    gets refcount 1, no byte of a frame in use is written, and an interior
    node the table has gained is a frame that was free. *)
Definition takes_frames (root : Z) (s s' : kstate) : Prop :=
  keeps_others root s s'
  ∧ (∀ f, refcount s f = 0 → refcount s' f = 0 ∨ refcount s' f = 1)
  ∧ frames_in_use_kept s s'
  ∧ (∀ f, f ∈ ptiter_pages (tree_of s' root) →
          f ∈ ptiter_pages (tree_of s root)
          ∨ (is_frame f ∧ refcount s f = 0 ∧ refcount s' f = 1)).

(** The page table below [root] is in frames that were free in [st0] and
    are in use in [s]. *)
Definition tables_fresh (st0 s : kstate) (root : Z) : Prop :=
  ∀ f, f ∈ table_frames s root →
       is_frame f ∧ refcount st0 f = 0 ∧ refcount s f ≠ 0.

(** So are its user pages at or above [PROC_START_ADDR], and none of them
    is on a frame that holds a node of the table. *)
Definition user_frames_fresh (st0 s : kstate) (root : Z) : Prop :=
  ∀ va, va mod PAGESIZE = 0 → PROC_START_ADDR ≤ va →
        pte_present (leaf_slot (tree_of s root) va) = true →
        let pa := entry_pa (leaf_slot (tree_of s root) va) va in
        is_frame pa ∧ refcount st0 pa = 0 ∧ refcount s pa ≠ 0
        ∧ pa ∉ table_frames s root.

(** The page table below [root] as it is being built from the state [b]
    on, up to [s], by steps that take free frames: the frames in use in [b]
    have kept their refcount and their bytes, and the other tables their
    entries; the table is well formed, and it and its user pages are in
    frames taken since [b]. *)
Definition builds_table (b s : kstate) (root : Z) : Prop :=
  (∀ f, refcount b f ≠ 0 → refcount s f = refcount b f)
  ∧ length (physpages s) = length (physpages b)
  ∧ frames_in_use_kept b s
  ∧ (∀ r, r ≠ root → tree_of s r = tree_of b r)
  ∧ tree_ok (tree_of s root)
  ∧ tables_fresh b s root
  ∧ user_frames_fresh b s root.

(** The pages of the table below [root] at or above [PROC_START_ADDR] are
    on frames in use. *)
Definition user_frames_in_use (st : kstate) (root : Z) : Prop :=
  ∀ va, va mod PAGESIZE = 0 → PROC_START_ADDR ≤ va →
        pte_present (leaf_slot (tree_of st root) va) = true →
        refcount st (entry_pa (leaf_slot (tree_of st root) va) va) ≠ 0.

(** Every live process has its page table and its pages in frames in use,
    and the table keeps the three rules. *)
Definition processes_safe (st : kstate) : Prop :=
  ∀ i, state (proc_at st i) ≠ P_FREE →
    tables_in_use st (pagetable (proc_at st i))
    ∧ user_frames_in_use st (pagetable (proc_at st i))
    ∧ pagetable_safe (tree_of st (pagetable (proc_at st i))).

(** No frame that holds a node of the page table of a live process is
    mapped at or above [PROC_START_ADDR] by a live process, or holds a node
    of the table of another one. *)
Definition tables_private (st : kstate) : Prop :=
  ∀ i j, state (proc_at st i) ≠ P_FREE → state (proc_at st j) ≠ P_FREE →
    (∀ va, va mod PAGESIZE = 0 → PROC_START_ADDR ≤ va →
           pte_present (leaf_slot (tree_of st (pagetable (proc_at st i))) va) = true →
           entry_pa (leaf_slot (tree_of st (pagetable (proc_at st i))) va) va
           ∉ table_frames st (pagetable (proc_at st j)))
    ∧ (i ≠ j → ∀ f, f ∈ table_frames st (pagetable (proc_at st i)) →
                    f ∉ table_frames st (pagetable (proc_at st j))).

(** ** The loader and the frames of a segment *)

(** The bytes [init_segment] writes for [seg] (lines 188-189): from the
    physical address of its first byte, as many as the larger of [size] and
    [data_size]. *)
Definition loader_writes (t : pagetable_tree) (seg : segment) (x : Z) : bool :=
  in_range (vmiter_pa t (seg_va seg)) (Z.max (seg_size seg) (seg_data_size seg)) x.

(** The pages of [seg] are mapped to consecutive frames, and its
    initialized data is no longer than the segment: then the bytes the
    loader writes are the bytes of the segment. *)
Definition segment_consecutive (t : pagetable_tree) (seg : segment) : bool :=
  let a0 := round_down (seg_va seg) PAGESIZE in
  bool_decide (seg_data_size seg ≤ seg_size seg)
  && forallb (λ j, bool_decide (vmiter_present t (a0 + Z.of_nat j * PAGESIZE) = true
                                ∧ vmiter_pa t (a0 + Z.of_nat j * PAGESIZE)
                                  = vmiter_pa t a0 + Z.of_nat j * PAGESIZE))
       (seq 0 (segment_page_count seg)).

(** A segment in the part of the address space that is the program's: at
    or above [PROC_START_ADDR] and below the stack page. *)
Definition segment_in_range (seg : segment) : Prop :=
  PROC_START_ADDR ≤ seg_va seg ∧ 0 ≤ seg_size seg
  ∧ seg_va seg + seg_size seg ≤ MEMSIZE_VIRTUAL - PAGESIZE.

(** ** Fork and the width of the refcount *)

(** The pages fork shares with the child (lines 401-413): user-accessible,
    not writable, at or above [PROC_START_ADDR]. *)
Definition shared_page (p : pagetable_tree) (va : Z) : bool :=
  bool_decide (PROC_START_ADDR ≤ va) && negb (vmiter_writable p va) && vmiter_user p va.

(** How many of the pages [vas] fork shares. *)
Definition fork_shares (p : pagetable_tree) (vas : list Z) : Z :=
  Z.of_nat (length (filter (λ va, shared_page p va = true) vas)).

(** Every refcount can go up [k] more times, and once more from 0, without
    leaving its field. *)
Definition refcounts_fit (st : kstate) (k : Z) : Prop :=
  ∀ f, 0 ≤ refcount st f
       ∧ refcount st f + k + (if bool_decide (refcount st f = 0) then 1 else 0)
         < 2 ^ refcount_bits.

(** No refcount can wrap around during a fork by the current process: each
    has room for all the pages the walk shares. *)
Definition fork_fits (st : kstate) : Prop :=
  refcounts_fit st
    (fork_shares (tree_of st (pagetable (current_proc st)))
       (walk_pages (pages_below MEMSIZE_VIRTUAL) 0)).

(** What a stretch of fork's walk for the child table below [croot] does
    to the frames: no refcount goes down, no byte of a frame in use is
    written, the other tables keep their entries, and a node the child's
    table has gained is a frame that was free. *)
Definition fork_grows (croot : Z) (s s' : kstate) : Prop :=
  length (physpages s') = length (physpages s)
  ∧ (∀ f, refcount s f ≤ refcount s' f)
  ∧ frames_in_use_kept s s'
  ∧ (∀ r, r ≠ croot → tree_of s' r = tree_of s r)
  ∧ (∀ f, f ∈ table_frames s' croot →
          f ∈ table_frames s croot
          ∨ (is_frame f ∧ refcount s f = 0 ∧ refcount s' f ≠ 0)).

(** The state [s] that fork's walk has reached from [st], with room left
    in every refcount for [k] more shared pages. *)
Definition fork_walk (croot : Z) (st s : kstate) (k : Z) : Prop :=
  fork_grows croot st s ∧ refcounts_fit s k.

(** [refcounts_fit] as a check over the frame table. *)
Definition refcounts_fit_check (st : kstate) (k : Z) : bool :=
  bool_decide (0 ≤ k ∧ k + 1 < 2 ^ refcount_bits)
  && forallb (λ r, bool_decide (0 ≤ r ∧ r + k + (if bool_decide (r = 0) then 1 else 0)
                                        < 2 ^ refcount_bits))
       (physpages st).

(** The pages fork copies for the child (lines 389-400): writable and
    user-accessible, at or above [PROC_START_ADDR]. *)
Definition copied_page (p : pagetable_tree) (va : Z) : bool :=
  bool_decide (PROC_START_ADDR ≤ va) && vmiter_writable p va && vmiter_user p va.

(** What fork leaves in the child's entry [e1] for the page [va] of a
    parent with the table [p] (lines 380-421): the parent's permissions;
    for a writable user page at or above [PROC_START_ADDR] a frame other
    than 0 that [free] holds of, the parent's physical address elsewhere. *)
Definition fork_copies (free : Z → Prop) (p : pagetable_tree) (va e1 : Z) : Prop :=
  entry_perm e1 = vmiter_perm p va
  ∧ if copied_page p va
    then is_frame (entry_pa e1 va) ∧ entry_pa e1 va ≠ 0 ∧ free (entry_pa e1 va)
    else entry_pa e1 va = vmiter_pa p va.

End Accounting.

(** ** A concrete machine and concrete runs

    The layout of the diagram at the top of kernel.cc: kernel code and data
    from 0x40000, the kernel stack below 0x80000, the I/O hole from 0xA0000
    to 0x100000, processes from 0x100000; 2 MiB of physical memory, 3 MiB
    of virtual address space per process, 16 descriptors and an 8-bit
    refcount.  The kernel image is taken to end at 0x50000. *)

Definition weensy_allocatable (pa : Z) : bool :=
  negb ((pa <? PAGESIZE) || ((0xA0000 <=? pa) && (pa <? 0x100000)))
  && ((pa <? 0x40000) || (0x50000 <=? pa))
  && ((pa <? 0x80000 - PAGESIZE) || (0x80000 <=? pa))
  && (pa <? 0x200000).

Definition weensy : machine :=
  {| PROC_START_ADDR := 0x100000;
     MEMSIZE_PHYSICAL := 0x200000;
     MEMSIZE_VIRTUAL := 0x300000;
     CONSOLE_ADDR := 0xB8000;
     NPROC := 16;
     refcount_bits := 8;
     allocatable_physical_address := weensy_allocatable |}.

Section Runs.
Local Existing Instance weensy.

(** The state [kernel_start] sets up before it loads programs: every
    descriptor free with its index as pid, every frame unused.  [current]
    already names process 1, the one [kernel_start] runs first. *)
Definition boot : kstate :=
  {| ptable := (λ i, Proc (Z.of_nat i) P_FREE regs_zero 0) <$> seq 0 NPROC;
     current := 1;
     physpages := replicate NPAGES 0;
     physmem := λ _, 0;
     pagetables := ∅ |}.

(** A program with one read-only page of code at [PROC_START_ADDR]. *)
Definition pgm_small : program_image :=
  {| pgm_entry := 0x100000;
     pgm_segments := [Segment 0x100000 0x800 [0x90; 0x90; 0xC3] 3 false] |}.

(** [boot], then [process_setup(1, ...)] with [pgm_small]. *)
Definition booted1 : kstate := default boot (process_setup 1 pgm_small boot).

(** ... then [process_setup(2, ...)] as well. *)
Definition booted2 : kstate := default boot (process_setup 2 pgm_small booted1).

(** [n] calls of [PAGE_ALLOC] by the current process at successive pages
    from [addr] on. *)
Fixpoint page_alloc_many (n : nat) (addr : Z) (st : kstate) : kstate :=
  match n with
  | O => st
  | S n' => page_alloc_many n' (addr + PAGESIZE) (syscall_page_alloc addr st).2
  end.

(** Number of frames [kalloc] can still hand out. *)
Definition free_frames (st : kstate) : nat :=
  length (filter (λ i, allocatable_physical_address (Z.of_nat i * PAGESIZE) = true
                        ∧ refcount st (Z.of_nat i * PAGESIZE) = 0)
            (seq 0 NPAGES)).

(** Process 2 allocates pages until exactly five frames are left, then
    process 1 runs again. *)
Definition nearly_full : kstate :=
  set_current 1 (page_alloc_many 379 0x101000 (set_current 2 booted2)).

(** A program of three writable segments without initialized data, laid
    out so that each starts on the frame behind a reserved range: 59 pages
    (frames 0x5000 to 0x3F000, up to the kernel image), 47 pages (frames
    0x50000 to 0x7E000, up to the kernel stack) and 33 pages (frames 0x80000
    to 0x9F000 and, behind the I/O area, 0x100000). *)
Definition pgm_spread : program_image :=
  {| pgm_entry := 0x100000;
     pgm_segments := [Segment 0x100000 0x3B000 [] 0 true;
                      Segment 0x13B000 0x2F000 [] 0 true;
                      Segment 0x16A000 0x21000 [] 0 true] |}.

Definition booted_spread : kstate :=
  default boot (process_setup 1 pgm_spread boot).

(** As [nearly_full], with one page more allocated: four frames are
    left. *)
Definition nearly_full4 : kstate :=
  set_current 1 (page_alloc_many 380 0x101000 (set_current 2 booted2)).

(** [booted1] with every descriptor in use. *)
Definition crowded : kstate :=
  set_ptable (fmap (with_state P_RUNNABLE)) booted1.

(** [booted1] at the start of the walk of a fork by process 1: the child 2
    has its empty page table. *)
Definition fork_ready : kstate :=
  update_proc 2 (with_pagetable (kalloc_pagetable booted1).1)
    (kalloc_pagetable booted1).2.

(** The state of that fork when its walk arrives at 0x101000: the loop of
    lines 380-421 has done the 257 pages below, the kernel range and the
    code page, so the child has the three tables over the low 2 MiB. *)
Definition fork_walked : kstate :=
  match fork_loop 257 0 2 fork_ready with inl s | inr s => s end.

(** [booted1] with every frame in use. *)
Definition full : kstate :=
  set_physpages (λ l, replicate (length l) 1) booted1.

(** The images of a boot: every name loads [pgm_small]. *)
Definition images (name : string) : option program_image := Some pgm_small.

End Runs.

(** * Properties *)

Section Allocator.
Context `{M : machine}.
Hypothesis wf : machine_wf = true.

Lemma wf_facts :
  PROC_START_ADDR mod PAGESIZE = 0 ∧ MEMSIZE_PHYSICAL mod PAGESIZE = 0
  ∧ MEMSIZE_VIRTUAL mod PAGESIZE = 0 ∧ CONSOLE_ADDR mod PAGESIZE = 0
  ∧ 0 < CONSOLE_ADDR < PROC_START_ADDR ∧ PROC_START_ADDR < MEMSIZE_VIRTUAL
  ∧ 0 < MEMSIZE_PHYSICAL ∧ MEMSIZE_VIRTUAL < 2 ^ 47 ∧ MEMSIZE_PHYSICAL < 2 ^ 47
  ∧ 0 < refcount_bits ∧ (1 < NPROC)%nat.
Proof.
  pose proof wf as H. unfold machine_wf in H.
  repeat (apply andb_prop in H; destruct H as [H ?]).
  repeat match goal with
         | h : bool_decide _ = true |- _ => apply bool_decide_eq_true in h
         end.
  tauto.
Qed.

Lemma wrap_refcount_1 : wrap_refcount 1 = 1.
Proof.
  destruct wf_facts as (_ & _ & _ & _ & _ & _ & _ & _ & _ & Hb & _).
  unfold wrap_refcount. apply Z.mod_small.
  assert (2 ^ 1 ≤ 2 ^ refcount_bits) by (apply Z.pow_le_mono_r; lia). lia.
Qed.

Lemma frame_index_lt pa :
  is_frame pa → (frame_index pa < NPAGES)%nat.
Proof.
  intros [[H0 H1] _]. unfold frame_index, NPAGES, PAGESIZE in *.
  destruct wf_facts as (_ & Hm & _). unfold PAGESIZE in Hm.
  apply Z2Nat.inj_lt; [apply Z.div_pos; lia | apply Z.div_pos; lia |].
  apply Z.div_lt_upper_bound; [lia|].
  rewrite (Z.div_mod MEMSIZE_PHYSICAL 4096) in H1 by lia. lia.
Qed.

Lemma frame_index_inj pa pa' :
  0 ≤ pa → 0 ≤ pa' → pa mod PAGESIZE = 0 → pa' mod PAGESIZE = 0 →
  frame_index pa = frame_index pa' → pa = pa'.
Proof.
  unfold frame_index, PAGESIZE. intros H0 H0' Hm Hm' He.
  apply Z2Nat.inj in He; [| apply Z.div_pos; lia | apply Z.div_pos; lia].
  rewrite (Z.div_mod pa 4096), (Z.div_mod pa' 4096) by lia. lia.
Qed.

Lemma frame_tables_differ (st st' : kstate) pa :
  refcount st' pa ≠ refcount st pa → physpages st' ≠ physpages st.
Proof. intros Hr H. apply Hr. unfold refcount. by rewrite H. Qed.

Lemma refcount_set_refcount_eq st pa v :
  (frame_index pa < length (physpages st))%nat →
  refcount (set_refcount pa v st) pa = v.
Proof.
  intros H. unfold refcount, set_refcount, set_physpages. simpl.
  by rewrite list_lookup_insert_eq.
Qed.

Lemma refcount_set_refcount_ne st pa pa' v :
  frame_index pa ≠ frame_index pa' →
  refcount (set_refcount pa v st) pa' = refcount st pa'.
Proof.
  intros H. unfold refcount, set_refcount, set_physpages. simpl.
  by rewrite list_lookup_insert_ne.
Qed.

(** The scan either stops at the first free frame it meets and allocates
    it, or meets none and leaves the state alone. *)
Lemma kalloc_scan_spec n pa0 st :
  (∃ k : nat, (k < n)%nat
     ∧ frame_free st (pa0 + Z.of_nat k * PAGESIZE)
     ∧ (∀ j : nat, (j < k)%nat → ¬ frame_free st (pa0 + Z.of_nat j * PAGESIZE))
     ∧ kalloc_scan n pa0 st =
         (pa0 + Z.of_nat k * PAGESIZE,
          set_physmem (λ m, memset m (pa0 + Z.of_nat k * PAGESIZE) 0xCC PAGESIZE)
            (set_refcount (pa0 + Z.of_nat k * PAGESIZE) (wrap_refcount 1) st)))
  ∨ ((∀ j : nat, (j < n)%nat → ¬ frame_free st (pa0 + Z.of_nat j * PAGESIZE))
     ∧ kalloc_scan n pa0 st = (0, st)).
Proof.
  revert pa0. induction n as [|n IH]; intros pa0; simpl.
  - right. split; [intros j Hj; lia | done].
  - destruct (allocatable_physical_address pa0) eqn:Ha; simpl.
    + case_bool_decide as Hr.
      * left. exists 0%nat. rewrite Z.mul_0_l, Z.add_0_r.
        split; [lia|]. split; [by split|]. split; [intros j Hj; lia|].
        by rewrite Hr.
      * destruct (IH (pa0 + PAGESIZE)) as [(k & Hk & Hf & Hlow & He) | [Hnone He]].
        -- left. exists (S k).
           replace (pa0 + Z.of_nat (S k) * PAGESIZE)
             with (pa0 + PAGESIZE + Z.of_nat k * PAGESIZE) by lia.
           split; [lia|]. split; [done|]. split; [|done].
           intros [|j] Hj.
           ++ rewrite Z.mul_0_l, Z.add_0_r. intros [_ ?]. done.
           ++ replace (pa0 + Z.of_nat (S j) * PAGESIZE)
                with (pa0 + PAGESIZE + Z.of_nat j * PAGESIZE) by lia.
              apply Hlow. lia.
        -- right. split; [|done]. intros [|j] Hj.
           ++ rewrite Z.mul_0_l, Z.add_0_r. intros [_ ?]. done.
           ++ replace (pa0 + Z.of_nat (S j) * PAGESIZE)
                with (pa0 + PAGESIZE + Z.of_nat j * PAGESIZE) by lia.
              apply Hnone. lia.
    + destruct (IH (pa0 + PAGESIZE)) as [(k & Hk & Hf & Hlow & He) | [Hnone He]].
      * left. exists (S k).
        replace (pa0 + Z.of_nat (S k) * PAGESIZE)
          with (pa0 + PAGESIZE + Z.of_nat k * PAGESIZE) by lia.
        split; [lia|]. split; [done|]. split; [|done].
        intros [|j] Hj.
        -- rewrite Z.mul_0_l, Z.add_0_r. intros [? _]. congruence.
        -- replace (pa0 + Z.of_nat (S j) * PAGESIZE)
             with (pa0 + PAGESIZE + Z.of_nat j * PAGESIZE) by lia.
           apply Hlow. lia.
      * right. split; [|done]. intros [|j] Hj.
        -- rewrite Z.mul_0_l, Z.add_0_r. intros [? _]. congruence.
        -- replace (pa0 + Z.of_nat (S j) * PAGESIZE)
             with (pa0 + PAGESIZE + Z.of_nat j * PAGESIZE) by lia.
           apply Hnone. lia.
Qed.

(** Frames are exactly the addresses the scan looks at. *)
Lemma is_frame_nth pa :
  is_frame pa ↔ ∃ j : nat, (j < NPAGES)%nat ∧ pa = Z.of_nat j * PAGESIZE.
Proof.
  destruct wf_facts as (_ & Hm & _ & _ & _ & _ & Hp & _).
  unfold is_frame, NPAGES, PAGESIZE in *. split.
  - intros [[H0 H1] H2]. exists (Z.to_nat (pa / 4096)).
    assert (0 ≤ pa / 4096) by (apply Z.div_pos; lia).
    split.
    + apply Z2Nat.inj_lt; [lia | apply Z.div_pos; lia |].
      apply Z.div_lt_upper_bound; [lia|].
      rewrite (Z.div_mod MEMSIZE_PHYSICAL 4096) in H1 by lia. lia.
    + rewrite Z2Nat.id by lia. rewrite (Z.div_mod pa 4096) at 1 by lia. lia.
  - intros (j & Hj & ->).
    assert (Z.of_nat j < MEMSIZE_PHYSICAL / 4096) by lia.
    rewrite (Z.div_mod MEMSIZE_PHYSICAL 4096) by lia.
    split; [lia|]. by rewrite Z.mod_mul.
Qed.

Lemma allocated_at_intro st pa :
  frame_table_ok st → is_frame pa →
  allocated_at pa st
    (set_physmem (λ m, memset m pa 0xCC PAGESIZE)
       (set_refcount pa (wrap_refcount 1) st)).
Proof.
  intros Hlen Hpa. unfold allocated_at.
  split; [|split; [|split; [|split]]].
  - change (refcount (set_refcount pa (wrap_refcount 1) st) pa = 1).
    rewrite refcount_set_refcount_eq, wrap_refcount_1; [done|].
    rewrite Hlen. by apply frame_index_lt.
  - intros pa' Hpa' Hne.
    change (refcount (set_refcount pa (wrap_refcount 1) st) pa' = refcount st pa').
    apply refcount_set_refcount_ne. intros He. apply Hne. symmetry.
    destruct Hpa as [[? ?] ?], Hpa' as [[? ?] ?].
    by apply frame_index_inj.
  - intros x Hx. simpl. unfold memset, in_range.
    destruct (pa <=? x) eqn:H1; destruct (x <? pa + PAGESIZE) eqn:H2; simpl; try done; lia.
  - intros x Hx. simpl. unfold memset, in_range.
    destruct (pa <=? x) eqn:H1; destruct (x <? pa + PAGESIZE) eqn:H2; simpl; try done; lia.
  - done.
Qed.

(** C8: [kalloc] (alloc_frame) returns the lowest frame address that is
    allocatable and has refcount 0, sets that refcount to exactly 1 and
    fills the 4096 bytes of the frame with 0xCC; when there is no such
    frame it returns null and changes nothing; whatever it returns that is
    not null is an allocatable frame, never a reserved one. *)
Theorem kalloc_lowest_free_frame (st : kstate) :
  frame_table_ok st →
  ((∃ pa, is_frame pa ∧ frame_free st pa
      ∧ (∀ pa', is_frame pa' → pa' < pa → ¬ frame_free st pa')
      ∧ (kalloc PAGESIZE st).1 = pa
      ∧ allocated_at pa st (kalloc PAGESIZE st).2)
   ∨ ((∀ pa, is_frame pa → ¬ frame_free st pa) ∧ kalloc PAGESIZE st = (0, st)))
  ∧ ((kalloc PAGESIZE st).1 ≠ 0 →
     allocatable_physical_address (kalloc PAGESIZE st).1 = true).
Proof.
  intros Hlen. unfold kalloc.
  rewrite bool_decide_eq_false_2 by (unfold PAGESIZE; lia).
  destruct (kalloc_scan_spec NPAGES 0 st) as [(k & Hk & Hf & Hlow & He) | [Hnone He]];
    rewrite He; simpl in *.
  - assert (Hfr : is_frame (Z.of_nat k * PAGESIZE)) by (apply is_frame_nth; eauto).
    split; [|intros _; apply Hf].
    left. exists (Z.of_nat k * PAGESIZE).
    split; [done|]. split; [done|]. split; [|split; [done|]].
    + intros pa' Hpa' Hlt. apply is_frame_nth in Hpa' as (j & Hj & ->).
      apply Hlow. unfold PAGESIZE in Hlt. lia.
    + by apply allocated_at_intro.
  - split; [|done]. right. split; [|done].
    intros pa Hpa. apply is_frame_nth in Hpa as (j & Hj & ->). by apply Hnone.
Qed.

(** C9: a request of more than [PAGESIZE] bytes fails with null and leaves
    the whole state, so every refcount and every byte, as it was.  A request
    of [PAGESIZE] bytes or less, whatever its size, allocates a whole page:
    when some frame is free it returns the lowest free frame, whose refcount
    goes from 0 to 1 and whose 4096 bytes are all filled with 0xCC, and
    nothing else changes; it returns null, changing nothing, only when no
    frame is free.  It is served exactly like a request for [PAGESIZE]
    bytes. *)
Theorem kalloc_size (sz : Z) (st : kstate) :
  (sz > PAGESIZE → kalloc sz st = (0, st))
  ∧ (sz ≤ PAGESIZE →
     kalloc sz st = kalloc PAGESIZE st
     ∧ (frame_table_ok st →
        (∃ pa, is_frame pa ∧ frame_free st pa
           ∧ (∀ pa', is_frame pa' → pa' < pa → ¬ frame_free st pa')
           ∧ (kalloc sz st).1 = pa
           ∧ allocated_at pa st (kalloc sz st).2)
        ∨ ((∀ pa, is_frame pa → ¬ frame_free st pa) ∧ kalloc sz st = (0, st)))
     ∧ ((kalloc sz st).1 ≠ 0 →
        ∀ x, (kalloc sz st).1 ≤ x < (kalloc sz st).1 + PAGESIZE →
             physmem (kalloc sz st).2 x = 0xCC)).
Proof.
  split.
  - intros H. unfold kalloc. by rewrite bool_decide_eq_true_2.
  - intros H. unfold kalloc.
    rewrite !bool_decide_eq_false_2 by (unfold PAGESIZE in *; lia).
    split; [done|].
    destruct (kalloc_scan_spec NPAGES 0 st) as [(k & Hk & Hf & Hlow & He) | [Hnone He]];
      rewrite He; simpl.
    + split.
      * intros Hlen. left. exists (Z.of_nat k * PAGESIZE).
        assert (Hfr : is_frame (Z.of_nat k * PAGESIZE)) by (apply is_frame_nth; eauto).
        split; [done|]. split; [done|]. split; [|split; [done|]].
        -- intros pa' Hpa' Hlt. apply is_frame_nth in Hpa' as (j & Hj & ->).
           apply Hlow. unfold PAGESIZE in Hlt. lia.
        -- by apply allocated_at_intro.
      * intros _ x Hx. unfold memset, in_range.
        destruct (_ <=? x) eqn:H1; destruct (x <? _) eqn:H2; simpl; try done; lia.
    + split.
      * intros _. right. split; [|done].
        intros pa Hpa. apply is_frame_nth in Hpa as (j & Hj & ->). by apply Hnone.
      * intros Hnz. by destruct Hnz.
Qed.

(** C4 (as the code has it): [kfree] on a non-null address makes no check
    of the refcount; it stores the refcount minus one, reduced modulo the
    width of the field, so a positive refcount goes down by exactly one and
    a refcount of 0 wraps to the largest value; no other frame changes. *)
Theorem kfree_decrements_unchecked (kptr : Z) (st : kstate) :
  kptr ≠ 0 →
  (frame_index kptr < length (physpages st))%nat →
  refcount (kfree kptr st) kptr = wrap_refcount (refcount st kptr - 1)
  ∧ (0 < refcount st kptr < 2 ^ refcount_bits →
     refcount (kfree kptr st) kptr = refcount st kptr - 1)
  ∧ (refcount st kptr = 0 →
     refcount (kfree kptr st) kptr = 2 ^ refcount_bits - 1)
  ∧ (∀ pa, frame_index pa ≠ frame_index kptr →
     refcount (kfree kptr st) pa = refcount st pa).
Proof.
  intros Hnz Hlen. unfold kfree. rewrite bool_decide_eq_false_2 by done.
  rewrite refcount_set_refcount_eq by done.
  destruct wf_facts as (_ & _ & _ & _ & _ & _ & _ & _ & _ & Hb & _).
  assert (0 < 2 ^ refcount_bits) by (apply Z.pow_pos_nonneg; lia).
  split; [done|]. split; [|split].
  - intros Hr. unfold wrap_refcount. apply Z.mod_small. lia.
  - intros ->. unfold wrap_refcount.
    replace (0 - 1) with (-1 * 2 ^ refcount_bits + (2 ^ refcount_bits - 1)) by lia.
    rewrite Z.add_comm, Z.mod_add by lia. apply Z.mod_small. lia.
  - intros pa Hne. by apply refcount_set_refcount_ne.
Qed.

End Allocator.

Section Processes.
Context `{M : machine}.
Hypothesis wf : machine_wf = true.

(** The allocator touches the frame table and memory only. *)
Lemma kalloc_scan_frame n pa st :
  ptable (kalloc_scan n pa st).2 = ptable st
  ∧ current (kalloc_scan n pa st).2 = current st
  ∧ pagetables (kalloc_scan n pa st).2 = pagetables st.
Proof.
  revert pa. induction n as [|n IH]; intros pa; simpl; [done|].
  destruct (_ && _); [done | apply IH].
Qed.

Lemma kalloc_frame sz st :
  ptable (kalloc sz st).2 = ptable st
  ∧ current (kalloc sz st).2 = current st
  ∧ pagetables (kalloc sz st).2 = pagetables st.
Proof. unfold kalloc. case_bool_decide; [done | apply kalloc_scan_frame]. Qed.

Lemma kfree_frame kptr st :
  ptable (kfree kptr st) = ptable st
  ∧ current (kfree kptr st) = current st
  ∧ pagetables (kfree kptr st) = pagetables st.
Proof. unfold kfree. by case_bool_decide. Qed.

Lemma exit_loop_ptable n va root st :
  ptable (exit_loop n va root st) = ptable st.
Proof.
  revert va st. induction n as [|n IH]; intros va st; simpl; [done|].
  rewrite IH. destruct (_ && _); [apply kfree_frame | done].
Qed.

Lemma kfree_all_ptable l st :
  ptable (foldl (λ s pa, kfree pa s) st l) = ptable st.
Proof.
  revert st. induction l as [|pa l IH]; intros st; simpl; [done|].
  rewrite IH. apply kfree_frame.
Qed.

(** C3 (as the code has it): after [syscall_exit] the descriptor's state
    is [P_FREE]; its [pagetable] field is not cleared, it still holds the
    address of the root that was just freed. *)
Theorem syscall_exit_marks_free (i : nat) (st : kstate) :
  (i < length (ptable st))%nat →
  state (proc_at (syscall_exit i st) i) = P_FREE
  ∧ pagetable (proc_at (syscall_exit i st) i) = pagetable (proc_at st i).
Proof.
  intros Hi. unfold syscall_exit.
  set (pt := pagetable (proc_at st i)).
  set (st1 := exit_loop _ 0 pt st).
  set (st2 := foldl _ st1 _).
  set (st3 := kfree pt st2).
  assert (Hpt : ptable st3 = ptable st).
  { subst st3 st2 st1. destruct (kfree_frame pt (foldl (λ s pa, kfree pa s)
      (exit_loop (pages_below MEMSIZE_VIRTUAL) 0 pt st)
      (ptiter_pages (tree_of (exit_loop (pages_below MEMSIZE_VIRTUAL) 0 pt st) pt))))
      as [-> _].
    by rewrite kfree_all_ptable, exit_loop_ptable. }
  assert (Hlk : proc_at (update_proc i (with_state P_FREE) st3) i
                = with_state P_FREE (proc_at st i)).
  { unfold proc_at, update_proc, set_ptable. simpl.
    rewrite list_lookup_insert_eq by (by rewrite Hpt). simpl.
    unfold proc_at. by rewrite Hpt. }
  rewrite Hlk. done.
Qed.

(** C10: a system-call number outside 1..6 ends [syscall] in the kernel's
    [panic]: nothing is returned to the calling process, neither -1 nor any
    other value, and no other process is scheduled. *)
Theorem syscall_unknown_number_panics (r : regstate) (st : kstate) :
  ¬ (1 ≤ reg_rax r ≤ 6) →
  syscall r st = SysPanic (update_proc (current st) (with_regs r) st)
  ∧ (∀ v st', syscall r st ≠ SysReturn v st')
  ∧ (∀ st', syscall r st ≠ SysSchedule st').
Proof.
  intros Hr.
  assert (He : syscall r st = SysPanic (update_proc (current st) (with_regs r) st)).
  { unfold syscall.
    set (st0 := update_proc (current st) (with_regs r) st).
    assert (Hrax : reg_rax (regs (current_proc st0)) = reg_rax r
                   ∨ reg_rax (regs (current_proc st0)) = 0).
    { unfold current_proc, proc_at, st0, update_proc, set_ptable. simpl.
      destruct (decide (current st < length (ptable st))%nat) as [Hlt|Hge].
      - left. by rewrite list_lookup_insert_eq.
      - right. rewrite list_insert_ge by lia.
        rewrite lookup_ge_None_2 by lia. done. }
    unfold SYSCALL_PANIC, SYSCALL_GETPID, SYSCALL_YIELD, SYSCALL_PAGE_ALLOC,
      SYSCALL_FORK, SYSCALL_EXIT.
    repeat (rewrite bool_decide_eq_false_2 by lia). done. }
  rewrite He. split; [done|]. split; intros; discriminate.
Qed.

Lemma tree_of_kalloc sz st root :
  tree_of (kalloc sz st).2 root = tree_of st root.
Proof. unfold tree_of. by destruct (kalloc_frame sz st) as (_ & _ & ->). Qed.

Lemma new_tables_present root va st :
  has_path (tree_of st root) va = true →
  new_tables [3; 2; 1] root va st = (0, st).
Proof.
  unfold has_path. intros H.
  apply andb_prop in H as [H H1]. apply andb_prop in H as [H3 H2].
  simpl. by rewrite H3, H2, H1.
Qed.

(** C7 (as the code has it): [PAGE_ALLOC] returns -1, and changes nothing,
    for every address that is not page-aligned, is below
    [PROC_START_ADDR], or is at or above [MEMSIZE_VIRTUAL]; so it does for
    [PROC_START_ADDR - 1], [MEMSIZE_VIRTUAL] and
    [MEMSIZE_VIRTUAL - PAGESIZE + 1].  [PROC_START_ADDR] itself and
    [MEMSIZE_VIRTUAL - PAGESIZE] are page-aligned and in range: there the
    call returns 0 when the allocator has a frame and the intermediate
    tables leading to the address exist. *)
Theorem page_alloc_argument_check (addr : Z) (st : kstate) :
  (addr mod PAGESIZE ≠ 0 ∨ addr < PROC_START_ADDR ∨ MEMSIZE_VIRTUAL ≤ addr →
   syscall_page_alloc addr st = (-1, st))
  ∧ syscall_page_alloc (PROC_START_ADDR - 1) st = (-1, st)
  ∧ syscall_page_alloc MEMSIZE_VIRTUAL st = (-1, st)
  ∧ syscall_page_alloc (MEMSIZE_VIRTUAL - PAGESIZE + 1) st = (-1, st)
  ∧ (addr = PROC_START_ADDR ∨ addr = MEMSIZE_VIRTUAL - PAGESIZE →
     (kalloc PAGESIZE st).1 ≠ 0 →
     has_path (tree_of st (pagetable (current_proc st))) addr = true →
     (syscall_page_alloc addr st).1 = 0).
Proof.
  destruct wf_facts as (Hps & _ & Hmv & _ & Hc & Hlt & _); [done|].
  assert (Hbad : ∀ a, a mod PAGESIZE ≠ 0 ∨ a < PROC_START_ADDR ∨ MEMSIZE_VIRTUAL ≤ a →
                 syscall_page_alloc a st = (-1, st)).
  { intros a Ha. unfold syscall_page_alloc.
    destruct (bool_decide (a < PROC_START_ADDR)) eqn:H1; [done|].
    destruct (bool_decide (a >= MEMSIZE_VIRTUAL)) eqn:H2; [done|].
    destruct (bool_decide (a mod 4096 ≠ 0)) eqn:H3; [done|].
    apply bool_decide_eq_false in H1, H2, H3. unfold PAGESIZE in Ha.
    exfalso. destruct Ha as [?|[?|?]]; [by apply H3 | lia | lia]. }
  unfold PAGESIZE in *.
  split; [apply Hbad|]. split; [apply Hbad; right; left; lia|].
  split; [apply Hbad; right; right; lia|].
  split; [apply Hbad; left; Z.div_mod_to_equations; lia|].
  intros Ha Hk Hp.
  assert (Hok : addr mod 4096 = 0 ∧ PROC_START_ADDR ≤ addr < MEMSIZE_VIRTUAL)
    by (destruct Ha as [->| ->]; Z.div_mod_to_equations; lia).
  destruct Hok as [Hal Hin].
  unfold syscall_page_alloc.
  rewrite (bool_decide_eq_false_2 (addr < PROC_START_ADDR)) by lia.
  rewrite (bool_decide_eq_false_2 (addr >= MEMSIZE_VIRTUAL)) by lia.
  rewrite (bool_decide_eq_false_2 (addr mod 4096 ≠ 0)) by (intros ?; done).
  simpl.
  pose proof (kalloc_frame 4096 st) as (Hpt & Hcur & _).
  pose proof (tree_of_kalloc 4096 st (pagetable (current_proc st))) as Htr.
  destruct (kalloc 4096 st) as [pa st1] eqn:Hka. simpl in *.
  change (kalloc PAGESIZE st) with (kalloc 4096 st). rewrite Hka.
  rewrite bool_decide_eq_false_2 by done.
  unfold try_map.
  rewrite (bool_decide_eq_false_2 (Z.lor (Z.lor PTE_P PTE_W) PTE_U = 0)) by done.
  rewrite andb_false_r.
  rewrite new_tables_present by (by rewrite Htr).
  simpl. done.
Qed.

End Processes.

Section Fork.
Context `{M : machine}.

Lemma absent_entry t va :
  vmiter_present t va = false →
  vmiter_pa t va = NO_PA ∧ vmiter_perm t va = 0
  ∧ vmiter_user t va = false ∧ vmiter_writable t va = false.
Proof.
  unfold vmiter_present, vmiter_pa, vmiter_user, vmiter_writable, vmiter_perm.
  intros ->. done.
Qed.

Lemma tree_of_set_tree_eq root t st :
  tree_of (set_tree root t st) root = t.
Proof. unfold tree_of, set_tree, set_pagetables. simpl. by rewrite lookup_insert_eq. Qed.

Lemma tree_of_set_tree_ne root root' t st :
  root' ≠ root → tree_of (set_tree root t st) root' = tree_of st root'.
Proof.
  intros H. unfold tree_of, set_tree, set_pagetables. simpl.
  by rewrite lookup_insert_ne.
Qed.

(** Writing a leaf that is zero leaves an entry that is not present. *)
Lemma pte_set_leaf_eq root va e st :
  has_path (tree_of st root) va = true →
  pte (tree_of (set_leaf root va e st) root) va = e.
Proof.
  intros Hp. unfold set_leaf. rewrite tree_of_set_tree_eq.
  unfold pte, has_path, has_table in *. simpl. rewrite Hp.
  by rewrite lookup_insert_eq.
Qed.

Lemma pte_set_leaf_ne root va va' e st :
  va' / PAGESIZE ≠ va / PAGESIZE →
  pte (tree_of (set_leaf root va e st) root) va' = pte (tree_of st root) va'.
Proof.
  intros Hne. unfold set_leaf. rewrite tree_of_set_tree_eq.
  unfold pte, has_path, has_table. simpl.
  destruct (_ && _); [|done]. by rewrite lookup_insert_ne.
Qed.

(** C5: in fork's walk, a page at or above [PROC_START_ADDR] whose entry
    in the parent is absent is passed over: the iteration goes on (no
    failure), allocates nothing, changes no refcount and no byte, leaves
    the child's interior nodes and every other entry of the child as they
    were, and leaves the child without a mapping at that address, whose
    [pa()] is the sentinel again and whose entry is zero: the sentinel is
    never stored as a frame address and never used as an index into the
    frame table. *)
Theorem fork_skips_absent_page (child : nat) (va : Z) (st : kstate) :
  PROC_START_ADDR ≤ va →
  vmiter_present (tree_of st (pagetable (current_proc st))) va = false →
  ∃ st', fork_page child va st = inl st'
    ∧ physpages st' = physpages st
    ∧ physmem st' = physmem st
    ∧ ptable st' = ptable st
    ∧ current st' = current st
    ∧ (∀ root, root ≠ pagetable (proc_at st child) →
         tree_of st' root = tree_of st root)
    ∧ let c := tree_of st (pagetable (proc_at st child)) in
      let c' := tree_of st' (pagetable (proc_at st' child)) in
      pt_tables c' = pt_tables c
      ∧ pte c' va = 0
      ∧ vmiter_present c' va = false
      ∧ vmiter_pa c' va = NO_PA
      ∧ (∀ va', va' / PAGESIZE ≠ va / PAGESIZE → pte c' va' = pte c va').
Proof.
  intros Hva Habs.
  destruct (absent_entry _ _ Habs) as (Hpa & Hperm & Hu & Hw).
  unfold fork_page.
  rewrite bool_decide_eq_false_2 by lia.
  rewrite Hu, Hw, Hpa, Hperm. simpl.
  set (croot := pagetable (proc_at st child)).
  unfold try_map. simpl.
  destruct (has_path (tree_of st croot) va) eqn:Hp.
  - exists (set_leaf croot va 0 st). simpl.
    split; [done|]. do 4 (split; [done|]).
    split; [intros root Hr; unfold set_leaf; by rewrite tree_of_set_tree_ne|].
    change (pagetable (proc_at (set_leaf croot va 0 st) child)) with croot.
    cbv zeta.
    assert (H0 : pte (tree_of (set_leaf croot va 0 st) croot) va = 0)
      by (by apply pte_set_leaf_eq).
    split; [unfold set_leaf; by rewrite tree_of_set_tree_eq|].
    split; [done|].
    split; [unfold vmiter_present; by rewrite H0|].
    split; [unfold vmiter_pa; by rewrite H0|].
    intros va' Hne. by apply pte_set_leaf_ne.
  - exists st. split; [done|]. do 5 (split; [done|]).
    fold croot. cbv zeta.
    assert (H0 : pte (tree_of st croot) va = 0) by (unfold pte; by rewrite Hp).
    split; [done|]. split; [done|].
    split; [unfold vmiter_present; by rewrite H0|].
    split; [unfold vmiter_pa; by rewrite H0|]. done.
Qed.

(** ** The whole walk

    What the single iteration gives carries over to a fork that succeeds:
    the child ends without a mapping wherever the parent had none. *)

Lemma pte_leaf_slot_0 t va : leaf_slot t va = 0 → pte t va = 0.
Proof. unfold pte, leaf_slot. intros ->. by destruct (has_path t va). Qed.

Lemma tree_of_set_physmem f st root :
  tree_of (set_physmem f st) root = tree_of st root.
Proof. done. Qed.

Lemma tree_of_set_refcount pa v st root :
  tree_of (set_refcount pa v st) root = tree_of st root.
Proof. done. Qed.

Lemma only_leaf_at_refl root va st : only_leaf_at root va st st.
Proof. by unfold only_leaf_at. Qed.

Lemma only_leaf_at_trans root va st st1 st2 :
  only_leaf_at root va st st1 → only_leaf_at root va st1 st2 →
  only_leaf_at root va st st2.
Proof.
  intros (Hp & Hc & Ho & Hl) (Hp' & Hc' & Ho' & Hl').
  split; [congruence|]. split; [congruence|]. split.
  - intros root' Hr. rewrite Ho', Ho; done.
  - intros va' Hne. rewrite Hl', Hl; done.
Qed.

Lemma only_leaf_at_kalloc root va sz st :
  only_leaf_at root va st (kalloc sz st).2
  ∧ leaf_slot (tree_of (kalloc sz st).2 root) va = leaf_slot (tree_of st root) va.
Proof.
  unfold only_leaf_at.
  destruct (kalloc_frame sz st) as (-> & -> & Hpt).
  unfold tree_of. rewrite !Hpt. done.
Qed.

Lemma only_leaf_at_add_table root va k pt st :
  only_leaf_at root va st (add_table root k pt st)
  ∧ leaf_slot (tree_of (add_table root k pt st) root) va
    = leaf_slot (tree_of st root) va.
Proof.
  unfold only_leaf_at, add_table.
  rewrite tree_of_set_tree_eq.
  split; [|done]. split; [done|]. split; [done|]. split; [|done].
  intros root' Hr. by rewrite tree_of_set_tree_ne.
Qed.

Lemma new_tables_only_leaf lvls root va st :
  only_leaf_at root va st (new_tables lvls root va st).2
  ∧ leaf_slot (tree_of (new_tables lvls root va st).2 root) va
    = leaf_slot (tree_of st root) va.
Proof.
  revert st. induction lvls as [|lvl rest IH]; intros st; simpl.
  - split; [apply only_leaf_at_refl | done].
  - destruct (has_table _ lvl va); [apply IH|].
    destruct (only_leaf_at_kalloc root va PAGESIZE st) as [Hk Hk'].
    destruct (kalloc PAGESIZE st) as [pt st1]. simpl in *.
    case_bool_decide; [done|].
    set (st2 := add_table root (table_key lvl va) pt
                  (set_physmem (λ m, memset m pt 0 PAGESIZE) st1)).
    destruct (only_leaf_at_add_table root va (table_key lvl va) pt
                (set_physmem (λ m, memset m pt 0 PAGESIZE) st1)) as [Ha Ha'].
    fold st2 in Ha, Ha'.
    destruct (IH st2) as [Hn Hn'].
    split.
    + eapply only_leaf_at_trans; [exact Hk|].
      eapply only_leaf_at_trans; [exact Ha | exact Hn].
    + rewrite Hn', Ha'. exact Hk'.
Qed.

(** [try_map] changes the slot of [va] to the new entry or not at all. *)
Lemma try_map_only_leaf root va pa perm st :
  let st1 := (try_map root va pa perm st).2 in
  only_leaf_at root va st st1
  ∧ (leaf_slot (tree_of st1 root) va = leaf_slot (tree_of st root) va
     ∨ leaf_slot (tree_of st1 root) va
       = Z.lor (if bool_decide (pa = NO_PA) && bool_decide (perm = 0) then 0 else pa)
               perm).
Proof.
  unfold try_map.
  set (pa' := if bool_decide (pa = NO_PA) && bool_decide (perm = 0) then 0 else pa).
  assert (Hnt : ∃ r st0, (if bool_decide (perm = 0) then (0, st)
                          else new_tables [3; 2; 1] root va st) = (r, st0)
                ∧ only_leaf_at root va st st0
                ∧ leaf_slot (tree_of st0 root) va = leaf_slot (tree_of st root) va).
  { case_bool_decide.
    - exists 0, st. split; [done|]. split; [apply only_leaf_at_refl | done].
    - destruct (new_tables_only_leaf [3; 2; 1] root va st) as [H1 H2].
      destruct (new_tables [3; 2; 1] root va st) as [r st0]. by exists r, st0. }
  destruct Hnt as (r & st0 & -> & Ho & Hs).
  case_bool_decide; simpl; [|by split; [|left]].
  destruct (has_path (tree_of st0 root) va); [|by split; [|left]].
  split.
  - eapply only_leaf_at_trans; [exact Ho|].
    unfold only_leaf_at, set_leaf. rewrite tree_of_set_tree_eq.
    split; [done|]. split; [done|]. split.
    + intros root' Hr. by rewrite tree_of_set_tree_ne.
    + intros va' Hne. unfold leaf_slot. simpl. by rewrite lookup_insert_ne.
  - right. unfold set_leaf. rewrite tree_of_set_tree_eq.
    unfold leaf_slot. simpl. by rewrite lookup_insert_eq.
Qed.

(** One iteration that goes on keeps the descriptors and the parent's
    tree, touches the child's leaves at [va] only, and leaves the slot of an
    absent page zero if it was zero. *)
Lemma fork_page_only_leaf child va st st1 :
  fork_page child va st = inl st1 →
  only_leaf_at (pagetable (proc_at st child)) va st st1
  ∧ (PROC_START_ADDR ≤ va →
     vmiter_present (tree_of st (pagetable (current_proc st))) va = false →
     leaf_slot (tree_of st (pagetable (proc_at st child))) va = 0 →
     leaf_slot (tree_of st1 (pagetable (proc_at st child))) va = 0).
Proof.
  unfold fork_page.
  set (croot := pagetable (proc_at st child)).
  set (pit := tree_of st (pagetable (current_proc st))).
  case_bool_decide as Hlow.
  { pose proof (try_map_only_leaf croot va (vmiter_pa pit va) (vmiter_perm pit va) st)
      as [Ho _].
    destruct (try_map croot va _ _ st) as [r st2]. simpl in Ho.
    case_bool_decide; [done|]. intros [= <-]. split; [done | lia]. }
  destruct (vmiter_present pit va) eqn:Hpres.
  - (* present in the parent: the second conjunct is vacuous *)
    assert (Hgoal : ∀ P : Prop, P → P ∧ (PROC_START_ADDR ≤ va → true = false →
              leaf_slot (tree_of st croot) va = 0 →
              leaf_slot (tree_of st1 croot) va = 0)) by (intros P HP; split; [done|discriminate]).
    destruct (vmiter_writable pit va && vmiter_user pit va).
    { destruct (only_leaf_at_kalloc croot va PAGESIZE st) as [Hk _].
      destruct (kalloc PAGESIZE st) as [pa st2]. simpl in Hk.
      case_bool_decide; [done|].
      set (st3 := set_physmem _ st2).
      pose proof (try_map_only_leaf croot va pa (vmiter_perm pit va) st3) as [Ho _].
      destruct (try_map croot va pa _ st3) as [r st4]. simpl in Ho.
      case_bool_decide; [done|]. intros [= <-]. apply Hgoal.
      eapply only_leaf_at_trans; [exact Hk | exact Ho]. }
    destruct (negb (vmiter_writable pit va) && vmiter_user pit va).
    { pose proof (try_map_only_leaf croot va (vmiter_pa pit va) (vmiter_perm pit va) st)
        as [Ho _].
      destruct (try_map croot va _ _ st) as [r st2]. simpl in Ho.
      case_bool_decide; [done|].
      case_bool_decide; intros [= <-]; apply Hgoal; exact Ho. }
    pose proof (try_map_only_leaf croot va (vmiter_pa pit va) (vmiter_perm pit va) st)
      as [Ho _].
    destruct (try_map croot va _ _ st) as [r st2]. simpl in Ho.
    case_bool_decide; [done|]. intros [= <-]. apply Hgoal. exact Ho.
  - destruct (absent_entry _ _ Hpres) as (Hpa & Hperm & Hu & Hw).
    rewrite Hu, Hw, Hpa, Hperm. cbn [andb negb].
    pose proof (try_map_only_leaf croot va NO_PA 0 st) as [Ho Hs].
    destruct (try_map croot va NO_PA 0 st) as [r st2]. simpl in Ho, Hs.
    case_bool_decide; [done|]. intros [= <-]. split; [exact Ho|].
    intros _ _ H0. destruct Hs as [-> | ->]; done.
Qed.

Lemma aligned_same_page va va' :
  va mod PAGESIZE = 0 → va' mod PAGESIZE = 0 →
  va' / PAGESIZE = va / PAGESIZE → va' = va.
Proof.
  unfold PAGESIZE. intros H1 H2 H3.
  rewrite (Z.div_mod va 4096), (Z.div_mod va' 4096) by lia. lia.
Qed.

(** The invariant of the walk: a page that is aligned, at or above
    [PROC_START_ADDR] and absent in the parent has a zero slot in the
    child. *)
Lemma fork_loop_absent n va0 child st st' :
  fork_loop n va0 child st = inl st' →
  pagetable (proc_at st child) ≠ pagetable (current_proc st) →
  va0 mod PAGESIZE = 0 →
  ptable st' = ptable st ∧ current st' = current st
  ∧ ∀ va, va mod PAGESIZE = 0 → PROC_START_ADDR ≤ va →
      vmiter_present (tree_of st (pagetable (current_proc st))) va = false →
      leaf_slot (tree_of st (pagetable (proc_at st child))) va = 0 →
      leaf_slot (tree_of st' (pagetable (proc_at st child))) va = 0.
Proof.
  revert va0 st. induction n as [|n IH]; intros va0 st; simpl.
  - intros [= <-] _ _. done.
  - destruct (fork_page child va0 st) as [st1|st1] eqn:Hstep; [|done].
    intros Hloop Hne Hal.
    destruct (fork_page_only_leaf _ _ _ _ Hstep) as [(Hpt & Hcur & Hoth & Hleaf) Habs].
    assert (Hc : proc_at st1 child = proc_at st child)
      by (unfold proc_at; by rewrite Hpt).
    assert (Hp : current_proc st1 = current_proc st)
      by (unfold current_proc, proc_at; by rewrite Hpt, Hcur).
    destruct (IH (va0 + PAGESIZE) st1 Hloop) as (Hpt' & Hcur' & Hall).
    { by rewrite Hc, Hp. }
    { unfold PAGESIZE in *. Z.div_mod_to_equations. lia. }
    split; [congruence|]. split; [congruence|].
    intros va Hva Hge Hpres H0.
    rewrite Hc, Hp in Hall. apply Hall; [done | done | |].
    + rewrite Hoth by done. done.
    + destruct (decide (va / PAGESIZE = va0 / PAGESIZE)) as [He|Hd].
      * apply (aligned_same_page va0 va) in He; [|done|done]. subst va.
        by apply Habs.
      * by rewrite Hleaf.
Qed.

Lemma find_free_slot_spec n i st :
  find_free_slot n i st = 0%nat
  ∨ ((i ≤ find_free_slot n i st < i + n)%nat
     ∧ state (proc_at st (find_free_slot n i st)) = P_FREE).
Proof.
  revert i. induction n as [|n IH]; intros i; simpl; [by left|].
  case_bool_decide as Hs.
  - right. split; [lia | done].
  - destruct (IH (S i)) as [-> | [Hr Hf]]; [by left|].
    right. split; [lia | done].
Qed.

Lemma kalloc_returns_free_frame st :
  (kalloc PAGESIZE st).1 ≠ 0 → refcount st (kalloc PAGESIZE st).1 = 0.
Proof.
  unfold kalloc. rewrite bool_decide_eq_false_2 by (unfold PAGESIZE; lia).
  destruct (kalloc_scan_spec NPAGES 0 st) as [(k & _ & [_ Hf] & _ & ->) | [_ ->]];
    simpl; [done|]. intros H. by destruct H.
Qed.


End Fork.

(** * The concrete machine: evaluations *)

Section Evaluations.
Local Existing Instance weensy.

Lemma weensy_wf : machine_wf = true.
Proof. reflexivity. Qed.

(** C1 (evaluation at the failing input): with five frames left, process 1
    (one shared read-only page, one writable stack page at 0x2FF000) forks.
    The child's root, its three interior nodes for the low 2 MiB and the
    copy of the stack page take the five frames; mapping the copy then
    needs one more interior node, [try_map] fails, [syscall_exit] tears the
    child down and fork returns -1.  The copy (frame 0x1FF000) was never
    mapped, so the teardown does not reach it: its refcount is 1 after the
    call and was 0 before, and the frame table differs from its state
    before the call. *)
Theorem fork_map_failure_leaks_frame :
  let st := nearly_full in
  let r := syscall_fork st in
  free_frames st = 5%nat
  ∧ r.1 = -1
  ∧ state (proc_at r.2 3) = P_FREE
  ∧ refcount st 0x1FF000 = 0
  ∧ refcount r.2 0x1FF000 = 1
  ∧ free_frames r.2 = 4%nat
  ∧ physpages r.2 ≠ physpages st.
Proof.
  vm_compute. do 6 (split; [reflexivity|]). discriminate.
Qed.

(** With four frames left the same fork fails one step earlier, in the
    [kalloc] for the copy of the stack page: nothing is left unmapped, the
    teardown undoes everything and the frame table is as before the
    call. *)
Lemma fork_alloc_failure_restores_frames :
  let st := nearly_full4 in
  let r := syscall_fork st in
  free_frames st = 4%nat
  ∧ r.1 = -1
  ∧ state (proc_at r.2 3) = P_FREE
  ∧ physpages r.2 = physpages st.
Proof. vm_compute. do 3 (split; [reflexivity|]). reflexivity. Qed.

(** C2 (evaluation at the failing input): process 1 calls
    [PAGE_ALLOC(PROC_START_ADDR + 0x10000)] twice.  Both calls return 0;
    the first maps frame 0x8000, the second maps frame 0x9000 over it; the
    first frame is not released, its refcount is still 1, and the second
    call leaves one free frame less than there was before it. *)
Theorem page_alloc_twice_keeps_old_frame :
  let r1 := syscall_page_alloc (PROC_START_ADDR + 0x10000) booted1 in
  let r2 := syscall_page_alloc (PROC_START_ADDR + 0x10000) r1.2 in
  let root := pagetable (current_proc booted1) in
  r1.1 = 0 ∧ r2.1 = 0
  ∧ vmiter_pa (tree_of r1.2 root) (PROC_START_ADDR + 0x10000) = 0x8000
  ∧ vmiter_pa (tree_of r2.2 root) (PROC_START_ADDR + 0x10000) = 0x9000
  ∧ refcount r1.2 0x8000 = 1
  ∧ refcount r2.2 0x8000 = 1
  ∧ free_frames r1.2 = 390%nat
  ∧ free_frames r2.2 = 389%nat.
Proof. vm_compute. repeat split; reflexivity. Qed.

(** C3 (counterexample): after [syscall_exit] on process 1 the descriptor
    is free and its [pagetable] field still holds 0x1000, not null. *)
Lemma syscall_exit_keeps_pagetable_pointer :
  state (proc_at (syscall_exit 1 booted1) 1) = P_FREE
  ∧ pagetable (proc_at (syscall_exit 1 booted1) 1) = 0x1000
  ∧ pagetable (proc_at (syscall_exit 1 booted1) 1) ≠ 0.
Proof. vm_compute. split; [reflexivity | split; [reflexivity | discriminate]]. Qed.

(** C4 (counterexample): [kfree] on a frame whose refcount is 0 returns
    normally with the refcount wrapped to 255; no assertion stops it. *)
Lemma kfree_underflow_is_silent :
  refcount boot 0x5000 = 0
  ∧ refcount (kfree 0x5000 boot) 0x5000 = 255.
Proof. vm_compute. done. Qed.

(** C6 (evaluation at the failing input): [process_setup] loads
    [pgm_spread] at boot.  The page tables take the frames 0x1000 to 0x4000
    and, after the loader has run, 0x102000 for the stack; the segments get
    the frames listed with [pgm_spread].  The loader zeroes through the
    physical address of the first byte of each segment: 0x5000 to 0x3FFFF and
    0x50000 to 0x7EFFF, which are the frames of the first two segments, and
    0x21000 bytes from 0x80000 for the third, up to 0xA0FFF.  That range
    holds no page table, no kernel code or data and not the kernel stack
    (each range written starts on a frame boundary, so the check is made at
    the first and the last byte of those frames), and it
    ends with the first page of the I/O area; it does not reach frame
    0x100000, so the last page of the third segment, at 0x18A000, all of it
    beyond [data_size], still reads 0xCC, while the page before it reads 0. *)
Theorem process_setup_leaves_fill_pattern :
  is_Some (process_setup 1 pgm_spread boot)
  ∧ let st := booted_spread in
    let root := pagetable (proc_at st 1) in
    let t := tree_of st root in
    root = 0x1000
    ∧ ptiter_pages t ≡ₚ [0x2000; 0x3000; 0x4000; 0x102000]
    ∧ vmiter_pa t 0x100000 = 0x5000 ∧ vmiter_pa t 0x13A000 = 0x3F000
    ∧ vmiter_pa t 0x13B000 = 0x50000 ∧ vmiter_pa t 0x169000 = 0x7E000
    ∧ vmiter_pa t 0x16A000 = 0x80000 ∧ vmiter_pa t 0x189000 = 0x9F000
    ∧ vmiter_pa t 0x18A000 = 0x100000
    ∧ forallb (λ f, forallb (λ seg, negb (loader_writes t seg f)
                                     && negb (loader_writes t seg (f + PAGESIZE - 1)))
                      (pgm_segments pgm_spread))
        (root :: ptiter_pages t ++ [0x40000; 0x4F000; 0x7F000]) = true
    ∧ loader_writes t (Segment 0x16A000 0x21000 [] 0 true) 0xA0FFF = true
    ∧ loader_writes t (Segment 0x16A000 0x21000 [] 0 true) 0x100000 = false
    ∧ physmem st (vmiter_pa t 0x189FFF) = 0
    ∧ physmem st (vmiter_pa t 0x18A000) = 0xCC
    ∧ physmem st (vmiter_pa t 0x18AFFF) = 0xCC.
Proof.
  split.
  - apply (bool_decide_unpack _). vm_compute. exact I.
  - cbv zeta. split; [vm_compute; reflexivity|]. split.
    + apply (bool_decide_unpack _). vm_compute. exact I.
    + vm_compute. repeat split; reflexivity.
Qed.

(** C7 (counterexample): [PAGE_ALLOC(PROC_START_ADDR)] returns 0, not
    -1: the address is page-aligned and in range. *)
Lemma page_alloc_proc_start_succeeds :
  (syscall_page_alloc PROC_START_ADDR booted1).1 = 0
  ∧ (syscall_page_alloc PROC_START_ADDR booted1).1 ≠ -1.
Proof. vm_compute. split; [reflexivity | discriminate]. Qed.

(** ** Witnesses *)

Lemma kalloc_lowest_free_frame_witness :
  frame_table_ok boot
  ∧ (((∃ pa, is_frame pa ∧ frame_free boot pa
        ∧ (∀ pa', is_frame pa' → pa' < pa → ¬ frame_free boot pa')
        ∧ (kalloc PAGESIZE boot).1 = pa
        ∧ allocated_at pa boot (kalloc PAGESIZE boot).2)
      ∨ ((∀ pa, is_frame pa → ¬ frame_free boot pa)
         ∧ kalloc PAGESIZE boot = (0, boot)))
     ∧ ((kalloc PAGESIZE boot).1 ≠ 0 →
        allocatable_physical_address (kalloc PAGESIZE boot).1 = true)).
Proof.
  split; [reflexivity|].
  apply (kalloc_lowest_free_frame (M := weensy)); reflexivity.
Defined.

(** Two requests at boot: 4097 bytes, refused, and one byte, served with
    the whole frame at 0x1000. *)
Lemma kalloc_size_witness :
  4097 > PAGESIZE ∧ kalloc 4097 boot = (0, boot)
  ∧ 1 ≤ PAGESIZE
  ∧ frame_table_ok boot
  ∧ kalloc 1 boot = kalloc PAGESIZE boot
  ∧ (kalloc 1 boot).1 = 0x1000
  ∧ allocated_at 0x1000 boot (kalloc 1 boot).2.
Proof.
  assert (Hbig : 4097 > PAGESIZE) by reflexivity.
  assert (H : 1 ≤ PAGESIZE) by (vm_compute; discriminate).
  assert (Hlen : frame_table_ok boot) by reflexivity.
  assert (Hpa : (kalloc 1 boot).1 = 0x1000) by (vm_compute; reflexivity).
  split; [exact Hbig|].
  split; [exact (proj1 (kalloc_size (M := weensy) eq_refl 4097 boot) Hbig)|].
  split; [exact H|]. split; [exact Hlen|].
  destruct (proj2 (kalloc_size (M := weensy) eq_refl 1 boot) H) as (Heq & Hpage & _).
  split; [exact Heq|]. split; [exact Hpa|].
  destruct (Hpage Hlen) as [(pa & _ & _ & _ & Hres & Hall) | [_ Hnull]].
  - rewrite Hpa in Hres. rewrite Hres. exact Hall.
  - exfalso. rewrite Hnull in Hpa. discriminate Hpa.
Defined.

Lemma kfree_decrements_unchecked_witness :
  0x5000 ≠ 0
  ∧ (frame_index 0x5000 < length (physpages booted1))%nat
  ∧ refcount (kfree 0x5000 booted1) 0x5000 = refcount booted1 0x5000 - 1.
Proof.
  assert (H1 : 0x5000 ≠ 0) by discriminate.
  assert (H2 : (frame_index 0x5000 < length (physpages booted1))%nat)
    by (apply Nat.ltb_lt; vm_compute; reflexivity).
  split; [exact H1|]. split; [exact H2|].
  destruct (kfree_decrements_unchecked (M := weensy) eq_refl 0x5000 booted1 H1 H2)
    as (_ & Hdec & _).
  apply Hdec. vm_compute. split; reflexivity.
Defined.

Lemma syscall_exit_marks_free_witness :
  (1 < length (ptable booted1))%nat
  ∧ state (proc_at (syscall_exit 1 booted1) 1) = P_FREE
  ∧ pagetable (proc_at (syscall_exit 1 booted1) 1) = pagetable (proc_at booted1 1).
Proof.
  assert (H : (1 < length (ptable booted1))%nat)
    by (apply Nat.ltb_lt; vm_compute; reflexivity).
  split; [exact H|].
  exact (syscall_exit_marks_free (M := weensy) 1 booted1 H).
Defined.

Lemma syscall_unknown_number_panics_witness :
  ¬ (1 ≤ 7 ≤ 6)
  ∧ syscall (Regstate 7 0 0 0) booted1
    = SysPanic (update_proc (current booted1) (with_regs (Regstate 7 0 0 0)) booted1).
Proof.
  assert (H : ¬ (1 ≤ reg_rax (Regstate 7 0 0 0) ≤ 6)) by (simpl; lia).
  split; [exact H|].
  exact (proj1 (syscall_unknown_number_panics (M := weensy) (Regstate 7 0 0 0) booted1 H)).
Defined.

Lemma page_alloc_argument_check_witness :
  (PROC_START_ADDR = PROC_START_ADDR ∨ PROC_START_ADDR = MEMSIZE_VIRTUAL - PAGESIZE)
  ∧ (kalloc PAGESIZE booted1).1 ≠ 0
  ∧ has_path (tree_of booted1 (pagetable (current_proc booted1))) PROC_START_ADDR = true
  ∧ (syscall_page_alloc PROC_START_ADDR booted1).1 = 0.
Proof.
  assert (H1 : PROC_START_ADDR = PROC_START_ADDR
               ∨ PROC_START_ADDR = MEMSIZE_VIRTUAL - PAGESIZE) by (left; reflexivity).
  assert (H2 : (kalloc PAGESIZE booted1).1 ≠ 0) by (vm_compute; discriminate).
  assert (H3 : has_path (tree_of booted1 (pagetable (current_proc booted1)))
                 PROC_START_ADDR = true) by (vm_compute; reflexivity).
  split; [exact H1|]. split; [exact H2|]. split; [exact H3|].
  destruct (page_alloc_argument_check (M := weensy) eq_refl PROC_START_ADDR booted1)
    as (_ & _ & _ & _ & Hok).
  exact (Hok H1 H2 H3).
Defined.

(** Process 1 forks right after boot and the walk has arrived at 0x101000,
    a page the parent does not have: the child, in slot 2, has its root at
    0x8000 and the tables down to that entry, and the entry stays empty. *)
Lemma fork_skips_absent_page_witness :
  let st := fork_walked in
  let croot := pagetable (proc_at st 2) in
  (if fork_loop 257 0 2 fork_ready is inl _ then true else false) = true
  ∧ croot = 0x8000
  ∧ has_path (tree_of st croot) 0x101000 = true
  ∧ PROC_START_ADDR ≤ 0x101000
  ∧ vmiter_present (tree_of st (pagetable (current_proc st))) 0x101000 = false
  ∧ ∃ st', fork_page 2 0x101000 st = inl st'
      ∧ physpages st' = physpages st
      ∧ physmem st' = physmem st
      ∧ pt_tables (tree_of st' croot) = pt_tables (tree_of st croot)
      ∧ pte (tree_of st' croot) 0x101000 = 0
      ∧ vmiter_pa (tree_of st' croot) 0x101000 = NO_PA.
Proof.
  cbv zeta.
  assert (H0 : (if fork_loop 257 0 2 fork_ready is inl _ then true else false) = true)
    by (vm_compute; reflexivity).
  assert (Hc : pagetable (proc_at fork_walked 2) = 0x8000) by (vm_compute; reflexivity).
  assert (Hp : has_path (tree_of fork_walked (pagetable (proc_at fork_walked 2)))
                 0x101000 = true) by (vm_compute; reflexivity).
  assert (H1 : PROC_START_ADDR ≤ 0x101000) by (vm_compute; discriminate).
  assert (H2 : vmiter_present (tree_of fork_walked (pagetable (current_proc fork_walked)))
                 0x101000 = false) by (vm_compute; reflexivity).
  split; [exact H0|]. split; [exact Hc|]. split; [exact Hp|].
  split; [exact H1|]. split; [exact H2|].
  destruct (fork_skips_absent_page (M := weensy) 2 0x101000 fork_walked H1 H2)
    as (st' & He & Hpp & Hm & Hpt & _ & _ & Hrest).
  cbv zeta in Hrest. destruct Hrest as (Htb & Hpte & _ & Hpa & _).
  assert (Hc' : pagetable (proc_at st' 2) = pagetable (proc_at fork_walked 2))
    by (unfold proc_at; by rewrite Hpt).
  rewrite Hc' in Htb, Hpte, Hpa.
  exists st'. split; [exact He|]. split; [exact Hpp|]. split; [exact Hm|].
  split; [exact Htb|]. split; [exact Hpte | exact Hpa].
Defined.


End Evaluations.

(** * More of the kernel: allocation round trip, fork, exit *)

Section Lifecycle.
Context `{M : machine}.
Hypothesis wf : machine_wf = true.

Lemma wrap_refcount_0 : wrap_refcount 0 = 0.
Proof.
  destruct (wf_facts wf) as (_ & _ & _ & _ & _ & _ & _ & _ & _ & Hb & _).
  unfold wrap_refcount. apply Z.mod_0_l.
  assert (0 < 2 ^ refcount_bits) by (apply Z.pow_pos_nonneg; lia). lia.
Qed.

(** When no frame is free, [kalloc] fails and changes nothing. *)
Lemma kalloc_none_free st :
  (∀ pa, is_frame pa → ¬ frame_free st pa) → kalloc PAGESIZE st = (0, st).
Proof.
  intros Hnone. unfold kalloc.
  rewrite bool_decide_eq_false_2 by (unfold PAGESIZE; lia).
  destruct (kalloc_scan_spec NPAGES 0 st) as [(k & Hk & Hf & _) | [_ He]]; [|done].
  exfalso. apply (Hnone (0 + Z.of_nat k * PAGESIZE)); [|done].
  apply (is_frame_nth wf). exists k. split; [done | lia].
Qed.


(** ** fork: the choice of the slot *)

Lemma find_free_slot_lowest n i st j :
  find_free_slot n i st ≠ 0%nat →
  (i ≤ j < find_free_slot n i st)%nat →
  state (proc_at st j) ≠ P_FREE.
Proof.
  revert i. induction n as [|n IH]; intros i; simpl; [done|].
  case_bool_decide as Hs; [lia|].
  intros Hnz Hj. destruct (decide (j = i)) as [->|Hne]; [done|].
  apply (IH (S i)); [done | lia].
Qed.

Lemma find_free_slot_none n i st :
  (∀ j, (i ≤ j < i + n)%nat → state (proc_at st j) ≠ P_FREE) →
  find_free_slot n i st = 0%nat.
Proof.
  revert i. induction n as [|n IH]; intros i Hall; simpl; [done|].
  rewrite bool_decide_eq_false_2 by (apply Hall; lia).
  apply IH. intros j Hj. apply Hall. lia.
Qed.

(** X2: When every slot from 1 on is taken, fork returns -1 and changes
    nothing at all; slot 0 is not looked at, free as it may be. *)
Theorem fork_no_free_slot (st : kstate) :
  (∀ j, (1 ≤ j < NPROC)%nat → state (proc_at st j) ≠ P_FREE) →
  syscall_fork st = (-1, st).
Proof.
  intros Hall. unfold syscall_fork.
  rewrite find_free_slot_none; [done|].
  intros j Hj. apply Hall. lia.
Qed.

(** X3: When no frame is free, fork returns -1; the frame table, memory and
    the page tables are untouched. *)
Theorem fork_out_of_frames (st : kstate) :
  (∀ pa, is_frame pa → ¬ frame_free st pa) →
  (syscall_fork st).1 = -1
  ∧ physpages (syscall_fork st).2 = physpages st
  ∧ physmem (syscall_fork st).2 = physmem st
  ∧ pagetables (syscall_fork st).2 = pagetables st.
Proof.
  intros Hnone. unfold syscall_fork.
  case_bool_decide; [done|].
  unfold kalloc_pagetable. rewrite (kalloc_none_free _ Hnone).
  rewrite bool_decide_eq_true_2 by done. simpl. done.
Qed.

Lemma kalloc_pagetable_frame st :
  ptable (kalloc_pagetable st).2 = ptable st
  ∧ current (kalloc_pagetable st).2 = current st.
Proof.
  unfold kalloc_pagetable.
  destruct (kalloc_frame PAGESIZE st) as (Hp & Hc & _).
  destruct (kalloc PAGESIZE st) as [pt st0]. simpl in Hp, Hc.
  by destruct (bool_decide (pt = 0)).
Qed.

Lemma fork_loop_ptable n va child st st' :
  fork_loop n va child st = inl st' →
  ptable st' = ptable st ∧ current st' = current st.
Proof.
  revert va st. induction n as [|n IH]; intros va st; simpl.
  - by intros [= <-].
  - destruct (fork_page child va st) as [st1|st1] eqn:Hstep; [|done].
    intros Hloop. destruct (IH _ _ Hloop) as [-> ->].
    destruct (fork_page_only_leaf _ _ _ _ Hstep) as [(Hp & Hc & _) _]. done.
Qed.

Lemma proc_at_update_eq i f st :
  (i < length (ptable st))%nat →
  proc_at (update_proc i f st) i = f (proc_at st i).
Proof.
  intros Hi. unfold proc_at at 1. unfold update_proc, set_ptable. simpl.
  by rewrite list_lookup_insert_eq.
Qed.

Lemma proc_at_update_ne i j f st :
  i ≠ j → proc_at (update_proc i f st) j = proc_at st j.
Proof.
  intros Hne. unfold proc_at, update_proc, set_ptable. simpl.
  by rewrite list_lookup_insert_ne.
Qed.

Lemma proc_at_ptable st st' i :
  ptable st' = ptable st → proc_at st' i = proc_at st i.
Proof. unfold proc_at. by intros ->. Qed.

(** X4: A fork that succeeds takes the lowest free slot from 1 on and returns
    its index; the child's descriptor is runnable, carries that index as
    pid and the parent's saved registers with [rax] set to 0; no other
    descriptor changes. *)
Theorem fork_child_descriptor (st : kstate) :
  length (ptable st) = NPROC →
  (syscall_fork st).1 ≠ -1 →
  ∃ child : nat,
    (syscall_fork st).1 = Z.of_nat child
    ∧ (1 ≤ child < NPROC)%nat
    ∧ state (proc_at st child) = P_FREE
    ∧ (∀ j, (1 ≤ j < child)%nat → state (proc_at st j) ≠ P_FREE)
    ∧ state (proc_at (syscall_fork st).2 child) = P_RUNNABLE
    ∧ pid (proc_at (syscall_fork st).2 child) = Z.of_nat child
    ∧ regs (proc_at (syscall_fork st).2 child) = with_rax 0 (regs (current_proc st))
    ∧ ∀ j, j ≠ child → proc_at (syscall_fork st).2 j = proc_at st j.
Proof.
  intros Hlen Hok. unfold syscall_fork in *.
  set (child := find_free_slot (NPROC - 1) 1 st) in *.
  destruct (find_free_slot_spec (NPROC - 1) 1 st) as [H0 | [Hrange Hfree]];
    fold child in H0 || fold child in Hrange, Hfree.
  { rewrite bool_decide_eq_true_2 in Hok by done. by destruct Hok. }
  assert (Hnz : child ≠ 0%nat) by lia.
  rewrite (bool_decide_eq_false_2 (child = 0%nat)) in * by done.
  destruct (kalloc_pagetable_frame st) as [Hpt1 Hcur1].
  destruct (kalloc_pagetable st) as [root st1]. simpl in Hpt1, Hcur1.
  destruct (bool_decide (root = 0)); [simpl in Hok; by destruct Hok|].
  set (st2 := update_proc child (with_pagetable root) st1) in *.
  destruct (fork_loop (pages_below MEMSIZE_VIRTUAL) 0 child st2) as [st3|st3] eqn:Hloop;
    [|simpl in Hok; by destruct Hok].
  destruct (fork_loop_ptable _ _ _ _ _ Hloop) as [Hpt3 Hcur3].
  assert (Hlen1 : (child < length (ptable st1))%nat) by (rewrite Hpt1; lia).
  assert (Hlen3 : (child < length (ptable st3))%nat).
  { rewrite Hpt3. unfold st2, update_proc, set_ptable. simpl.
    by rewrite length_insert. }
  assert (Hregs : regs (current_proc st3) = regs (current_proc st)).
  { unfold current_proc. rewrite Hcur3.
    rewrite (proc_at_ptable st2 st3) by done.
    change (current st2) with (current st1). rewrite Hcur1.
    destruct (decide (child = current st)) as [<-|Hne].
    - unfold st2. rewrite proc_at_update_eq by done.
      by rewrite (proc_at_ptable st st1).
    - unfold st2. rewrite proc_at_update_ne by done.
      by rewrite (proc_at_ptable st st1). }
  exists child. cbn [fst snd].
  split; [done|]. split; [lia|]. split; [done|].
  split. { intros j Hj. apply (find_free_slot_lowest (NPROC - 1) 1); [done | lia]. }
  rewrite proc_at_update_eq by done. simpl.
  split; [done|]. split; [done|]. split; [by rewrite Hregs|].
  intros j Hj. rewrite proc_at_update_ne by done.
  rewrite (proc_at_ptable st2 st3) by done.
  unfold st2. rewrite proc_at_update_ne by done.
  by apply proc_at_ptable.
Qed.

End Lifecycle.

Section Isolation.
Context `{M : machine}.

Lemma kfree_keeps kptr st :
  ptable (kfree kptr st) = ptable st
  ∧ current (kfree kptr st) = current st
  ∧ pagetables (kfree kptr st) = pagetables st
  ∧ physmem (kfree kptr st) = physmem st
  ∧ length (physpages (kfree kptr st)) = length (physpages st).
Proof.
  unfold kfree. case_bool_decide; [done|].
  unfold set_refcount, set_physpages. simpl. by rewrite length_insert.
Qed.

Lemma exit_loop_keeps n va root st :
  ptable (exit_loop n va root st) = ptable st
  ∧ current (exit_loop n va root st) = current st
  ∧ pagetables (exit_loop n va root st) = pagetables st
  ∧ physmem (exit_loop n va root st) = physmem st
  ∧ length (physpages (exit_loop n va root st)) = length (physpages st).
Proof.
  revert va st. induction n as [|n IH]; intros va st; simpl; [done|].
  destruct (_ && _); [|apply IH].
  destruct (IH (va + PAGESIZE) (kfree (vmiter_pa (tree_of st root) va) st))
    as (-> & -> & -> & -> & ->).
  apply kfree_keeps.
Qed.

Lemma kfree_all_keeps l st :
  let st' := foldl (λ s pa, kfree pa s) st l in
  ptable st' = ptable st ∧ current st' = current st
  ∧ pagetables st' = pagetables st ∧ physmem st' = physmem st
  ∧ length (physpages st') = length (physpages st).
Proof.
  revert st. induction l as [|pa l IH]; intros st; simpl; [done|].
  destruct (IH (kfree pa st)) as (-> & -> & -> & -> & ->).
  apply kfree_keeps.
Qed.

Lemma syscall_exit_keeps i st :
  ptable (syscall_exit i st) = <[i := with_state P_FREE (proc_at st i)]> (ptable st)
  ∧ current (syscall_exit i st) = current st
  ∧ pagetables (syscall_exit i st) = pagetables st
  ∧ physmem (syscall_exit i st) = physmem st
  ∧ length (physpages (syscall_exit i st)) = length (physpages st).
Proof.
  unfold syscall_exit.
  set (pt := pagetable (proc_at st i)).
  set (st1 := exit_loop _ 0 pt st).
  set (l := ptiter_pages (tree_of st1 pt)).
  destruct (exit_loop_keeps (pages_below MEMSIZE_VIRTUAL) 0 pt st)
    as (H1 & H2 & H3 & H4 & H5). fold st1 in H1, H2, H3, H4, H5.
  destruct (kfree_all_keeps l st1) as (G1 & G2 & G3 & G4 & G5).
  destruct (kfree_keeps pt (foldl (λ s pa, kfree pa s) st1 l))
    as (K1 & K2 & K3 & K4 & K5).
  unfold update_proc, set_ptable, proc_at. simpl.
  rewrite K1, K2, K3, K4, K5, G1, G2, G3, G4, G5, H1, H2, H3, H4, H5. done.
Qed.

(** X8: [syscall_exit] only lowers refcounts and marks the descriptor: it
    changes no byte of memory (a freed frame keeps its contents), no page
    table, no other descriptor and not [current], and the frame table keeps
    its size. *)
Theorem syscall_exit_touches_frame_table_only (i : nat) (st : kstate) :
  physmem (syscall_exit i st) = physmem st
  ∧ pagetables (syscall_exit i st) = pagetables st
  ∧ current (syscall_exit i st) = current st
  ∧ length (physpages (syscall_exit i st)) = length (physpages st)
  ∧ ∀ j, j ≠ i → proc_at (syscall_exit i st) j = proc_at st j.
Proof.
  destruct (syscall_exit_keeps i st) as (H1 & H2 & H3 & H4 & H5).
  do 4 (split; [done|]).
  intros j Hj. unfold proc_at. rewrite H1. by rewrite list_lookup_insert_ne.
Qed.

Lemma syscall_exit_others i st j :
  j ≠ i → proc_at (syscall_exit i st) j = proc_at st j.
Proof.
  intros Hj. destruct (syscall_exit_keeps i st) as (H1 & _).
  unfold proc_at. rewrite H1. by rewrite list_lookup_insert_ne.
Qed.

Lemma fork_page_fail_others child va st st1 j :
  fork_page child va st = inr st1 → j ≠ child →
  proc_at st1 j = proc_at st j.
Proof.
  unfold fork_page. intros Hstep Hj.
  set (croot := pagetable (proc_at st child)) in *.
  set (pit := tree_of st (pagetable (current_proc st))) in *.
  assert (Hexit : ∀ s, ptable s = ptable st →
            proc_at (syscall_exit child s) j = proc_at st j).
  { intros s Hs. rewrite syscall_exit_others by done. by apply proc_at_ptable. }
  assert (Htm : ∀ pa perm s, ptable s = ptable st →
            ptable (try_map croot va pa perm s).2 = ptable st).
  { intros pa perm s Hs.
    destruct (try_map_only_leaf croot va pa perm s) as [(Hp & _) _].
    by rewrite Hp. }
  destruct (bool_decide (va < PROC_START_ADDR)).
  { specialize (Htm (vmiter_pa pit va) (vmiter_perm pit va) st eq_refl).
    destruct (try_map croot va _ _ st) as [r s]. simpl in Htm.
    destruct (bool_decide (r ≠ 0)); [|done].
    injection Hstep as <-. by apply Hexit. }
  destruct (vmiter_writable pit va && vmiter_user pit va).
  { destruct (kalloc_frame PAGESIZE st) as (Hk & _).
    destruct (kalloc PAGESIZE st) as [pa s]. simpl in Hk.
    destruct (bool_decide (pa = 0)).
    { injection Hstep as <-. by apply Hexit. }
    specialize (Htm pa (vmiter_perm pit va)
                  (set_physmem (λ m, memcpy m pa (vmiter_pa pit va) PAGESIZE) s) Hk).
    destruct (try_map croot va pa _ _) as [r s']. simpl in Htm.
    destruct (bool_decide (r ≠ 0)); [|done].
    injection Hstep as <-. by apply Hexit. }
  destruct (negb (vmiter_writable pit va) && vmiter_user pit va).
  { specialize (Htm (vmiter_pa pit va) (vmiter_perm pit va) st eq_refl).
    destruct (try_map croot va _ _ st) as [r s]. simpl in Htm.
    destruct (bool_decide (r ≠ 0)).
    - injection Hstep as <-. by apply Hexit.
    - by destruct (bool_decide (_ ≠ NO_PA)). }
  specialize (Htm (vmiter_pa pit va) (vmiter_perm pit va) st eq_refl).
  destruct (try_map croot va _ _ st) as [r s]. simpl in Htm.
  destruct (bool_decide (r ≠ 0)); [|done].
  injection Hstep as <-. by apply Hexit.
Qed.

Lemma fork_loop_fail_others n va child st st' j :
  fork_loop n va child st = inr st' → j ≠ child →
  proc_at st' j = proc_at st j.
Proof.
  revert va st. induction n as [|n IH]; intros va st; simpl; [done|].
  destruct (fork_page child va st) as [st1|st1] eqn:Hstep.
  - intros Hloop Hj. rewrite (IH _ _ Hloop Hj).
    destruct (fork_page_only_leaf _ _ _ _ Hstep) as [(Hp & _) _].
    by apply proc_at_ptable.
  - intros [= <-] Hj. by eapply fork_page_fail_others.
Qed.

Lemma fork_leaves_live_descriptors_aux (st : kstate) (j : nat) :
  state (proc_at st j) ≠ P_FREE →
  proc_at (syscall_fork st).2 j = proc_at st j.
Proof.
  intros Hlive. unfold syscall_fork.
  set (child := find_free_slot (NPROC - 1) 1 st).
  case_bool_decide as Hc; [done|].
  assert (Hj : j ≠ child).
  { intros ->. destruct (find_free_slot_spec (NPROC - 1) 1 st) as [H0 | [_ Hf]];
      fold child in H0 || fold child in Hf; done. }
  destruct (kalloc_pagetable_frame st) as [Hpt1 _].
  destruct (kalloc_pagetable st) as [root st1]. simpl in Hpt1.
  set (st2 := update_proc child (with_pagetable root) st1).
  assert (H2 : proc_at st2 j = proc_at st j).
  { unfold st2. rewrite proc_at_update_ne by done. by apply proc_at_ptable. }
  case_bool_decide; [done|].
  destruct (fork_loop _ 0 child st2) as [st3|st3] eqn:Hloop; simpl.
  - rewrite proc_at_update_ne by done.
    destruct (fork_loop_ptable _ _ _ _ _ Hloop) as [Hp _].
    by rewrite (proc_at_ptable st2 st3).
  - by rewrite (fork_loop_fail_others _ _ _ _ _ _ Hloop Hj).
Qed.

(** X5: Fork, whether it succeeds or fails at any point, writes to one
    descriptor only, the free slot it chose: the descriptor of every
    process that is not free, the parent's included, is left as it was. *)
Theorem fork_leaves_live_descriptors (st : kstate) (j : nat) :
  state (proc_at st j) ≠ P_FREE →
  proc_at (syscall_fork st).2 j = proc_at st j.
Proof. apply fork_leaves_live_descriptors_aux. Qed.

Lemma syscall_page_alloc_ptable addr st :
  ptable (syscall_page_alloc addr st).2 = ptable st
  ∧ current (syscall_page_alloc addr st).2 = current st.
Proof.
  unfold syscall_page_alloc. destruct (_ || _); [done|].
  destruct (kalloc_frame PAGESIZE st) as (Hk & Hc & _).
  destruct (kalloc PAGESIZE st) as [pa s]. simpl in Hk, Hc.
  destruct (bool_decide (pa = 0)); [done|].
  destruct (try_map_only_leaf (pagetable (current_proc st)) addr pa
              (Z.lor (Z.lor PTE_P PTE_W) PTE_U) s) as [(Hp & Hc' & _) _].
  destruct (try_map _ addr pa _ s) as [r s']. simpl in Hp, Hc'.
  destruct (bool_decide (r ≠ 0)); simpl; split; congruence.
Qed.

(** X9: No system call, however it ends, changes the descriptor of a live
    process other than the caller. *)
Theorem syscall_leaves_other_processes (r : regstate) (st : kstate) (j : nat) :
  j ≠ current st →
  state (proc_at st j) ≠ P_FREE →
  proc_at (sysresult_state (syscall r st)) j = proc_at st j.
Proof.
  intros Hj Hlive. unfold syscall.
  set (st0 := update_proc (current st) (with_regs r) st).
  assert (H0 : proc_at st0 j = proc_at st j)
    by (unfold st0; by rewrite proc_at_update_ne).
  change (current st0) with (current st).
  repeat case_bool_decide; simpl; try done.
  - by rewrite proc_at_update_ne.
  - destruct (syscall_page_alloc_ptable (reg_rdi (regs (current_proc st0))) st0)
      as [Hp _].
    destruct (syscall_page_alloc _ st0) as [v s]. simpl in *.
    by rewrite (proc_at_ptable st0 s).
  - pose proof (fork_leaves_live_descriptors_aux st0 j) as Hf.
    destruct (syscall_fork st0) as [v s]. simpl in *.
    rewrite Hf; [done|]. by rewrite H0.
  - by rewrite syscall_exit_others.
Qed.

End Isolation.

(** * The scheduler and the exception handler *)

Section Scheduling.
Context `{M : machine}.

(** The slot the loop looks at in its [d]-th iteration from [i]. *)
Lemma schedule_loop_spec n i st :
  0 ≤ i → (0 < NPROC)%nat →
  match schedule_loop n i st with
  | Some j =>
      ∃ d, 1 ≤ d ≤ Z.of_nat n
        ∧ j = Z.to_nat ((i + d) mod Z.of_nat NPROC)
        ∧ state (proc_at st j) = P_RUNNABLE
        ∧ ∀ k, 1 ≤ k < d →
            state (proc_at st (Z.to_nat ((i + k) mod Z.of_nat NPROC))) ≠ P_RUNNABLE
  | None =>
      ∀ k, 1 ≤ k ≤ Z.of_nat n →
        state (proc_at st (Z.to_nat ((i + k) mod Z.of_nat NPROC))) ≠ P_RUNNABLE
  end.
Proof.
  intros Hi HN. revert i Hi. induction n as [|n IH]; intros i Hi.
  - simpl. intros k Hk. lia.
  - cbn [schedule_loop].
    rewrite Z.rem_mod_nonneg by lia.
    set (i' := (i + 1) mod Z.of_nat NPROC).
    assert (Hi' : 0 ≤ i') by (apply Z.mod_pos_bound; lia).
    assert (Hshift : ∀ k, (i' + k) mod Z.of_nat NPROC = (i + (k + 1)) mod Z.of_nat NPROC).
    { intros k. unfold i'. rewrite Zplus_mod_idemp_l. f_equal. lia. }
    case_bool_decide as Hrun.
    + exists 1. split; [lia|]. split; [done|]. split; [done|]. intros k Hk. lia.
    + specialize (IH i' Hi').
      destruct (schedule_loop n i' st) as [j|].
      * destruct IH as (d & Hd & Hj & Hr & Hbefore).
        exists (d + 1). split; [lia|]. rewrite <- Hshift. split; [done|].
        split; [done|]. intros k Hk.
        destruct (decide (k = 1)) as [->|Hne]; [done|].
        replace k with ((k - 1) + 1) by lia. rewrite <- Hshift.
        apply Hbefore. lia.
      * intros k Hk.
        destruct (decide (k = 1)) as [->|Hne]; [done|].
        replace k with ((k - 1) + 1) by lia. rewrite <- Hshift.
        apply IH. lia.
Qed.

(** Every slot is looked at within one round. *)
Lemma round_reaches_slot i s :
  0 ≤ i → (s < NPROC)%nat →
  ∃ k, 1 ≤ k ≤ Z.of_nat NPROC ∧ Z.to_nat ((i + k) mod Z.of_nat NPROC) = s.
Proof.
  intros Hi Hs.
  set (N := Z.of_nat NPROC). assert (HN : 0 < N) by (unfold N; lia).
  exists ((Z.of_nat s - i - 1) mod N + 1).
  pose proof (Z.mod_pos_bound (Z.of_nat s - i - 1) N HN).
  split; [lia|].
  replace (i + ((Z.of_nat s - i - 1) mod N + 1))
    with ((Z.of_nat s - i - 1) mod N + (i + 1)) by lia.
  rewrite Zplus_mod_idemp_l.
  replace (Z.of_nat s - i - 1 + (i + 1)) with (Z.of_nat s) by lia.
  rewrite Z.mod_small by (unfold N; lia). apply Nat2Z.id.
Qed.

Lemma schedule_loop_more n m i st j :
  schedule_loop n i st = Some j → schedule_loop (n + m) i st = Some j.
Proof.
  revert i. induction n as [|n IH]; intros i; simpl; [done|].
  case_bool_decide; [done|]. apply IH.
Qed.

Lemma schedule_loop_nobody n i st :
  (0 < NPROC)%nat → 0 ≤ i →
  (∀ s, (s < NPROC)%nat → state (proc_at st s) ≠ P_RUNNABLE) →
  schedule_loop n i st = None.
Proof.
  intros HN Hi Hall. revert i Hi. induction n as [|n IH]; intros i Hi; simpl; [done|].
  rewrite Z.rem_mod_nonneg by lia.
  assert (0 ≤ (i + 1) mod Z.of_nat NPROC < Z.of_nat NPROC)
    by (apply Z.mod_pos_bound; lia).
  rewrite bool_decide_eq_false_2 by (apply Hall; lia).
  apply IH. lia.
Qed.

(** One round decides: with at least [NPROC] iterations the loop finds what
    it finds in [NPROC]. *)
Lemma schedule_loop_round n i st :
  (0 < NPROC)%nat → 0 ≤ i → (NPROC ≤ n)%nat →
  schedule_loop n i st = schedule_loop NPROC i st.
Proof.
  intros HN Hi Hn.
  destruct (schedule_loop NPROC i st) as [j|] eqn:He.
  - replace n with (NPROC + (n - NPROC))%nat by lia. by apply schedule_loop_more.
  - apply schedule_loop_nobody; [done | done |].
    intros s Hs. pose proof (schedule_loop_spec NPROC i st Hi HN) as Hspec.
    rewrite He in Hspec.
    destruct (round_reaches_slot i s Hi Hs) as (k & Hk & <-). by apply Hspec.
Qed.

Lemma run_runnable i st : state (proc_at st i) = P_RUNNABLE → run i st = KRun (set_current i st).
Proof. intros H. unfold run. by rewrite bool_decide_eq_true_2. Qed.

Lemma schedule_spins_cases n st :
  0 ≤ pid (current_proc st) → (0 < NPROC)%nat →
  match schedule_loop n (pid (current_proc st)) st with
  | Some j => schedule_spins n st = KRun (set_current j st)
              ∧ state (proc_at st j) = P_RUNNABLE
  | None => schedule_spins n st = KSpin st
  end.
Proof.
  intros Hp HN. unfold schedule_spins.
  pose proof (schedule_loop_spec n (pid (current_proc st)) st Hp HN) as Hspec.
  destruct (schedule_loop n _ st) as [j|]; [|done].
  destruct Hspec as (d & _ & _ & Hr & _). by rewrite run_runnable.
Qed.

(** X15: [schedule] is round-robin: the process it runs is runnable and is the
    first runnable one after the current process in cyclic order of the
    slots; only [current] changes. *)
Theorem schedule_round_robin (st st' : kstate) :
  0 ≤ pid (current_proc st) → (0 < NPROC)%nat →
  schedule st = KRun st' →
  st' = set_current (current st') st
  ∧ state (current_proc st') = P_RUNNABLE
  ∧ ∃ d, 1 ≤ d ≤ Z.of_nat NPROC
      ∧ current st' = Z.to_nat ((pid (current_proc st) + d) mod Z.of_nat NPROC)
      ∧ ∀ k, 1 ≤ k < d →
          state (proc_at st (Z.to_nat ((pid (current_proc st) + k) mod Z.of_nat NPROC)))
          ≠ P_RUNNABLE.
Proof.
  intros Hp HN. unfold schedule.
  pose proof (schedule_spins_cases NPROC st Hp HN) as Hc.
  pose proof (schedule_loop_spec NPROC (pid (current_proc st)) st Hp HN) as Hspec.
  destruct (schedule_loop NPROC _ st) as [j|].
  - destruct Hc as [-> Hr]. intros [= <-]. simpl.
    split; [done|]. split; [done|].
    destruct Hspec as (d & Hd & Hj & _ & Hb). by exists d.
  - rewrite Hc. done.
Qed.

(** X16: [schedule] runs a process exactly when some slot is runnable;
    otherwise it spins for ever without running anything, however long it
    is left to spin; it never stops in a failed assertion. *)
Theorem schedule_runs_iff_runnable (st : kstate) :
  0 ≤ pid (current_proc st) → (0 < NPROC)%nat →
  ((∃ s, (s < NPROC)%nat ∧ state (proc_at st s) = P_RUNNABLE) →
   ∃ j, (∀ n, (NPROC ≤ n)%nat → schedule_spins n st = KRun (set_current j st))
        ∧ state (proc_at st j) = P_RUNNABLE)
  ∧ ((∀ s, (s < NPROC)%nat → state (proc_at st s) ≠ P_RUNNABLE) →
     ∀ n, schedule_spins n st = KSpin st).
Proof.
  intros Hp HN. split.
  - intros (s & Hs & Hr).
    pose proof (schedule_spins_cases NPROC st Hp HN) as Hc.
    pose proof (schedule_loop_spec NPROC (pid (current_proc st)) st Hp HN) as Hspec.
    destruct (schedule_loop NPROC _ st) as [j|] eqn:He.
    + destruct Hc as [Hc Hj]. exists j. split; [|done].
      intros n Hn. unfold schedule_spins in *.
      by rewrite (schedule_loop_round n _ st HN Hp Hn), He in *.
    + exfalso. destruct (round_reaches_slot _ s Hp Hs) as (k & Hk & <-).
      by apply (Hspec k).
  - intros Hall n. unfold schedule_spins.
    by rewrite schedule_loop_nobody.
Qed.

Lemma schedule_not_panic st st' :
  0 ≤ pid (current_proc st) → (0 < NPROC)%nat → schedule st ≠ KPanic st'.
Proof.
  intros Hp HN. unfold schedule.
  pose proof (schedule_spins_cases NPROC st Hp HN) as Hc.
  destruct (schedule_loop NPROC _ st) as [j|]; [destruct Hc as [-> _]| rewrite Hc]; done.
Qed.

Lemma schedule_runs_runnable st st' :
  schedule st = KRun st' →
  state (current_proc st') = P_RUNNABLE ∧ ptable st' = ptable st
  ∧ physpages st' = physpages st ∧ physmem st' = physmem st
  ∧ pagetables st' = pagetables st.
Proof.
  unfold schedule, schedule_spins, run.
  destruct (schedule_loop NPROC _ st) as [j|]; [|done].
  case_bool_decide as Hr; [|done]. by intros [= <-].
Qed.

Lemma schedule_state st :
  ptable (kresult_state (schedule st)) = ptable st
  ∧ physpages (kresult_state (schedule st)) = physpages st
  ∧ physmem (kresult_state (schedule st)) = physmem st
  ∧ pagetables (kresult_state (schedule st)) = pagetables st.
Proof.
  unfold schedule, schedule_spins, run.
  destruct (schedule_loop NPROC _ st) as [j|]; [|done].
  by case_bool_decide.
Qed.

Context (INT_PF INT_IRQ IRQ_TIMER : Z).
Hypothesis int_distinct : INT_PF ≠ INT_IRQ + IRQ_TIMER.

(** X17: A page fault in user mode: the faulting process is marked faulted with
    its registers saved, it is not the process that runs next, and none of
    its frames is released: frame table, memory and page tables are as
    before. *)
Theorem exception_user_page_fault (r : regstate) (errcode ticks : Z) (st : kstate) :
  (current st < length (ptable st))%nat →
  Z.land errcode PTE_U ≠ 0 →
  let res := exception INT_PF INT_IRQ IRQ_TIMER r INT_PF errcode ticks st in
  res.1 = ticks
  ∧ proc_at (kresult_state res.2) (current st)
    = with_state P_FAULTED (with_regs r (current_proc st))
  ∧ (∀ st', res.2 = KRun st' → current st' ≠ current st)
  ∧ physpages (kresult_state res.2) = physpages st
  ∧ physmem (kresult_state res.2) = physmem st
  ∧ pagetables (kresult_state res.2) = pagetables st.
Proof.
  intros Hcur Hu. cbv zeta. unfold exception.
  rewrite (bool_decide_eq_false_2 (INT_PF = INT_IRQ + IRQ_TIMER)) by done.
  rewrite (bool_decide_eq_true_2 (INT_PF = INT_PF)) by done.
  rewrite (bool_decide_eq_false_2 (Z.land errcode PTE_U = 0)) by done.
  set (st0 := update_proc (current st) (with_regs r) st).
  change (current st0) with (current st).
  set (st1 := update_proc (current st) (with_state P_FAULTED) st0).
  assert (H1 : proc_at st1 (current st)
               = with_state P_FAULTED (with_regs r (current_proc st))).
  { unfold st1. rewrite proc_at_update_eq.
    - unfold st0. by rewrite proc_at_update_eq.
    - unfold st0, update_proc, set_ptable. simpl. by rewrite length_insert. }
  assert (Hc1 : current_proc st1 = proc_at st1 (current st)) by done.
  rewrite Hc1, H1. simpl.
  destruct (schedule_state st1) as (Hp & Hf & Hm & Ht).
  split; [done|]. split; [unfold proc_at in *; by rewrite Hp|].
  split; [|done].
  intros st' Hrun Hsame.
  destruct (schedule_runs_runnable _ _ Hrun) as (Hr & Hp' & _).
  unfold current_proc in Hr. rewrite Hsame in Hr.
  rewrite (proc_at_ptable st1 st') in Hr by done. rewrite H1 in Hr. done.
Qed.

(** X18: The handler stops the kernel exactly for a page fault in kernel mode
    and for an interrupt that is neither the timer nor a page fault. *)
Theorem exception_panics_iff (r : regstate) (intno errcode ticks : Z) (st : kstate) :
  0 ≤ pid (current_proc st) → (0 < NPROC)%nat →
  (current st < length (ptable st))%nat →
  (∃ st', (exception INT_PF INT_IRQ IRQ_TIMER r intno errcode ticks st).2 = KPanic st')
  ↔ (intno = INT_PF ∧ Z.land errcode PTE_U = 0)
    ∨ (intno ≠ INT_PF ∧ intno ≠ INT_IRQ + IRQ_TIMER).
Proof.
  intros Hpid HN Hcur. unfold exception.
  set (st0 := update_proc (current st) (with_regs r) st).
  change (current st0) with (current st).
  assert (H0 : current_proc st0 = with_regs r (current_proc st))
    by (unfold current_proc, st0; by rewrite proc_at_update_eq).
  assert (Hp0 : 0 ≤ pid (current_proc st0)) by (by rewrite H0).
  case_bool_decide as Ht; simpl.
  { split.
    - intros [st' H]. by apply schedule_not_panic in H.
    - intros [[-> _] | [_ ?]]; done. }
  case_bool_decide as Hpf; simpl.
  2: { split; [intros _; by right | intros _; by eexists]. }
  case_bool_decide as Hk; simpl.
  { split; [intros _; by left | intros _; by eexists]. }
  set (st1 := update_proc (current st) (with_state P_FAULTED) st0).
  assert (H1 : current_proc st1 = with_state P_FAULTED (current_proc st0)).
  { unfold current_proc, st1. change (current (update_proc _ _ st0)) with (current st).
    rewrite proc_at_update_eq; [done|].
    unfold st0, update_proc, set_ptable. simpl. by rewrite length_insert. }
  rewrite H1. simpl.
  split.
  - intros [st' H]. apply schedule_not_panic in H; [done | | done].
    rewrite H1. simpl. done.
  - intros [[_ ?] | [? _]]; done.
Qed.

(** X19: A timer interrupt of a runnable process counts one tick and always
    resumes a runnable process, the interrupted one at the latest: the
    kernel neither spins nor stops, and only [current] and the saved
    registers of the interrupted process change. *)
Theorem exception_timer_resumes (r : regstate) (errcode ticks : Z) (st : kstate) :
  (0 < NPROC)%nat →
  (current st < NPROC)%nat →
  length (ptable st) = NPROC →
  pid (current_proc st) = Z.of_nat (current st) →
  state (current_proc st) = P_RUNNABLE →
  let res := exception INT_PF INT_IRQ IRQ_TIMER r (INT_IRQ + IRQ_TIMER) errcode ticks st in
  res.1 = (ticks + 1) mod 2 ^ 64
  ∧ ∃ j, res.2 = KRun (set_current j (update_proc (current st) (with_regs r) st))
       ∧ state (proc_at st j) = P_RUNNABLE.
Proof.
  intros HN Hcur Hlen Hpid Hrun. cbv zeta. unfold exception.
  rewrite bool_decide_eq_true_2 by done. simpl. split; [done|].
  set (st0 := update_proc (current st) (with_regs r) st).
  assert (H0 : current_proc st0 = with_regs r (current_proc st)).
  { unfold current_proc, st0. rewrite proc_at_update_eq; [done | simpl; lia]. }
  assert (Hp0 : 0 ≤ pid (current_proc st0)) by (rewrite H0; simpl; lia).
  assert (Hst : ∀ j, state (proc_at st0 j) = state (proc_at st j)).
  { intros j. unfold st0. destruct (decide (j = current st)) as [->|Hne].
    - rewrite proc_at_update_eq by lia. done.
    - by rewrite proc_at_update_ne. }
  pose proof (schedule_spins_cases NPROC st0 Hp0 HN) as Hc.
  pose proof (schedule_loop_spec NPROC (pid (current_proc st0)) st0 Hp0 HN) as Hspec.
  unfold schedule.
  destruct (schedule_loop NPROC _ st0) as [j|].
  - destruct Hc as [-> Hj]. exists j. split; [done|]. by rewrite <- Hst.
  - exfalso.
    destruct (round_reaches_slot (pid (current_proc st0)) (current st) Hp0 Hcur)
      as (k & Hk & Hs).
    apply (Hspec k Hk). rewrite Hs, Hst. done.
Qed.

End Scheduling.

(** * Page-table entries, PAGE_ALLOC and the loader *)

Section Entries.
Context `{M : machine}.
Hypothesis wf : machine_wf = true.

(** The fields of the entry [pa | perm] for an aligned address below 2^52
    and permission bits below 2^12. *)
Lemma pte_fields pa perm :
  0 ≤ pa < 2 ^ 52 → pa mod PAGESIZE = 0 → 0 ≤ perm < PAGESIZE →
  Z.land (Z.lor pa perm) PTE_PAMASK = pa
  ∧ Z.land (Z.lor pa perm) (PAGESIZE - 1) = perm
  ∧ Z.land (Z.lor pa perm) PTE_P = Z.land perm PTE_P.
Proof.
  unfold PAGESIZE. intros Hpa Hal Hperm.
  assert (Hlow : Z.land pa (Z.ones 12) = 0) by (rewrite Z.land_ones by lia; done).
  assert (Hplow : Z.land perm (Z.ones 12) = perm)
    by (rewrite Z.land_ones by lia; apply Z.mod_small; lia).
  assert (Hhigh : Z.land pa (Z.ones 52) = pa)
    by (rewrite Z.land_ones by lia; apply Z.mod_small; lia).
  assert (H1 : Z.land pa PTE_PAMASK = pa).
  { rewrite <- Hhigh at 2.
    change (Z.ones 52) with (Z.lor PTE_PAMASK (Z.ones 12)).
    by rewrite Z.land_lor_distr_r, Hlow, Z.lor_0_r. }
  assert (H2 : Z.land perm PTE_PAMASK = 0).
  { rewrite <- Hplow, <- Z.land_assoc.
    change (Z.land (Z.ones 12) PTE_PAMASK) with 0. apply Z.land_0_r. }
  assert (H3 : Z.land pa PTE_P = 0).
  { change PTE_P with (Z.land (Z.ones 12) 1).
    by rewrite Z.land_assoc, Hlow. }
  rewrite !Z.land_lor_distr_l.
  change (4096 - 1) with (Z.ones 12).
  rewrite H1, H2, H3, Hlow, Hplow. by rewrite Z.lor_0_r, !Z.lor_0_l.
Qed.

Lemma aligned_offset va : va mod PAGESIZE = 0 → Z.land va (PAGESIZE - 1) = 0.
Proof.
  unfold PAGESIZE. intros H. change (4096 - 1) with (Z.ones 12).
  by rewrite Z.land_ones by lia.
Qed.

Lemma is_frame_bounds pa :
  is_frame pa → 0 ≤ pa < 2 ^ 52 ∧ pa mod PAGESIZE = 0.
Proof.
  destruct (wf_facts wf) as (_ & _ & _ & _ & _ & _ & _ & _ & Hm & _).
  intros [[H0 H1] H2]. split; [|done]. split; [done|].
  assert (2 ^ 47 < 2 ^ 52) by done. lia.
Qed.

(** What a successful [kalloc] returns. *)
Lemma kalloc_some st :
  (kalloc PAGESIZE st).1 ≠ 0 →
  is_frame (kalloc PAGESIZE st).1
  ∧ frame_free st (kalloc PAGESIZE st).1
  ∧ (kalloc PAGESIZE st).2
    = set_physmem (λ m, memset m (kalloc PAGESIZE st).1 0xCC PAGESIZE)
        (set_refcount (kalloc PAGESIZE st).1 (wrap_refcount 1) st).
Proof.
  unfold kalloc. rewrite bool_decide_eq_false_2 by (unfold PAGESIZE; lia).
  destruct (kalloc_scan_spec NPAGES 0 st) as [(k & Hk & Hf & _ & He) | [_ He]];
    rewrite He; simpl; [|done].
  intros _. split; [|done].
  apply (is_frame_nth wf). exists k. split; [done | lia].
Qed.

(** [kalloc] never touches the refcount of a frame that is in use. *)
Lemma kalloc_keeps_used sz st pa :
  refcount st pa ≠ 0 → refcount (kalloc sz st).2 pa = refcount st pa.
Proof.
  intros Hused. unfold kalloc. case_bool_decide; [done|].
  destruct (kalloc_scan_spec NPAGES 0 st) as [(k & Hk & [_ Hf] & _ & He) | [_ He]];
    rewrite He; simpl; [|done].
  change (refcount (set_physmem _ ?s) pa) with (refcount s pa).
  apply refcount_set_refcount_ne. intros Heq.
  apply Hused. unfold refcount in *. by rewrite <- Heq.
Qed.

(** A walk that made its tables ends with the whole path in place, and
    keeps every refcount that was not 0. *)
Lemma new_tables_ok lvls root va st :
  (new_tables lvls root va st).1 = 0 →
  (∀ lvl, lvl ∈ lvls → has_table (tree_of (new_tables lvls root va st).2 root) lvl va = true)
  ∧ (∀ lvl, has_table (tree_of st root) lvl va = true →
       has_table (tree_of (new_tables lvls root va st).2 root) lvl va = true).
Proof.
  revert st. induction lvls as [|l rest IH]; intros st; simpl.
  - intros _. split; [intros lvl Hin; by apply elem_of_nil in Hin | done].
  - destruct (has_table (tree_of st root) l va) eqn:Hl.
    + intros Hok. destruct (IH st Hok) as [Hin Hmono]. split; [|done].
      intros lvl Hlvl. apply elem_of_cons in Hlvl as [->|Hlvl]; [by apply Hmono | by apply Hin].
    + pose proof (tree_of_kalloc PAGESIZE st root) as Htr.
      destruct (kalloc PAGESIZE st) as [pt st1]. simpl in Htr.
      case_bool_decide; [done|].
      set (st2 := add_table root (table_key l va) pt
                    (set_physmem (λ m, memset m pt 0 PAGESIZE) st1)).
      assert (Hadd : ∀ lvl, has_table (tree_of st2 root) lvl va
                = bool_decide (lvl = l) || has_table (tree_of st root) lvl va).
      { intros lvl. unfold st2, add_table. rewrite tree_of_set_tree_eq.
        unfold has_table. simpl.
        change (tree_of (set_physmem _ st1) root) with (tree_of st1 root).
        rewrite Htr. unfold table_key.
        destruct (decide (lvl = l)) as [->|Hne].
        - rewrite lookup_insert_eq. rewrite bool_decide_eq_true_2 by eauto.
          by rewrite bool_decide_eq_true_2.
        - rewrite lookup_insert_ne by congruence.
          by rewrite (bool_decide_eq_false_2 (lvl = l)). }
      intros Hok. destruct (IH st2 Hok) as [Hin Hmono]. split.
      * intros lvl Hlvl. apply elem_of_cons in Hlvl as [->|Hlvl]; [|by apply Hin].
        apply Hmono. rewrite Hadd. by rewrite bool_decide_eq_true_2.
      * intros lvl Hlvl. apply Hmono. rewrite Hadd, Hlvl. apply orb_true_r.
Qed.

Lemma new_tables_keeps_used lvls root va st pa :
  refcount st pa ≠ 0 →
  refcount (new_tables lvls root va st).2 pa = refcount st pa.
Proof.
  revert st. induction lvls as [|l rest IH]; intros st Hused; simpl; [done|].
  destruct (has_table (tree_of st root) l va); [by apply IH|].
  pose proof (kalloc_keeps_used PAGESIZE st pa Hused) as Hk.
  destruct (kalloc PAGESIZE st) as [pt st1]. simpl in Hk.
  case_bool_decide; [done|].
  rewrite IH; [done|]. by rewrite <- Hk in Hused.
Qed.

(** A [try_map] with permission bits that succeeds installs the entry. *)
Lemma try_map_installs root va pa perm st :
  perm ≠ 0 → (try_map root va pa perm st).1 = 0 →
  pte (tree_of (try_map root va pa perm st).2 root) va = Z.lor pa perm.
Proof.
  intros Hperm. unfold try_map.
  rewrite (bool_decide_eq_false_2 (perm = 0)) by done. rewrite andb_false_r.
  pose proof (new_tables_ok [3; 2; 1] root va st) as Hnt.
  destruct (new_tables [3; 2; 1] root va st) as [r st1]. simpl in Hnt.
  case_bool_decide as Hr; [|done]. intros _. simpl.
  destruct (Hnt Hr) as [Hin _].
  assert (Hpath : has_path (tree_of st1 root) va = true).
  { unfold has_path.
    rewrite (Hin 3), (Hin 2), (Hin 1) by (repeat constructor). done. }
  rewrite Hpath. by apply pte_set_leaf_eq.
Qed.

Lemma try_map_keeps_used root va pa perm st pa' :
  refcount st pa' ≠ 0 →
  refcount (try_map root va pa perm st).2 pa' = refcount st pa'.
Proof.
  intros Hused. unfold try_map.
  assert (Hnt : refcount (if bool_decide (perm = 0) then (0, st)
                          else new_tables [3; 2; 1] root va st).2 pa' = refcount st pa').
  { case_bool_decide; [done|]. by apply new_tables_keeps_used. }
  destruct (if bool_decide (perm = 0) then _ else _) as [r st1]. simpl in Hnt.
  case_bool_decide; simpl; [|done].
  by destruct (has_path (tree_of st1 root) va).
Qed.


(** X11: When no frame is free, [PAGE_ALLOC] returns -1 and changes nothing,
    whatever the address. *)
Theorem page_alloc_out_of_frames (addr : Z) (st : kstate) :
  (∀ pa, is_frame pa → ¬ frame_free st pa) →
  syscall_page_alloc addr st = (-1, st).
Proof.
  intros Hnone. unfold syscall_page_alloc.
  destruct (_ || _); [done|].
  rewrite (kalloc_none_free wf st Hnone). done.
Qed.

End Entries.

Section Loader.
Context `{M : machine}.
Hypothesis wf : machine_wf = true.

Lemma vmiter_map_ptable root va pa perm st st' :
  vmiter_map root va pa perm st = Some st' →
  ptable st' = ptable st
  ∧ (try_map root va pa perm st).1 = 0
  ∧ st' = (try_map root va pa perm st).2.
Proof.
  unfold vmiter_map.
  destruct (try_map_only_leaf root va pa perm st) as [(Hp & _) _].
  destruct (try_map root va pa perm st) as [r s]. simpl in *.
  case_bool_decide; [|done]. by intros [= <-].
Qed.

Lemma setup_kernel_loop_ptable n va root st st' :
  setup_kernel_loop n va root st = Some st' → ptable st' = ptable st.
Proof.
  revert va st. induction n as [|n IH]; intros va st; simpl; [by intros [= <-]|].
  destruct (vmiter_map root va _ _ st) as [s|] eqn:Hm; [|done]. simpl.
  intros Hl. rewrite (IH _ _ Hl).
  by destruct (vmiter_map_ptable _ _ _ _ _ _ Hm) as [-> _].
Qed.

Lemma setup_segment_pages_ptable n a root seg st st' :
  setup_segment_pages n a root seg st = Some st' → ptable st' = ptable st.
Proof.
  revert a st. induction n as [|n IH]; intros a st; simpl; [by intros [= <-]|].
  destruct (kalloc_frame PAGESIZE st) as (Hk & _).
  destruct (kalloc PAGESIZE st) as [pa s]. simpl in Hk.
  case_bool_decide; [done|].
  destruct (vmiter_map root a pa _ s) as [s'|] eqn:Hm; [|done]. simpl.
  intros Hl. rewrite (IH _ _ Hl).
  destruct (vmiter_map_ptable _ _ _ _ _ _ Hm) as [-> _]. done.
Qed.

Lemma setup_segments_ptable segs root st st' :
  setup_segments segs root st = Some st' → ptable st' = ptable st.
Proof.
  revert st. induction segs as [|seg rest IH]; intros st; simpl; [by intros [= <-]|].
  destruct (setup_segment_pages _ _ root seg st) as [s|] eqn:Hs; [|done]. simpl.
  intros Hl. rewrite (IH _ Hl). by eapply setup_segment_pages_ptable.
Qed.

Lemma init_segments_keeps segs root st :
  ptable (init_segments segs root st) = ptable st
  ∧ pagetables (init_segments segs root st) = pagetables st
  ∧ physpages (init_segments segs root st) = physpages st.
Proof.
  unfold init_segments. revert st.
  induction segs as [|seg rest IH]; intros st; simpl; [done|].
  destruct (IH (init_segment root seg st)) as (-> & -> & ->). done.
Qed.

(** What [process_setup] leaves when it does not panic. *)
Lemma process_setup_result i pgm st st' :
  (i < length (ptable st))%nat →
  process_setup i pgm st = Some st' →
  state (proc_at st' i) = P_RUNNABLE
  ∧ pid (proc_at st' i) = Z.of_nat i
  ∧ regs (proc_at st' i) = Regstate 0 0 (pgm_entry pgm) MEMSIZE_VIRTUAL
  ∧ length (ptable st') = length (ptable st)
  ∧ (∀ j, j ≠ i → proc_at st' j = proc_at st j)
  ∧ let t := tree_of st' (pagetable (proc_at st' i)) in
    vmiter_perm t (MEMSIZE_VIRTUAL - PAGESIZE) = Z.lor (Z.lor PTE_W PTE_P) PTE_U
    ∧ is_frame (vmiter_pa t (MEMSIZE_VIRTUAL - PAGESIZE))
    ∧ refcount st (vmiter_pa t (MEMSIZE_VIRTUAL - PAGESIZE)) = 0.
Proof.
  intros Hi. unfold process_setup.
  set (st0 := update_proc i _ st).
  assert (Hlen0 : length (ptable st0) = length (ptable st))
    by (unfold st0, update_proc, set_ptable; simpl; by rewrite length_insert).
  destruct (kalloc_pagetable_frame st0) as [Hpt1 _].
  assert (Hrc1 : ∀ pa, refcount st pa ≠ 0 →
            refcount (kalloc_pagetable st0).2 pa = refcount st pa).
  { intros pa Hpa. unfold kalloc_pagetable.
    pose proof (kalloc_keeps_used PAGESIZE st0 pa Hpa) as Hk.
    destruct (kalloc PAGESIZE st0) as [pt s]. simpl in Hk.
    by case_bool_decide. }
  destruct (kalloc_pagetable st0) as [root st1]. cbn [fst snd] in Hpt1, Hrc1.
  set (st2 := update_proc i (with_pagetable root) st1).
  destruct (setup_kernel_loop _ 0 root st2) as [st3|] eqn:H3; [|done]. simpl.
  destruct (setup_segments _ root st3) as [st4|] eqn:H4; [|done]. simpl.
  set (st5 := init_segments _ root st4).
  set (st6 := update_proc i _ st5).
  pose proof (kalloc_some wf st6) as Hk.
  destruct (kalloc_frame PAGESIZE st6) as (Hpt7 & _).
  destruct (kalloc PAGESIZE st6) as [pa st7]. cbn [fst snd] in *.
  case_bool_decide as Hpa; [done|].
  destruct (Hk Hpa) as (Hfr & Hfree & _).
  set (perm := Z.lor (Z.lor PTE_W PTE_P) PTE_U).
  destruct (vmiter_map root _ pa perm st7) as [st8|] eqn:H8; [|done]. simpl.
  intros [= <-].
  destruct (vmiter_map_ptable _ _ _ _ _ _ H8) as (Hpt8 & Hr8 & Hst8).
  pose proof (try_map_installs root (MEMSIZE_VIRTUAL - PAGESIZE) pa perm st7
                ltac:(done) Hr8) as Hinst.
  rewrite <- Hst8 in Hinst.
  (* the descriptors, stage by stage *)
  pose proof (setup_kernel_loop_ptable _ _ _ _ _ H3) as Hpt3.
  pose proof (setup_segments_ptable _ _ _ _ H4) as Hpt4.
  destruct (init_segments_keeps (pgm_segments pgm) root st4) as (Hpt5 & _ & Hpp5).
  fold st5 in Hpt5, Hpp5.
  assert (Hlen2 : length (ptable st2) = length (ptable st)).
  { unfold st2, update_proc, set_ptable. simpl. rewrite length_insert, Hpt1. exact Hlen0. }
  assert (Hlen5 : length (ptable st5) = length (ptable st))
    by (rewrite Hpt5, Hpt4, Hpt3; exact Hlen2).
  assert (Hlen6 : length (ptable st6) = length (ptable st))
    by (unfold st6, update_proc, set_ptable; simpl; by rewrite length_insert).
  assert (Hlen8 : length (ptable st8) = length (ptable st)) by congruence.
  assert (P2 : proc_at st2 i
               = with_pagetable root (with_regs regs_zero (with_pid (Z.of_nat i) (proc_at st i)))).
  { unfold st2. rewrite proc_at_update_eq by (rewrite Hpt1; lia).
    rewrite (proc_at_ptable st0 st1) by done.
    unfold st0. by rewrite proc_at_update_eq. }
  assert (P5 : proc_at st5 i = proc_at st2 i).
  { apply proc_at_ptable. congruence. }
  assert (P6 : proc_at st6 i
               = with_regs (with_rip (pgm_entry pgm) (regs (proc_at st5 i))) (proc_at st5 i)).
  { unfold st6. rewrite proc_at_update_eq by lia. done. }
  assert (P8 : proc_at st8 i = proc_at st6 i).
  { apply proc_at_ptable. congruence. }
  rewrite proc_at_update_eq by lia.
  rewrite P8, P6, P5, P2. simpl.
  split; [done|]. split; [done|].
  split. { unfold with_rsp, with_rip, regs_zero. simpl. f_equal. unfold PAGESIZE. lia. }
  split. { unfold update_proc, set_ptable. simpl. by rewrite length_insert. }
  split.
  { intros j Hj. rewrite proc_at_update_ne by done.
    rewrite (proc_at_ptable st6 st8) by congruence.
    unfold st6. rewrite proc_at_update_ne by done.
    rewrite (proc_at_ptable st2 st5) by congruence.
    unfold st2. rewrite proc_at_update_ne by done.
    rewrite (proc_at_ptable st0 st1) by done.
    unfold st0. by rewrite proc_at_update_ne. }
  change (tree_of (update_proc _ _ st8) root) with (tree_of st8 root).
  destruct (is_frame_bounds wf pa Hfr) as [Hb Ha].
  destruct (pte_fields pa perm Hb Ha ltac:(done)) as (F1 & F2 & F3).
  destruct (wf_facts wf) as (_ & _ & Hmv & _).
  assert (Hvpa : vmiter_pa (tree_of st8 root) (MEMSIZE_VIRTUAL - PAGESIZE) = pa).
  { unfold vmiter_pa, pte_present. rewrite Hinst, F1, F3.
    change (Z.land perm PTE_P =? 0) with false. simpl.
    rewrite aligned_offset; [lia|]. unfold PAGESIZE in *. Z.div_mod_to_equations. lia. }
  cbv zeta. rewrite Hvpa.
  split. { unfold vmiter_perm, pte_present. rewrite Hinst, F2, F3. done. }
  split; [done|].
  (* the stack frame was free from the start: frames in use stay in use *)
  destruct (decide (refcount st pa = 0)) as [|Hused]; [done|]. exfalso.
  destruct Hfree as [_ Hfree].
  assert (R1 : refcount st1 pa = refcount st pa) by (by apply Hrc1).
  assert (Rmap : ∀ s s' va' pa' perm', vmiter_map root va' pa' perm' s = Some s' →
            refcount s pa ≠ 0 → refcount s' pa = refcount s pa).
  { intros s s' va' pa' perm' Hm Hu.
    destruct (vmiter_map_ptable _ _ _ _ _ _ Hm) as (_ & _ & ->).
    by apply try_map_keeps_used. }
  assert (R3 : ∀ n va s s', setup_kernel_loop n va root s = Some s' →
            refcount s pa ≠ 0 → refcount s' pa = refcount s pa).
  { induction n as [|n IH]; intros va s s'; simpl; [by intros [= <-]|].
    destruct (vmiter_map root va _ _ s) as [s1|] eqn:Hm; [|done]. simpl.
    intros Hl Hu. rewrite (IH _ _ _ Hl); [by eapply Rmap|].
    by rewrite (Rmap _ _ _ _ _ Hm Hu). }
  assert (R4p : ∀ n a seg s s', setup_segment_pages n a root seg s = Some s' →
            refcount s pa ≠ 0 → refcount s' pa = refcount s pa).
  { induction n as [|n IH]; intros a seg s s'; simpl; [by intros [= <-]|].
    intros Hl Hu.
    pose proof (kalloc_keeps_used PAGESIZE s pa Hu) as Hkk.
    destruct (kalloc PAGESIZE s) as [pa1 s1]. simpl in Hkk.
    case_bool_decide; [done|].
    destruct (vmiter_map root a pa1 _ s1) as [s2|] eqn:Hm; [|done]. simpl in Hl.
    assert (Hu1 : refcount s1 pa ≠ 0) by (by rewrite Hkk).
    rewrite (IH _ _ _ _ Hl); [by rewrite (Rmap _ _ _ _ _ Hm Hu1)|].
    by rewrite (Rmap _ _ _ _ _ Hm Hu1). }
  assert (R4 : ∀ segs s s', setup_segments segs root s = Some s' →
            refcount s pa ≠ 0 → refcount s' pa = refcount s pa).
  { induction segs as [|seg rest IH]; intros s s'; simpl; [by intros [= <-]|].
    destruct (setup_segment_pages _ _ root seg s) as [s1|] eqn:Hs; [|done]. simpl.
    intros Hl Hu. pose proof (R4p _ _ _ _ _ Hs Hu) as E.
    rewrite (IH _ _ Hl); [done|]. by rewrite E. }
  assert (R2 : refcount st2 pa = refcount st pa) by done.
  assert (R3' : refcount st3 pa = refcount st pa).
  { rewrite (R3 _ _ _ _ H3); [done|]. by rewrite R2. }
  assert (R4' : refcount st4 pa = refcount st pa).
  { rewrite (R4 _ _ _ H4); [done|]. by rewrite R3'. }
  assert (R6 : refcount st6 pa = refcount st pa).
  { change (refcount st6 pa) with (refcount st5 pa).
    unfold refcount. rewrite Hpp5. exact R4'. }
  rewrite R6 in Hfree. done.
Qed.

(** X12: A program loaded without a panic is runnable with its index as pid,
    its instruction pointer at the entry point of the image, its stack
    pointer at [MEMSIZE_VIRTUAL] and its other saved registers cleared; the
    stack page below [MEMSIZE_VIRTUAL] is mapped present, writable and
    user-accessible to a frame that was free; no other descriptor
    changes. *)
Theorem process_setup_descriptor (i : nat) (pgm : program_image) (st st' : kstate) :
  (i < length (ptable st))%nat →
  process_setup i pgm st = Some st' →
  state (proc_at st' i) = P_RUNNABLE
  ∧ pid (proc_at st' i) = Z.of_nat i
  ∧ regs (proc_at st' i) = Regstate 0 0 (pgm_entry pgm) MEMSIZE_VIRTUAL
  ∧ length (ptable st') = length (ptable st)
  ∧ (∀ j, j ≠ i → proc_at st' j = proc_at st j)
  ∧ let t := tree_of st' (pagetable (proc_at st' i)) in
    vmiter_perm t (MEMSIZE_VIRTUAL - PAGESIZE) = Z.lor (Z.lor PTE_W PTE_P) PTE_U
    ∧ is_frame (vmiter_pa t (MEMSIZE_VIRTUAL - PAGESIZE))
    ∧ refcount st (vmiter_pa t (MEMSIZE_VIRTUAL - PAGESIZE)) = 0.
Proof. apply process_setup_result. Qed.

End Loader.

Section Boot.
Context `{M : machine}.
Hypothesis wf : machine_wf = true.

Lemma init_ptable_at st j :
  (j < length (ptable st))%nat →
  proc_at (init_ptable st) j = with_state P_FREE (with_pid (Z.of_nat j) (proc_at st j)).
Proof.
  intros Hj. unfold proc_at, init_ptable, set_ptable. simpl.
  rewrite list_lookup_imap.
  destruct (lookup_lt_is_Some_2 _ _ Hj) as [p ->]. done.
Qed.

Lemma init_ptable_length st : length (ptable (init_ptable st)) = length (ptable st).
Proof. unfold init_ptable, set_ptable. simpl. apply length_imap. Qed.

Lemma loaded_as_kept k pgm st st' :
  proc_at st' k = proc_at st k → loaded_as k pgm st → loaded_as k pgm st'.
Proof. unfold loaded_as. by intros ->. Qed.

Lemma process_setup_loaded i pgm st st' :
  (i < length (ptable st))%nat →
  process_setup i pgm st = Some st' →
  loaded_as i pgm st'
  ∧ length (ptable st') = length (ptable st)
  ∧ ∀ j, j ≠ i → proc_at st' j = proc_at st j.
Proof.
  intros Hi Hs.
  destruct (process_setup_result wf i pgm st st' Hi Hs) as (H1 & H2 & H3 & H4 & H5 & _).
  done.
Qed.

(** X13: Booting without a command: [ticks] starts at 1; the boot ends in a
    panic or with process 1 running, never spinning; when it runs, slots 1
    to 4 hold the four default programs, each runnable from its entry point
    with its stack pointer at [MEMSIZE_VIRTUAL], and every other slot is
    free with its index as pid.  A command that names no image boots the
    same way. *)
Theorem kernel_start_default_boot (image : string → option program_image)
    (st : kstate) :
  (4 < length (ptable st))%nat →
  let res := kernel_start None image st in
  res.1 = 1
  ∧ (∀ c, image c = None → kernel_start (Some c) image st = res)
  ∧ (∀ s, res.2 ≠ KSpin s)
  ∧ ∀ st', res.2 = KRun st' →
      current st' = 1%nat
      ∧ loaded_as 1 (default empty_image (image "allocator")) st'
      ∧ loaded_as 2 (default empty_image (image "allocator2")) st'
      ∧ loaded_as 3 (default empty_image (image "allocator3")) st'
      ∧ loaded_as 4 (default empty_image (image "allocator4")) st'
      ∧ ∀ j, (j < length (ptable st))%nat → j = 0%nat ∨ (4 < j)%nat →
          state (proc_at st' j) = P_FREE ∧ pid (proc_at st' j) = Z.of_nat j.
Proof.
  intros Hlen. cbv zeta. unfold kernel_start.
  split; [done|]. split; [by intros c ->|].
  set (st0 := init_ptable st).
  assert (Hl0 : length (ptable st0) = length (ptable st)) by apply init_ptable_length.
  unfold setup_defaults.
  destruct (process_setup 1 _ st0) as [st1|] eqn:E1; simpl; [|by split].
  destruct (process_setup_loaded 1 _ st0 _
              (ltac:(lia) : (1 < length (ptable st0))%nat) E1) as (L1 & Hl1 & O1).
  destruct (process_setup 2 _ st1) as [st2|] eqn:E2; simpl; [|by split].
  destruct (process_setup_loaded 2 _ st1 _
              (ltac:(lia) : (2 < length (ptable st1))%nat) E2) as (L2 & Hl2 & O2).
  destruct (process_setup 3 _ st2) as [st3|] eqn:E3; simpl; [|by split].
  destruct (process_setup_loaded 3 _ st2 _
              (ltac:(lia) : (3 < length (ptable st2))%nat) E3) as (L3 & Hl3 & O3).
  destruct (process_setup 4 _ st3) as [st4|] eqn:E4; simpl; [|by split].
  destruct (process_setup_loaded 4 _ st3 _
              (ltac:(lia) : (4 < length (ptable st3))%nat) E4) as (L4 & Hl4 & O4).
  assert (L1' : loaded_as 1 (default empty_image (image "allocator")) st4).
  { eapply loaded_as_kept; [|exact L1]. rewrite O4, O3, O2 by lia. done. }
  assert (L2' : loaded_as 2 (default empty_image (image "allocator2")) st4).
  { eapply loaded_as_kept; [|exact L2]. rewrite O4, O3 by lia. done. }
  assert (L3' : loaded_as 3 (default empty_image (image "allocator3")) st4).
  { eapply loaded_as_kept; [|exact L3]. rewrite O4 by lia. done. }
  unfold run. rewrite bool_decide_eq_true_2 by apply L1'.
  split; [done|]. intros st' [= <-].
  split; [done|]. do 4 (split; [done|]).
  intros j Hj Hout.
  change (proc_at (set_current 1 st4) j) with (proc_at st4 j).
  rewrite O4, O3, O2, O1 by lia.
  unfold st0. rewrite init_ptable_at by done. done.
Qed.

(** X14: Booting with a command that names an image loads that program alone,
    as process 1, and runs it; every other slot is free. *)
Theorem kernel_start_command_boot (c : string) (pgm : program_image)
    (image : string → option program_image) (st st' : kstate) :
  (1 < length (ptable st))%nat →
  image c = Some pgm →
  (kernel_start (Some c) image st).2 = KRun st' →
  current st' = 1%nat
  ∧ loaded_as 1 pgm st'
  ∧ ∀ j, (j < length (ptable st))%nat → j ≠ 1%nat →
      state (proc_at st' j) = P_FREE ∧ pid (proc_at st' j) = Z.of_nat j.
Proof.
  intros Hlen Himg. unfold kernel_start. rewrite Himg.
  set (st0 := init_ptable st).
  assert (Hl0 : length (ptable st0) = length (ptable st)) by apply init_ptable_length.
  destruct (process_setup 1 pgm st0) as [st1|] eqn:E1; simpl; [|done].
  destruct (process_setup_loaded 1 _ st0 _
              (ltac:(lia) : (1 < length (ptable st0))%nat) E1) as (L1 & Hl1 & O1).
  unfold run. rewrite bool_decide_eq_true_2 by apply L1.
  intros [= <-]. split; [done|]. split; [done|].
  intros j Hj Hne.
  change (proc_at (set_current 1 st1) j) with (proc_at st1 j).
  rewrite O1 by done. unfold st0. by rewrite init_ptable_at.
Qed.

End Boot.

(** * Address spaces: reference accounting, fork and exit, the rules of a page table *)

Section AddressSpaces.
Context `{M : machine}.
Hypothesis wf : machine_wf = true.

(** ** Refcounts up and down *)

Lemma set_refcount_bump pa d st :
  physpages (set_refcount pa (wrap_refcount (refcount st pa + d)) st)
  = bump d pa (physpages st).
Proof.
  unfold set_refcount, set_physpages, bump, refcount, wrap_refcount. simpl.
  apply list_eq. intros i.
  rewrite list_lookup_alter, list_lookup_insert.
  destruct (decide (frame_index pa = i)) as [<-|Hne].
  - destruct (physpages st !! frame_index pa) as [x|] eqn:Hx; simpl.
    + rewrite decide_True; [done|]. split; [done|]. by eapply lookup_lt_Some.
    + rewrite decide_False; [done|]. intros [_ Hlt].
      apply lookup_lt_is_Some_2 in Hlt as [? ?]. congruence.
  - rewrite decide_False by (intros [? _]; done). done.
Qed.

Lemma kfree_bump kptr st :
  kptr ≠ 0 → physpages (kfree kptr st) = bump (-1) kptr (physpages st).
Proof.
  intros Hnz. unfold kfree. rewrite bool_decide_eq_false_2 by done.
  apply (set_refcount_bump kptr (-1)).
Qed.

Lemma kalloc_bump st :
  (kalloc PAGESIZE st).1 ≠ 0 →
  physpages (kalloc PAGESIZE st).2 = bump 1 (kalloc PAGESIZE st).1 (physpages st).
Proof.
  intros Hnz. destruct (kalloc_some wf st Hnz) as (_ & [_ Hfree] & ->).
  change (physpages (set_physmem _ ?s)) with (physpages s).
  rewrite <- set_refcount_bump. by rewrite Hfree.
Qed.

Lemma bump_comm d d' pa pa' l :
  bump d pa (bump d' pa' l) = bump d' pa' (bump d pa l).
Proof.
  unfold bump. destruct (decide (frame_index pa = frame_index pa')) as [->|Hne].
  - rewrite !list_alter_alter_eq. apply list_alter_ext; [|done].
    intros x _. simpl. rewrite !Zplus_mod_idemp_l. f_equal. lia.
  - by apply list_alter_alter_ne.
Qed.

Lemma bump_bumps d d' pa pas l :
  bump d pa (bumps d' pas l) = bumps d' pas (bump d pa l).
Proof.
  induction pas as [|a pas IH]; simpl; [done|].
  by rewrite bump_comm, IH.
Qed.

Lemma bumps_app d l1 l2 l : bumps d (l1 ++ l2) l = bumps d l1 (bumps d l2 l).
Proof. unfold bumps. apply foldr_app. Qed.

Lemma bumps_perm d l1 l2 l : l1 ≡ₚ l2 → bumps d l1 l = bumps d l2 l.
Proof.
  intros Hp. induction Hp as [|x l1 l2 _ IH|x y l1|l1 l2 l3 _ IH1 _ IH2]; simpl.
  - done.
  - by rewrite IH.
  - apply bump_comm.
  - by rewrite IH1.
Qed.

Lemma bump_cancel pa l :
  Forall (λ x, 0 ≤ x < 2 ^ refcount_bits) l →
  bump (-1) pa (bump 1 pa l) = l.
Proof.
  intros Hok. unfold bump. rewrite list_alter_alter_eq.
  apply list_eq. intros i. rewrite list_lookup_alter.
  destruct (decide (frame_index pa = i)) as [<-|]; [|done].
  destruct (l !! frame_index pa) as [x|] eqn:Hx; simpl; [|done].
  f_equal. rewrite Zplus_mod_idemp_l.
  replace (x + 1 + -1) with x by lia.
  apply Z.mod_small. by apply (Forall_lookup_1 _ _ _ _ Hok Hx).
Qed.

Lemma bumps_cancel pas l :
  Forall (λ x, 0 ≤ x < 2 ^ refcount_bits) l →
  bumps (-1) pas (bumps 1 pas l) = l.
Proof.
  intros Hok. induction pas as [|a pas IH]; simpl; [done|].
  rewrite <- bump_bumps, IH. by apply bump_cancel.
Qed.

Lemma bump_ok d pa l :
  Forall (λ x, 0 ≤ x < 2 ^ refcount_bits) l →
  Forall (λ x, 0 ≤ x < 2 ^ refcount_bits) (bump d pa l).
Proof.
  destruct (wf_facts wf) as (_ & _ & _ & _ & _ & _ & _ & _ & _ & Hb & _).
  intros Hok. apply Forall_lookup_2. intros i x. unfold bump.
  rewrite list_lookup_alter.
  destruct (decide (frame_index pa = i)) as [<-|].
  - destruct (l !! frame_index pa) as [y|]; simpl; [|done].
    intros [= <-]. apply Z.mod_pos_bound. apply Z.pow_pos_nonneg; lia.
  - by apply (Forall_lookup_1 _ _ _ _ Hok).
Qed.

(** ** Entries *)

Lemma vmiter_entry t va :
  vmiter_pa t va = entry_pa (pte t va) va
  ∧ vmiter_perm t va = entry_perm (pte t va)
  ∧ vmiter_user t va = entry_user (pte t va).
Proof. done. Qed.

Lemma entry_perm_range e : 0 ≤ entry_perm e < PAGESIZE.
Proof.
  unfold entry_perm, PAGESIZE. destruct (pte_present e); [|lia].
  change (4096 - 1) with (Z.ones 12). rewrite Z.land_ones by lia.
  apply Z.mod_pos_bound. lia.
Qed.

Lemma entry_perm_present e :
  pte_present e = true → Z.land (entry_perm e) PTE_P ≠ 0.
Proof.
  unfold entry_perm, pte_present. intros H. rewrite H.
  apply negb_true_iff, Z.eqb_neq in H.
  rewrite <- Z.land_assoc. by change (Z.land (PAGESIZE - 1) PTE_P) with PTE_P.
Qed.

Lemma entry_pa_bounds e va :
  pte_present e = true → va mod PAGESIZE = 0 →
  0 ≤ entry_pa e va < 2 ^ 52 ∧ entry_pa e va mod PAGESIZE = 0.
Proof.
  unfold entry_pa. intros -> Hva. rewrite aligned_offset, Z.add_0_r by done.
  assert (H52 : Z.land (Z.land e PTE_PAMASK) (Z.ones 52) = Z.land e PTE_PAMASK).
  { rewrite <- Z.land_assoc. by change (Z.land PTE_PAMASK (Z.ones 52)) with PTE_PAMASK. }
  assert (H12 : Z.land (Z.land e PTE_PAMASK) (Z.ones 12) = 0).
  { rewrite <- Z.land_assoc. change (Z.land PTE_PAMASK (Z.ones 12)) with 0.
    apply Z.land_0_r. }
  rewrite Z.land_ones in H52, H12 by lia. split.
  - rewrite <- H52. apply Z.mod_pos_bound. lia.
  - exact H12.
Qed.

Lemma entry_written pa perm va :
  0 ≤ pa < 2 ^ 52 → pa mod PAGESIZE = 0 → 0 ≤ perm < PAGESIZE →
  Z.land perm PTE_P ≠ 0 → va mod PAGESIZE = 0 →
  entry_pa (Z.lor pa perm) va = pa ∧ entry_perm (Z.lor pa perm) = perm.
Proof.
  intros Hpa Hal Hperm Hp Hva.
  destruct (pte_fields pa perm Hpa Hal Hperm) as (F1 & F2 & F3).
  unfold entry_pa, entry_perm, pte_present. rewrite F1, F2, F3.
  apply Z.eqb_neq in Hp. rewrite Hp. simpl.
  by rewrite aligned_offset, Z.add_0_r.
Qed.

(** The entry fork writes for a page it copies the mapping of: the
    parent's address and permissions, or nothing where the parent has
    nothing. *)
Lemma entry_copied e va :
  va mod PAGESIZE = 0 →
  let pa := entry_pa e va in
  let perm := entry_perm e in
  let e' := Z.lor (if bool_decide (pa = NO_PA) && bool_decide (perm = 0) then 0 else pa)
                  perm in
  entry_user e' = entry_user e
  ∧ (pte_present e = true → entry_pa e' va = entry_pa e va ∧ entry_pa e va ≠ NO_PA)
  ∧ (pte_present e = false → e' = 0).
Proof.
  intros Hva. cbv zeta. destruct (pte_present e) eqn:Hp.
  - destruct (entry_pa_bounds e va Hp Hva) as [Hb Ha].
    pose proof (entry_perm_range e) as Hr.
    pose proof (entry_perm_present e Hp) as Hpp.
    assert (Hne : entry_pa e va ≠ NO_PA).
    { unfold NO_PA. assert (2 ^ 52 < 2 ^ 64 - 1) by done. lia. }
    rewrite (bool_decide_eq_false_2 (entry_pa e va = NO_PA)) by done. simpl.
    destruct (entry_written _ _ va Hb Ha Hr Hpp Hva) as [E1 E2].
    split; [unfold entry_user; by rewrite E2|]. split; [done|done].
  - assert (E1 : entry_pa e va = NO_PA) by (unfold entry_pa; by rewrite Hp).
    assert (E2 : entry_perm e = 0) by (unfold entry_perm; by rewrite Hp).
    rewrite E1, E2. simpl. split; [|done]. unfold entry_user. by rewrite E2.
Qed.

Lemma has_path_same_page t va va' :
  va' / PAGESIZE = va / PAGESIZE → has_path t va' = has_path t va.
Proof.
  intros He. unfold has_path, has_table, table_key.
  assert (Hs : ∀ lvl, 0 ≤ lvl →
            Z.shiftr va' (12 + 9 * lvl) = Z.shiftr va (12 + 9 * lvl)).
  { intros lvl Hl. rewrite <- !Z.shiftr_shiftr by lia.
    rewrite !(Z.shiftr_div_pow2 _ 12) by lia.
    change (2 ^ 12) with PAGESIZE. by rewrite He. }
  by rewrite (Hs 3), (Hs 2), (Hs 1) by lia.
Qed.

Lemma pte_tree_ok t va : tree_ok t → pte t va = leaf_slot t va.
Proof.
  intros Hok. unfold pte. destruct (Hok va) as [-> | H0]; [done|].
  destruct (has_path t va); [done | by rewrite H0].
Qed.

(** ** What mapping a page changes *)

Lemma new_tables_effect lvls root va st :
  (new_tables lvls root va st).1 = 0 →
  let st1 := (new_tables lvls root va st).2 in
  ∃ ts, physpages st1 = bumps 1 ts (physpages st)
    ∧ ptiter_pages (tree_of st1 root) ≡ₚ ts ++ ptiter_pages (tree_of st root)
    ∧ Forall (λ x, x ≠ 0) ts
    ∧ pt_leaves (tree_of st1 root) = pt_leaves (tree_of st root)
    ∧ (∀ k, is_Some (pt_tables (tree_of st root) !! k) →
            is_Some (pt_tables (tree_of st1 root) !! k)).
Proof.
  revert st. induction lvls as [|l rest IH]; intros st; simpl.
  - intros _. exists []. done.
  - destruct (has_table (tree_of st root) l va) eqn:Hl; [apply IH|].
    pose proof (kalloc_bump st) as Hb.
    pose proof (tree_of_kalloc PAGESIZE st root) as Htr.
    destruct (kalloc PAGESIZE st) as [pt st1]. cbn [fst snd] in *.
    case_bool_decide as Hpt; [done|].
    set (st2 := add_table root (table_key l va) pt
                  (set_physmem (λ m, memset m pt 0 PAGESIZE) st1)).
    intros Hok. destruct (IH st2 Hok) as (ts & Hpp & Hpt' & Hnz & Hlv & Hmono).
    assert (Ht2 : tree_of st2 root
                  = PagetableTree (<[table_key l va := pt]> (pt_tables (tree_of st root)))
                      (pt_leaves (tree_of st root))).
    { unfold st2, add_table. rewrite tree_of_set_tree_eq.
      change (tree_of (set_physmem _ st1) root) with (tree_of st1 root).
      by rewrite Htr. }
    assert (Hnone : pt_tables (tree_of st root) !! table_key l va = None).
    { unfold has_table in Hl. apply bool_decide_eq_false in Hl.
      destruct (pt_tables (tree_of st root) !! table_key l va) eqn:E; [|done].
      exfalso. apply Hl. eauto. }
    exists (ts ++ [pt]). split; [|split; [|split; [|split]]].
    + rewrite Hpp. change (physpages st2) with (physpages st1).
      rewrite (Hb Hpt), bumps_app. done.
    + rewrite Hpt', Ht2. unfold ptiter_pages. simpl.
      rewrite (map_to_list_insert _ _ _ Hnone). simpl.
      by rewrite <- app_assoc.
    + apply Forall_app. split; [done|]. by constructor.
    + rewrite Hlv, Ht2. done.
    + intros k Hk. apply Hmono. rewrite Ht2. simpl.
      destruct (decide (k = table_key l va)) as [->|Hne].
      * rewrite lookup_insert_eq. eauto.
      * by rewrite lookup_insert_ne.
Qed.

Lemma has_path_mono t t1 va :
  (∀ k, is_Some (pt_tables t !! k) → is_Some (pt_tables t1 !! k)) →
  has_path t va = true → has_path t1 va = true.
Proof.
  intros Hmono. unfold has_path, has_table.
  intros H. apply andb_prop in H as [H H1]. apply andb_prop in H as [H3 H2].
  apply bool_decide_eq_true in H1, H2, H3.
  rewrite !bool_decide_eq_true_2 by (by apply Hmono). done.
Qed.

(** A [try_map] that succeeds: the frames it took for tables, and the one
    leaf it wrote. *)
Lemma try_map_effect root va pa perm st :
  (try_map root va pa perm st).1 = 0 →
  let st1 := (try_map root va pa perm st).2 in
  let e' := Z.lor (if bool_decide (pa = NO_PA) && bool_decide (perm = 0) then 0 else pa)
                  perm in
  ∃ ts, physpages st1 = bumps 1 ts (physpages st)
    ∧ ptiter_pages (tree_of st1 root) ≡ₚ ts ++ ptiter_pages (tree_of st root)
    ∧ Forall (λ x, x ≠ 0) ts
    ∧ (tree_ok (tree_of st root) → tree_ok (tree_of st1 root))
    ∧ (∀ va', va' / PAGESIZE ≠ va / PAGESIZE →
         leaf_slot (tree_of st1 root) va' = leaf_slot (tree_of st root) va')
    ∧ (leaf_slot (tree_of st1 root) va = e'
       ∨ (perm = 0 ∧ leaf_slot (tree_of st1 root) va = leaf_slot (tree_of st root) va)).
Proof.
  unfold try_map.
  set (e' := Z.lor _ perm).
  assert (Hnt : ∃ r st0 ts,
            (if bool_decide (perm = 0) then (0, st)
             else new_tables [3; 2; 1] root va st) = (r, st0)
            ∧ (r = 0 →
               physpages st0 = bumps 1 ts (physpages st)
               ∧ ptiter_pages (tree_of st0 root) ≡ₚ ts ++ ptiter_pages (tree_of st root)
               ∧ Forall (λ x, x ≠ 0) ts
               ∧ pt_leaves (tree_of st0 root) = pt_leaves (tree_of st root)
               ∧ (∀ k, is_Some (pt_tables (tree_of st root) !! k) →
                       is_Some (pt_tables (tree_of st0 root) !! k))
               ∧ (perm ≠ 0 → has_path (tree_of st0 root) va = true))).
  { case_bool_decide as Hperm.
    - exists 0, st, []. split; [done|]. intros _. by repeat split.
    - pose proof (new_tables_effect [3; 2; 1] root va st) as He.
      pose proof (new_tables_ok [3; 2; 1] root va st) as Hk.
      destruct (new_tables [3; 2; 1] root va st) as [r st0]. cbn [fst snd] in *.
      destruct (decide (r = 0)) as [Hr|Hr].
      + destruct (He Hr) as (ts & H1 & H2 & H3 & H4 & H5).
        exists r, st0, ts. split; [done|]. intros _. repeat split; try done.
        intros _. destruct (Hk Hr) as [Hin _]. unfold has_path.
        rewrite (Hin 3), (Hin 2), (Hin 1) by (repeat constructor). done.
      + exists r, st0, []. split; [done|]. done. }
  destruct Hnt as (r & st0 & ts & -> & Hr).
  case_bool_decide as Hr0; [|done]. intros _. cbn [fst snd].
  destruct (Hr Hr0) as (Hpp & Hpt & Hnz & Hlv & Hmono & Hpath).
  exists ts.
  assert (Hslot0 : ∀ x, leaf_slot (tree_of st0 root) x = leaf_slot (tree_of st root) x)
    by (intros x; unfold leaf_slot; by rewrite Hlv).
  assert (Hok0 : tree_ok (tree_of st root) → tree_ok (tree_of st0 root)).
  { intros Hok x. destruct (Hok x) as [Hp|H0].
    - left. by eapply has_path_mono.
    - right. by rewrite Hslot0. }
  destruct (has_path (tree_of st0 root) va) eqn:Hp.
  - assert (Ht1 : tree_of (set_leaf root va e' st0) root
                  = PagetableTree (pt_tables (tree_of st0 root))
                      (<[va / PAGESIZE := e']> (pt_leaves (tree_of st0 root)))).
    { unfold set_leaf. by rewrite tree_of_set_tree_eq. }
    rewrite Ht1. split; [done|]. split; [done|]. split; [done|].
    assert (Hother : ∀ va', va' / PAGESIZE ≠ va / PAGESIZE →
              leaf_slot (PagetableTree (pt_tables (tree_of st0 root))
                 (<[va / PAGESIZE := e']> (pt_leaves (tree_of st0 root)))) va'
              = leaf_slot (tree_of st root) va').
    { intros va' Hne. unfold leaf_slot. simpl.
      rewrite lookup_insert_ne by done. by rewrite Hlv. }
    split; [|split; [done|]].
    + intros Hok x.
      destruct (decide (x / PAGESIZE = va / PAGESIZE)) as [He|Hne].
      * left. rewrite <- Hp. rewrite (has_path_same_page _ va x He).
        done.
      * destruct (Hok0 Hok x) as [Hpx|H0]; [by left|].
        right. rewrite Hother by done. by rewrite <- Hslot0.
    + left. unfold leaf_slot. simpl. by rewrite lookup_insert_eq.
  - split; [done|]. split; [done|]. split; [done|]. split; [done|].
    split; [intros va' _; apply Hslot0|].
    right. split; [|apply Hslot0].
    destruct (decide (perm = 0)) as [|Hne]; [done|].
    by specialize (Hpath Hne).
Qed.

(** ** The frames a page of the walk is charged with *)

Lemma omap_ext_in {A B} (f g : A → option B) (l : list A) :
  (∀ x, x ∈ l → g x = f x) → omap g l = omap f l.
Proof.
  induction l as [|x l IH]; intros Hgf; [done|]. csimpl.
  rewrite (Hgf x) by (by left). rewrite IH; [done|].
  intros y Hy. apply Hgf. by right.
Qed.

Lemma omap_update {A B} (f g : A → option B) (a : A) (l : list A) :
  NoDup l → a ∈ l → f a = None →
  (∀ x, x ∈ l → x ≠ a → g x = f x) →
  omap g l ≡ₚ option_list (g a) ++ omap f l.
Proof.
  intros Hnd. induction Hnd as [|x l Hx Hnd IH]; intros Ha Hfa Hgf.
  - by apply elem_of_nil in Ha.
  - apply elem_of_cons in Ha as [->|Ha].
    + csimpl. rewrite Hfa.
      rewrite (omap_ext_in f g l).
      * by destruct (g x).
      * intros y Hy. apply Hgf; [by right|]. by intros ->.
    + csimpl. rewrite (Hgf x); [|by left|by intros ->].
      assert (IH' : omap g l ≡ₚ option_list (g a) ++ omap f l).
      { apply IH; [done | done |]. intros y Hy Hne. apply Hgf; [by right | done]. }
      destruct (f x); rewrite IH'; [|done].
      by rewrite Permutation_middle.
Qed.

Lemma page_charged t t1 pages va (c : option Z) ts :
  NoDup pages → va ∈ pages →
  (∀ x, x ∈ pages → x mod PAGESIZE = 0) →
  tree_ok t → tree_ok t1 → leaf_slot t va = 0 →
  (∀ va', va' / PAGESIZE ≠ va / PAGESIZE → leaf_slot t1 va' = leaf_slot t va') →
  freed_frame (leaf_slot t1 va) va = c →
  ptiter_pages t1 ≡ₚ ts ++ ptiter_pages t →
  user_frames t1 pages ++ ptiter_pages t1
  ≡ₚ (option_list c ++ ts) ++ user_frames t pages ++ ptiter_pages t.
Proof.
  intros Hnd Hin Hal Hok Hok1 H0 Hother Hc Hpt.
  assert (Huf : user_frames t1 pages ≡ₚ option_list c ++ user_frames t pages).
  { unfold user_frames. rewrite <- Hc, <- (pte_tree_ok t1 va Hok1).
    apply (omap_update (λ x, freed_frame (pte t x) x)
             (λ x, freed_frame (pte t1 x) x)); [done | done | |].
    - by rewrite (pte_tree_ok t va Hok), H0.
    - intros x Hx Hne.
      rewrite (pte_tree_ok t1 x Hok1), (pte_tree_ok t x Hok), Hother; [done|].
      intros He. apply Hne.
      apply (aligned_same_page va x); [apply Hal; done | by apply Hal | done]. }
  rewrite Huf, Hpt. rewrite <- !app_assoc. f_equiv.
  apply Permutation_app_swap_app.
Qed.

Lemma freed_frame_0 va : freed_frame 0 va = None.
Proof. done. Qed.

(** Mapping in the child what the parent has at [va]: the tables taken,
    and the leaf, which is the parent's entry copied. *)
Lemma try_map_copy root va e st :
  va mod PAGESIZE = 0 →
  leaf_slot (tree_of st root) va = 0 →
  (try_map root va (entry_pa e va) (entry_perm e) st).1 = 0 →
  let st1 := (try_map root va (entry_pa e va) (entry_perm e) st).2 in
  ∃ ts e', physpages st1 = bumps 1 ts (physpages st)
    ∧ ptiter_pages (tree_of st1 root) ≡ₚ ts ++ ptiter_pages (tree_of st root)
    ∧ Forall (λ x, x ≠ 0) ts
    ∧ (tree_ok (tree_of st root) → tree_ok (tree_of st1 root))
    ∧ (∀ va', va' / PAGESIZE ≠ va / PAGESIZE →
         leaf_slot (tree_of st1 root) va' = leaf_slot (tree_of st root) va')
    ∧ leaf_slot (tree_of st1 root) va = e'
    ∧ entry_user e' = entry_user e
    ∧ (pte_present e = true → entry_pa e' va = entry_pa e va ∧ entry_pa e va ≠ NO_PA).
Proof.
  intros Hal H0 Hok. cbv zeta.
  destruct (try_map_effect root va _ _ st Hok) as (ts & H1 & H2 & H3 & H4 & H5 & H6).
  pose proof (entry_copied e va Hal) as Hcp. cbv zeta in Hcp.
  set (e' := Z.lor _ (entry_perm e)) in *.
  destruct Hcp as (Hu & Hpres & Habs).
  exists ts, e'. do 5 (split; [done|]).
  split; [|split; [exact Hu | exact Hpres]].
  destruct H6 as [H6 | [Hperm H6]]; [exact H6|].
  rewrite H6, H0. symmetry. apply Habs.
  destruct (pte_present e) eqn:Hp; [|done].
  pose proof (entry_perm_present e Hp) as Hpp. by rewrite Hperm in Hpp.
Qed.

(** One step of fork's walk that goes on: the frames it charges are the
    ones the teardown of the child will release for this page, and the
    tables it took. *)
Lemma fork_page_effect child va st st1 pages :
  fork_page child va st = inl st1 →
  pagetable (proc_at st child) ≠ pagetable (current_proc st) →
  va mod PAGESIZE = 0 →
  NoDup pages → va ∈ pages → (∀ x, x ∈ pages → x mod PAGESIZE = 0) →
  kernel_range_private (tree_of st (pagetable (current_proc st))) →
  user_pages_nonnull (tree_of st (pagetable (current_proc st))) →
  tree_ok (tree_of st (pagetable (proc_at st child))) →
  leaf_slot (tree_of st (pagetable (proc_at st child))) va = 0 →
  let t := tree_of st (pagetable (proc_at st child)) in
  let t1 := tree_of st1 (pagetable (proc_at st child)) in
  ∃ L, physpages st1 = bumps 1 L (physpages st)
    ∧ user_frames t1 pages ++ ptiter_pages t1
      ≡ₚ L ++ user_frames t pages ++ ptiter_pages t
    ∧ Forall (λ x, x ≠ 0) L
    ∧ tree_ok t1.
Proof.
  intros Hstep Hne Hal Hnd Hin Hpages Hkern Hnz Hok H0. cbv zeta.
  destruct (wf_facts wf) as (_ & _ & _ & _ & Hcons & _).
  unfold fork_page in Hstep.
  set (croot := pagetable (proc_at st child)) in *.
  set (pit := tree_of st (pagetable (current_proc st))) in *.
  set (e := pte pit va) in *.
  change (vmiter_pa pit va) with (entry_pa e va) in Hstep.
  change (vmiter_perm pit va) with (entry_perm e) in Hstep.
  (* the three branches that copy the parent's mapping *)
  assert (Hcopy : ∀ s (c : option Z),
            (try_map croot va (entry_pa e va) (entry_perm e) st).1 = 0 →
            s = (try_map croot va (entry_pa e va) (entry_perm e) st).2 →
            (∀ e', entry_user e' = entry_user e →
               (pte_present e = true → entry_pa e' va = entry_pa e va ∧ entry_pa e va ≠ NO_PA) →
               freed_frame e' va = c) →
            Forall (λ x, x ≠ 0) (option_list c) →
            ∃ L, bumps 1 (option_list c) (physpages s) = bumps 1 L (physpages st)
              ∧ user_frames (tree_of s croot) pages ++ ptiter_pages (tree_of s croot)
                ≡ₚ L ++ user_frames (tree_of st croot) pages
                     ++ ptiter_pages (tree_of st croot)
              ∧ Forall (λ x, x ≠ 0) L
              ∧ tree_ok (tree_of s croot)).
  { intros s c Hr -> Hc Hcnz.
    destruct (try_map_copy croot va e st Hal H0 Hr)
      as (ts & e' & H1 & H2 & H3 & H4 & H5 & H6 & H7 & H8).
    exists (option_list c ++ ts). split; [by rewrite H1, bumps_app|].
    split; [|split; [by apply Forall_app | by apply H4]].
    apply (page_charged _ _ pages va c ts); try done; [by apply H4|].
    rewrite H6. by apply Hc. }
  assert (Hpt : ∀ pa perm, tree_of (try_map croot va pa perm st).2
                  (pagetable (current_proc st)) = pit).
  { intros pa perm.
    destruct (try_map_only_leaf croot va pa perm st) as [(_ & _ & Ho & _) _].
    apply Ho. intros Heq. apply Hne. by rewrite Heq. }
  case_bool_decide as Hlow.
  { (* below PROC_START_ADDR *)
    pose proof (Hcopy (try_map croot va (entry_pa e va) (entry_perm e) st).2 None)
      as Hc.
    destruct (try_map croot va (entry_pa e va) (entry_perm e) st) as [r s].
    cbn [fst snd] in Hc.
    case_bool_decide as Hr; [done|]. injection Hstep as <-.
    apply Hc; [by destruct (decide (r = 0)) | done | | done].
    intros e' Hu _. unfold freed_frame. rewrite Hu.
    destruct (decide (va = CONSOLE_ADDR)) as [->|Hnc].
    - rewrite (bool_decide_eq_false_2 (CONSOLE_ADDR ≠ CONSOLE_ADDR)) by (intros ?; done).
      by rewrite andb_false_r.
    - change (entry_user e) with (vmiter_user pit va). by rewrite Hkern by done. }
  assert (Hnc : va ≠ CONSOLE_ADDR) by lia.
  change (vmiter_writable pit va && vmiter_user pit va)
    with (vmiter_writable pit va && entry_user e) in Hstep.
  change (negb (vmiter_writable pit va) && vmiter_user pit va)
    with (negb (vmiter_writable pit va) && entry_user e) in Hstep.
  destruct (vmiter_writable pit va) eqn:Hw; destruct (entry_user e) eqn:Hu;
    cbn [andb negb] in Hstep.
  - (* writable and user: a fresh copy *)
    pose proof (kalloc_some wf st) as Hk.
    pose proof (kalloc_bump st) as Hb.
    pose proof (tree_of_kalloc PAGESIZE st croot) as Htr.
    destruct (kalloc PAGESIZE st) as [pa s1]. cbn [fst snd] in *.
    case_bool_decide as Hpa; [done|].
    destruct (Hk Hpa) as (Hfr & _ & _). specialize (Hb Hpa).
    set (s2 := set_physmem _ s1) in *.
    assert (Hpres : pte_present e = true).
    { destruct (pte_present e) eqn:Hp; [done|].
      unfold entry_user, entry_perm in Hu. by rewrite Hp in Hu. }
    pose proof (entry_perm_present e Hpres) as Hpp.
    pose proof (entry_perm_range e) as Hrange.
    assert (Hpn : entry_perm e ≠ 0) by (intros Hz; by rewrite Hz in Hpp).
    pose proof (try_map_effect croot va pa (entry_perm e) s2) as He.
    destruct (try_map croot va pa (entry_perm e) s2) as [r s3]. cbn [fst snd] in He.
    destruct (decide (r = 0)) as [->|Hr];
      [|by rewrite bool_decide_eq_true_2 in Hstep].
    rewrite bool_decide_eq_false_2 in Hstep by (by intros ?).
    injection Hstep as <-.
    destruct (He eq_refl) as (ts & H1 & H2 & H3 & H4 & H5 & H6).
    change (tree_of s2 croot) with (tree_of s1 croot) in *.
    rewrite Htr in *. change (physpages s2) with (physpages s1) in H1.
    destruct H6 as [H6 | [Hz _]]; [|done].
    rewrite (bool_decide_eq_false_2 (entry_perm e = 0)) in H6 by done.
    rewrite andb_false_r in H6.
    destruct (is_frame_bounds wf pa Hfr) as [Hb52 Hbal].
    destruct (entry_written pa (entry_perm e) va Hb52 Hbal Hrange Hpp Hal) as [E1 E2].
    exists ([pa] ++ ts). split; [|split; [|split]].
    + rewrite H1, Hb. simpl. by rewrite bump_bumps.
    + apply (page_charged _ _ pages va (Some pa) ts); try done; [by apply H4|].
      rewrite H6. unfold freed_frame, entry_user. rewrite E2.
      change (Z.land (entry_perm e) (Z.lor PTE_P PTE_U) =? Z.lor PTE_P PTE_U)
        with (entry_user e). rewrite Hu.
      rewrite bool_decide_eq_true_2 by done. simpl. by rewrite E1.
    + apply Forall_app. split; [by constructor | done].
    + by apply H4.
  - (* writable, not user *)
    pose proof (Hcopy (try_map croot va (entry_pa e va) (entry_perm e) st).2 None)
      as Hc.
    destruct (try_map croot va (entry_pa e va) (entry_perm e) st) as [r s].
    cbn [fst snd] in Hc.
    case_bool_decide as Hr; [done|]. injection Hstep as <-.
    apply Hc; [by destruct (decide (r = 0)) | done | | done].
    intros e' Hu' _. unfold freed_frame. by rewrite Hu'.
  - (* read-only and user: shared *)
    pose proof (Hcopy (try_map croot va (entry_pa e va) (entry_perm e) st).2
                  (Some (entry_pa e va))) as Hc.
    pose proof (Hpt (entry_pa e va) (entry_perm e)) as Hpit.
    assert (Hcur : current_proc (try_map croot va (entry_pa e va) (entry_perm e) st).2
                   = current_proc st).
    { destruct (try_map_only_leaf croot va (entry_pa e va) (entry_perm e) st)
        as [(Hp & Hc' & _) _].
      unfold current_proc, proc_at. by rewrite Hp, Hc'. }
    destruct (try_map croot va (entry_pa e va) (entry_perm e) st) as [r s].
    cbn [fst snd] in Hc, Hpit, Hcur.
    case_bool_decide as Hr; [done|].
    rewrite Hcur, Hpit in Hstep.
    change (vmiter_pa pit va) with (entry_pa e va) in Hstep.
    assert (Hpres : pte_present e = true).
    { destruct (pte_present e) eqn:Hp; [done|].
      unfold entry_user, entry_perm in Hu. by rewrite Hp in Hu. }
    destruct (entry_copied e va Hal) as (_ & Hcp & _).
    destruct (Hcp Hpres) as [_ Hnopa].
    cbv zeta in Hstep. rewrite bool_decide_eq_true_2 in Hstep by done.
    injection Hstep as <-.
    rewrite set_refcount_bump.
    change (tree_of (set_refcount _ _ s) croot) with (tree_of s croot).
    apply Hc; [by destruct (decide (r = 0)) | done | |].
    + intros e' Hu' Hpa'. unfold freed_frame. rewrite Hu'.
      rewrite bool_decide_eq_true_2 by done. simpl.
      by destruct (Hpa' Hpres) as [-> _].
    + constructor; [|done]. apply (Hnz va Hal). exact Hu.
  - (* neither *)
    pose proof (Hcopy (try_map croot va (entry_pa e va) (entry_perm e) st).2 None)
      as Hc.
    destruct (try_map croot va (entry_pa e va) (entry_perm e) st) as [r s].
    cbn [fst snd] in Hc.
    case_bool_decide as Hr; [done|]. injection Hstep as <-.
    apply Hc; [by destruct (decide (r = 0)) | done | | done].
    intros e' Hu' _. unfold freed_frame. by rewrite Hu'.
Qed.

Lemma walk_pages_S n va :
  walk_pages (S n) va = va :: walk_pages n (va + PAGESIZE).
Proof.
  unfold walk_pages. simpl. f_equal; [lia|].
  rewrite <- fmap_S_seq, <- list_fmap_compose.
  apply list_fmap_ext. intros i k _. simpl. lia.
Qed.

Lemma walk_pages_elem n va x :
  x ∈ walk_pages n va → ∃ k : nat, (k < n)%nat ∧ x = va + Z.of_nat k * PAGESIZE.
Proof.
  unfold walk_pages. intros (k & -> & Hk)%list_elem_of_fmap.
  apply elem_of_seq in Hk. exists k. split; [lia | done].
Qed.

Lemma walk_pages_NoDup n va : NoDup (walk_pages n va).
Proof.
  apply NoDup_fmap_2_strong; [|apply NoDup_seq].
  intros a b _ _ H. unfold PAGESIZE in H. lia.
Qed.

Lemma walk_pages_aligned n va x :
  va mod PAGESIZE = 0 → x ∈ walk_pages n va → x mod PAGESIZE = 0.
Proof.
  intros Hal (k & _ & ->)%walk_pages_elem.
  unfold PAGESIZE in *. Z.div_mod_to_equations. lia.
Qed.

(** The whole walk of fork, when it goes through: the frames charged are,
    up to order, the ones the teardown of the child will release. *)
Lemma fork_loop_effect n va0 child st st' pages :
  fork_loop n va0 child st = inl st' →
  pagetable (proc_at st child) ≠ pagetable (current_proc st) →
  va0 mod PAGESIZE = 0 →
  NoDup pages → (∀ x, x ∈ pages → x mod PAGESIZE = 0) →
  (∀ x, x ∈ walk_pages n va0 → x ∈ pages) →
  kernel_range_private (tree_of st (pagetable (current_proc st))) →
  user_pages_nonnull (tree_of st (pagetable (current_proc st))) →
  tree_ok (tree_of st (pagetable (proc_at st child))) →
  (∀ x, x ∈ walk_pages n va0 →
        leaf_slot (tree_of st (pagetable (proc_at st child))) x = 0) →
  let t := tree_of st (pagetable (proc_at st child)) in
  let t' := tree_of st' (pagetable (proc_at st child)) in
  ∃ L, physpages st' = bumps 1 L (physpages st)
    ∧ user_frames t' pages ++ ptiter_pages t'
      ≡ₚ L ++ user_frames t pages ++ ptiter_pages t
    ∧ Forall (λ x, x ≠ 0) L
    ∧ ptable st' = ptable st ∧ current st' = current st.
Proof.
  revert va0 st. induction n as [|n IH]; intros va0 st; simpl.
  - intros [= <-] _ _ _ _ _ _ _ _ _. by exists [].
  - destruct (fork_page child va0 st) as [st1|st1] eqn:Hstep; [|done].
    intros Hloop Hne Hal Hnd Hpages Hsub Hkern Hnz Hok H0.
    change (((λ k : nat, va0 + Z.of_nat k * PAGESIZE) <$> seq 0 (S n)))
      with (walk_pages (S n) va0) in *.
    rewrite walk_pages_S in Hsub, H0.
    destruct (fork_page_only_leaf _ _ _ _ Hstep) as [(Hpt & Hcur & Hoth & Hleaf) _].
    destruct (fork_page_effect child va0 st st1 pages Hstep Hne Hal Hnd
                (Hsub _ (list_elem_of_here _ _)) Hpages Hkern Hnz Hok
                (H0 _ (list_elem_of_here _ _))) as (L1 & P1 & Q1 & N1 & Ok1).
    assert (Hpc : proc_at st1 child = proc_at st child)
      by (unfold proc_at; by rewrite Hpt).
    assert (Hcp : current_proc st1 = current_proc st)
      by (unfold current_proc, proc_at; by rewrite Hpt, Hcur).
    specialize (IH (va0 + PAGESIZE) st1 Hloop).
    rewrite Hpc, Hcp in IH.
    rewrite (Hoth (pagetable (current_proc st))) in IH
      by (intros Heq; apply Hne; by rewrite Heq).
    destruct IH as (L2 & P2 & Q2 & N2 & Hpt2 & Hcur2); try done.
    + unfold PAGESIZE in *. Z.div_mod_to_equations. lia.
    + intros x Hx. apply Hsub. by right.
    + intros x Hx. rewrite Hleaf; [apply H0; by right|].
      apply walk_pages_elem in Hx as (k & _ & ->).
      unfold PAGESIZE in *. Z.div_mod_to_equations. lia.
    + exists (L2 ++ L1). split; [by rewrite P2, P1, bumps_app|].
      split; [by rewrite Q2, Q1, app_assoc|].
      split; [by apply Forall_app|].
      split; congruence.
Qed.

Lemma tree_of_kfree kptr st root : tree_of (kfree kptr st) root = tree_of st root.
Proof. unfold tree_of. by destruct (kfree_keeps kptr st) as (_ & _ & -> & _). Qed.

(** The loop of [syscall_exit] releases the frames of [user_frames], one
    reference each. *)
Lemma exit_loop_effect n va root st :
  Forall (λ x, x ≠ 0) (user_frames (tree_of st root) (walk_pages n va)) →
  physpages (exit_loop n va root st)
  = bumps (-1) (user_frames (tree_of st root) (walk_pages n va)) (physpages st).
Proof.
  revert va st. induction n as [|n IH]; intros va st; [done|].
  rewrite walk_pages_S. cbn [exit_loop]. unfold user_frames.
  cbn [omap list_omap]. cbv beta.
  destruct (vmiter_entry (tree_of st root) va) as (Hpa & _ & Hus).
  rewrite Hpa, Hus.
  change (freed_frame (pte (tree_of st root) va) va)
    with (if entry_user (pte (tree_of st root) va) && bool_decide (va ≠ CONSOLE_ADDR)
          then Some (entry_pa (pte (tree_of st root) va) va) else None).
  destruct (entry_user (pte (tree_of st root) va) && bool_decide (va ≠ CONSOLE_ADDR)).
  - intros [Hnz Hrest]%Forall_cons.
    rewrite IH; rewrite tree_of_kfree; [|exact Hrest].
    rewrite (kfree_bump _ _ Hnz). simpl. by rewrite bump_bumps.
  - intros Hrest. by rewrite IH.
Qed.

(** Freeing a list of frames releases one reference of each. *)
Lemma kfree_all_effect l st :
  Forall (λ x, x ≠ 0) l →
  physpages (foldl (λ s pa, kfree pa s) st l) = bumps (-1) l (physpages st).
Proof.
  revert st. induction l as [|pa l IH]; intros st; [done|].
  intros [Hnz Hrest]%Forall_cons. simpl.
  by rewrite IH, (kfree_bump _ _ Hnz), bump_bumps.
Qed.

Lemma leaves_ok_sound t :
  leaves_ok t = true → kernel_range_private t ∧ user_pages_nonnull t.
Proof.
  intros Hall.
  assert (Hleaf : ∀ va, va mod PAGESIZE = 0 → entry_user (pte t va) = true →
            (PROC_START_ADDR ≤ va ∨ va = CONSOLE_ADDR) ∧ entry_pa (pte t va) va ≠ 0).
  { intros va Hal Hu. unfold pte in *.
    destruct (has_path t va); [|done].
    destruct (pt_leaves t !! (va / PAGESIZE)) as [e|] eqn:He; [|done].
    cbn [default from_option id] in *.
    apply elem_of_map_to_list, list_elem_of_In in He.
    unfold leaves_ok in Hall. rewrite forallb_forall in Hall.
    specialize (Hall _ He). unfold leaf_ok in Hall. cbn [fst snd] in Hall.
    replace (va / PAGESIZE * PAGESIZE) with va in Hall
      by (unfold PAGESIZE in *; Z.div_mod_to_equations; lia).
    rewrite Hu in Hall. cbn [negb orb] in Hall.
    apply andb_prop in Hall as [H1 H2].
    by apply bool_decide_eq_true in H1, H2. }
  split.
  - intros va Hal Hlt Hnc. destruct (vmiter_entry t va) as (_ & _ & Hu).
    destruct (vmiter_user t va) eqn:Hv; [|done].
    destruct (Hleaf va Hal (eq_sym Hu)) as [[?|?] _]; [lia | done].
  - intros va Hal Hv. destruct (vmiter_entry t va) as (Hpa & _ & Hu).
    rewrite Hpa. apply (Hleaf va Hal). by rewrite <- Hu.
Qed.

Lemma leaves_rooted_sound t : leaves_rooted t = true → tree_ok t.
Proof.
  intros Hall va. unfold leaf_slot.
  destruct (pt_leaves t !! (va / PAGESIZE)) as [e|] eqn:He; [|by right].
  apply elem_of_map_to_list, list_elem_of_In in He.
  unfold leaves_rooted in Hall. rewrite forallb_forall in Hall.
  specialize (Hall _ He). unfold leaf_rooted in Hall. cbn [fst snd] in Hall.
  apply orb_prop in Hall as [H0|Hp].
  - right. apply Z.eqb_eq in H0. by rewrite H0.
  - left. rewrite <- Hp. apply has_path_same_page.
    unfold PAGESIZE. by rewrite Z.div_mul.
Qed.

Lemma no_free_frame st :
  length (physpages st) = NPAGES →
  Forall (λ x, x ≠ 0) (physpages st) →
  ∀ pa, is_frame pa → ¬ frame_free st pa.
Proof.
  intros Hlen Hall pa Hf [_ Hr]. unfold refcount in Hr.
  pose proof (frame_index_lt wf pa Hf) as Hlt. rewrite <- Hlen in Hlt.
  destruct (lookup_lt_is_Some_2 _ _ Hlt) as [x Hx]. rewrite Hx in Hr.
  rewrite Forall_lookup in Hall. by apply (Hall _ _ Hx).
Qed.

(** What [kalloc_pagetable] leaves when it succeeds: one frame charged,
    holding an empty tree. *)
Lemma kalloc_pagetable_effect st :
  (kalloc_pagetable st).1 ≠ 0 →
  physpages (kalloc_pagetable st).2
  = bump 1 (kalloc_pagetable st).1 (physpages st)
  ∧ refcount st (kalloc_pagetable st).1 = 0
  ∧ tree_of (kalloc_pagetable st).2 (kalloc_pagetable st).1 = empty_tree
  ∧ ∀ r, r ≠ (kalloc_pagetable st).1 →
         tree_of (kalloc_pagetable st).2 r = tree_of st r.
Proof.
  unfold kalloc_pagetable.
  pose proof (kalloc_bump st) as Hb.
  pose proof (kalloc_returns_free_frame st) as Hf.
  pose proof (tree_of_kalloc PAGESIZE st) as Ht.
  destruct (kalloc PAGESIZE st) as [pt s1]. cbn [fst snd] in *.
  case_bool_decide; [done|]. cbn [fst snd]. intros _.
  split; [by apply Hb|]. split; [by apply Hf|].
  split; [apply tree_of_set_tree_eq|].
  intros r Hr. rewrite tree_of_set_tree_ne by done. apply Ht.
Qed.

Lemma user_frames_empty pages : user_frames empty_tree pages = [].
Proof. unfold user_frames. by induction pages. Qed.


(** ** The rules of a page table, step by step *)

Lemma new_tables_mono lvls root va st :
  pt_leaves (tree_of (new_tables lvls root va st).2 root) = pt_leaves (tree_of st root)
  ∧ ∀ k, is_Some (pt_tables (tree_of st root) !! k) →
         is_Some (pt_tables (tree_of (new_tables lvls root va st).2 root) !! k).
Proof.
  revert st. induction lvls as [|l rest IH]; intros st; simpl; [done|].
  destruct (has_table (tree_of st root) l va); [apply IH|].
  pose proof (tree_of_kalloc PAGESIZE st root) as Htr.
  destruct (kalloc PAGESIZE st) as [pt st1]. cbn [fst snd] in *.
  case_bool_decide as Hpt; cbn [snd]; [by rewrite Htr|].
  set (st2 := add_table root (table_key l va) pt
                (set_physmem (λ m, memset m pt 0 PAGESIZE) st1)).
  assert (Ht2 : tree_of st2 root
                = PagetableTree (<[table_key l va := pt]> (pt_tables (tree_of st root)))
                    (pt_leaves (tree_of st root))).
  { unfold st2, add_table. rewrite tree_of_set_tree_eq.
    change (tree_of (set_physmem _ st1) root) with (tree_of st1 root).
    by rewrite Htr. }
  destruct (IH st2) as [Hlv Hmono]. split.
  - by rewrite Hlv, Ht2.
  - intros k Hk. apply Hmono. rewrite Ht2. simpl.
    destruct (decide (k = table_key l va)) as [->|Hne].
    + rewrite lookup_insert_eq. eauto.
    + by rewrite lookup_insert_ne.
Qed.

(** Whatever its outcome, [try_map] keeps the tree well-formed and writes
    at most the leaf of its page. *)
Lemma try_map_any root va pa perm st :
  let st1 := (try_map root va pa perm st).2 in
  let e' := Z.lor (if bool_decide (pa = NO_PA) && bool_decide (perm = 0) then 0 else pa)
                  perm in
  (tree_ok (tree_of st root) → tree_ok (tree_of st1 root))
  ∧ (∀ va', va' / PAGESIZE ≠ va / PAGESIZE →
       leaf_slot (tree_of st1 root) va' = leaf_slot (tree_of st root) va')
  ∧ (leaf_slot (tree_of st1 root) va = e'
     ∨ leaf_slot (tree_of st1 root) va = leaf_slot (tree_of st root) va).
Proof.
  cbv zeta. destruct (decide ((try_map root va pa perm st).1 = 0)) as [H0|Hne].
  - destruct (try_map_effect root va pa perm st H0)
      as (ts & _ & _ & _ & Hok & Hoth & Hleaf).
    split; [done|]. split; [done|]. destruct Hleaf as [?|[_ ?]]; auto.
  - revert Hne. unfold try_map. case_bool_decide as Hperm.
    + rewrite (bool_decide_eq_true_2 (0 = 0)) by done. done.
    + pose proof (new_tables_mono [3; 2; 1] root va st) as [Hlv Hmono].
      destruct (new_tables [3; 2; 1] root va st) as [r st0]. cbn [fst snd] in *.
      case_bool_decide as Hr; [done|]. intros _. cbn [snd].
      assert (Hslot : ∀ x, leaf_slot (tree_of st0 root) x = leaf_slot (tree_of st root) x)
        by (intros x; unfold leaf_slot; by rewrite Hlv).
      split; [|split; [intros; apply Hslot | right; apply Hslot]].
      intros Hok x. destruct (Hok x) as [Hp|Hz].
      * left. by eapply has_path_mono.
      * right. by rewrite Hslot.
Qed.

Lemma safe_leaves t :
  tree_ok t →
  (kernel_range_private t ∧ user_pages_nonnull t)
  ↔ ∀ va, va mod PAGESIZE = 0 → leaf_safe (leaf_slot t va) va.
Proof.
  intros Hok. split.
  - intros [Hk Hn] va Hal Hu. rewrite <- (pte_tree_ok t va Hok) in *.
    split; [|by apply (Hn va Hal)].
    destruct (decide (PROC_START_ADDR ≤ va)) as [|Hlow]; [by left|].
    destruct (decide (va = CONSOLE_ADDR)) as [|Hnc]; [by right|].
    assert (Hf : vmiter_user t va = false) by (apply Hk; [done | lia | done]).
    change (vmiter_user t va) with (entry_user (pte t va)) in Hf. congruence.
  - intros Hall. split.
    + intros va Hal Hlt Hnc. specialize (Hall va Hal).
      rewrite <- (pte_tree_ok t va Hok) in Hall.
      change (vmiter_user t va) with (entry_user (pte t va)).
      destruct (entry_user (pte t va)) eqn:Hu; [|done].
      destruct (Hall Hu) as [[?|?] _]; [lia | done].
    + intros va Hal Hu. specialize (Hall va Hal).
      rewrite <- (pte_tree_ok t va Hok) in Hall. by apply Hall.
Qed.

Lemma entry_user_0 : entry_user 0 = false.
Proof. done. Qed.

(** The entry written for a frame [pa] with the permissions [perm]. *)
Lemma leaf_safe_written pa perm va :
  0 ≤ pa < 2 ^ 52 → pa mod PAGESIZE = 0 → 0 ≤ perm < PAGESIZE →
  va mod PAGESIZE = 0 →
  (Z.land perm (Z.lor PTE_P PTE_U) = Z.lor PTE_P PTE_U →
   (PROC_START_ADDR ≤ va ∨ va = CONSOLE_ADDR) ∧ pa ≠ 0) →
  leaf_safe (Z.lor pa perm) va.
Proof.
  intros Hpa Hal Hperm Hva Huser Hu.
  destruct (decide (Z.land perm PTE_P = 0)) as [Hp|Hp].
  - destruct (pte_fields pa perm Hpa Hal Hperm) as (_ & _ & F3).
    unfold entry_user, entry_perm, pte_present in Hu. rewrite F3, Hp in Hu. done.
  - destruct (entry_written pa perm va Hpa Hal Hperm Hp Hva) as [E1 E2].
    unfold entry_user in Hu. rewrite E2 in Hu. apply Z.eqb_eq in Hu.
    rewrite E1. by apply Huser.
Qed.

(** Mapping a page keeps the table safe when the entry written is. *)
Lemma try_map_safe root va pa perm st :
  va mod PAGESIZE = 0 →
  pagetable_safe (tree_of st root) →
  leaf_safe (Z.lor (if bool_decide (pa = NO_PA) && bool_decide (perm = 0) then 0 else pa)
               perm) va →
  pagetable_safe (tree_of (try_map root va pa perm st).2 root).
Proof.
  intros Hal (Hok & Hsafe) He.
  destruct (try_map_any root va pa perm st) as (Hok1 & Hoth & Hleaf).
  split; [by apply Hok1|]. apply (proj2 (safe_leaves _ (Hok1 Hok))).
  pose proof (proj1 (safe_leaves _ Hok) Hsafe) as Hs.
  intros x Hx. destruct (decide (x / PAGESIZE = va / PAGESIZE)) as [Heq|Hne].
  - assert (x = va) as -> by (by apply (aligned_same_page va x)).
    destruct Hleaf as [-> | ->]; [done | by apply Hs].
  - rewrite Hoth by done. by apply Hs.
Qed.

Lemma try_map_other_roots root root' va pa perm st :
  root' ≠ root → tree_of (try_map root va pa perm st).2 root' = tree_of st root'.
Proof.
  intros Hne.
  destruct (try_map_only_leaf root va pa perm st) as [(_ & _ & Ho & _) _].
  by apply Ho.
Qed.

Lemma page_alloc_safe (addr : Z) (st : kstate) (root : Z) :
  pagetable_safe (tree_of st root) →
  pagetable_safe (tree_of (syscall_page_alloc addr st).2 root).
Proof.
  intros Hsafe. unfold syscall_page_alloc.
  destruct (bool_decide (addr < PROC_START_ADDR)) eqn:H1; [done|].
  destruct (bool_decide (addr >= MEMSIZE_VIRTUAL)) eqn:H2; [done|].
  destruct (bool_decide (addr mod 4096 ≠ 0)) eqn:H3; [done|].
  apply bool_decide_eq_false in H1, H2, H3. cbn [orb].
  assert (Hal : addr mod PAGESIZE = 0) by (unfold PAGESIZE; lia).
  pose proof (kalloc_some wf st) as Hk.
  pose proof (tree_of_kalloc PAGESIZE st root) as Htr.
  destruct (kalloc PAGESIZE st) as [pa st1]. cbn [fst snd] in *.
  case_bool_decide as Hpa; cbn [snd]; [by rewrite Htr|].
  destruct (Hk Hpa) as (Hfr & _ & _).
  destruct (is_frame_bounds wf pa Hfr) as [Hb Ha].
  set (croot := pagetable (current_proc st)).
  set (perm := Z.lor (Z.lor PTE_P PTE_W) PTE_U).
  assert (Hres : pagetable_safe (tree_of (try_map croot addr pa perm st1).2 root)).
  { destruct (decide (root = croot)) as [->|Hne].
    - apply try_map_safe; [done | by rewrite Htr |].
      rewrite (bool_decide_eq_false_2 (perm = 0)) by done. rewrite andb_false_r.
      apply leaf_safe_written; try done. intros _. split; [left; lia | done].
    - rewrite try_map_other_roots by done. by rewrite Htr. }
  destruct (try_map croot addr pa perm st1) as [r st2]. cbn [snd] in Hres.
  by case_bool_decide.
Qed.

Lemma pagetable_safe_empty : pagetable_safe empty_tree.
Proof.
  assert (Hok : tree_ok empty_tree) by (intros va; by right).
  split; [done|]. apply (proj2 (safe_leaves _ Hok)). intros va _ Hu. done.
Qed.

Lemma vmiter_map_safe root va pa perm st st1 :
  vmiter_map root va pa perm st = Some st1 →
  va mod PAGESIZE = 0 →
  pagetable_safe (tree_of st root) →
  leaf_safe (Z.lor (if bool_decide (pa = NO_PA) && bool_decide (perm = 0) then 0 else pa)
               perm) va →
  pagetable_safe (tree_of st1 root).
Proof.
  unfold vmiter_map. pose proof (try_map_safe root va pa perm st) as H.
  destruct (try_map root va pa perm st) as [r s]. cbn [snd] in H.
  destruct (bool_decide (r = 0)); [|done]. intros [= <-]. exact H.
Qed.

(** The entries of the kernel mappings (lines 63-74, copied by lines
    156-159): none at address 0, the console for users, everything else
    for the kernel alone. *)
Lemma kernel_entry_safe va :
  va mod PAGESIZE = 0 → 0 ≤ va < 2 ^ 52 →
  leaf_safe (Z.lor (if bool_decide (kernel_pa va = NO_PA)
                       && bool_decide (kernel_perm va = 0) then 0 else kernel_pa va)
               (kernel_perm va)) va.
Proof.
  intros Hal Hb. destruct (wf_facts wf) as (_ & _ & _ & _ & Hcons & _).
  assert (Hk : (kernel_perm va = 0 ∧ kernel_pa va = NO_PA)
               ∨ (kernel_perm va = Z.lor PTE_P PTE_W ∧ kernel_pa va = va)
               ∨ (kernel_perm va = Z.lor (Z.lor PTE_P PTE_W) PTE_U
                  ∧ kernel_pa va = va ∧ va = CONSOLE_ADDR)).
  { unfold kernel_pa, kernel_perm.
    destruct (decide (va = 0)) as [H0|H0].
    - left. by rewrite !(bool_decide_eq_true_2 (va = 0)) by done.
    - rewrite !(bool_decide_eq_false_2 (va = 0)) by done.
      destruct (decide (va = CONSOLE_ADDR)) as [Hc|Hc].
      + right. right.
        rewrite !(bool_decide_eq_false_2 (va ≠ CONSOLE_ADDR)) by (intros ?; done).
        done.
      + right. left. by rewrite !(bool_decide_eq_true_2 (va ≠ CONSOLE_ADDR)) by done. }
  assert (Hne : va ≠ NO_PA).
  { unfold NO_PA. assert (2 ^ 52 < 2 ^ 64 - 1) by done. lia. }
  destruct Hk as [[-> ->] | [[-> ->] | (-> & -> & Hc)]].
  - rewrite !bool_decide_eq_true_2 by done. intros Hu. done.
  - rewrite (bool_decide_eq_false_2 (va = NO_PA)) by done. cbn [andb].
    apply leaf_safe_written; try done.
  - rewrite (bool_decide_eq_false_2 (va = NO_PA)) by done. cbn [andb].
    apply leaf_safe_written; try done.
    intros _. split; [by right | lia].
Qed.

Lemma setup_kernel_loop_safe n va root st st' :
  setup_kernel_loop n va root st = Some st' →
  va mod PAGESIZE = 0 → 0 ≤ va → va + Z.of_nat n * PAGESIZE ≤ 2 ^ 52 →
  pagetable_safe (tree_of st root) → pagetable_safe (tree_of st' root).
Proof.
  revert va st. induction n as [|n IH]; intros va st; simpl.
  - by intros [= <-].
  - destruct (vmiter_map root va (kernel_pa va) (kernel_perm va) st) as [st1|] eqn:Hm;
      [|done]. simpl.
    intros Hloop Hal H0 Hb Hsafe.
    apply (IH (va + PAGESIZE) st1 Hloop).
    + unfold PAGESIZE in *. Z.div_mod_to_equations. lia.
    + unfold PAGESIZE. lia.
    + unfold PAGESIZE in *. lia.
    + apply (vmiter_map_safe _ _ _ _ _ _ Hm Hal Hsafe).
      apply kernel_entry_safe; [done|]. unfold PAGESIZE in *. lia.
Qed.

Lemma setup_segment_pages_safe n a root seg st st' :
  setup_segment_pages n a root seg st = Some st' →
  a mod PAGESIZE = 0 → PROC_START_ADDR ≤ a →
  pagetable_safe (tree_of st root) → pagetable_safe (tree_of st' root).
Proof.
  revert a st. induction n as [|n IH]; intros a st; simpl.
  - by intros [= <-].
  - pose proof (kalloc_some wf st) as Hk.
    pose proof (tree_of_kalloc PAGESIZE st root) as Htr.
    destruct (kalloc PAGESIZE st) as [pa st1]. cbn [fst snd] in *.
    case_bool_decide as Hpa; [done|].
    destruct (Hk Hpa) as (Hfr & _ & _).
    destruct (is_frame_bounds wf pa Hfr) as [Hb Ha].
    set (perm := if seg_writable seg then _ else _).
    destruct (vmiter_map root a pa perm st1) as [st2|] eqn:Hm; [|done]. simpl.
    intros Hloop Hal Hlow Hsafe.
    apply (IH (a + PAGESIZE) st2 Hloop).
    + unfold PAGESIZE in *. Z.div_mod_to_equations. lia.
    + unfold PAGESIZE. lia.
    + apply (vmiter_map_safe _ _ _ _ _ _ Hm Hal); [by rewrite Htr|].
      assert (Hperm : perm ≠ 0 ∧ 0 ≤ perm < PAGESIZE)
        by (unfold perm; by destruct (seg_writable seg)).
      rewrite (bool_decide_eq_false_2 (perm = 0)) by apply Hperm.
      rewrite andb_false_r. apply leaf_safe_written; try done; [apply Hperm|].
      intros _. split; [by left | done].
Qed.

Lemma setup_segments_safe segs root st st' :
  setup_segments segs root st = Some st' →
  Forall (λ seg, PROC_START_ADDR ≤ seg_va seg) segs →
  pagetable_safe (tree_of st root) → pagetable_safe (tree_of st' root).
Proof.
  destruct (wf_facts wf) as (Hps & _).
  revert st. induction segs as [|seg rest IH]; intros st; simpl.
  - by intros [= <-].
  - destruct (setup_segment_pages _ _ root seg st) as [st1|] eqn:Hp; [|done]. simpl.
    intros Hrest [Hseg Hall]%Forall_cons Hsafe.
    apply (IH st1 Hrest Hall).
    apply (setup_segment_pages_safe _ _ _ _ _ _ Hp); [| |done].
    + unfold round_down, PAGESIZE. Z.div_mod_to_equations. lia.
    + unfold round_down, PAGESIZE in *. Z.div_mod_to_equations. lia.
Qed.

Lemma process_setup_safe (i : nat) (pgm : program_image) (st st' : kstate) :
  (i < length (ptable st))%nat →
  Forall (λ seg, PROC_START_ADDR ≤ seg_va seg) (pgm_segments pgm) →
  process_setup i pgm st = Some st' →
  pagetable (proc_at st' i) ≠ 0 →
  pagetable_safe (tree_of st' (pagetable (proc_at st' i))).
Proof.
  intros Hi Hsegs. unfold process_setup.
  destruct (wf_facts wf) as (Hps & _ & Hmv & _ & Hcons & Hpm & _ & Hv47 & _).
  set (st0 := update_proc i _ st).
  assert (Hlen0 : length (ptable st0) = length (ptable st))
    by (unfold st0, update_proc, set_ptable; simpl; by rewrite length_insert).
  destruct (kalloc_pagetable_frame st0) as [Hpt1 _].
  pose proof (kalloc_pagetable_effect st0) as Hke.
  destruct (kalloc_pagetable st0) as [root st1]. cbn [fst snd] in Hpt1, Hke.
  set (st2 := update_proc i (with_pagetable root) st1).
  destruct (setup_kernel_loop _ 0 root st2) as [st3|] eqn:H3; [|done]. simpl.
  destruct (setup_segments _ root st3) as [st4|] eqn:H4; [|done]. simpl.
  set (st5 := init_segments _ root st4).
  set (st6 := update_proc i _ st5).
  pose proof (kalloc_some wf st6) as Hk.
  destruct (kalloc_frame PAGESIZE st6) as (Hpt7 & _).
  pose proof (tree_of_kalloc PAGESIZE st6 root) as Htr7.
  destruct (kalloc PAGESIZE st6) as [pa st7]. cbn [fst snd] in *.
  case_bool_decide as Hpa; [done|].
  destruct (Hk Hpa) as (Hfr & _ & _).
  set (perm := Z.lor (Z.lor PTE_W PTE_P) PTE_U).
  destruct (vmiter_map root _ pa perm st7) as [st8|] eqn:H8; [|done]. simpl.
  intros [= <-].
  destruct (vmiter_map_ptable _ _ _ _ _ _ H8) as (Hpt8 & _ & _).
  pose proof (setup_kernel_loop_ptable _ _ _ _ _ H3) as Hpt3.
  pose proof (setup_segments_ptable _ _ _ _ H4) as Hpt4.
  destruct (init_segments_keeps (pgm_segments pgm) root st4) as (Hpt5 & Htb5 & _).
  fold st5 in Hpt5, Htb5.
  assert (Hlen2 : length (ptable st2) = length (ptable st)).
  { unfold st2, update_proc, set_ptable. simpl. rewrite length_insert, Hpt1. exact Hlen0. }
  assert (Hlen5 : length (ptable st5) = length (ptable st))
    by (rewrite Hpt5, Hpt4, Hpt3; exact Hlen2).
  assert (Hlen6 : length (ptable st6) = length (ptable st))
    by (unfold st6, update_proc, set_ptable; simpl; by rewrite length_insert).
  assert (Hlen8 : length (ptable st8) = length (ptable st)) by congruence.
  assert (Hroot : pagetable (proc_at (update_proc i
                    (λ p, with_state P_RUNNABLE
                            (with_regs (with_rsp (MEMSIZE_VIRTUAL - PAGESIZE + PAGESIZE)
                                          (regs p)) p)) st8) i) = root).
  { rewrite proc_at_update_eq by lia. simpl.
    rewrite (proc_at_ptable st6 st8) by congruence.
    unfold st6. rewrite proc_at_update_eq by lia. simpl.
    rewrite (proc_at_ptable st2 st5) by congruence.
    unfold st2. by rewrite proc_at_update_eq by (rewrite Hpt1; lia). }
  rewrite Hroot. intros Hr0.
  change (tree_of (update_proc _ _ st8) root) with (tree_of st8 root).
  destruct (Hke Hr0) as (_ & _ & Hempty & _).
  destruct (is_frame_bounds wf pa Hfr) as [Hb Ha].
  apply (vmiter_map_safe _ _ _ _ _ _ H8).
  - unfold PAGESIZE in *. Z.div_mod_to_equations. lia.
  - rewrite Htr7. change (tree_of st6 root) with (tree_of st5 root).
    unfold tree_of at 1. rewrite Htb5. fold (tree_of st4 root).
    apply (setup_segments_safe _ _ _ _ H4 Hsegs).
    apply (setup_kernel_loop_safe _ _ _ _ _ H3); [done | done | |].
    + unfold pages_below, PAGESIZE in *.
      assert (2 ^ 47 + 4096 < 2 ^ 52) by done.
      rewrite Z2Nat.id by (Z.div_mod_to_equations; lia).
      Z.div_mod_to_equations. lia.
    + change (tree_of st2 root) with (tree_of st1 root). rewrite Hempty.
      apply pagetable_safe_empty.
  - rewrite (bool_decide_eq_false_2 (perm = 0)) by done. rewrite andb_false_r.
    apply leaf_safe_written; try done.
    + unfold PAGESIZE in *. Z.div_mod_to_equations. lia.
    + intros _. split; [|done]. left. unfold PAGESIZE in *.
      Z.div_mod_to_equations. lia.
Qed.

(** ** What fork leaves in the child's page table *)

Lemma entry_copied_fields e va :
  va mod PAGESIZE = 0 →
  let e' := Z.lor (if bool_decide (entry_pa e va = NO_PA)
                      && bool_decide (entry_perm e = 0) then 0 else entry_pa e va)
                  (entry_perm e) in
  entry_perm e' = entry_perm e ∧ entry_pa e' va = entry_pa e va.
Proof.
  intros Hva. cbv zeta. destruct (pte_present e) eqn:Hp.
  - destruct (entry_pa_bounds e va Hp Hva) as [Hb Ha].
    pose proof (entry_perm_range e) as Hr.
    pose proof (entry_perm_present e Hp) as Hpp.
    assert (Hne : entry_pa e va ≠ NO_PA).
    { unfold NO_PA. assert (2 ^ 52 < 2 ^ 64 - 1) by done. lia. }
    rewrite (bool_decide_eq_false_2 (entry_pa e va = NO_PA)) by done. cbn [andb].
    by destruct (entry_written _ _ va Hb Ha Hr Hpp Hva) as [E1 E2].
  - assert (E1 : entry_pa e va = NO_PA) by (unfold entry_pa; by rewrite Hp).
    assert (E2 : entry_perm e = 0) by (unfold entry_perm; by rewrite Hp).
    rewrite E1, E2. rewrite !bool_decide_eq_true_2 by done. done.
Qed.

(** The leaf a successful [try_map] of the parent's entry [e] leaves in a
    slot that was empty. *)
Lemma try_map_copy_leaf root va e st :
  va mod PAGESIZE = 0 →
  leaf_slot (tree_of st root) va = 0 →
  (try_map root va (entry_pa e va) (entry_perm e) st).1 = 0 →
  let e1 := leaf_slot (tree_of (try_map root va (entry_pa e va) (entry_perm e) st).2 root)
              va in
  entry_perm e1 = entry_perm e ∧ entry_pa e1 va = entry_pa e va.
Proof.
  intros Hal H0 Hok. cbv zeta.
  destruct (try_map_effect root va _ _ st Hok) as (ts & _ & _ & _ & _ & _ & H6).
  pose proof (entry_copied_fields e va Hal) as Hf.
  pose proof (entry_copied e va Hal) as Hcp. cbv zeta in Hf, Hcp.
  set (e' := Z.lor _ (entry_perm e)) in *.
  destruct Hcp as (_ & _ & Habs).
  destruct H6 as [-> | [Hperm H6]]; [exact Hf|].
  rewrite H6, H0.
  assert (He' : e' = 0).
  { apply Habs. destruct (pte_present e) eqn:Hp; [|done].
    pose proof (entry_perm_present e Hp) as Hpp. by rewrite Hperm in Hpp. }
  by rewrite <- He'.
Qed.

Lemma walk_pages_intro n va0 x :
  x mod PAGESIZE = 0 → va0 mod PAGESIZE = 0 →
  va0 ≤ x < va0 + Z.of_nat n * PAGESIZE → x ∈ walk_pages n va0.
Proof.
  intros Hx H0 Hr. unfold walk_pages. apply list_elem_of_fmap.
  exists (Z.to_nat ((x - va0) / PAGESIZE)). split.
  - rewrite Z2Nat.id by (unfold PAGESIZE in *; Z.div_mod_to_equations; lia).
    unfold PAGESIZE in *. Z.div_mod_to_equations. lia.
  - apply elem_of_seq. split; [lia|]. simpl.
    apply Nat2Z.inj_lt.
    rewrite Z2Nat.id by (unfold PAGESIZE in *; Z.div_mod_to_equations; lia).
    unfold PAGESIZE in *. Z.div_mod_to_equations. lia.
Qed.

Lemma walk_pages_range n va0 x :
  x ∈ walk_pages n va0 → va0 ≤ x < va0 + Z.of_nat n * PAGESIZE.
Proof.
  intros (k & Hk & ->)%walk_pages_elem. unfold PAGESIZE. lia.
Qed.

(** ** Copying and sharing: the bytes and the references *)

Lemma frames_apart f pa x :
  f mod PAGESIZE = 0 → pa mod PAGESIZE = 0 → f ≠ pa → f ≤ x < f + PAGESIZE →
  in_range pa PAGESIZE x = false.
Proof.
  unfold in_range, PAGESIZE. intros Hf Hpa Hne Hx.
  destruct (pa <=? x) eqn:E1; [|done]. destruct (x <? pa + 4096) eqn:E2; [|done].
  apply Z.leb_le in E1. apply Z.ltb_lt in E2. exfalso.
  Z.div_mod_to_equations. lia.
Qed.

(** Allocation writes to the frame it hands out and to no frame in use. *)
Lemma kalloc_keeps_memory st f x :
  f mod PAGESIZE = 0 → refcount st f ≠ 0 → f ≤ x < f + PAGESIZE →
  physmem (kalloc PAGESIZE st).2 x = physmem st x.
Proof.
  intros Hal Hused Hx. unfold kalloc.
  rewrite bool_decide_eq_false_2 by (unfold PAGESIZE; lia).
  destruct (kalloc_scan_spec NPAGES 0 st) as [(k & Hk & [_ Hf] & _ & He) | [_ He]];
    rewrite He; simpl; [|done].
  unfold memset. rewrite (frames_apart f); try done.
  - unfold PAGESIZE. Z.div_mod_to_equations. lia.
  - intros ->. by apply Hused.
Qed.

Lemma new_tables_keeps_memory lvls root va st f x :
  f mod PAGESIZE = 0 → refcount st f ≠ 0 → f ≤ x < f + PAGESIZE →
  physmem (new_tables lvls root va st).2 x = physmem st x.
Proof.
  intros Hal. revert st. induction lvls as [|l rest IH]; intros st Hused Hx; simpl;
    [done|].
  destruct (has_table (tree_of st root) l va); [by apply IH|].
  pose proof (kalloc_keeps_used PAGESIZE st f Hused) as Hk.
  pose proof (kalloc_keeps_memory st f x Hal Hused Hx) as Hm.
  pose proof (kalloc_some wf st) as Hs.
  destruct (kalloc PAGESIZE st) as [pt st1]. cbn [fst snd] in *.
  case_bool_decide as Hpt; [done|].
  destruct (Hs Hpt) as (Hfr & [_ Hfree] & _).
  rewrite IH; [| by rewrite <- Hk in Hused | done].
  simpl. unfold memset. rewrite (frames_apart f); try done.
  - by destruct (is_frame_bounds wf pt Hfr).
  - intros ->. by apply Hused.
Qed.

Lemma try_map_keeps_memory root va pa perm st f x :
  f mod PAGESIZE = 0 → refcount st f ≠ 0 → f ≤ x < f + PAGESIZE →
  physmem (try_map root va pa perm st).2 x = physmem st x.
Proof.
  intros Hal Hused Hx. unfold try_map.
  assert (Hnt : physmem (if bool_decide (perm = 0) then (0, st)
                         else new_tables [3; 2; 1] root va st).2 x = physmem st x).
  { case_bool_decide; [done|]. by apply (new_tables_keeps_memory _ _ _ _ f). }
  destruct (if bool_decide (perm = 0) then _ else _) as [r st1]. simpl in Hnt.
  case_bool_decide; simpl; [|done].
  by destruct (has_path (tree_of st1 root) va).
Qed.

Lemma bumps_length d pas l : length (bumps d pas l) = length l.
Proof.
  induction pas as [|pa pas IH]; [done|]. simpl. unfold bump.
  by rewrite length_alter.
Qed.

Lemma entry_user_present e : entry_user e = true → pte_present e = true.
Proof.
  intros Hu. destruct (pte_present e) eqn:Hp; [done|].
  unfold entry_user, entry_perm in Hu. by rewrite Hp in Hu.
Qed.


(** X25: fork shares a read-only user page (lines 401-413): the child maps
    the parent's frame with the parent's permissions, the frame gains one
    reference, and no byte of it changes. *)
Theorem fork_page_shares_readonly (child : nat) (va : Z) (st st1 : kstate) :
  frame_table_ok st →
  fork_page child va st = inl st1 →
  va mod PAGESIZE = 0 → PROC_START_ADDR ≤ va →
  pagetable (proc_at st child) ≠ pagetable (current_proc st) →
  let p := tree_of st (pagetable (current_proc st)) in
  let c := tree_of st1 (pagetable (proc_at st child)) in
  vmiter_writable p va = false → vmiter_user p va = true →
  is_frame (vmiter_pa p va) → refcount st (vmiter_pa p va) ≠ 0 →
  vmiter_pa c va = vmiter_pa p va
  ∧ vmiter_perm c va = vmiter_perm p va
  ∧ refcount st1 (vmiter_pa p va) = wrap_refcount (refcount st (vmiter_pa p va) + 1)
  ∧ ∀ off, 0 ≤ off < PAGESIZE →
      physmem st1 (vmiter_pa p va + off) = physmem st (vmiter_pa p va + off).
Proof.
  intros Hlen Hstep Hal Hlow Hne. cbv zeta. intros Hw Hu Hfr Hsrc.
  unfold fork_page in Hstep.
  set (croot := pagetable (proc_at st child)) in *.
  set (pit := tree_of st (pagetable (current_proc st))) in *.
  rewrite (bool_decide_eq_false_2 (va < PROC_START_ADDR)) in Hstep by lia.
  rewrite Hw, Hu in Hstep. cbn [andb negb] in Hstep.
  set (e := pte pit va) in *.
  change (vmiter_pa pit va) with (entry_pa e va) in *.
  change (vmiter_perm pit va) with (entry_perm e) in *.
  assert (Hpres : pte_present e = true) by (by apply entry_user_present).
  destruct (entry_pa_bounds e va Hpres Hal) as [Hsb Hsal].
  pose proof (entry_perm_present e Hpres) as Hpp.
  pose proof (entry_perm_range e) as Hrange.
  assert (Hpn : entry_perm e ≠ 0) by (intros Hz; by rewrite Hz in Hpp).
  assert (Hnopa : entry_pa e va ≠ NO_PA).
  { unfold NO_PA. assert (2 ^ 52 < 2 ^ 64 - 1) by done. lia. }
  pose proof (try_map_installs croot va (entry_pa e va) (entry_perm e) st Hpn) as Hinst.
  pose proof (try_map_keeps_used croot va (entry_pa e va) (entry_perm e) st
                (entry_pa e va) Hsrc) as Hkeep.
  pose proof (try_map_effect croot va (entry_pa e va) (entry_perm e) st) as Heff.
  assert (Hmem : ∀ x, entry_pa e va ≤ x < entry_pa e va + PAGESIZE →
            physmem (try_map croot va (entry_pa e va) (entry_perm e) st).2 x
            = physmem st x)
    by (intros x Hx; by apply (try_map_keeps_memory _ _ _ _ _ (entry_pa e va))).
  assert (Hpit : tree_of (try_map croot va (entry_pa e va) (entry_perm e) st).2
                   (pagetable (current_proc st)) = pit).
  { apply try_map_other_roots. intros Heq. apply Hne. by rewrite Heq. }
  assert (Hcur : current_proc (try_map croot va (entry_pa e va) (entry_perm e) st).2
                 = current_proc st).
  { destruct (try_map_only_leaf croot va (entry_pa e va) (entry_perm e) st)
      as [(Hp & Hc' & _) _].
    unfold current_proc, proc_at. by rewrite Hp, Hc'. }
  destruct (try_map croot va (entry_pa e va) (entry_perm e) st) as [r s].
  cbn [fst snd] in *.
  destruct (decide (r = 0)) as [->|Hr];
    [|by rewrite bool_decide_eq_true_2 in Hstep].
  rewrite bool_decide_eq_false_2 in Hstep by (by intros ?).
  rewrite Hcur, Hpit in Hstep.
  change (vmiter_pa pit va) with (entry_pa e va) in Hstep.
  rewrite bool_decide_eq_true_2 in Hstep by done.
  injection Hstep as <-.
  destruct (Heff eq_refl) as (ts & Hpp' & _).
  change (tree_of (set_refcount _ _ s) croot) with (tree_of s croot).
  destruct (entry_written _ _ va Hsb Hsal Hrange Hpp Hal) as [E1 E2].
  split. { change (vmiter_pa (tree_of s croot) va)
             with (entry_pa (pte (tree_of s croot) va) va). by rewrite Hinst. }
  split. { change (vmiter_perm (tree_of s croot) va)
             with (entry_perm (pte (tree_of s croot) va)). by rewrite Hinst. }
  split.
  - rewrite refcount_set_refcount_eq; [by rewrite Hkeep|].
    rewrite Hpp', bumps_length, Hlen. by apply (frame_index_lt wf).
  - intros off Hoff. change (physmem (set_refcount _ _ s)) with (physmem s).
    apply Hmem. lia.
Qed.

(** ** The other page tables through a fork *)

Lemma update_proc_keeps i f st j :
  (∀ p, state (f p) = state p ∧ pagetable (f p) = pagetable p) →
  state (proc_at (update_proc i f st) j) = state (proc_at st j)
  ∧ pagetable (proc_at (update_proc i f st) j) = pagetable (proc_at st j).
Proof.
  intros Hf. destruct (decide (i = j)) as [->|Hne]; [|by rewrite proc_at_update_ne].
  destruct (decide (j < length (ptable st))%nat) as [Hlt|Hge].
  - rewrite proc_at_update_eq by done. apply Hf.
  - unfold update_proc, proc_at, set_ptable. simpl.
    by rewrite list_insert_ge by lia.
Qed.

Lemma state_at st i :
  state (proc_at st i) = default P_FREE ((state <$> ptable st) !! i).
Proof. unfold proc_at. rewrite list_lookup_fmap. by destruct (ptable st !! i). Qed.

Lemma syscall_exit_state_free i st : state (proc_at (syscall_exit i st) i) = P_FREE.
Proof.
  destruct (syscall_exit_keeps i st) as (Hp & _).
  unfold proc_at at 1. rewrite Hp.
  destruct (decide (i < length (ptable st))%nat) as [Hlt|Hge].
  - by rewrite list_lookup_insert_eq.
  - rewrite list_insert_ge by lia. by rewrite lookup_ge_None_2 by lia.
Qed.

Lemma tree_of_syscall_exit i st r : tree_of (syscall_exit i st) r = tree_of st r.
Proof. unfold tree_of. by destruct (syscall_exit_keeps i st) as (_ & _ & -> & _). Qed.

(** A step of fork's walk that fails ends in the cleanup, from a state
    with the descriptors of the start and whose other trees are those of
    the start. *)
Lemma fork_page_fail_shape child va st st1 :
  fork_page child va st = inr st1 →
  ∃ s, st1 = syscall_exit child s ∧ ptable s = ptable st
    ∧ ∀ r, r ≠ pagetable (proc_at st child) → tree_of s r = tree_of st r.
Proof.
  unfold fork_page. intros Hstep.
  set (croot := pagetable (proc_at st child)) in *.
  set (pit := tree_of st (pagetable (current_proc st))) in *.
  assert (Htm : ∀ pa perm s, ptable s = ptable st →
            (∀ r, r ≠ croot → tree_of s r = tree_of st r) →
            ptable (try_map croot va pa perm s).2 = ptable st
            ∧ ∀ r, r ≠ croot → tree_of (try_map croot va pa perm s).2 r = tree_of st r).
  { intros pa perm s Hs Ht.
    destruct (try_map_only_leaf croot va pa perm s) as [(Hp & _ & Ho & _) _].
    split; [by rewrite Hp|]. intros r Hr. rewrite Ho by done. by apply Ht. }
  destruct (bool_decide (va < PROC_START_ADDR)).
  { destruct (Htm (vmiter_pa pit va) (vmiter_perm pit va) st eq_refl) as [H1 H2];
      [done|].
    destruct (try_map croot va _ _ st) as [r s]. simpl in H1, H2.
    destruct (bool_decide (r ≠ 0)); [|done].
    injection Hstep as <-. by exists s. }
  destruct (vmiter_writable pit va && vmiter_user pit va).
  { destruct (kalloc_frame PAGESIZE st) as (Hk & _).
    pose proof (tree_of_kalloc PAGESIZE st) as Hkt.
    destruct (kalloc PAGESIZE st) as [pa s]. simpl in Hk, Hkt.
    destruct (bool_decide (pa = 0)).
    { injection Hstep as <-. exists s. split; [done|]. split; [done|].
      intros r _. apply Hkt. }
    destruct (Htm pa (vmiter_perm pit va)
                (set_physmem (λ m, memcpy m pa (vmiter_pa pit va) PAGESIZE) s) Hk)
      as [H1 H2]; [intros r _; apply Hkt|].
    destruct (try_map croot va pa _ _) as [r s']. simpl in H1, H2.
    destruct (bool_decide (r ≠ 0)); [|done].
    injection Hstep as <-. by exists s'. }
  destruct (negb (vmiter_writable pit va) && vmiter_user pit va).
  { destruct (Htm (vmiter_pa pit va) (vmiter_perm pit va) st eq_refl) as [H1 H2];
      [done|].
    destruct (try_map croot va _ _ st) as [r s]. simpl in H1, H2.
    destruct (bool_decide (r ≠ 0)).
    - injection Hstep as <-. by exists s.
    - by destruct (bool_decide (_ ≠ NO_PA)). }
  destruct (Htm (vmiter_pa pit va) (vmiter_perm pit va) st eq_refl) as [H1 H2];
    [done|].
  destruct (try_map croot va _ _ st) as [r s]. simpl in H1, H2.
  destruct (bool_decide (r ≠ 0)); [|done].
  injection Hstep as <-. by exists s.
Qed.

(** Fork's walk, however it ends, writes to the child's tree alone; when
    it fails the child's slot is free again. *)
Lemma fork_loop_trees n va child st :
  match fork_loop n va child st with
  | inl st' => ∀ r, r ≠ pagetable (proc_at st child) → tree_of st' r = tree_of st r
  | inr st' => state (proc_at st' child) = P_FREE
               ∧ ∀ r, r ≠ pagetable (proc_at st child) → tree_of st' r = tree_of st r
  end.
Proof.
  revert va st. induction n as [|n IH]; intros va st; simpl; [done|].
  destruct (fork_page child va st) as [st1|st1] eqn:Hstep.
  - destruct (fork_page_only_leaf _ _ _ _ Hstep) as [(Hp & _ & Ho & _) _].
    assert (Hpc : proc_at st1 child = proc_at st child)
      by (unfold proc_at; by rewrite Hp).
    specialize (IH (va + PAGESIZE) st1). rewrite Hpc in IH.
    destruct (fork_loop n (va + PAGESIZE) child st1) as [st'|st'].
    + intros r Hr. rewrite IH by done. by apply Ho.
    + destruct IH as [Hf IH]. split; [done|].
      intros r Hr. rewrite IH by done. by apply Ho.
  - destruct (fork_page_fail_shape _ _ _ _ Hstep) as (s & -> & _ & Ht).
    split; [apply syscall_exit_state_free|].
    intros r Hr. rewrite tree_of_syscall_exit. by apply Ht.
Qed.

Lemma kalloc_pagetable_trees st r :
  refcount st r ≠ 0 →
  tree_of (kalloc_pagetable st).2 r = tree_of st r
  ∧ ((kalloc_pagetable st).1 ≠ 0 → r ≠ (kalloc_pagetable st).1).
Proof.
  intros Hused.
  destruct (decide ((kalloc_pagetable st).1 = 0)) as [H0|Hne].
  - split; [|done]. revert H0. unfold kalloc_pagetable.
    pose proof (tree_of_kalloc PAGESIZE st r) as Ht.
    destruct (kalloc PAGESIZE st) as [pt s1]. cbn [fst snd] in *.
    case_bool_decide; [done|]. cbn [fst]. done.
  - destruct (kalloc_pagetable_effect st Hne) as (_ & Hfree & _ & Hothers).
    assert (Hr : r ≠ (kalloc_pagetable st).1) by (intros ->; done).
    split; [by apply Hothers | done].
Qed.

(** What fork, however it ends, leaves of the other processes: the tree
    below every root frame in use, and no live process but the child. *)
Lemma fork_outcome st j :
  length (ptable st) = NPROC →
  (∀ r, refcount st r ≠ 0 → tree_of (syscall_fork st).2 r = tree_of st r)
  ∧ (state (proc_at (syscall_fork st).2 j) ≠ P_FREE →
     state (proc_at st j) ≠ P_FREE
     ∨ ((syscall_fork st).1 ≠ -1 ∧ j = Z.to_nat (syscall_fork st).1)).
Proof.
  intros Hlen. unfold syscall_fork.
  pose proof (find_free_slot_spec (NPROC - 1) 1 st) as Hslot.
  set (child := find_free_slot (NPROC - 1) 1 st) in *.
  case_bool_decide as Hc; [split; [done | by left]|].
  destruct Hslot as [?|[Hrange Hfree]]; [done|].
  pose proof (kalloc_pagetable_frame st) as [Hkpt _].
  pose proof (kalloc_pagetable_trees st) as Hkt.
  destruct (kalloc_pagetable st) as [root s1]. cbn [fst snd] in *.
  set (st2 := update_proc child (with_pagetable root) s1) in *.
  assert (Hch : (child < length (ptable s1))%nat) by (rewrite Hkpt; lia).
  assert (Hpc : proc_at st2 child = with_pagetable root (proc_at st child)).
  { unfold st2. rewrite proc_at_update_eq by done. by rewrite (proc_at_ptable st s1). }
  assert (Hoth : ∀ i, i ≠ child → proc_at st2 i = proc_at st i).
  { intros i Hi. unfold st2. rewrite proc_at_update_ne by done.
    by apply proc_at_ptable. }
  assert (Hlive : ∀ s, (∀ i, i ≠ child → proc_at s i = proc_at st i) →
            state (proc_at s child) = P_FREE →
            state (proc_at s j) ≠ P_FREE → state (proc_at st j) ≠ P_FREE).
  { intros s Hs Hf Hj. destruct (decide (j = child)) as [->|Hne]; [done|].
    by rewrite <- Hs. }
  case_bool_decide as Hr0.
  { cbn [fst snd]. split.
    - intros r Hr. change (tree_of st2 r) with (tree_of s1 r). by apply Hkt.
    - intros Hj. left. apply (Hlive st2); [done | by rewrite Hpc | done]. }
  pose proof (fork_loop_trees (pages_below MEMSIZE_VIRTUAL) 0 child st2) as Hloop.
  rewrite Hpc in Hloop. change (pagetable (with_pagetable root _)) with root in Hloop.
  assert (Htr : ∀ s, (∀ r, r ≠ root → tree_of s r = tree_of st2 r) →
            ∀ r, refcount st r ≠ 0 → tree_of s r = tree_of st r).
  { intros s Hs r Hr. destruct (Hkt r Hr) as [Ht Hne].
    rewrite Hs by (by apply Hne). exact Ht. }
  destruct (fork_loop (pages_below MEMSIZE_VIRTUAL) 0 child st2) as [st3|st3] eqn:Hl;
    cbn [fst snd].
  - split; [by apply Htr|].
    intros Hj. destruct (decide (j = child)) as [->|Hne].
    + right. split; [lia|]. by rewrite Nat2Z.id.
    + left. rewrite proc_at_update_ne in Hj by done.
      destruct (fork_loop_ptable _ _ _ _ _ Hl) as [Hp _].
      rewrite (proc_at_ptable st2 st3), Hoth in Hj by done. done.
  - destruct Hloop as [Hf Hloop]. split; [by apply Htr|].
    intros Hj. left. apply (Hlive st3); [|done|done].
    intros i Hi. rewrite (fork_loop_fail_others _ _ _ _ _ _ Hl Hi). by apply Hoth.
Qed.

(** ** What a step leaves of the other tables *)

Lemma keeps_others_refl root s : keeps_others root s s.
Proof. done. Qed.

Lemma keeps_others_trans root s1 s2 s3 :
  keeps_others root s1 s2 → keeps_others root s2 s3 → keeps_others root s1 s3.
Proof.
  intros (R1 & T1 & L1) (R2 & T2 & L2). split; [|split].
  - intros f Hf. rewrite R2 by (by rewrite R1). by apply R1.
  - intros r Hr. rewrite T2 by done. by apply T1.
  - congruence.
Qed.

Lemma kalloc_length st :
  length (physpages (kalloc PAGESIZE st).2) = length (physpages st).
Proof.
  unfold kalloc. rewrite bool_decide_eq_false_2 by (unfold PAGESIZE; lia).
  destruct (kalloc_scan_spec NPAGES 0 st) as [(k & _ & _ & _ & He) | [_ He]];
    rewrite He; simpl; [|done].
  by rewrite length_insert.
Qed.

Lemma kalloc_keeps_others root st : keeps_others root st (kalloc PAGESIZE st).2.
Proof.
  split; [|split].
  - intros f Hf. by apply kalloc_keeps_used.
  - intros r _. apply tree_of_kalloc.
  - apply kalloc_length.
Qed.

Lemma new_tables_length lvls root va st :
  length (physpages (new_tables lvls root va st).2) = length (physpages st).
Proof.
  revert st. induction lvls as [|l rest IH]; intros st; simpl; [done|].
  destruct (has_table (tree_of st root) l va); [apply IH|].
  pose proof (kalloc_length st) as Hk.
  destruct (kalloc PAGESIZE st) as [pt st1]. cbn [fst snd] in *.
  case_bool_decide; [done|]. by rewrite IH.
Qed.

Lemma try_map_keeps_others root va pa perm st :
  keeps_others root st (try_map root va pa perm st).2.
Proof.
  split; [|split].
  - intros f Hf. by apply try_map_keeps_used.
  - intros r Hr. by apply try_map_other_roots.
  - unfold try_map.
    assert (Hnt : length (physpages (if bool_decide (perm = 0) then (0, st)
                            else new_tables [3; 2; 1] root va st).2)
                  = length (physpages st)).
    { case_bool_decide; [done|]. apply new_tables_length. }
    destruct (if bool_decide (perm = 0) then _ else _) as [r st1]. simpl in Hnt.
    case_bool_decide; simpl; [|done].
    by destruct (has_path (tree_of st1 root) va).
Qed.

Lemma vmiter_map_keeps_others root va pa perm st st' :
  vmiter_map root va pa perm st = Some st' → keeps_others root st st'.
Proof.
  intros Hm. destruct (vmiter_map_ptable _ _ _ _ _ _ Hm) as (_ & _ & ->).
  apply try_map_keeps_others.
Qed.

Lemma setup_kernel_loop_keeps n va root st st' :
  setup_kernel_loop n va root st = Some st' → keeps_others root st st'.
Proof.
  revert va st. induction n as [|n IH]; intros va st; simpl.
  - intros [= <-]. apply keeps_others_refl.
  - destruct (vmiter_map root va _ _ st) as [s1|] eqn:Hm; [|done]. simpl.
    intros Hl. eapply keeps_others_trans; [by eapply vmiter_map_keeps_others|].
    by eapply IH.
Qed.

Lemma setup_segment_pages_keeps n a root seg st st' :
  setup_segment_pages n a root seg st = Some st' → keeps_others root st st'.
Proof.
  revert a st. induction n as [|n IH]; intros a st; simpl.
  - intros [= <-]. apply keeps_others_refl.
  - pose proof (kalloc_keeps_others root st) as Hk.
    destruct (kalloc PAGESIZE st) as [pa s1]. cbn [snd] in Hk.
    case_bool_decide; [done|].
    destruct (vmiter_map root a pa _ s1) as [s2|] eqn:Hm; [|done]. simpl.
    intros Hl. eapply keeps_others_trans; [exact Hk|].
    eapply keeps_others_trans; [by eapply vmiter_map_keeps_others|].
    by eapply IH.
Qed.

Lemma setup_segments_keeps segs root st st' :
  setup_segments segs root st = Some st' → keeps_others root st st'.
Proof.
  revert st. induction segs as [|seg rest IH]; intros st; simpl.
  - intros [= <-]. apply keeps_others_refl.
  - destruct (setup_segment_pages _ _ root seg st) as [s1|] eqn:Hs; [|done]. simpl.
    intros Hl. eapply keeps_others_trans; [by eapply setup_segment_pages_keeps|].
    by eapply IH.
Qed.

Lemma kalloc_pagetable_live st :
  frame_table_ok st → (kalloc_pagetable st).1 ≠ 0 →
  refcount (kalloc_pagetable st).2 (kalloc_pagetable st).1 = 1
  ∧ keeps_others (kalloc_pagetable st).1 st (kalloc_pagetable st).2.
Proof.
  intros Hft. unfold kalloc_pagetable.
  pose proof (kalloc_some wf st) as Hk.
  pose proof (kalloc_keeps_others (kalloc PAGESIZE st).1 st) as (R & T & L).
  destruct (kalloc PAGESIZE st) as [pt s1]. cbn [fst snd] in *.
  case_bool_decide as Hpt; [done|]. cbn [fst snd]. intros _.
  destruct (Hk Hpt) as (Hfr & _ & Hs1).
  split; [|split; [|split]].
  - change (refcount (set_tree pt empty_tree (set_physmem _ s1)) pt)
      with (refcount s1 pt).
    rewrite Hs1. change (refcount (set_physmem _ ?s) pt) with (refcount s pt).
    rewrite refcount_set_refcount_eq, (wrap_refcount_1 wf); [done|].
    rewrite Hft. by apply (frame_index_lt wf).
  - intros f Hf. by apply R.
  - intros r Hr. rewrite tree_of_set_tree_ne by done.
    change (tree_of (set_physmem _ s1) r) with (tree_of s1 r). by apply T.
  - exact L.
Qed.

(** What [process_setup] into a page table of its own leaves of the rest:
    the new root is a frame that was free and is now in use, frames in use
    keep their refcount, and the tables below them are untouched. *)
Lemma process_setup_keeps i pgm st st' :
  (i < length (ptable st))%nat →
  frame_table_ok st →
  process_setup i pgm st = Some st' →
  pagetable (proc_at st' i) ≠ 0 →
  refcount st (pagetable (proc_at st' i)) = 0
  ∧ refcount st' (pagetable (proc_at st' i)) ≠ 0
  ∧ keeps_others (pagetable (proc_at st' i)) st st'.
Proof.
  intros Hi Hft. unfold process_setup.
  set (st0 := update_proc i _ st).
  assert (Hlen0 : length (ptable st0) = length (ptable st))
    by (unfold st0, update_proc, set_ptable; simpl; by rewrite length_insert).
  destruct (kalloc_pagetable_frame st0) as [Hpt1 _].
  pose proof (kalloc_pagetable_effect st0) as Hke.
  pose proof (kalloc_pagetable_live st0 Hft) as Hkl.
  destruct (kalloc_pagetable st0) as [root st1]. cbn [fst snd] in Hpt1, Hke, Hkl.
  set (st2 := update_proc i (with_pagetable root) st1).
  destruct (setup_kernel_loop _ 0 root st2) as [st3|] eqn:H3; [|done]. simpl.
  destruct (setup_segments _ root st3) as [st4|] eqn:H4; [|done]. simpl.
  set (st5 := init_segments _ root st4).
  set (st6 := update_proc i _ st5).
  pose proof (kalloc_keeps_others root st6) as Hk7.
  destruct (kalloc_frame PAGESIZE st6) as (Hpt7 & _).
  destruct (kalloc PAGESIZE st6) as [pa st7]. cbn [fst snd] in *.
  case_bool_decide as Hpa; [done|].
  set (perm := Z.lor (Z.lor PTE_W PTE_P) PTE_U).
  destruct (vmiter_map root _ pa perm st7) as [st8|] eqn:H8; [|done]. simpl.
  intros [= <-].
  destruct (vmiter_map_ptable _ _ _ _ _ _ H8) as (Hpt8 & _ & _).
  pose proof (setup_kernel_loop_ptable _ _ _ _ _ H3) as Hpt3.
  pose proof (setup_segments_ptable _ _ _ _ H4) as Hpt4.
  destruct (init_segments_keeps (pgm_segments pgm) root st4) as (Hpt5 & Htb5 & Hpp5).
  fold st5 in Hpt5, Htb5, Hpp5.
  assert (Hlen2 : length (ptable st2) = length (ptable st)).
  { unfold st2, update_proc, set_ptable. simpl. rewrite length_insert, Hpt1. exact Hlen0. }
  assert (Hlen5 : length (ptable st5) = length (ptable st))
    by (rewrite Hpt5, Hpt4, Hpt3; exact Hlen2).
  assert (Hlen6 : length (ptable st6) = length (ptable st))
    by (unfold st6, update_proc, set_ptable; simpl; by rewrite length_insert).
  assert (Hlen8 : length (ptable st8) = length (ptable st)) by congruence.
  assert (Hroot : pagetable (proc_at (update_proc i
                    (λ p, with_state P_RUNNABLE
                            (with_regs (with_rsp (MEMSIZE_VIRTUAL - PAGESIZE + PAGESIZE)
                                          (regs p)) p)) st8) i) = root).
  { rewrite proc_at_update_eq by lia. simpl.
    rewrite (proc_at_ptable st6 st8) by congruence.
    unfold st6. rewrite proc_at_update_eq by lia. simpl.
    rewrite (proc_at_ptable st2 st5) by congruence.
    unfold st2. by rewrite proc_at_update_eq by (rewrite Hpt1; lia). }
  rewrite Hroot. intros Hr0.
  destruct (Hke Hr0) as (_ & Hfree & _).
  destruct (Hkl Hr0) as (Hone & K01).
  assert (K28 : keeps_others root st2 st8).
  { eapply keeps_others_trans; [by eapply setup_kernel_loop_keeps|].
    eapply keeps_others_trans; [by eapply setup_segments_keeps|].
    eapply keeps_others_trans; [|eapply keeps_others_trans;
                                   [exact Hk7 | by eapply vmiter_map_keeps_others]].
    split; [|split].
    - intros f _. unfold refcount. simpl. by rewrite Hpp5.
    - intros r _. unfold tree_of. simpl. by rewrite Htb5.
    - simpl. by rewrite Hpp5. }
  split; [exact Hfree|]. split.
  - destruct K28 as (R & _). change (refcount (update_proc _ _ st8) root)
      with (refcount st8 root).
    rewrite R; change (refcount st2 root) with (refcount st1 root);
      rewrite Hone; done.
  - apply (keeps_others_trans root st st1); [exact K01|].
    exact K28.
Qed.

End AddressSpaces.

(** * Page tables and the frames they live in *)

Section Frames.
Context `{M : machine}.
Hypothesis wf : machine_wf = true.

(** ** Steps that only take free frames *)

Lemma takes_frames_refl root s : takes_frames root s s.
Proof.
  split; [apply keeps_others_refl|]. split; [by left|]. split; [done|].
  by left.
Qed.

Lemma takes_frames_trans root s1 s2 s3 :
  takes_frames root s1 s2 → takes_frames root s2 s3 → takes_frames root s1 s3.
Proof.
  intros (K1 & F1 & B1 & T1) (K2 & F2 & B2 & T2).
  pose proof K1 as (R1 & _ & _).
  split; [by eapply keeps_others_trans|]. split; [|split].
  - intros f Hf. destruct (F1 f Hf) as [H0|H1]; [by apply F2|].
    right. destruct K2 as (R2 & _ & _). rewrite R2; [done | by rewrite H1].
  - intros f x Hal Hf Hx. rewrite (B2 f x) by (by rewrite ?R1). by apply (B1 f x).
  - intros f Hf. destruct (T2 f Hf) as [Hin|(Hfr & H0 & H1)].
    + destruct (T1 f Hin) as [?|(Hfr & H0 & H1)]; [by left|]. right.
      split; [done|]. split; [done|].
      destruct K2 as (R2 & _ & _). rewrite R2; [done | by rewrite H1].
    + right. split; [done|]. split; [|done].
      destruct (decide (refcount s1 f = 0)) as [|Hne]; [done|].
      by rewrite (R1 f Hne) in H0.
Qed.

Lemma takes_frames_table_ok root s s' :
  takes_frames root s s' → frame_table_ok s → frame_table_ok s'.
Proof. intros ((_ & _ & L) & _). unfold frame_table_ok. congruence. Qed.

(** What [kalloc] hands out was free and is in use afterwards. *)
Lemma kalloc_taken st :
  frame_table_ok st → (kalloc PAGESIZE st).1 ≠ 0 →
  is_frame (kalloc PAGESIZE st).1
  ∧ refcount st (kalloc PAGESIZE st).1 = 0
  ∧ refcount (kalloc PAGESIZE st).2 (kalloc PAGESIZE st).1 = 1.
Proof.
  intros Hft Hpa. destruct (kalloc_some wf st Hpa) as (Hfr & [_ Hfree] & Hst).
  split; [done|]. split; [done|]. rewrite Hst.
  change (refcount (set_physmem _ ?s) ?f) with (refcount s f).
  rewrite refcount_set_refcount_eq, (wrap_refcount_1 wf); [done|].
  rewrite Hft. by apply (frame_index_lt wf).
Qed.

Lemma kalloc_takes root st : takes_frames root st (kalloc PAGESIZE st).2.
Proof.
  split; [apply kalloc_keeps_others|]. split; [|split].
  - intros f Hf. unfold kalloc.
    rewrite bool_decide_eq_false_2 by (unfold PAGESIZE; lia).
    destruct (kalloc_scan_spec NPAGES 0 st) as [(k & _ & _ & _ & He) | [_ He]];
      rewrite He; simpl; [|by left].
    set (pa := 0 + Z.of_nat k * PAGESIZE).
    change (refcount (set_physmem _ ?s) f) with (refcount s f).
    unfold refcount, set_refcount, set_physpages. simpl.
    destruct (decide (frame_index pa = frame_index f)) as [Heq|Hne].
    + rewrite Heq.
      destruct (decide (frame_index f < length (physpages st))%nat) as [Hlt|Hge].
      * rewrite list_lookup_insert_eq by done. right. apply (wrap_refcount_1 wf).
      * rewrite list_insert_ge by lia. by left.
    + rewrite list_lookup_insert_ne by done. by left.
  - intros f x Hal Hf Hx. by apply (kalloc_keeps_memory st f).
  - intros f Hf. left. by rewrite tree_of_kalloc in Hf.
Qed.

Lemma ptiter_pages_add_table root k pt st f :
  f ∈ ptiter_pages (tree_of (add_table root k pt st) root) →
  f = pt ∨ f ∈ ptiter_pages (tree_of st root).
Proof.
  unfold add_table. rewrite tree_of_set_tree_eq. unfold ptiter_pages. simpl.
  intros ([k' v] & -> & Hin)%list_elem_of_fmap. simpl.
  apply elem_of_map_to_list in Hin.
  apply lookup_insert_Some in Hin as [[_ <-] | [_ Hin]]; [by left|].
  right. apply list_elem_of_fmap. exists (k', v). split; [done|].
  by apply elem_of_map_to_list.
Qed.

Lemma new_tables_takes lvls root va st :
  frame_table_ok st → takes_frames root st (new_tables lvls root va st).2.
Proof.
  revert st. induction lvls as [|l rest IH]; intros st Hft; simpl.
  - apply takes_frames_refl.
  - destruct (has_table (tree_of st root) l va); [by apply IH|].
    pose proof (kalloc_takes root st) as Hk.
    pose proof (kalloc_taken st Hft) as Hn.
    destruct (kalloc PAGESIZE st) as [pt st1]. cbn [fst snd] in *.
    case_bool_decide as Hpt; [exact Hk|].
    destruct (Hn Hpt) as (Hfr & Hfree & Hone).
    destruct (is_frame_bounds wf pt Hfr) as [_ Hal].
    set (st2 := add_table root (table_key l va) pt
                  (set_physmem (λ m, memset m pt 0 PAGESIZE) st1)).
    assert (H12 : takes_frames root st st2).
    { destruct Hk as ((R & T & L) & F & B & Tb).
      split; [split; [|split]|split; [|split]].
      - exact R.
      - intros r Hr. unfold st2, add_table. rewrite tree_of_set_tree_ne by done.
        by apply T.
      - exact L.
      - exact F.
      - intros f x Hfal Hf Hx. unfold st2. simpl. unfold memset.
        rewrite (frames_apart f); [by apply (B f x) | done | done | | done].
        intros ->. by apply Hf.
      - intros f [->|Hin]%ptiter_pages_add_table; [by right|].
        change (tree_of (set_physmem _ st1) root) with (tree_of st1 root) in Hin.
        destruct (Tb f Hin) as [?|(? & ? & ?)]; [by left | by right]. }
    eapply takes_frames_trans; [exact H12|]. apply IH.
    by apply (takes_frames_table_ok _ _ _ H12).
Qed.

Lemma try_map_takes root va pa perm st :
  frame_table_ok st → takes_frames root st (try_map root va pa perm st).2.
Proof.
  intros Hft. unfold try_map.
  assert (Hnt : takes_frames root st
                  (if bool_decide (perm = 0) then (0, st)
                   else new_tables [3; 2; 1] root va st).2).
  { case_bool_decide; [apply takes_frames_refl | by apply new_tables_takes]. }
  destruct (if bool_decide (perm = 0) then _ else _) as [r st1]. cbn [snd] in Hnt.
  case_bool_decide; cbn [snd]; [|done].
  destruct (has_path (tree_of st1 root) va); [|done].
  destruct Hnt as ((R & T & L) & F & B & Tb).
  split; [split; [|split]|split; [|split]]; try done.
  - intros r' Hr. unfold set_leaf. rewrite tree_of_set_tree_ne by done. by apply T.
  - intros f Hf. apply Tb. revert Hf. unfold set_leaf.
    by rewrite tree_of_set_tree_eq.
Qed.

(** Tables in frames in use stay so through such a step. *)
Lemma takes_frames_tables root r s s' :
  takes_frames root s s' → tables_in_use s r → tables_in_use s' r.
Proof.
  intros ((R & T & _) & _ & _ & Tb) Hin f Hf.
  assert (Hold : ∀ g, g ∈ table_frames s r → refcount s' g ≠ 0).
  { intros g Hg. rewrite R by (by apply Hin). by apply Hin. }
  destruct (decide (r = root)) as [->|Hne].
  - apply elem_of_cons in Hf as [->|Hf]; [apply Hold; by left|].
    destruct (Tb f Hf) as [Hp|(_ & _ & H1)]; [apply Hold; by right | by rewrite H1].
  - apply Hold. unfold table_frames in *. by rewrite <- (T r Hne).
Qed.


(** ** PAGE_ALLOC *)

Lemma try_map_installed_pa root va pa perm st :
  is_frame pa → va mod PAGESIZE = 0 → 0 ≤ perm < PAGESIZE → Z.land perm PTE_P ≠ 0 →
  (try_map root va pa perm st).1 = 0 →
  vmiter_pa (tree_of (try_map root va pa perm st).2 root) va = pa
  ∧ vmiter_perm (tree_of (try_map root va pa perm st).2 root) va = perm.
Proof.
  intros Hfr Hal Hperm Hp Hr.
  assert (Hne : perm ≠ 0) by (intros ->; by apply Hp).
  pose proof (try_map_installs root va pa perm st Hne Hr) as Hinst.
  destruct (is_frame_bounds wf pa Hfr) as [Hb Ha].
  destruct (entry_written pa perm va Hb Ha Hperm Hp Hal) as [E1 E2].
  destruct (vmiter_entry (tree_of (try_map root va pa perm st).2 root) va)
    as (-> & -> & _).
  by rewrite Hinst.
Qed.

Lemma page_alloc_takes addr st :
  frame_table_ok st →
  takes_frames (pagetable (current_proc st)) st (syscall_page_alloc addr st).2.
Proof.
  intros Hft. unfold syscall_page_alloc.
  destruct (bool_decide (addr < PROC_START_ADDR)) eqn:H1; [apply takes_frames_refl|].
  destruct (bool_decide (addr >= MEMSIZE_VIRTUAL)) eqn:H2; [apply takes_frames_refl|].
  destruct (bool_decide (addr mod 4096 ≠ 0)) eqn:H3; [apply takes_frames_refl|].
  apply bool_decide_eq_false in H1, H2, H3. cbn [orb].
  assert (Hal : addr mod PAGESIZE = 0) by (unfold PAGESIZE; lia).
  set (root := pagetable (current_proc st)).
  pose proof (kalloc_takes root st) as Hk.
  pose proof (kalloc_taken st Hft) as Hn.
  destruct (kalloc PAGESIZE st) as [pa st1]. cbn [fst snd] in *.
  case_bool_decide as Hpa; [exact Hk|].
  destruct (Hn Hpa) as (Hfr & Hfree & Hone).
  set (perm := Z.lor (Z.lor PTE_P PTE_W) PTE_U).
  pose proof (try_map_takes root addr pa perm st1
                (takes_frames_table_ok _ _ _ Hk Hft)) as Ht.
  pose proof (try_map_installed_pa root addr pa perm st1 Hfr Hal
                ltac:(done) ltac:(done)) as Hinst.
  destruct (try_map root addr pa perm st1) as [r st2]. cbn [fst snd] in *.
  pose proof (takes_frames_trans _ _ _ _ Hk Ht) as H02.
  case_bool_decide as Hr; [exact H02|]. cbn [snd].
  assert (Hr0 : r = 0) by (destruct (decide (r = 0)); done).
  destruct (Hinst Hr0) as [Hvpa _]. rewrite Hvpa.
  destruct H02 as (K & F & B & Tb).
  split; [exact K|]. split; [exact F|]. split; [|done].
  intros f x Hfal Hf Hx. simpl. unfold memset.
  rewrite (frames_apart f); [by apply (B f x) | done | | | done].
  - by destruct (is_frame_bounds wf pa Hfr).
  - intros ->. by apply Hf.
Qed.

(** X20: what [PAGE_ALLOC], however it ends (bad argument, no frame, failed
    map, success), does to a page table, the caller's or another's, that is
    held in frames in use and keeps the three rules, in a kernel with a
    complete frame table.  The table still keeps the rules and its frames
    are still in use; it is unchanged if it is not the caller's; in the
    caller's no entry changes but that of the page of [addr].  No frame in
    use changes its refcount or any of its bytes, so that what the call
    writes (the 0xCC fill, the zeroed tables and the zeroed page) goes to
    frames that were free; the descriptors are as they were. *)
Theorem page_alloc_one_entry (addr : Z) (st : kstate) (root : Z) :
  frame_table_ok st →
  tables_in_use st root →
  pagetable_safe (tree_of st root) →
  let st' := (syscall_page_alloc addr st).2 in
  pagetable_safe (tree_of st' root)
  ∧ tables_in_use st' root
  ∧ (root ≠ pagetable (current_proc st) → tree_of st' root = tree_of st root)
  ∧ (∀ va, va / PAGESIZE ≠ addr / PAGESIZE →
       pte (tree_of st' root) va = pte (tree_of st root) va)
  ∧ (∀ f, refcount st f ≠ 0 → refcount st' f = refcount st f)
  ∧ frames_in_use_kept st st'
  ∧ ptable st' = ptable st ∧ current st' = current st.
Proof.
  intros Hft Huse Hsafe. cbv zeta.
  pose proof (page_alloc_takes addr st Hft) as Htk.
  pose proof (page_alloc_safe wf addr st root Hsafe) as Hsafe'.
  pose proof (takes_frames_tables _ root _ _ Htk Huse) as Huse'.
  destruct Htk as ((R & T & L) & F & B & Tb).
  split; [exact Hsafe'|]. split; [exact Huse'|].
  split; [intros Hne; by apply T|].
  split; [|split; [done|split; [done|apply syscall_page_alloc_ptable]]].
  intros va Hva. destruct Hsafe as [Hok _], Hsafe' as [Hok' _].
  rewrite !pte_tree_ok by done.
  destruct (decide (root = pagetable (current_proc st))) as [->|Hne];
    [|by rewrite T].
  revert Hva. clear -wf. unfold syscall_page_alloc.
  destruct (_ || _ || _); [done|]. intros Hva.
  set (root := pagetable (current_proc st)).
  pose proof (tree_of_kalloc PAGESIZE st root) as Htr.
  destruct (kalloc PAGESIZE st) as [pa st1]. cbn [fst snd] in *.
  case_bool_decide; cbn [snd]; [by rewrite Htr|].
  destruct (try_map_any wf root addr pa (Z.lor (Z.lor PTE_P PTE_W) PTE_U) st1)
    as (_ & Hoth & _).
  destruct (try_map root addr pa _ st1) as [r st2]. cbn [snd] in Hoth.
  rewrite <- Htr, <- (Hoth va Hva). by case_bool_decide.
Qed.

End Frames.

(** * The loader and the frames of a new page table *)

Section LoaderFrames.
Context `{M : machine}.
Hypothesis wf : machine_wf = true.

Lemma builds_table_ok b s root :
  frame_table_ok b → builds_table b s root → frame_table_ok s.
Proof. intros Hft (_ & L & _). unfold frame_table_ok in *. congruence. Qed.

(** A frame that is free in [s] was free in [b]. *)
Lemma builds_table_free b s root f :
  builds_table b s root → refcount s f = 0 → refcount b f = 0.
Proof.
  intros (R & _) Hf. destruct (decide (refcount b f = 0)) as [|Hne]; [done|].
  by rewrite (R f Hne) in Hf.
Qed.

(** A step that takes frames and leaves the tree below [root] alone. *)
Lemma takes_frames_builds b s s' root :
  takes_frames root s s' → tree_of s' root = tree_of s root →
  builds_table b s root → builds_table b s' root.
Proof.
  intros ((R & T & L) & F & B & Tb) Htr (R0 & L0 & B0 & T0 & Hok & Htf & Huf).
  assert (Hkeep : ∀ f, refcount s f ≠ 0 → refcount s' f ≠ 0)
    by (intros f Hf; by rewrite R).
  split; [|split; [|split; [|split; [|split; [|split]]]]].
  - intros f Hf. rewrite R by (by rewrite R0). by apply R0.
  - congruence.
  - intros f x Hal Hf Hx. rewrite (B f x) by (by rewrite ?R0). by apply (B0 f x).
  - intros r Hr. rewrite T by done. by apply T0.
  - by rewrite Htr.
  - intros f Hf. unfold table_frames in Hf. rewrite Htr in Hf.
    destruct (Htf f Hf) as (? & ? & ?). split; [done|]. split; [done | by apply Hkeep].
  - intros va Hal Hva. rewrite Htr. intros Hp. cbv zeta.
    destruct (Huf va Hal Hva Hp) as (? & ? & ? & ?).
    split; [done|]. split; [done|]. split; [by apply Hkeep|].
    unfold table_frames. by rewrite Htr.
Qed.

Lemma kalloc_builds b s root :
  builds_table b s root → builds_table b (kalloc PAGESIZE s).2 root.
Proof.
  apply takes_frames_builds; [apply (kalloc_takes wf) | apply tree_of_kalloc].
Qed.

(** Mapping a page, in a table that is being built: the entry written for
    a user page must be on a frame taken since [b] that holds no node of the
    table. *)
Lemma try_map_builds b s root va pa perm :
  frame_table_ok s → builds_table b s root → va mod PAGESIZE = 0 →
  let e' := Z.lor (if bool_decide (pa = NO_PA) && bool_decide (perm = 0) then 0 else pa)
              perm in
  (PROC_START_ADDR ≤ va → pte_present e' = true →
   is_frame (entry_pa e' va) ∧ refcount b (entry_pa e' va) = 0
   ∧ refcount s (entry_pa e' va) ≠ 0 ∧ entry_pa e' va ∉ table_frames s root) →
  builds_table b (try_map root va pa perm s).2 root.
Proof.
  intros Hft (R0 & L0 & B0 & T0 & Hok & Htf & Huf) Hal. cbv zeta. intros Hnew.
  pose proof (try_map_takes wf root va pa perm s Hft) as ((R & T & L) & F & B & Tb).
  destruct (try_map_any wf root va pa perm s) as (Hok1 & Hoth & Hleaf).
  set (s' := (try_map root va pa perm s).2) in *.
  assert (Hkeep : ∀ f, refcount s f ≠ 0 → refcount s' f ≠ 0)
    by (intros f Hf; by rewrite R).
  assert (Htabs : ∀ f, f ∈ table_frames s' root →
            f ∈ table_frames s root
            ∨ (is_frame f ∧ refcount s f = 0 ∧ refcount s' f = 1)).
  { intros f [->|Hf]%elem_of_cons; [left; by left|].
    destruct (Tb f Hf) as [?|?]; [left; by right | by right]. }
  assert (Hnot : ∀ g, refcount s g ≠ 0 → g ∉ table_frames s root →
            g ∉ table_frames s' root).
  { intros g Hg Hn Hin. destruct (Htabs g Hin) as [?|(_ & ? & _)]; done. }
  split; [|split; [|split; [|split; [|split; [|split]]]]].
  - intros f Hf. rewrite R by (by rewrite R0). by apply R0.
  - congruence.
  - intros f x Hfal Hf Hx. rewrite (B f x) by (by rewrite ?R0). by apply (B0 f x).
  - intros r Hr. rewrite T by done. by apply T0.
  - by apply Hok1.
  - intros f Hf. destruct (Htabs f Hf) as [Hin|(Hfr & H0 & H1)].
    + destruct (Htf f Hin) as (? & ? & ?). split; [done|].
      split; [done | by apply Hkeep].
    + split; [done|]. split; [|by rewrite H1].
      destruct (decide (refcount b f = 0)) as [|Hne]; [done|].
      by rewrite (R0 f Hne) in H0.
  - intros x Hx Hlow.
    assert (Hold : pte_present (leaf_slot (tree_of s root) x) = true →
              leaf_slot (tree_of s' root) x = leaf_slot (tree_of s root) x →
              let pa' := entry_pa (leaf_slot (tree_of s' root) x) x in
              is_frame pa' ∧ refcount b pa' = 0 ∧ refcount s' pa' ≠ 0
              ∧ pa' ∉ table_frames s' root).
    { intros Hp He. cbv zeta. rewrite He.
      destruct (Huf x Hx Hlow Hp) as (? & ? & ? & ?).
      split; [done|]. split; [done|]. split; [by apply Hkeep | by apply Hnot]. }
    destruct (decide (x / PAGESIZE = va / PAGESIZE)) as [Heq|Hne].
    + assert (x = va) as -> by (by apply (aligned_same_page va x)).
      destruct Hleaf as [He|He].
      * rewrite He. intros Hp. cbv zeta.
        destruct (Hnew Hlow Hp) as (? & ? & ? & ?).
        split; [done|]. split; [done|]. split; [by apply Hkeep | by apply Hnot].
      * intros Hp. apply Hold; [by rewrite <- He | done].
    + intros Hp. apply Hold; [by rewrite <- Hoth | by apply Hoth].
Qed.


Lemma map_page_builds b s root a perm :
  frame_table_ok b → builds_table b s root →
  a mod PAGESIZE = 0 → PROC_START_ADDR ≤ a →
  0 ≤ perm < PAGESIZE → Z.land perm PTE_P ≠ 0 →
  (kalloc PAGESIZE s).1 ≠ 0 →
  builds_table b (try_map root a (kalloc PAGESIZE s).1 perm (kalloc PAGESIZE s).2).2 root.
Proof.
  intros Hft Hb Hal Hlow Hperm Hp Hpa.
  pose proof (builds_table_ok b s root Hft Hb) as Hfts.
  destruct (kalloc_taken wf s Hfts Hpa) as (Hfr & Hfree & Hone).
  pose proof (kalloc_builds b s root Hb) as Hb1.
  pose proof (tree_of_kalloc PAGESIZE s root) as Htr.
  set (pa := (kalloc PAGESIZE s).1) in *. set (s1 := (kalloc PAGESIZE s).2) in *.
  apply try_map_builds; [by apply (builds_table_ok b s1 root) | done | done |].
  assert (Hne : perm ≠ 0) by (intros ->; by apply Hp).
  rewrite (bool_decide_eq_false_2 (perm = 0)) by done. rewrite andb_false_r.
  destruct (is_frame_bounds wf pa Hfr) as [Hb52 Hbal].
  destruct (entry_written pa perm a Hb52 Hbal Hperm Hp Hal) as [E1 _].
  intros _ _. rewrite E1.
  split; [done|]. split; [by apply (builds_table_free b s root)|].
  split; [by rewrite Hone|].
  unfold table_frames. rewrite Htr. intros Hin.
  destruct Hb as (_ & _ & _ & _ & _ & Htf & _).
  by destruct (Htf pa Hin) as (_ & _ & ?).
Qed.

Lemma setup_kernel_loop_builds b n va root st st' :
  frame_table_ok b →
  setup_kernel_loop n va root st = Some st' →
  va mod PAGESIZE = 0 → va + Z.of_nat n * PAGESIZE ≤ PROC_START_ADDR →
  builds_table b st root → builds_table b st' root.
Proof.
  intros Hft. revert va st. induction n as [|n IH]; intros va st; simpl.
  - by intros [= <-].
  - destruct (vmiter_map root va (kernel_pa va) (kernel_perm va) st) as [st1|] eqn:Hm;
      [|done]. simpl.
    intros Hloop Hal Hend Hb.
    destruct (vmiter_map_ptable _ _ _ _ _ _ Hm) as (_ & _ & ->).
    apply (IH (va + PAGESIZE) _ Hloop).
    + unfold PAGESIZE in *. Z.div_mod_to_equations. lia.
    + unfold PAGESIZE in *. lia.
    + apply try_map_builds; [by apply (builds_table_ok b st root) | done | done |].
      intros Hlow. unfold PAGESIZE in *. lia.
Qed.

Lemma setup_segment_pages_builds b n a root seg st st' :
  frame_table_ok b →
  setup_segment_pages n a root seg st = Some st' →
  a mod PAGESIZE = 0 → PROC_START_ADDR ≤ a →
  builds_table b st root → builds_table b st' root.
Proof.
  intros Hft. revert a st. induction n as [|n IH]; intros a st; simpl.
  - by intros [= <-].
  - pose proof (λ perm H1 H2 H3 H4 H5 H6,
                  map_page_builds b st root a perm Hft H1 H2 H3 H4 H5 H6) as Hmap.
    destruct (kalloc PAGESIZE st) as [pa st1]. cbn [fst snd] in *.
    case_bool_decide as Hpa; [done|].
    set (perm := if seg_writable seg then _ else _) in *.
    destruct (vmiter_map root a pa perm st1) as [st2|] eqn:Hm; [|done]. simpl.
    intros Hloop Hal Hlow Hb.
    destruct (vmiter_map_ptable _ _ _ _ _ _ Hm) as (_ & _ & ->).
    apply (IH (a + PAGESIZE) _ Hloop).
    + unfold PAGESIZE in *. Z.div_mod_to_equations. lia.
    + unfold PAGESIZE. lia.
    + apply Hmap; try done; unfold perm; by destruct (seg_writable seg).
Qed.

Lemma setup_segments_builds b segs root st st' :
  frame_table_ok b →
  setup_segments segs root st = Some st' →
  Forall (λ seg, PROC_START_ADDR ≤ seg_va seg) segs →
  builds_table b st root → builds_table b st' root.
Proof.
  intros Hft. destruct (wf_facts wf) as (Hps & _).
  revert st. induction segs as [|seg rest IH]; intros st; simpl.
  - by intros [= <-].
  - destruct (setup_segment_pages _ _ root seg st) as [st1|] eqn:Hp; [|done]. simpl.
    intros Hrest [Hseg Hall]%Forall_cons Hb.
    apply (IH st1 Hrest Hall).
    apply (setup_segment_pages_builds b _ _ _ _ _ _ Hft Hp); [| |done].
    + unfold round_down, PAGESIZE. Z.div_mod_to_equations. lia.
    + unfold round_down, PAGESIZE in *. Z.div_mod_to_equations. lia.
Qed.

(** ** What the loader writes *)

Lemma in_range_max a n m x :
  in_range a (Z.max n m) x = false →
  in_range a n x = false ∧ in_range a m x = false.
Proof.
  unfold in_range. intros H.
  destruct (a <=? x) eqn:E; [|done]. simpl in *.
  apply Z.ltb_ge in H. split; apply Z.ltb_ge; lia.
Qed.

Lemma init_segments_physmem segs root st x :
  (∀ seg, seg ∈ segs → loader_writes (tree_of st root) seg x = false) →
  physmem (init_segments segs root st) x = physmem st x.
Proof.
  unfold init_segments. revert st. induction segs as [|seg rest IH]; intros st Hw;
    simpl; [done|].
  rewrite IH.
  - simpl. destruct (in_range_max _ _ _ _ (Hw seg (list_elem_of_here _ _))) as [H1 H2].
    unfold memcpy_data, memset. by rewrite H2, H1.
  - intros seg' Hin. change (tree_of (init_segment root seg st) root)
      with (tree_of st root). apply Hw. by right.
Qed.

Lemma pte_same_page t va va' :
  va' / PAGESIZE = va / PAGESIZE → pte t va' = pte t va.
Proof.
  intros He. unfold pte. by rewrite (has_path_same_page t va va' He), He.
Qed.

(** With consecutive frames, a byte the loader writes is a byte of a page
    of the segment. *)
Lemma loader_writes_in_page t seg x :
  tree_ok t → segment_in_range seg → segment_consecutive t seg = true →
  loader_writes t seg x = true →
  ∃ va, va mod PAGESIZE = 0 ∧ PROC_START_ADDR ≤ va < MEMSIZE_VIRTUAL - PAGESIZE
    ∧ pte_present (leaf_slot t va) = true
    ∧ entry_pa (leaf_slot t va) va ≤ x < entry_pa (leaf_slot t va) va + PAGESIZE.
Proof.
  intros Hok (Hlow & Hsz & Hend) Hcons Hw.
  destruct (wf_facts wf) as (Hps & _).
  unfold segment_consecutive in Hcons. apply andb_prop in Hcons as [Hd Hall].
  apply bool_decide_eq_true in Hd.
  unfold loader_writes, in_range in Hw. rewrite Z.max_l in Hw by lia.
  apply andb_prop in Hw as [Hx1%Z.leb_le Hx2%Z.ltb_lt].
  set (a0 := round_down (seg_va seg) PAGESIZE) in *.
  set (off := seg_va seg mod PAGESIZE).
  assert (Ha0 : a0 = seg_va seg - off) by done.
  assert (Hoff : 0 ≤ off < PAGESIZE) by (apply Z.mod_pos_bound; done).
  assert (Ha0al : a0 mod PAGESIZE = 0).
  { unfold a0, round_down, PAGESIZE. Z.div_mod_to_equations. lia. }
  set (pa0 := vmiter_pa t (seg_va seg)) in *.
  set (k := x - pa0).
  set (j := Z.to_nat ((off + k) / PAGESIZE)).
  assert (Hjz : Z.of_nat j = (off + k) / PAGESIZE).
  { unfold j. rewrite Z2Nat.id; [done|]. apply Z.div_pos; unfold PAGESIZE in *; lia. }
  assert (Hget : ∀ i : nat, (i < segment_page_count seg)%nat →
            vmiter_present t (a0 + Z.of_nat i * PAGESIZE) = true
            ∧ vmiter_pa t (a0 + Z.of_nat i * PAGESIZE)
              = vmiter_pa t a0 + Z.of_nat i * PAGESIZE).
  { intros i Hi. rewrite forallb_forall in Hall.
    apply (bool_decide_eq_true_1 _). apply Hall. apply in_seq. lia. }
  assert (Hn : (j < segment_page_count seg)%nat).
  { unfold segment_page_count, pages_below. fold a0.
    apply Nat2Z.inj_lt. rewrite Hjz.
    rewrite Z2Nat.id by (apply Z.div_pos; unfold PAGESIZE in *; lia).
    unfold k, PAGESIZE in *. Z.div_mod_to_equations. lia. }
  destruct (Hget 0%nat ltac:(lia)) as [Hp0 _].
  rewrite Z.mul_0_l, Z.add_0_r in Hp0.
  destruct (Hget j Hn) as [Hpj Hpaj].
  assert (Hsame : pte t (seg_va seg) = pte t a0).
  { apply pte_same_page. unfold a0, round_down, PAGESIZE.
    Z.div_mod_to_equations. lia. }
  assert (Hpa0 : pa0 = vmiter_pa t a0 + off).
  { unfold pa0, vmiter_pa. rewrite Hsame.
    unfold vmiter_present in Hp0. rewrite Hp0.
    rewrite (aligned_offset a0 Ha0al).
    unfold PAGESIZE. change (4096 - 1) with (Z.ones 12).
    rewrite Z.land_ones by lia. unfold off, PAGESIZE. change (2 ^ 12) with 4096. lia. }
  exists (a0 + Z.of_nat j * PAGESIZE).
  assert (Hval : (a0 + Z.of_nat j * PAGESIZE) mod PAGESIZE = 0).
  { rewrite Z.mod_add by done. exact Ha0al. }
  split; [exact Hval|]. split.
  { rewrite Hjz. unfold k, PAGESIZE in *. Z.div_mod_to_equations. lia. }
  rewrite <- (pte_tree_ok t _ Hok).
  split; [exact Hpj|].
  change (entry_pa (pte t ?v) ?v) with (vmiter_pa t v).
  rewrite Hpaj, Hjz. unfold k, PAGESIZE in *. Z.div_mod_to_equations. lia.
Qed.


(** ** process_setup *)

Lemma kalloc_pagetable_builds b :
  frame_table_ok b → (kalloc_pagetable b).1 ≠ 0 →
  builds_table b (kalloc_pagetable b).2 (kalloc_pagetable b).1.
Proof.
  intros Hft. unfold kalloc_pagetable.
  pose proof (kalloc_takes wf (kalloc PAGESIZE b).1 b) as Hk.
  pose proof (kalloc_taken wf b Hft) as Hn.
  destruct (kalloc PAGESIZE b) as [pt s1]. cbn [fst snd] in *.
  case_bool_decide as Hpt; [done|]. cbn [fst snd]. intros _.
  destruct (Hn Hpt) as (Hfr & Hfree & Hone).
  destruct Hk as ((R & T & L) & F & B & Tb).
  destruct (is_frame_bounds wf pt Hfr) as [_ Hal].
  split; [|split; [|split; [|split; [|split; [|split]]]]].
  - exact R.
  - exact L.
  - intros f x Hfal Hf Hx. simpl. unfold memset.
    rewrite (frames_apart f); [by apply (B f x) | done | done | | done].
    intros ->. by apply Hf.
  - intros r Hr. rewrite tree_of_set_tree_ne by done.
    change (tree_of (set_physmem _ s1) r) with (tree_of s1 r). by apply T.
  - rewrite tree_of_set_tree_eq. intros va. by right.
  - intros f. unfold table_frames. rewrite tree_of_set_tree_eq.
    change (ptiter_pages empty_tree) with (@nil Z).
    intros ->%list_elem_of_singleton.
    split; [done|]. split; [done|].
    change (refcount (set_tree pt empty_tree (set_physmem _ s1)) pt)
      with (refcount s1 pt). by rewrite Hone.
  - intros va _ _. rewrite tree_of_set_tree_eq. done.
Qed.

Lemma builds_table_update_proc b s root i f :
  builds_table b s root → builds_table b (update_proc i f s) root.
Proof. done. Qed.

Lemma builds_table_from b b' s root :
  physpages b' = physpages b → physmem b' = physmem b → pagetables b' = pagetables b →
  builds_table b' s root → builds_table b s root.
Proof.
  intros Hp Hm Ht (R & L & B & T & Hok & Htf & Huf).
  assert (Hr : ∀ f, refcount b' f = refcount b f) by (intros f; unfold refcount; by rewrite Hp).
  split; [|split; [|split; [|split; [|split; [|split]]]]].
  - intros f Hf. rewrite <- Hr in *. by apply R.
  - congruence.
  - intros f x Hal Hf Hx. rewrite <- Hm. apply (B f x); [done | by rewrite Hr | done].
  - intros r Hne. rewrite T by done. unfold tree_of. by rewrite Ht.
  - done.
  - intros f Hf. rewrite <- Hr. by apply Htf.
  - intros va Hal Hva Hp'. cbv zeta. rewrite <- Hr. by apply Huf.
Qed.

(** What [process_setup] builds, and what its loader writes, when the
    frames of every segment are consecutive. *)
Lemma process_setup_builds i pgm st st' :
  (i < length (ptable st))%nat →
  frame_table_ok st →
  Forall segment_in_range (pgm_segments pgm) →
  process_setup i pgm st = Some st' →
  pagetable (proc_at st' i) ≠ 0 →
  Forall (λ seg, segment_consecutive (tree_of st' (pagetable (proc_at st' i))) seg = true)
    (pgm_segments pgm) →
  builds_table st st' (pagetable (proc_at st' i))
  ∧ ∀ seg x, seg ∈ pgm_segments pgm →
      loader_writes (tree_of st' (pagetable (proc_at st' i))) seg x = true →
      ∃ va, va mod PAGESIZE = 0 ∧ PROC_START_ADDR ≤ va < MEMSIZE_VIRTUAL - PAGESIZE
        ∧ pte_present (leaf_slot (tree_of st' (pagetable (proc_at st' i))) va) = true
        ∧ entry_pa (leaf_slot (tree_of st' (pagetable (proc_at st' i))) va) va ≤ x
          < entry_pa (leaf_slot (tree_of st' (pagetable (proc_at st' i))) va) va + PAGESIZE.
Proof.
  intros Hi Hft Hsegs. unfold process_setup.
  destruct (wf_facts wf) as (Hps & _ & Hmv & _ & Hcons & Hpm & _ & Hv47 & _).
  set (st0 := update_proc i _ st).
  assert (Hlen0 : length (ptable st0) = length (ptable st))
    by (unfold st0, update_proc, set_ptable; simpl; by rewrite length_insert).
  destruct (kalloc_pagetable_frame st0) as [Hpt1 _].
  pose proof (kalloc_pagetable_builds st0 Hft) as Hkb.
  destruct (kalloc_pagetable st0) as [root st1]. cbn [fst snd] in Hpt1, Hkb.
  set (st2 := update_proc i (with_pagetable root) st1).
  destruct (setup_kernel_loop _ 0 root st2) as [st3|] eqn:H3; [|done]. simpl.
  destruct (setup_segments _ root st3) as [st4|] eqn:H4; [|done]. simpl.
  set (st5 := init_segments _ root st4).
  set (st6 := update_proc i _ st5).
  pose proof (λ H1 H2 H3 H4 H5 H6 H7,
                map_page_builds st st6 root (MEMSIZE_VIRTUAL - PAGESIZE)
                  (Z.lor (Z.lor PTE_W PTE_P) PTE_U) H1 H2 H3 H4 H5 H6 H7) as Hstack.
  pose proof (tree_of_kalloc PAGESIZE st6 root) as Htr7.
  destruct (kalloc_frame PAGESIZE st6) as (Hpt7 & _).
  destruct (kalloc PAGESIZE st6) as [pa st7]. cbn [fst snd] in *.
  case_bool_decide as Hpa; [done|].
  set (perm := Z.lor (Z.lor PTE_W PTE_P) PTE_U) in *.
  destruct (vmiter_map root _ pa perm st7) as [st8|] eqn:H8; [|done]. simpl.
  intros [= <-].
  destruct (vmiter_map_ptable _ _ _ _ _ _ H8) as (Hpt8 & _ & Hst8).
  pose proof (setup_kernel_loop_ptable _ _ _ _ _ H3) as Hpt3.
  pose proof (setup_segments_ptable _ _ _ _ H4) as Hpt4.
  destruct (init_segments_keeps (pgm_segments pgm) root st4) as (Hpt5 & Htb5 & Hpp5).
  fold st5 in Hpt5, Htb5, Hpp5.
  assert (Hlen2 : length (ptable st2) = length (ptable st)).
  { unfold st2, update_proc, set_ptable. simpl. rewrite length_insert, Hpt1. exact Hlen0. }
  assert (Hlen5 : length (ptable st5) = length (ptable st))
    by (rewrite Hpt5, Hpt4, Hpt3; exact Hlen2).
  assert (Hlen6 : length (ptable st6) = length (ptable st))
    by (unfold st6, update_proc, set_ptable; simpl; by rewrite length_insert).
  assert (Hlen8 : length (ptable st8) = length (ptable st)) by congruence.
  assert (Hroot : pagetable (proc_at (update_proc i
                    (λ p, with_state P_RUNNABLE
                            (with_regs (with_rsp (MEMSIZE_VIRTUAL - PAGESIZE + PAGESIZE)
                                          (regs p)) p)) st8) i) = root).
  { rewrite proc_at_update_eq by lia. simpl.
    rewrite (proc_at_ptable st6 st8) by congruence.
    unfold st6. rewrite proc_at_update_eq by lia. simpl.
    rewrite (proc_at_ptable st2 st5) by congruence.
    unfold st2. by rewrite proc_at_update_eq by (rewrite Hpt1; lia). }
  rewrite Hroot. intros Hr0.
  change (tree_of (update_proc _ _ st8) root) with (tree_of st8 root).
  intros Hcons'.
  (* up to the loader *)
  assert (Hb4 : builds_table st st4 root).
  { apply (setup_segments_builds st _ _ _ _ Hft H4).
    { eapply Forall_impl; [exact Hsegs|]. by intros seg (? & _). }
    apply (setup_kernel_loop_builds st _ _ _ _ _ Hft H3); [done | |].
    { unfold pages_below, PAGESIZE in *.
      rewrite Z2Nat.id by (Z.div_mod_to_equations; lia).
      Z.div_mod_to_equations. lia. }
    apply builds_table_update_proc.
    apply (builds_table_from st st0); [done | done | done |]. by apply Hkb. }
  (* the stack page leaves the pages of the segments alone *)
  assert (Hstk : (MEMSIZE_VIRTUAL - PAGESIZE) mod PAGESIZE = 0)
    by (unfold PAGESIZE in *; Z.div_mod_to_equations; lia).
  assert (Hleaf : ∀ va, va mod PAGESIZE = 0 → va < MEMSIZE_VIRTUAL - PAGESIZE →
            leaf_slot (tree_of st8 root) va = leaf_slot (tree_of st4 root) va).
  { intros va Hal Hva. rewrite Hst8.
    destruct (try_map_any wf root (MEMSIZE_VIRTUAL - PAGESIZE) pa perm st7)
      as (_ & Hoth & _).
    rewrite Hoth.
    - rewrite Htr7. change (tree_of st6 root) with (tree_of st5 root).
      unfold tree_of. by rewrite Htb5.
    - intros Heq. apply (aligned_same_page _ va) in Heq; [lia | done | done]. }
  assert (Hok4 : tree_ok (tree_of st4 root)) by (by destruct Hb4 as (_ & _ & _ & _ & ? & _)).
  assert (Htr5 : tree_of st5 root = tree_of st4 root)
    by (unfold tree_of; by rewrite Htb5).
  assert (Hq : ∀ va, va < MEMSIZE_VIRTUAL - PAGESIZE →
            va / PAGESIZE ≠ (MEMSIZE_VIRTUAL - PAGESIZE) / PAGESIZE).
  { intros va Hva. unfold PAGESIZE in *. Z.div_mod_to_equations. lia. }
  assert (Hb8 : ∀ b5, builds_table st b5 root → tree_of b5 root = tree_of st4 root →
            physpages b5 = physpages st4 → physmem b5 = physmem st5 →
            builds_table st st8 root).
  { intros b5 Hb5 Ht5 Hp5 Hm5. rewrite Hst8.
    apply (builds_table_from st st); try done.
    assert (Hb6 : builds_table st st6 root).
    { destruct Hb5 as (R & L & B & T & Hok & Htf & Huf).
      assert (Hr : ∀ f, refcount st6 f = refcount b5 f)
        by (intros f; unfold refcount; simpl; by rewrite Hpp5, Hp5).
      assert (Ht : tree_of st6 root = tree_of b5 root)
        by (change (tree_of st6 root) with (tree_of st5 root); by rewrite Htr5, Ht5).
      split; [|split; [|split; [|split; [|split; [|split]]]]].
      - intros f Hf. rewrite Hr. by apply R.
      - simpl. rewrite Hpp5, <- Hp5. exact L.
      - intros f x Hal Hf Hx. change (physmem st6 x) with (physmem st5 x).
        rewrite <- Hm5. by apply (B f x).
      - intros r Hne. change (tree_of st6 r) with (tree_of st5 r).
        unfold tree_of at 1. rewrite Htb5. fold (tree_of st4 r).
        destruct Hb4 as (_ & _ & _ & T4 & _). by apply T4.
      - by rewrite Ht.
      - intros f. unfold table_frames. rewrite Ht, Hr. apply Htf.
      - intros va Hal Hva. unfold table_frames. rewrite Ht. intros Hp. cbv zeta.
        rewrite Hr. by apply Huf. }
    assert (Hsl : PROC_START_ADDR ≤ MEMSIZE_VIRTUAL - PAGESIZE)
      by (unfold PAGESIZE in *; Z.div_mod_to_equations; lia).
    assert (Hpr : 0 ≤ perm < PAGESIZE) by done.
    assert (Hpp : Z.land perm PTE_P ≠ 0) by done.
    by apply (Hstack Hft Hb6 Hstk Hsl Hpr Hpp). }
  assert (Hok8 : tree_ok (tree_of st8 root)).
  { rewrite Hst8. destruct (try_map_any wf root (MEMSIZE_VIRTUAL - PAGESIZE) pa perm st7)
      as (Hok1 & _). apply Hok1. rewrite Htr7.
    change (tree_of st6 root) with (tree_of st5 root). by rewrite Htr5. }
  assert (Hslot : ∀ t va, leaf_slot t va = leaf_slot t (round_down va PAGESIZE)).
  { intros t va. unfold leaf_slot, round_down. f_equal. f_equal.
    unfold PAGESIZE. Z.div_mod_to_equations. lia. }
  assert (Hpte : ∀ va, va < MEMSIZE_VIRTUAL - PAGESIZE →
            pte (tree_of st8 root) va = pte (tree_of st4 root) va).
  { intros va Hva. rewrite !pte_tree_ok by done.
    rewrite (Hslot (tree_of st8 root)), (Hslot (tree_of st4 root)).
    apply Hleaf; unfold round_down, PAGESIZE in *; Z.div_mod_to_equations; lia. }
  assert (Hin8 : ∀ seg x, seg ∈ pgm_segments pgm →
            loader_writes (tree_of st8 root) seg x = true →
            ∃ va, va mod PAGESIZE = 0 ∧ PROC_START_ADDR ≤ va < MEMSIZE_VIRTUAL - PAGESIZE
              ∧ pte_present (leaf_slot (tree_of st8 root) va) = true
              ∧ entry_pa (leaf_slot (tree_of st8 root) va) va ≤ x
                < entry_pa (leaf_slot (tree_of st8 root) va) va + PAGESIZE).
  { intros seg x Hin Hw. rewrite Forall_forall in Hsegs, Hcons'.
    by apply (loader_writes_in_page (tree_of st8 root) seg x Hok8 (Hsegs seg Hin)
                (Hcons' seg Hin)). }
  assert (Hlw : ∀ seg x, seg ∈ pgm_segments pgm →
            loader_writes (tree_of st4 root) seg x = true →
            loader_writes (tree_of st8 root) seg x = true).
  { intros seg x Hin. rewrite Forall_forall in Hsegs, Hcons'.
    destruct (Hsegs seg Hin) as (Hlow & Hsz & Hend).
    pose proof (Hcons' seg Hin) as Hc. unfold segment_consecutive in Hc.
    apply andb_prop in Hc as [Hd%bool_decide_eq_true _].
    unfold loader_writes, in_range. rewrite Z.max_l by lia.
    destruct (decide (seg_va seg < MEMSIZE_VIRTUAL - PAGESIZE)) as [Hlt|Hge].
    - unfold vmiter_pa. by rewrite (Hpte _ Hlt).
    - intros [Hx1%Z.leb_le Hx2%Z.ltb_lt]%andb_prop. exfalso. lia. }
  split; [|exact Hin8].
  destruct Hb4 as (R4 & L4 & B4 & T4 & _ & Htf4 & Huf4).
  apply (Hb8 st5); [|exact Htr5 | exact Hpp5 | done].
  split; [|split; [|split; [|split; [|split; [|split]]]]].
  - intros f Hf. unfold refcount. rewrite Hpp5. by apply R4.
  - by rewrite Hpp5.
  - intros f x Hal Hf Hx.
    rewrite <- (B4 f x Hal Hf Hx). apply init_segments_physmem.
    intros seg Hin. destruct (loader_writes (tree_of st4 root) seg x) eqn:Hw; [|done].
    exfalso.
    destruct (Hin8 seg x Hin (Hlw seg x Hin Hw)) as (va & Hval & [Hv1 Hv2] & Hp & Hx').
    rewrite (Hleaf va Hval Hv2) in Hp, Hx'.
    destruct (Huf4 va Hval Hv1 Hp) as (Hfr & Hfree & _).
    destruct (is_frame_bounds wf _ Hfr) as [_ Hfal].
    apply Hf.
    replace f with (entry_pa (leaf_slot (tree_of st4 root) va) va); [done|].
    unfold PAGESIZE in *. Z.div_mod_to_equations. lia.
  - intros r Hne. rewrite Htr5 || (unfold tree_of; rewrite Htb5); by apply T4.
  - by rewrite Htr5.
  - intros f. unfold table_frames, refcount. rewrite Htr5, Hpp5. apply Htf4.
  - intros va Hal Hva. unfold table_frames. rewrite Htr5. intros Hp. cbv zeta.
    unfold refcount. rewrite Hpp5. by apply Huf4.
Qed.

(** X21: what [process_setup] that completes leaves, in a kernel with a
    complete frame table, for a program whose segments lie at or above
    [PROC_START_ADDR] and below the stack page and whose pages were given
    consecutive frames (with initialized data no longer than the segment),
    loaded into a page table with a non-null root.  The new table keeps the
    three rules.  Its root and its interior nodes are frames that were free
    before and are in use now, and so are the frames of its user pages at or
    above [PROC_START_ADDR], none of which holds a node of the table.  No
    byte the loader writes (lines 188-189) lies in a frame of the table, and
    no byte of a frame that was in use before has changed; such a frame
    keeps its refcount, and every other page table its entries. *)
Theorem process_setup_table_safe (i : nat) (pgm : program_image) (st st' : kstate) :
  (i < length (ptable st))%nat →
  frame_table_ok st →
  Forall segment_in_range (pgm_segments pgm) →
  process_setup i pgm st = Some st' →
  let root := pagetable (proc_at st' i) in
  let t := tree_of st' root in
  root ≠ 0 →
  Forall (λ seg, segment_consecutive t seg = true) (pgm_segments pgm) →
  pagetable_safe t
  ∧ tables_fresh st st' root
  ∧ user_frames_fresh st st' root
  ∧ (∀ seg f x, seg ∈ pgm_segments pgm → f ∈ table_frames st' root →
       f ≤ x < f + PAGESIZE → loader_writes t seg x = false)
  ∧ frames_in_use_kept st st'
  ∧ (∀ f, refcount st f ≠ 0 → refcount st' f = refcount st f)
  ∧ (∀ r, r ≠ root → tree_of st' r = tree_of st r).
Proof.
  intros Hi Hft Hsegs Hs. cbv zeta. intros Hr0 Hcons.
  destruct (process_setup_builds i pgm st st' Hi Hft Hsegs Hs Hr0 Hcons)
    as ((R & L & B & T & Hok & Htf & Huf) & Hw).
  split.
  { apply (process_setup_safe wf i pgm st st' Hi); [|done|done].
    eapply Forall_impl; [exact Hsegs|]. by intros seg (? & _). }
  split; [exact Htf|]. split; [exact Huf|]. split; [|done].
  intros seg f x Hin Hf Hx.
  destruct (loader_writes _ seg x) eqn:Hlw; [|done]. exfalso.
  destruct (Hw seg x Hin Hlw) as (va & Hval & [Hv1 Hv2] & Hp & Hx').
  destruct (Huf va Hval Hv1 Hp) as (Hfr & _ & _ & Hnot).
  destruct (Htf f Hf) as (Hfr' & _).
  destruct (is_frame_bounds wf _ Hfr) as [_ Hal].
  destruct (is_frame_bounds wf _ Hfr') as [_ Hal'].
  apply Hnot.
  replace (entry_pa (leaf_slot (tree_of st' (pagetable (proc_at st' i))) va) va)
    with f; [done|].
  unfold PAGESIZE in *. Z.div_mod_to_equations. lia.
Qed.

End LoaderFrames.

(** * The page tables the boot sets up *)

Section BootFrames.
Context `{M : machine}.
Hypothesis wf : machine_wf = true.

Lemma kalloc_pagetable_length st :
  length (physpages (kalloc_pagetable st).2) = length (physpages st).
Proof.
  unfold kalloc_pagetable. pose proof (kalloc_length st) as Hk.
  destruct (kalloc PAGESIZE st) as [pt s1]. cbn [snd] in Hk.
  by case_bool_decide.
Qed.

Lemma process_setup_frame_table i pgm st st' :
  process_setup i pgm st = Some st' →
  length (physpages st') = length (physpages st).
Proof.
  unfold process_setup.
  set (st0 := update_proc i _ st).
  pose proof (kalloc_pagetable_length st0) as L1.
  destruct (kalloc_pagetable st0) as [root st1]. cbn [snd] in L1.
  set (st2 := update_proc i (with_pagetable root) st1).
  destruct (setup_kernel_loop _ 0 root st2) as [st3|] eqn:H3; [|done]. simpl.
  destruct (setup_segments _ root st3) as [st4|] eqn:H4; [|done]. simpl.
  set (st5 := init_segments _ root st4).
  set (st6 := update_proc i _ st5).
  pose proof (kalloc_length st6) as L7.
  destruct (kalloc PAGESIZE st6) as [pa st7]. cbn [snd] in L7.
  case_bool_decide as Hpa; [done|].
  destruct (vmiter_map root _ pa _ st7) as [st8|] eqn:H8; [|done]. simpl.
  intros [= <-].
  destruct (vmiter_map_keeps_others _ _ _ _ _ _ H8) as (_ & _ & L8).
  destruct (setup_kernel_loop_keeps _ _ _ _ _ H3) as (_ & _ & L3).
  destruct (setup_segments_keeps _ _ _ _ H4) as (_ & _ & L4).
  destruct (init_segments_keeps (pgm_segments pgm) root st4) as (_ & _ & L5).
  change (length (physpages st8) = length (physpages st)).
  rewrite L8, L7. change (physpages st6) with (physpages st5). unfold st5.
  rewrite L5, L4, L3. exact L1.
Qed.

(** What a sequence of loads keeps: the slots it does not load, and the
    refcount and the table of every frame in use. *)
Lemma load_all_frame l st st' :
  frame_table_ok st →
  (∀ i pgm, (i, pgm) ∈ l → (i < length (ptable st))%nat) →
  load_all l st = Some st' →
  length (ptable st') = length (ptable st)
  ∧ frame_table_ok st'
  ∧ (∀ j, j ∉ l.*1 → proc_at st' j = proc_at st j)
  ∧ (∀ j, j ∈ l.*1 → state (proc_at st' j) ≠ P_FREE)
  ∧ ((∀ i pgm, (i, pgm) ∈ l → pagetable (proc_at st' i) ≠ 0) → NoDup (l.*1) →
     (∀ f, refcount st f ≠ 0 → refcount st' f = refcount st f)
     ∧ (∀ r, refcount st r ≠ 0 → tree_of st' r = tree_of st r)).
Proof.
  revert st. induction l as [|[i pgm] rest IH]; intros st Hft Hlt; simpl.
  - intros [= <-]. split; [done|]. split; [done|]. split; [done|].
    split; [intros j Hj; by apply elem_of_nil in Hj | done].
  - destruct (process_setup i pgm st) as [st1|] eqn:E1; [|done]. simpl.
    intros Hrest.
    assert (Hi : (i < length (ptable st))%nat) by (apply (Hlt i pgm); by left).
    destruct (process_setup_result wf i pgm st st1 Hi E1)
      as (Hrun & _ & _ & Hlen & Hoth & _).
    assert (Hft1 : frame_table_ok st1).
    { unfold frame_table_ok in *. by rewrite (process_setup_frame_table _ _ _ _ E1). }
    destruct (IH st1 Hft1) as (Hlen' & Hft' & Hoth' & Hlive' & Hkeep'); [|done|].
    { intros j p Hin. rewrite Hlen. apply (Hlt j p). by right. }
    split; [congruence|]. split; [done|]. split; [|split].
    + intros j Hj. apply not_elem_of_cons in Hj as [Hne Hj].
      rewrite Hoth' by done. by apply Hoth.
    + intros j [->|Hj]%elem_of_cons; [|by apply Hlive'].
      destruct (decide (i ∈ rest.*1)) as [Hin|Hnin]; [by apply Hlive'|].
      rewrite Hoth' by done. by rewrite Hrun.
    + intros Hroots [Hnin Hnd]%NoDup_cons.
      destruct Hkeep' as [R' T']; [intros j p Hin; apply (Hroots j p); by right | done |].
      assert (Hr1 : pagetable (proc_at st1 i) ≠ 0).
      { rewrite <- (Hoth' i Hnin). apply (Hroots i pgm). by left. }
      destruct (process_setup_keeps wf i pgm st st1 Hi Hft E1 Hr1)
        as (Hfree & _ & R & T & _).
      split.
      * intros f Hf. rewrite R' by (by rewrite R). by apply R.
      * intros r Hr. rewrite T' by (by rewrite R). apply T.
        intros ->. by apply Hr.
Qed.

(** One more process, with a table built from free frames. *)
Lemma builds_table_step i st st1 :
  builds_table st st1 (pagetable (proc_at st1 i)) →
  (∀ j, j ≠ i → proc_at st1 j = proc_at st j) →
  pagetable_safe (tree_of st1 (pagetable (proc_at st1 i))) →
  processes_safe st → tables_private st →
  processes_safe st1 ∧ tables_private st1.
Proof.
  set (root := pagetable (proc_at st1 i)).
  intros (R & L & B & T & Hok & Htf & Huf) Hoth Hsafe Hinv Hpriv.
  assert (Hfree : refcount st root = 0).
  { destruct (Htf root) as (_ & ? & _); [by left | done]. }
  assert (Hold : ∀ j, j ≠ i → state (proc_at st1 j) ≠ P_FREE →
            state (proc_at st j) ≠ P_FREE
            ∧ pagetable (proc_at st1 j) = pagetable (proc_at st j)
            ∧ tree_of st1 (pagetable (proc_at st j)) = tree_of st (pagetable (proc_at st j))
            ∧ table_frames st1 (pagetable (proc_at st j))
              = table_frames st (pagetable (proc_at st j))).
  { intros j Hne Hj. rewrite (Hoth j Hne) in *. split; [done|]. split; [done|].
    destruct (Hinv j Hj) as (Hin & _).
    assert (Hr : pagetable (proc_at st j) ≠ root).
    { intros Heq. apply (Hin (pagetable (proc_at st j))); [by left | by rewrite Heq]. }
    unfold table_frames. by rewrite (T _ Hr). }
  assert (Hnew_user : ∀ va, va mod PAGESIZE = 0 → PROC_START_ADDR ≤ va →
            pte_present (leaf_slot (tree_of st1 root) va) = true →
            refcount st (entry_pa (leaf_slot (tree_of st1 root) va) va) = 0
            ∧ refcount st1 (entry_pa (leaf_slot (tree_of st1 root) va) va) ≠ 0
            ∧ entry_pa (leaf_slot (tree_of st1 root) va) va ∉ table_frames st1 root).
  { intros va Hal Hva Hp. by destruct (Huf va Hal Hva Hp) as (_ & ? & ? & ?). }
  split.
  - intros j Hj. destruct (decide (j = i)) as [->|Hne].
    + fold root. split; [|split; [|done]].
      * intros f Hf. by destruct (Htf f Hf) as (_ & _ & ?).
      * intros va Hal Hva Hp. by destruct (Hnew_user va Hal Hva Hp) as (_ & ? & _).
    + destruct (Hold j Hne Hj) as (Hj0 & -> & Htr & Htab).
      destruct (Hinv j Hj0) as (Hin & Hu & Hs).
      split; [|split; [|by rewrite Htr]].
      * intros f Hf. rewrite Htab in Hf. rewrite R; by apply Hin.
      * intros va Hal Hva. rewrite Htr. intros Hp. rewrite R; by apply Hu.
  - intros a b Ha Hb.
    destruct (decide (a = i)) as [->|Hai]; destruct (decide (b = i)) as [->|Hbi].
    + fold root. split; [|done]. intros va Hal Hva Hp.
      by destruct (Hnew_user va Hal Hva Hp) as (_ & _ & ?).
    + destruct (Hold b Hbi Hb) as (Hb0 & -> & _ & Htab).
      destruct (Hinv b Hb0) as (Hin & _). fold root. rewrite Htab. split.
      * intros va Hal Hva Hp Hmem.
        destruct (Hnew_user va Hal Hva Hp) as (H0 & _). by apply (Hin _ Hmem).
      * intros _ f Hf Hmem. destruct (Htf f Hf) as (_ & H0 & _). by apply (Hin _ Hmem).
    + destruct (Hold a Hai Ha) as (Ha0 & -> & Htr & Htab).
      destruct (Hinv a Ha0) as (Hin & Hu & _). fold root. rewrite Htr, Htab. split.
      * intros va Hal Hva Hp Hmem.
        destruct (Htf _ Hmem) as (_ & H0 & _). by apply (Hu va Hal Hva Hp).
      * intros _ f Hf Hmem. destruct (Htf _ Hmem) as (_ & H0 & _). by apply (Hin _ Hf).
    + destruct (Hold a Hai Ha) as (Ha0 & -> & Htra & Htaba).
      destruct (Hold b Hbi Hb) as (Hb0 & -> & Htrb & Htabb).
      rewrite Htra, Htaba, Htabb. by apply Hpriv.
Qed.

(** The loads of a boot, when every program gets consecutive frames. *)
Lemma load_all_safe l st st' :
  frame_table_ok st →
  (∀ i pgm, (i, pgm) ∈ l → (i < length (ptable st))%nat) →
  NoDup (l.*1) →
  load_all l st = Some st' →
  (∀ i pgm, (i, pgm) ∈ l →
     pagetable (proc_at st' i) ≠ 0
     ∧ Forall segment_in_range (pgm_segments pgm)
     ∧ Forall (λ seg, segment_consecutive
                        (tree_of st' (pagetable (proc_at st' i))) seg = true)
         (pgm_segments pgm)) →
  processes_safe st → tables_private st →
  processes_safe st' ∧ tables_private st' ∧ frames_in_use_kept st st'.
Proof.
  revert st. induction l as [|[i pgm] rest IH]; intros st Hft Hlt Hnd; simpl.
  - by intros [= <-].
  - destruct (process_setup i pgm st) as [st1|] eqn:E1; [|done]. simpl.
    intros Hrest Hhyp Hinv Hpriv.
    apply NoDup_cons in Hnd as [Hnin Hnd].
    assert (Hi : (i < length (ptable st))%nat) by (apply (Hlt i pgm); by left).
    destruct (process_setup_result wf i pgm st st1 Hi E1)
      as (_ & _ & _ & Hlen & Hoth & _).
    assert (Hft1 : frame_table_ok st1).
    { unfold frame_table_ok in *. by rewrite (process_setup_frame_table _ _ _ _ E1). }
    assert (Hlt1 : ∀ j p, (j, p) ∈ rest → (j < length (ptable st1))%nat).
    { intros j p Hin. rewrite Hlen. apply (Hlt j p). by right. }
    destruct (load_all_frame rest st1 st' Hft1 Hlt1 Hrest)
      as (_ & _ & Hoth' & _ & Hkeep').
    destruct Hkeep' as [R' T']; [intros j p Hin; apply (Hhyp j p); by right | done |].
    destruct (Hhyp i pgm ltac:(by left)) as (Hr0 & Hsegs & Hcons).
    rewrite (Hoth' i Hnin) in Hr0, Hcons.
    assert (Hlive1 : refcount st1 (pagetable (proc_at st1 i)) ≠ 0).
    { by destruct (process_setup_keeps wf i pgm st st1 Hi Hft E1 Hr0) as (_ & ? & _). }
    rewrite (T' _ Hlive1) in Hcons.
    destruct (process_setup_builds wf i pgm st st1 Hi Hft Hsegs E1 Hr0 Hcons)
      as (Hb & _).
    assert (Hsafe1 : pagetable_safe (tree_of st1 (pagetable (proc_at st1 i)))).
    { apply (process_setup_safe wf i pgm st st1 Hi); [|done|done].
      eapply Forall_impl; [exact Hsegs|]. by intros seg (? & _). }
    destruct (builds_table_step i st st1 Hb Hoth Hsafe1 Hinv Hpriv) as [Hinv1 Hpriv1].
    destruct (IH st1 Hft1 Hlt1 Hnd Hrest) as (Hinv' & Hpriv' & B'); [|done|done|].
    { intros j p Hin. apply (Hhyp j p). by right. }
    split; [done|]. split; [done|].
    destruct Hb as (R & _ & B & _).
    intros f x Hal Hf Hx. rewrite (B' f x) by (by rewrite ?R). by apply (B f x).
Qed.

Lemma init_ptable_free st i : state (proc_at (init_ptable st) i) = P_FREE.
Proof.
  destruct (decide (i < length (ptable st))%nat) as [Hlt|Hge].
  - by rewrite init_ptable_at.
  - unfold proc_at. rewrite lookup_ge_None_2; [done|].
    rewrite (init_ptable_length st). lia.
Qed.

Lemma kernel_start_load_all command image st st' :
  (kernel_start command image st).2 = KRun st' →
  ∃ s, load_all (boot_programs command image) (init_ptable st) = Some s
       ∧ st' = set_current 1 s.
Proof.
  unfold kernel_start, boot_programs. cbn [snd].
  set (st0 := init_ptable st).
  assert (Hrun : ∀ s, run 1 s = KRun st' → st' = set_current 1 s).
  { intros s. unfold run. case_bool_decide; [|done]. by intros [= <-]. }
  assert (Hdefaults :
            match setup_defaults image st0 with
            | Some st1 => run 1 st1
            | None => KPanic (setup_defaults_stop image st0) end = KRun st' →
            ∃ s, load_all [(1%nat, default empty_image (image "allocator"));
                           (2%nat, default empty_image (image "allocator2"));
                           (3%nat, default empty_image (image "allocator3"));
                           (4%nat, default empty_image (image "allocator4"))] st0
                 = Some s ∧ st' = set_current 1 s).
  { unfold setup_defaults. simpl.
    destruct (process_setup 1 _ st0) as [st1|]; simpl; [|done].
    destruct (process_setup 2 _ st1) as [st2|]; simpl; [|done].
    destruct (process_setup 3 _ st2) as [st3|]; simpl; [|done].
    destruct (process_setup 4 _ st3) as [st4|]; simpl; [|done].
    intros ->%Hrun. by exists st4. }
  destruct command as [c|]; [|exact Hdefaults].
  destruct (image c) as [pgm|]; [|exact Hdefaults].
  simpl. destruct (process_setup 1 pgm st0) as [st1|]; simpl; [|done].
  intros ->%Hrun. by exists st1.
Qed.

Lemma boot_programs_slots command image :
  NoDup (boot_programs command image).*1
  ∧ ∀ i pgm, (i, pgm) ∈ boot_programs command image → (1 ≤ i ≤ 4)%nat.
Proof.
  assert (Hd : ∀ p1 p2 p3 p4 : program_image,
            NoDup [(1%nat, p1); (2%nat, p2); (3%nat, p3); (4%nat, p4)].*1
            ∧ ∀ i pgm, (i, pgm) ∈ [(1%nat, p1); (2%nat, p2); (3%nat, p3); (4%nat, p4)] →
                       (1 ≤ i ≤ 4)%nat).
  { intros p1 p2 p3 p4. split.
    - simpl. apply (bool_decide_unpack _). vm_compute. exact I.
    - intros i pgm Hin. repeat (apply elem_of_cons in Hin as [[= -> _]|Hin]; [lia|]).
      by apply elem_of_nil in Hin. }
  unfold boot_programs. destruct command as [c|]; [|apply Hd].
  destruct (image c) as [pgm|]; [|apply Hd]. split.
  - simpl. apply NoDup_singleton.
  - intros i p [= -> _]%list_elem_of_singleton. lia.
Qed.

(** X27: the page tables [kernel_start] leaves when the boot ends with a
    process running, from a complete frame table and more than four
    descriptors, when every program it loaded (the four defaults, or the one
    the command names) has its segments at or above [PROC_START_ADDR] and
    below the stack page, got consecutive frames for the pages of each
    segment, and a page table with a non-null root.  Every live process has
    the root and the interior nodes of its page table, and its pages at or
    above [PROC_START_ADDR], in frames in use, and its table keeps the three
    rules; no frame that holds a node of a page table is mapped at or above
    [PROC_START_ADDR] by any process, or holds a node of the table of
    another process; and the live processes are the ones loaded. *)
Theorem kernel_start_tables_safe (command : option string)
    (image : string → option program_image) (st st' : kstate) :
  frame_table_ok st →
  (4 < length (ptable st))%nat →
  (kernel_start command image st).2 = KRun st' →
  (∀ i pgm, (i, pgm) ∈ boot_programs command image →
     pagetable (proc_at st' i) ≠ 0
     ∧ Forall segment_in_range (pgm_segments pgm)
     ∧ Forall (λ seg, segment_consecutive
                        (tree_of st' (pagetable (proc_at st' i))) seg = true)
         (pgm_segments pgm)) →
  processes_safe st'
  ∧ tables_private st'
  ∧ ∀ i, state (proc_at st' i) ≠ P_FREE ↔ i ∈ (boot_programs command image).*1.
Proof.
  intros Hft Hlen Hrun Hhyp.
  destruct (kernel_start_load_all command image st st' Hrun) as (s & Hload & ->).
  destruct (boot_programs_slots command image) as [Hnd Hslots].
  set (st0 := init_ptable st) in *.
  assert (Hl0 : length (ptable st0) = length (ptable st)) by apply init_ptable_length.
  assert (Hlt : ∀ i pgm, (i, pgm) ∈ boot_programs command image →
            (i < length (ptable st0))%nat).
  { intros i pgm Hin. specialize (Hslots i pgm Hin). lia. }
  assert (Hinv0 : processes_safe st0).
  { intros i Hi. exfalso. apply Hi. apply init_ptable_free. }
  assert (Hpriv0 : tables_private st0).
  { intros i j Hi. exfalso. apply Hi. apply init_ptable_free. }
  destruct (load_all_safe _ st0 s Hft Hlt Hnd Hload Hhyp Hinv0 Hpriv0)
    as (Hinv & Hpriv & _).
  split; [exact Hinv|]. split; [exact Hpriv|].
  destruct (load_all_frame _ st0 s Hft Hlt Hload) as (_ & _ & Hoth & Hlive & _).
  intros i. change (proc_at (set_current 1 s) i) with (proc_at s i). split.
  - intros Hi. destruct (decide (i ∈ (boot_programs command image).*1)); [done|].
    exfalso. apply Hi. rewrite Hoth by done. apply init_ptable_free.
  - apply Hlive.
Qed.

End BootFrames.

(** * Fork and the frames it takes *)

Section ForkFrames.
Context `{M : machine}.
Hypothesis wf : machine_wf = true.

Lemma refcounts_fit_le s k k' :
  k ≤ k' → refcounts_fit s k' → refcounts_fit s k.
Proof. intros Hk Hfit f. destruct (Hfit f) as [H0 H1]. split; [done | lia]. Qed.

Lemma fork_grows_refl root s : fork_grows root s s.
Proof.
  split; [done|]. split; [done|]. split; [done|]. split; [done|]. by left.
Qed.

Lemma fork_grows_trans root s1 s2 s3 :
  (∀ f, 0 ≤ refcount s1 f) →
  fork_grows root s1 s2 → fork_grows root s2 s3 → fork_grows root s1 s3.
Proof.
  intros Hnn (L1 & R1 & B1 & T1 & Tb1) (L2 & R2 & B2 & T2 & Tb2).
  assert (Huse : ∀ f, refcount s1 f ≠ 0 → refcount s2 f ≠ 0).
  { intros f Hf. specialize (Hnn f). specialize (R1 f). lia. }
  split; [congruence|]. split; [|split; [|split]].
  - intros f. specialize (R1 f). specialize (R2 f). lia.
  - intros f x Hal Hf Hx. rewrite (B2 f x) by auto. by apply (B1 f x).
  - intros r Hr. rewrite T2 by done. by apply T1.
  - intros f Hf. destruct (Tb2 f Hf) as [Hin|(Hfr & H0 & H1)].
    + destruct (Tb1 f Hin) as [?|(Hfr & H0 & H1)]; [by left|]. right.
      split; [done|]. split; [done|]. specialize (R2 f). specialize (Hnn f).
      specialize (R1 f). lia.
    + right. split; [done|]. split; [|done].
      specialize (R1 f). specialize (Hnn f). lia.
Qed.

Lemma takes_frames_grows root s s' :
  (∀ f, 0 ≤ refcount s f) → takes_frames root s s' → fork_grows root s s'.
Proof.
  intros Hnn ((R & T & L) & F & B & Tb).
  split; [done|]. split; [|split; [done|split; [done|]]].
  - intros f. destruct (decide (refcount s f = 0)) as [H0|Hne].
    + destruct (F f H0); lia.
    + rewrite R by done. lia.
  - intros f [->|Hf]%elem_of_cons; [left; by left|].
    destruct (Tb f Hf) as [?|(? & ? & H1)]; [left; by right|].
    right. split; [done|]. split; [done|]. by rewrite H1.
Qed.

Lemma takes_frames_fit root s s' k :
  takes_frames root s s' → refcounts_fit s k → refcounts_fit s' k.
Proof.
  intros ((R & _) & F & _) Hfit f. destruct (Hfit f) as [H0 H1].
  destruct (decide (refcount s f = 0)) as [Hz|Hne].
  - rewrite bool_decide_eq_true_2 in H1 by done.
    destruct (F f Hz) as [-> | ->]; [rewrite bool_decide_eq_true_2 by done; lia|].
    rewrite bool_decide_eq_false_2 by done. lia.
  - rewrite R by done. done.
Qed.

Lemma fork_walk_refl root st k : refcounts_fit st k → fork_walk root st st k.
Proof. intros Hfit. split; [apply fork_grows_refl | done]. Qed.

Lemma fork_walk_table_ok root st s k :
  frame_table_ok st → fork_walk root st s k → frame_table_ok s.
Proof. intros Hft ((L & _) & _). unfold frame_table_ok in *. congruence. Qed.

(** A step that takes frames, from a state of the walk. *)
Lemma fork_walk_takes root st s s' k :
  (∀ f, 0 ≤ refcount st f) →
  fork_walk root st s k → takes_frames root s s' →
  fork_walk root st s' k.
Proof.
  intros Hnn (G & Hfit) Htk.
  split; [|by eapply takes_frames_fit].
  eapply fork_grows_trans; [done | exact G |].
  apply takes_frames_grows; [|done]. intros f. by destruct (Hfit f).
Qed.

Lemma fork_walk_try_map root va pa perm st s k :
  frame_table_ok st → (∀ f, 0 ≤ refcount st f) →
  fork_walk root st s k →
  fork_walk root st (try_map root va pa perm s).2 k.
Proof.
  intros Hft Hnn Hw.
  apply (fork_walk_takes root st s); try done.
  apply (try_map_takes wf). by apply (fork_walk_table_ok root st s k).
Qed.

Lemma fork_walk_kalloc root st s k :
  (∀ f, 0 ≤ refcount st f) →
  fork_walk root st s k → fork_walk root st (kalloc PAGESIZE s).2 k.
Proof.
  intros Hnn Hw.
  apply (fork_walk_takes root st s); try done. apply (kalloc_takes wf).
Qed.

(** Copying into a frame that was free. *)
Lemma fork_walk_copy root st s k pa src :
  is_frame pa → refcount st pa = 0 →
  fork_walk root st s k →
  fork_walk root st (set_physmem (λ m, memcpy m pa src PAGESIZE) s) k.
Proof.
  intros Hfr Hfree ((L & R & B & T & Tb) & Hfit).
  split; [|done]. split; [done|]. split; [done|]. split; [|done].
  intros f x Hal Hf Hx. simpl. unfold memcpy.
  rewrite (frames_apart f); [by apply (B f x) | done | | | done].
  - by destruct (is_frame_bounds wf pa Hfr).
  - intros ->. by apply Hf.
Qed.

(** One more reference to a frame (line 410). *)
Lemma fork_walk_share root st s k pa :
  0 ≤ k → (∀ f, 0 ≤ refcount st f) →
  fork_walk root st s (k + 1) →
  fork_walk root st (set_refcount pa (wrap_refcount (refcount s pa + 1)) s) k.
Proof.
  intros Hk Hnn ((L & R & B & T & Tb) & Hfit).
  destruct (Hfit pa) as [Hp0 Hp1].
  assert (Hw : wrap_refcount (refcount s pa + 1) = refcount s pa + 1).
  { unfold wrap_refcount. apply Z.mod_small. destruct (bool_decide _); lia. }
  rewrite Hw.
  set (s' := set_refcount pa (refcount s pa + 1) s).
  assert (Hrc : ∀ f, refcount s' f = refcount s f ∨ refcount s' f = refcount s f + 1).
  { intros f. unfold s', refcount, set_refcount, set_physpages. simpl.
    destruct (decide (frame_index pa = frame_index f)) as [Heq|Hne].
    - rewrite Heq.
      destruct (decide (frame_index f < length (physpages s))%nat) as [Hlt|Hge].
      + rewrite list_lookup_insert_eq by done. by right.
      + rewrite list_insert_ge by lia. by left.
    - rewrite list_lookup_insert_ne by done. by left. }
  split; [split; [|split; [|split; [|split]]]|].
  - unfold s', set_refcount, set_physpages. simpl. by rewrite length_insert.
  - intros f. specialize (R f). destruct (Hrc f); lia.
  - exact B.
  - exact T.
  - intros f Hf. destruct (Tb f Hf) as [?|(? & ? & ?)]; [by left|]. right.
    split; [done|]. split; [done|]. destruct (Hfit f). destruct (Hrc f); lia.
  - intros f. destruct (Hfit f) as [H0 H1]. destruct (Hrc f) as [-> | ->]; [split; [done|lia]|].
    split; [lia|]. rewrite (bool_decide_eq_false_2 (refcount s f + 1 = 0)) by lia.
    destruct (bool_decide (refcount s f = 0)); lia.
Qed.


(** One iteration of the loop of lines 380-421, whether it goes on or ends
    in the cleanup: the state [s] it reaches, before the cleanup if there is
    one, is a state of the walk. *)
Lemma fork_page_walk child va st0 st k :
  frame_table_ok st0 → (∀ f, 0 ≤ refcount st0 f) → 0 ≤ k →
  fork_walk (pagetable (proc_at st child)) st0 st
    (k + (if shared_page (tree_of st (pagetable (current_proc st))) va then 1 else 0)) →
  ∃ s, (fork_page child va st = inl s ∨ fork_page child va st = inr (syscall_exit child s))
    ∧ fork_walk (pagetable (proc_at st child)) st0 s k.
Proof.
  intros Hft Hnn Hk Hw. unfold fork_page.
  set (croot := pagetable (proc_at st child)) in *.
  set (pit := tree_of st (pagetable (current_proc st))) in *.
  assert (Hw0 : fork_walk croot st0 st k).
  { destruct Hw as (G & Hfit). split; [done|].
    eapply refcounts_fit_le; [|exact Hfit]. destruct (shared_page pit va); lia. }
  assert (Hmap : ∀ pa perm,
            ∃ s, ((let '(r, st1) := try_map croot va pa perm st in
                   if bool_decide (r ≠ 0) then inr (syscall_exit child st1)
                   else (inl st1 : kstate + kstate)) = inl s
                  ∨ (let '(r, st1) := try_map croot va pa perm st in
                     if bool_decide (r ≠ 0) then inr (syscall_exit child st1)
                     else (inl st1 : kstate + kstate)) = inr (syscall_exit child s))
              ∧ fork_walk croot st0 s k).
  { intros pa perm.
    pose proof (fork_walk_try_map croot va pa perm st0 st k Hft Hnn Hw0) as H1.
    destruct (try_map croot va pa perm st) as [r s]. cbn [snd] in H1.
    exists s. split; [|done]. destruct (bool_decide (r ≠ 0)); [by right | by left]. }
  destruct (bool_decide (va < PROC_START_ADDR)) eqn:Hlow; [apply Hmap|].
  apply bool_decide_eq_false in Hlow.
  destruct (vmiter_writable pit va && vmiter_user pit va) eqn:Hwu.
  { pose proof (fork_walk_kalloc croot st0 st k Hnn Hw0) as H1.
    pose proof (kalloc_taken wf st (fork_walk_table_ok _ _ _ _ Hft Hw0)) as Hn.
    destruct (kalloc PAGESIZE st) as [pa s1]. cbn [fst snd] in *.
    case_bool_decide as Hpa; [exists s1; split; [by right | done]|].
    destruct (Hn Hpa) as (Hfr & Hfree & _).
    assert (Hfree0 : refcount st0 pa = 0).
    { destruct Hw0 as ((_ & R & _) & _). specialize (R pa). specialize (Hnn pa). lia. }
    pose proof (fork_walk_copy croot st0 s1 k pa (vmiter_pa pit va) Hfr Hfree0 H1) as H2.
    pose proof (fork_walk_try_map croot va pa (vmiter_perm pit va) st0 _ k Hft Hnn H2)
      as H3.
    destruct (try_map croot va pa (vmiter_perm pit va) _) as [r s3]. cbn [snd] in H3.
    exists s3. split; [|done]. destruct (bool_decide (r ≠ 0)); [by right | by left]. }
  destruct (negb (vmiter_writable pit va) && vmiter_user pit va) eqn:Hro; [|apply Hmap].
  assert (Hsh : shared_page pit va = true).
  { unfold shared_page. rewrite bool_decide_eq_true_2 by lia.
    by rewrite <- andb_assoc, Hro. }
  rewrite Hsh in Hw.
  pose proof (fork_walk_try_map croot va (vmiter_pa pit va) (vmiter_perm pit va)
                st0 st (k + 1) Hft Hnn Hw) as H1.
  destruct (try_map croot va (vmiter_pa pit va) (vmiter_perm pit va) st) as [r s1].
  cbn [snd] in H1.
  destruct (bool_decide (r ≠ 0)).
  { exists s1. split; [by right|].
    destruct H1 as (G & Hfit). split; [done|].
    eapply refcounts_fit_le; [|exact Hfit]. lia. }
  destruct (bool_decide (_ ≠ NO_PA)).
  - eexists. split; [by left|]. by apply fork_walk_share.
  - exists s1. split; [by left|].
    destruct H1 as (G & Hfit). split; [done|].
    eapply refcounts_fit_le; [|exact Hfit]. lia.
Qed.

Lemma fork_shares_cons p va vas :
  fork_shares p (va :: vas)
  = (if shared_page p va then 1 else 0) + fork_shares p vas.
Proof.
  unfold fork_shares. rewrite filter_cons.
  destruct (decide (shared_page p va = true)) as [->|Hne].
  - simpl. lia.
  - destruct (shared_page p va); [done|]. lia.
Qed.

Lemma fork_shares_nonneg p vas : 0 ≤ fork_shares p vas.
Proof. unfold fork_shares. lia. Qed.

(** The whole walk. *)
Lemma fork_loop_walk n va child st0 st k :
  frame_table_ok st0 → (∀ f, 0 ≤ refcount st0 f) → 0 ≤ k →
  pagetable (proc_at st child) ≠ pagetable (current_proc st) →
  fork_walk (pagetable (proc_at st child)) st0 st
    (k + fork_shares (tree_of st (pagetable (current_proc st))) (walk_pages n va)) →
  ∃ s, (fork_loop n va child st = inl s ∨ fork_loop n va child st = inr (syscall_exit child s))
    ∧ fork_walk (pagetable (proc_at st child)) st0 s k.
Proof.
  intros Hft Hnn Hk. revert va st. induction n as [|n IH]; intros va st Hne Hw.
  - exists st. split; [by left|]. simpl in Hw.
    by rewrite Z.add_0_r in Hw.
  - rewrite walk_pages_S, fork_shares_cons in Hw. cbn [fork_loop].
    set (p := tree_of st (pagetable (current_proc st))) in *.
    destruct (fork_page_walk child va st0 st (k + fork_shares p (walk_pages n (va + PAGESIZE)))
                Hft Hnn) as (s1 & Hcase & Hw1).
    { pose proof (fork_shares_nonneg p (walk_pages n (va + PAGESIZE))). lia. }
    { fold p. replace (k + fork_shares p (walk_pages n (va + PAGESIZE))
                       + (if shared_page p va then 1 else 0))
        with (k + ((if shared_page p va then 1 else 0)
                   + fork_shares p (walk_pages n (va + PAGESIZE)))) by lia.
      exact Hw. }
    assert (Hw1' : fork_walk (pagetable (proc_at st child)) st0 s1 k).
    { destruct Hw1 as (G & Hfit). split; [done|].
      eapply refcounts_fit_le; [|exact Hfit].
      pose proof (fork_shares_nonneg p (walk_pages n (va + PAGESIZE))). lia. }
    destruct Hcase as [Hstep | ->]; [|exists s1; split; [by right | done]].
    rewrite Hstep.
    destruct (fork_page_only_leaf _ _ _ _ Hstep) as [(Hpt & Hcu & _) _].
    assert (Hpc : proc_at s1 child = proc_at st child)
      by (unfold proc_at; by rewrite Hpt).
    assert (Hcp : current_proc s1 = current_proc st)
      by (unfold current_proc, proc_at; by rewrite Hpt, Hcu).
    assert (Hpar : tree_of s1 (pagetable (current_proc st)) = p).
    { destruct Hw1 as ((_ & _ & _ & T1 & _) & _). destruct Hw as ((_ & _ & _ & T & _) & _).
      unfold p. rewrite T1, T; [done | by intros ? | by intros ?]. }
    specialize (IH (va + PAGESIZE) s1). rewrite Hpc, Hcp, Hpar in IH.
    by apply IH.
Qed.


(** ** The child's entries *)

Lemma fork_copies_impl (Q Q' : Z → Prop) p va e :
  (∀ f, Q f → Q' f) → fork_copies Q p va e → fork_copies Q' p va e.
Proof.
  intros HQ [Hperm Hpa]. split; [done|].
  destruct (copied_page p va); [|done]. destruct Hpa as (? & ? & ?). auto.
Qed.

(** One step of fork's walk that goes on, seen from the child's leaf. *)
Lemma fork_page_leaf child va st st1 :
  frame_table_ok st →
  tables_in_use st (pagetable (proc_at st child)) →
  fork_page child va st = inl st1 →
  va mod PAGESIZE = 0 →
  leaf_slot (tree_of st (pagetable (proc_at st child))) va = 0 →
  fork_copies (λ f, refcount st f = 0 ∧ refcount st1 f ≠ 0
                    ∧ f ∉ table_frames st1 (pagetable (proc_at st child)))
    (tree_of st (pagetable (current_proc st))) va
    (leaf_slot (tree_of st1 (pagetable (proc_at st child))) va)
  ∧ (tree_ok (tree_of st (pagetable (proc_at st child))) →
     tree_ok (tree_of st1 (pagetable (proc_at st child)))).
Proof.
  intros Hft Htu Hstep Hal H0. unfold fork_page in Hstep. unfold fork_copies, copied_page.
  set (croot := pagetable (proc_at st child)) in *.
  set (pit := tree_of st (pagetable (current_proc st))) in *.
  set (e := pte pit va) in *.
  change (vmiter_pa pit va) with (entry_pa e va) in *.
  change (vmiter_perm pit va) with (entry_perm e) in *.
  assert (Hcopy : ∀ s,
            (try_map croot va (entry_pa e va) (entry_perm e) st).1 = 0 →
            tree_of s croot
            = tree_of (try_map croot va (entry_pa e va) (entry_perm e) st).2 croot →
            (entry_perm (leaf_slot (tree_of s croot) va) = entry_perm e
             ∧ entry_pa (leaf_slot (tree_of s croot) va) va = entry_pa e va)
            ∧ (tree_ok (tree_of st croot) → tree_ok (tree_of s croot))).
  { intros s Hr ->. split; [by apply try_map_copy_leaf|].
    by destruct (try_map_any wf croot va (entry_pa e va) (entry_perm e) st) as [? _]. }
  destruct (bool_decide (va < PROC_START_ADDR)) eqn:Hlow.
  { apply bool_decide_eq_true in Hlow.
    rewrite (bool_decide_eq_false_2 (PROC_START_ADDR ≤ va)) by lia. cbn [andb].
    pose proof (Hcopy (try_map croot va (entry_pa e va) (entry_perm e) st).2) as Hc.
    destruct (try_map croot va (entry_pa e va) (entry_perm e) st) as [r s].
    cbn [fst snd] in Hc.
    destruct (decide (r = 0)) as [->|Hr];
      [|by rewrite bool_decide_eq_true_2 in Hstep].
    rewrite bool_decide_eq_false_2 in Hstep by (by intros ?).
    injection Hstep as <-. destruct (Hc eq_refl eq_refl) as [[? ?] ?]. done. }
  apply bool_decide_eq_false in Hlow.
  rewrite (bool_decide_eq_true_2 (PROC_START_ADDR ≤ va)) by lia. cbn [andb].
  destruct (vmiter_writable pit va && vmiter_user pit va) eqn:Hwu.
  - (* a frame of its own *)
    pose proof (kalloc_some wf st) as Hk.
    pose proof (kalloc_taken wf st Hft) as Hkt.
    pose proof (kalloc_takes wf croot st) as (Hka & _).
    pose proof (tree_of_kalloc PAGESIZE st croot) as Htr.
    destruct (kalloc PAGESIZE st) as [pa s1]. cbn [fst snd] in *.
    destruct (decide (pa = 0)) as [->|Hpa];
      [by rewrite bool_decide_eq_true_2 in Hstep|].
    rewrite (bool_decide_eq_false_2 (pa = 0)) in Hstep by done.
    destruct (Hk Hpa) as (Hfr & [_ Hfree] & _).
    destruct (Hkt Hpa) as (_ & _ & Hone).
    set (s2 := set_physmem _ s1) in *.
    assert (Hft2 : frame_table_ok s2).
    { destruct Hka as (_ & _ & L). unfold frame_table_ok in *.
      change (physpages s2) with (physpages s1). congruence. }
    pose proof (try_map_takes wf croot va pa (entry_perm e) s2 Hft2)
      as ((Hkeep & _) & _ & _ & Htb).
    assert (Hpres : pte_present e = true).
    { apply andb_prop in Hwu as [_ Hu].
      change (vmiter_user pit va) with (entry_user e) in Hu.
      destruct (pte_present e) eqn:Hp; [done|].
      unfold entry_user, entry_perm in Hu. by rewrite Hp in Hu. }
    pose proof (entry_perm_present e Hpres) as Hpp.
    pose proof (entry_perm_range e) as Hrange.
    assert (Hpn : entry_perm e ≠ 0) by (intros Hz; by rewrite Hz in Hpp).
    pose proof (try_map_effect wf croot va pa (entry_perm e) s2) as He.
    pose proof (try_map_any wf croot va pa (entry_perm e) s2) as [Hok2 _].
    destruct (try_map croot va pa (entry_perm e) s2) as [r s3]. cbn [fst snd] in *.
    destruct (decide (r = 0)) as [->|Hr];
      [|by rewrite bool_decide_eq_true_2 in Hstep].
    rewrite bool_decide_eq_false_2 in Hstep by (by intros ?).
    injection Hstep as <-.
    destruct (He eq_refl) as (ts & _ & _ & _ & _ & _ & H6).
    change (tree_of s2 croot) with (tree_of s1 croot) in *. rewrite Htr in *.
    split; [|done].
    destruct H6 as [H6 | [Hz _]]; [|done].
    rewrite (bool_decide_eq_false_2 (entry_perm e = 0)) in H6 by done.
    rewrite andb_false_r in H6.
    destruct (is_frame_bounds wf pa Hfr) as [Hb52 Hbal].
    destruct (entry_written pa (entry_perm e) va Hb52 Hbal Hrange Hpp Hal) as [E1 E2].
    rewrite H6, E1, E2. split; [done|]. split; [done|]. split; [done|].
    split; [done|].
    split; [rewrite Hkeep; change (refcount s2 pa) with (refcount s1 pa);
            rewrite Hone; done|].
    unfold table_frames. intros [Heq|Hin]%elem_of_cons.
    + apply (Htu pa); [rewrite Heq; by left | done].
    + destruct (Htb pa Hin) as [Hold | (_ & Hz & _)].
      * apply (Htu pa); [by right | done].
      * change (refcount s2 pa) with (refcount s1 pa) in Hz. lia.
  - (* the parent's mapping *)
    assert (Hgoal : ∀ s,
              (if bool_decide ((try_map croot va (entry_pa e va) (entry_perm e) st).1 ≠ 0)
               then inr (syscall_exit child s)
               else inl s) = (inl st1 : kstate + kstate) →
              tree_of s croot
              = tree_of (try_map croot va (entry_pa e va) (entry_perm e) st).2 croot →
              tree_of st1 croot
              = tree_of (try_map croot va (entry_pa e va) (entry_perm e) st).2 croot
              ∧ (try_map croot va (entry_pa e va) (entry_perm e) st).1 = 0).
    { intros s Hs Ht.
      destruct (decide ((try_map croot va (entry_pa e va) (entry_perm e) st).1 = 0))
        as [Hr|Hr]; [|by rewrite bool_decide_eq_true_2 in Hs].
      rewrite bool_decide_eq_false_2 in Hs by (intros ?; done).
      injection Hs as <-. done. }
    assert (Hfin : tree_of st1 croot
              = tree_of (try_map croot va (entry_pa e va) (entry_perm e) st).2 croot
              ∧ (try_map croot va (entry_pa e va) (entry_perm e) st).1 = 0).
    { destruct (negb (vmiter_writable pit va) && vmiter_user pit va).
      - destruct (try_map croot va (entry_pa e va) (entry_perm e) st) as [r s] eqn:Htm.
        cbn [fst snd] in *.
        destruct (decide (r = 0)) as [->|Hr];
          [|by rewrite bool_decide_eq_true_2 in Hstep].
        rewrite bool_decide_eq_false_2 in Hstep by (by intros ?).
        split; [|done].
        destruct (bool_decide (_ ≠ NO_PA)); by injection Hstep as <-.
      - destruct (try_map croot va (entry_pa e va) (entry_perm e) st) as [r s] eqn:Htm.
        cbn [fst snd] in *. by apply (Hgoal s). }
    destruct Hfin as [Ht Hr]. destruct (Hcopy st1 Hr Ht) as [[? ?] ?]. done.
Qed.


(** The whole walk of fork, seen from the child's leaves: a writable user
    page of the parent is copied to a frame that was free where the walk
    began and is in use where it ends, and no two such pages to the same
    frame. *)
Lemma fork_loop_leaves n va0 child st st' k :
  frame_table_ok st → 0 ≤ k →
  tables_in_use st (pagetable (proc_at st child)) →
  refcounts_fit st
    (k + fork_shares (tree_of st (pagetable (current_proc st))) (walk_pages n va0)) →
  fork_loop n va0 child st = inl st' →
  pagetable (proc_at st child) ≠ pagetable (current_proc st) →
  va0 mod PAGESIZE = 0 →
  tree_ok (tree_of st (pagetable (proc_at st child))) →
  (∀ x, x ∈ walk_pages n va0 →
        leaf_slot (tree_of st (pagetable (proc_at st child))) x = 0) →
  let p := tree_of st (pagetable (current_proc st)) in
  let t := tree_of st (pagetable (proc_at st child)) in
  let t' := tree_of st' (pagetable (proc_at st child)) in
  tree_ok t'
  ∧ tree_of st' (pagetable (current_proc st)) = p
  ∧ (∀ x, x mod PAGESIZE = 0 → x ∉ walk_pages n va0 → leaf_slot t' x = leaf_slot t x)
  ∧ (∀ x, x ∈ walk_pages n va0 →
          fork_copies (λ f, refcount st f = 0 ∧ refcount st' f ≠ 0
                            ∧ f ∉ table_frames st' (pagetable (proc_at st child)))
            p x (leaf_slot t' x))
  ∧ (∀ x y, x ∈ walk_pages n va0 → y ∈ walk_pages n va0 → x ≠ y →
            copied_page p x = true → copied_page p y = true →
            entry_pa (leaf_slot t' x) x ≠ entry_pa (leaf_slot t' y) y)
  ∧ fork_walk (pagetable (proc_at st child)) st st' k.
Proof.
  revert va0 st. induction n as [|n IH]; intros va0 st Hft Hk Htu Hfit.
  - simpl. intros [= <-] _ _ Hok _. split; [done|]. split; [done|]. split; [done|].
    split; [intros x Hx; by apply elem_of_nil in Hx|].
    split; [intros x y Hx; by apply elem_of_nil in Hx|].
    apply fork_walk_refl. simpl in Hfit. by rewrite Z.add_0_r in Hfit.
  - cbn [fork_loop].
    destruct (fork_page child va0 st) as [st1|st1] eqn:Hstep; [|done].
    intros Hloop Hne Hal Hok H0. cbv zeta.
    set (p := tree_of st (pagetable (current_proc st))) in *.
    rewrite walk_pages_S in H0. rewrite walk_pages_S, fork_shares_cons in Hfit.
    assert (Hnn : ∀ f, 0 ≤ refcount st f) by (intros f; by destruct (Hfit f)).
    destruct (fork_page_only_leaf _ _ _ _ Hstep) as [(Hpt & Hcur & Hoth & Hleaf) _].
    destruct (fork_page_leaf child va0 st st1 Hft Htu Hstep Hal
                (H0 _ (list_elem_of_here _ _))) as [Hcp Hok1].
    destruct (fork_page_walk child va0 st st
                (k + fork_shares p (walk_pages n (va0 + PAGESIZE))) Hft Hnn)
      as (s1 & Hcase & Hw1).
    { pose proof (fork_shares_nonneg p (walk_pages n (va0 + PAGESIZE))). lia. }
    { apply fork_walk_refl. fold p.
      replace (k + fork_shares p (walk_pages n (va0 + PAGESIZE))
               + (if shared_page p va0 then 1 else 0))
        with (k + ((if shared_page p va0 then 1 else 0)
                   + fork_shares p (walk_pages n (va0 + PAGESIZE)))) by lia.
      exact Hfit. }
    rewrite Hstep in Hcase. destruct Hcase as [[= <-] | ?]; [|done].
    destruct Hw1 as (G1 & Hfit1).
    assert (Hmono : ∀ f, refcount st f ≤ refcount st1 f) by (by destruct G1 as (_ & R & _)).
    assert (Hft1 : frame_table_ok st1).
    { destruct G1 as (L & _). unfold frame_table_ok in *. congruence. }
    assert (Hpc : proc_at st1 child = proc_at st child)
      by (unfold proc_at; by rewrite Hpt).
    assert (Hcpr : current_proc st1 = current_proc st)
      by (unfold current_proc, proc_at; by rewrite Hpt, Hcur).
    assert (Hpar : tree_of st1 (pagetable (current_proc st)) = p)
      by (apply Hoth; intros Heq; apply Hne; by rewrite Heq).
    assert (Htu1 : tables_in_use st1 (pagetable (proc_at st child))).
    { intros f Hf. destruct G1 as (_ & _ & _ & _ & Tb).
      destruct (Tb f Hf) as [Hold | (_ & _ & ?)]; [|done].
      specialize (Htu f Hold). specialize (Hmono f). specialize (Hnn f). lia. }
    specialize (IH (va0 + PAGESIZE) st1 Hft1 Hk).
    rewrite Hpc, Hcpr, Hpar in IH. specialize (IH Htu1 Hfit1 Hloop).
    assert (Hfresh : va0 ∉ walk_pages n (va0 + PAGESIZE)).
    { intros Hin%walk_pages_range. unfold PAGESIZE in Hin. lia. }
    assert (Hdiff : ∀ x, x mod PAGESIZE = 0 → x ≠ va0 →
              x / PAGESIZE ≠ va0 / PAGESIZE).
    { intros x Hx Hxne Heq. apply Hxne. by apply (aligned_same_page va0 x). }
    destruct IH as (Hok' & Hpar' & Hout & Hin & Hdis & G' & Hfit');
      [done | | by apply Hok1 | |].
    { unfold PAGESIZE in *. Z.div_mod_to_equations. lia. }
    { intros x Hx. rewrite Hleaf by
        (apply Hdiff; [apply (walk_pages_aligned n (va0 + PAGESIZE) x);
                       [unfold PAGESIZE in *; Z.div_mod_to_equations; lia | done]
                      | intros ->; done]).
      apply H0. by right. }
    assert (Hmono' : ∀ f, refcount st1 f ≤ refcount st' f)
      by (by destruct G' as (_ & R & _)).
    assert (Hhead : fork_copies (λ f, refcount st f = 0 ∧ refcount st' f ≠ 0
                       ∧ f ∉ table_frames st' (pagetable (proc_at st child))) p va0
                      (leaf_slot (tree_of st' (pagetable (proc_at st child))) va0)).
    { rewrite Hout by done.
      refine (fork_copies_impl _ _ _ _ _ _ Hcp).
      intros f (Hf0 & Hf1 & Hf2). split; [done|].
      split; [specialize (Hmono' f); specialize (Hmono f); specialize (Hnn f); lia|].
      intros Hf. destruct G' as (_ & _ & _ & _ & Tb).
      destruct (Tb f Hf) as [Hold | (_ & ? & _)]; done. }
    assert (Htail : ∀ x, x ∈ walk_pages n (va0 + PAGESIZE) →
              fork_copies (λ f, refcount st f = 0 ∧ refcount st' f ≠ 0
                ∧ f ∉ table_frames st' (pagetable (proc_at st child))) p x
                (leaf_slot (tree_of st' (pagetable (proc_at st child))) x)).
    { intros x Hx. refine (fork_copies_impl _ _ _ _ _ _ (Hin x Hx)).
      intros f (Hf0 & Hf1 & Hf2). split; [|done].
      specialize (Hmono f). specialize (Hnn f). lia. }
    assert (Hsep : ∀ x, x ∈ walk_pages n (va0 + PAGESIZE) →
              copied_page p va0 = true → copied_page p x = true →
              entry_pa (leaf_slot (tree_of st' (pagetable (proc_at st child))) va0) va0
              ≠ entry_pa (leaf_slot (tree_of st' (pagetable (proc_at st child))) x) x).
    { intros x Hx Hc0 Hcx Heq.
      destruct Hcp as [_ Hcp]. destruct (Hin x Hx) as [_ Hix].
      fold p in Hcp. rewrite Hc0 in Hcp. rewrite Hcx in Hix.
      rewrite <- Hout in Hcp by done. rewrite Heq in Hcp.
      destruct Hcp as (_ & _ & _ & Hc1 & _). destruct Hix as (_ & _ & Hi0 & _). done. }
    split; [done|]. split; [done|]. rewrite walk_pages_S.
    split; [|split; [|split; [|split]]].
    + intros x Hx Hnin. apply not_elem_of_cons in Hnin as [Hxne Hnin].
      rewrite Hout by done. apply Hleaf. by apply Hdiff.
    + intros x [->|Hx]%elem_of_cons; [exact Hhead | by apply Htail].
    + intros x y [->|Hx]%elem_of_cons [->|Hy]%elem_of_cons Hxy Hcx Hcy.
      * done.
      * by apply Hsep.
      * intros Heq. by apply (Hsep x Hx Hcy Hcx).
      * by apply Hdis.
    + eapply fork_grows_trans; [exact Hnn | exact G1 | exact G'].
    + done.
Qed.

(** ** The child of a fork *)

(** The root [kalloc_pagetable] hands out, seen from fork's walk. *)
Lemma kalloc_pagetable_walk st k :
  frame_table_ok st → refcounts_fit st k → (kalloc_pagetable st).1 ≠ 0 →
  fork_walk (kalloc_pagetable st).1 st (kalloc_pagetable st).2 k
  ∧ tables_fresh st (kalloc_pagetable st).2 (kalloc_pagetable st).1
  ∧ tree_of (kalloc_pagetable st).2 (kalloc_pagetable st).1 = empty_tree.
Proof.
  intros Hft Hfit Hr.
  destruct (kalloc_pagetable_builds wf st Hft Hr) as (R & L & B & T & _ & Tf & _).
  destruct (kalloc_pagetable_effect wf st Hr) as (_ & _ & Hempty & _).
  assert (Hfit1 : refcounts_fit (kalloc_pagetable st).2 k).
  { unfold kalloc_pagetable in *.
    pose proof (takes_frames_fit 0 st _ k (kalloc_takes wf 0 st) Hfit) as H.
    destruct (kalloc PAGESIZE st) as [pt s1]. cbn [fst snd] in *.
    case_bool_decide; [done|]. exact H. }
  split; [|done]. split; [|done].
  split; [done|]. split; [|split; [done|split; [done|]]].
  - intros f. destruct (decide (refcount st f = 0)) as [->|Hne];
      [by destruct (Hfit1 f)|]. rewrite R by done. lia.
  - intros f Hf. right. destruct (Tf f Hf) as (? & ? & ?). done.
Qed.

(** The stages of a fork that succeeds. *)
Lemma fork_stages st :
  length (ptable st) = NPROC →
  state (current_proc st) ≠ P_FREE →
  frame_table_ok st →
  tables_in_use st (pagetable (current_proc st)) →
  fork_fits st →
  (syscall_fork st).1 ≠ -1 →
  ∃ (child : nat) (st2 st3 : kstate) (F : proc → proc),
    syscall_fork st = (Z.of_nat child, update_proc child F st3)
    ∧ (child < length (ptable st3))%nat
    ∧ (∀ q, pagetable (F q) = pagetable q)
    ∧ pagetable (proc_at st2 child) ≠ pagetable (current_proc st)
    ∧ pagetable (proc_at st3 child) = pagetable (proc_at st2 child)
    ∧ current_proc st2 = current_proc st
    ∧ tree_of st2 (pagetable (proc_at st2 child)) = empty_tree
    ∧ tree_of st2 (pagetable (current_proc st)) = tree_of st (pagetable (current_proc st))
    ∧ fork_loop (pages_below MEMSIZE_VIRTUAL) 0 child st2 = inl st3
    ∧ fork_walk (pagetable (proc_at st2 child)) st st2
        (fork_shares (tree_of st (pagetable (current_proc st)))
           (walk_pages (pages_below MEMSIZE_VIRTUAL) 0))
    ∧ tables_fresh st st2 (pagetable (proc_at st2 child)).
Proof.
  intros Hlen Hcur Hft Htu Hfits.
  assert (Hroot : refcount st (pagetable (current_proc st)) ≠ 0)
    by (apply Htu; by left).
  unfold syscall_fork.
  pose proof (find_free_slot_spec (NPROC - 1) 1 st) as Hslot.
  set (child := find_free_slot (NPROC - 1) 1 st) in *.
  case_bool_decide as Hc; [done|].
  destruct Hslot as [?|[Hrange Hfree]]; [done|].
  pose proof (kalloc_pagetable_frame st) as [Hkpt Hkcur].
  pose proof (kalloc_pagetable_effect wf st) as Hke.
  pose proof (kalloc_pagetable_walk st _ Hft Hfits) as Hkw.
  destruct (kalloc_pagetable st) as [root s1]. cbn [fst snd] in *.
  set (st2 := update_proc child (with_pagetable root) s1) in *.
  case_bool_decide as Hr0; [done|].
  destruct (Hke Hr0) as (_ & Hfree0 & Hempty & Hothers).
  destruct (Hkw Hr0) as (Hw & Hfresh & _).
  destruct (fork_loop (pages_below MEMSIZE_VIRTUAL) 0 child st2) as [st3|st3] eqn:Hloop;
    [|done].
  cbn [fst snd]. intros _.
  assert (Hch : (child < length (ptable s1))%nat) by (rewrite Hkpt; lia).
  assert (Hne : child ≠ current st).
  { intros Heq. apply Hcur. unfold current_proc. by rewrite <- Heq. }
  assert (Hpc : pagetable (proc_at st2 child) = root).
  { unfold st2. by rewrite proc_at_update_eq. }
  assert (Hcp : current_proc st2 = current_proc st).
  { unfold current_proc, st2.
    change (current (update_proc child (with_pagetable root) s1)) with (current s1).
    rewrite Hkcur, proc_at_update_ne by done. unfold proc_at. by rewrite Hkpt. }
  assert (Hrne : root ≠ pagetable (current_proc st)).
  { intros Heq. apply Hroot. by rewrite <- Heq. }
  destruct (fork_loop_ptable _ _ _ _ _ Hloop) as [Hpt3 _].
  eexists child, st2, st3, _. rewrite Hpc.
  split; [reflexivity|].
  split. { rewrite Hpt3. unfold st2. simpl. by rewrite length_insert. }
  split; [done|]. split; [done|].
  split. { unfold proc_at. rewrite Hpt3. exact Hpc. }
  split; [done|]. split; [exact Hempty|].
  split. { change (tree_of st2 ?r) with (tree_of s1 r).
           apply Hothers. intros Heq. by apply Hrne. }
  split; [done|]. split; [exact Hw | exact Hfresh].
Qed.

(** The child's table after a fork that succeeds, leaf by leaf, and the
    frames the fork has taken. *)
Lemma fork_child_tree st :
  length (ptable st) = NPROC →
  state (current_proc st) ≠ P_FREE →
  frame_table_ok st →
  tables_in_use st (pagetable (current_proc st)) →
  fork_fits st →
  (syscall_fork st).1 ≠ -1 →
  let st' := (syscall_fork st).2 in
  let child := Z.to_nat (syscall_fork st).1 in
  let croot := pagetable (proc_at st' child) in
  let p := tree_of st (pagetable (current_proc st)) in
  let c := tree_of st' croot in
  tree_ok c
  ∧ (∀ va, va mod PAGESIZE = 0 →
      (0 ≤ va < MEMSIZE_VIRTUAL →
       fork_copies (λ f, refcount st f = 0 ∧ refcount st' f ≠ 0
                         ∧ f ∉ table_frames st' croot) p va (leaf_slot c va))
      ∧ (¬ 0 ≤ va < MEMSIZE_VIRTUAL → leaf_slot c va = 0))
  ∧ (∀ x y, x mod PAGESIZE = 0 → y mod PAGESIZE = 0 →
       0 ≤ x < MEMSIZE_VIRTUAL → 0 ≤ y < MEMSIZE_VIRTUAL → x ≠ y →
       copied_page p x = true → copied_page p y = true →
       entry_pa (leaf_slot c x) x ≠ entry_pa (leaf_slot c y) y)
  ∧ tables_fresh st st' croot
  ∧ fork_grows croot st st'
  ∧ croot ≠ pagetable (current_proc st).
Proof.
  intros Hlen Hcur Hft Htu Hfits Hfork. cbv zeta.
  destruct (wf_facts wf) as (_ & _ & Hmv & _ & Hcons & Hpm & _).
  destruct (fork_stages st Hlen Hcur Hft Htu Hfits Hfork)
    as (child & st2 & st3 & F & -> & Hch & HF & Hne & Hp3 & Hcp & Hempty & Hpar
        & Hloop & Hw & Hfresh).
  cbn [fst snd]. rewrite Nat2Z.id, proc_at_update_eq, HF, Hp3 by done.
  set (croot := pagetable (proc_at st2 child)) in *.
  change (tree_of (update_proc child F st3) ?r) with (tree_of st3 r).
  change (table_frames (update_proc child F st3) ?r) with (table_frames st3 r).
  change (refcount (update_proc child F st3)) with (refcount st3).
  assert (Hn : Z.of_nat (pages_below MEMSIZE_VIRTUAL) * PAGESIZE = MEMSIZE_VIRTUAL).
  { unfold pages_below, PAGESIZE in *.
    rewrite Z2Nat.id by (Z.div_mod_to_equations; lia).
    Z.div_mod_to_equations. lia. }
  assert (Hnn : ∀ f, 0 ≤ refcount st f) by (intros f; by destruct (Hfits f)).
  destruct Hw as (G2 & Hfit2).
  assert (Hmono2 : ∀ f, refcount st f ≤ refcount st2 f) by (by destruct G2 as (_ & R & _)).
  assert (Hft2 : frame_table_ok st2).
  { destruct G2 as (L & _). unfold frame_table_ok in *. congruence. }
  assert (Htu2 : tables_in_use st2 croot).
  { intros f Hf. by destruct (Hfresh f Hf) as (_ & _ & ?). }
  destruct (fork_loop_leaves (pages_below MEMSIZE_VIRTUAL) 0 child st2 st3 0 Hft2)
    as (Hok & Hp & Hout & Hin & Hdis & G3 & _).
  - done.
  - exact Htu2.
  - rewrite Hcp, Hpar, Z.add_0_l. exact Hfit2.
  - exact Hloop.
  - by rewrite Hcp.
  - done.
  - fold croot. rewrite Hempty. intros va. by right.
  - intros x _. fold croot. by rewrite Hempty.
  - fold croot in Hok, Hout, Hin, Hdis, G3. rewrite Hcp, Hpar in *.
    assert (Hmono3 : ∀ f, refcount st2 f ≤ refcount st3 f)
      by (by destruct G3 as (_ & R & _)).
    split; [done|]. split; [|split; [|split; [|split; [|done]]]].
    + intros va Hal. split.
      * intros Hr.
        refine (fork_copies_impl _ _ _ _ _ _ (Hin va _)).
        { intros f (Hf0 & Hf1 & Hf2). split; [|done].
          specialize (Hmono2 f). specialize (Hnn f). lia. }
        apply walk_pages_intro; [done | done | lia].
      * intros Hr. rewrite Hout; [by rewrite Hempty | done |].
        intros Hin'%walk_pages_range. lia.
    + intros x y Hx Hy Hrx Hry. apply Hdis; apply walk_pages_intro; (done || lia).
    + intros f Hf. destruct G3 as (_ & _ & _ & _ & Tb).
      change (refcount (update_proc child F st3) f) with (refcount st3 f).
      destruct (Tb f Hf) as [Hold | (Hfr & Hz & Hnz)].
      * destruct (Hfresh f Hold) as (Hfr & Hz & Hnz). split; [done|]. split; [done|].
        specialize (Hmono3 f). specialize (Hmono2 f). specialize (Hnn f). lia.
      * split; [done|]. split; [|done].
        specialize (Hmono2 f). specialize (Hnn f). lia.
    + eapply fork_grows_trans; [exact Hnn | exact G2 | exact G3].
Qed.

(** X22: what the child of a successful fork has at every page of the
    address space, in a kernel whose frame table has its length, whose
    current process has its page table on frames in use, and whose
    refcounts have room for the pages the fork shares ([fork_fits]).  The
    child has the parent's permissions at every page; the parent's physical
    address for a page below [PROC_START_ADDR] or not both writable and
    user-accessible (kernel memory, the console and read-only pages are
    shared); and for a writable user page a frame, other than 0, that was
    free before the fork, is in use after it, holds no node of the child's
    page table and backs no other copied page of the child.  Outside the
    address space the child has nothing mapped.  The child's page table is
    on frames that were free before the fork and are in use after it; the
    parent's table is as it was, no refcount has gone down and no byte of a
    frame that was in use before the fork has changed. *)
Theorem fork_child_mappings (st : kstate) :
  length (ptable st) = NPROC →
  state (current_proc st) ≠ P_FREE →
  frame_table_ok st →
  tables_in_use st (pagetable (current_proc st)) →
  fork_fits st →
  (syscall_fork st).1 ≠ -1 →
  let st' := (syscall_fork st).2 in
  let child := Z.to_nat (syscall_fork st).1 in
  let croot := pagetable (proc_at st' child) in
  let p := tree_of st (pagetable (current_proc st)) in
  let c := tree_of st' croot in
  tree_of st' (pagetable (current_proc st)) = p
  ∧ (∀ va, va mod PAGESIZE = 0 →
      (0 ≤ va < MEMSIZE_VIRTUAL →
       vmiter_perm c va = vmiter_perm p va
       ∧ if copied_page p va
         then is_frame (vmiter_pa c va) ∧ vmiter_pa c va ≠ 0
              ∧ refcount st (vmiter_pa c va) = 0
              ∧ refcount st' (vmiter_pa c va) ≠ 0
              ∧ vmiter_pa c va ∉ table_frames st' croot
         else vmiter_pa c va = vmiter_pa p va)
      ∧ (¬ 0 ≤ va < MEMSIZE_VIRTUAL → vmiter_present c va = false))
  ∧ (∀ x y, x mod PAGESIZE = 0 → y mod PAGESIZE = 0 →
       0 ≤ x < MEMSIZE_VIRTUAL → 0 ≤ y < MEMSIZE_VIRTUAL → x ≠ y →
       copied_page p x = true → copied_page p y = true →
       vmiter_pa c x ≠ vmiter_pa c y)
  ∧ tables_fresh st st' croot
  ∧ (∀ f, refcount st f ≤ refcount st' f)
  ∧ frames_in_use_kept st st'.
Proof.
  intros Hlen Hcur Hft Htu Hfits Hfork. cbv zeta.
  destruct (fork_child_tree st Hlen Hcur Hft Htu Hfits Hfork)
    as (Hok & Hall & Hdis & Hfresh & (_ & R & B & T & _) & Hne).
  split; [apply T; by intros ?|].
  split; [|split; [|done]].
  - intros va Hal. destruct (Hall va Hal) as [Hin Hout]. split.
    + intros Hr. specialize (Hin Hr). rewrite <- (pte_tree_ok _ va Hok) in Hin.
      exact Hin.
    + intros Hr. unfold vmiter_present. by rewrite (pte_tree_ok _ va Hok), Hout.
  - intros x y Hx Hy Hrx Hry Hxy Hcx Hcy. unfold vmiter_pa.
    rewrite !(pte_tree_ok _ _ Hok). by apply Hdis.
Qed.

Lemma copied_leaves_safe (free : Z → Prop) p c :
  tree_ok c → kernel_range_private p → user_pages_nonnull p →
  (∀ va, va mod PAGESIZE = 0 →
     (0 ≤ va < MEMSIZE_VIRTUAL → fork_copies free p va (leaf_slot c va))
     ∧ (¬ 0 ≤ va < MEMSIZE_VIRTUAL → leaf_slot c va = 0)) →
  pagetable_safe c.
Proof.
  intros Hok Hkern Hnz Hall.
  split; [exact Hok|]. apply (proj2 (safe_leaves _ Hok)).
  intros va Hal Hu. destruct (Hall va Hal) as [Hin Hout].
  destruct (decide (0 ≤ va < MEMSIZE_VIRTUAL)) as [Hr|Hr];
    [|by rewrite (Hout Hr) in Hu].
  destruct (Hin Hr) as [Hperm Hpa].
  assert (Hup : vmiter_user p va = true).
  { unfold vmiter_user. rewrite <- Hperm. exact Hu. }
  split.
  - destruct (decide (PROC_START_ADDR ≤ va)) as [|Hlow]; [by left|].
    destruct (decide (va = CONSOLE_ADDR)) as [|Hnc]; [by right|].
    rewrite Hkern in Hup; [done | done | lia | done].
  - destruct (copied_page p va).
    + apply Hpa.
    + rewrite Hpa. by apply Hnz.
Qed.

(** X23: the page table of the child of a successful fork keeps the three
    rules of [pagetable_safe] (it is well formed, gives the user nothing
    below [PROC_START_ADDR] but the console, and has no user page on
    physical address 0) and lies on frames in use, when the parent's table
    keeps the second and the third rule, in a kernel whose frame table has
    its length, whose current process has its page table on frames in use
    and whose refcounts have room for the pages the fork shares. *)
Theorem fork_child_table_safe (st : kstate) :
  length (ptable st) = NPROC →
  state (current_proc st) ≠ P_FREE →
  frame_table_ok st →
  tables_in_use st (pagetable (current_proc st)) →
  fork_fits st →
  kernel_range_private (tree_of st (pagetable (current_proc st))) →
  user_pages_nonnull (tree_of st (pagetable (current_proc st))) →
  (syscall_fork st).1 ≠ -1 →
  let st' := (syscall_fork st).2 in
  let child := Z.to_nat (syscall_fork st).1 in
  pagetable_safe (tree_of st' (pagetable (proc_at st' child)))
  ∧ tables_in_use st' (pagetable (proc_at st' child)).
Proof.
  intros Hlen Hcur Hft Htu Hfits Hkern Hnz Hfork. cbv zeta.
  destruct (fork_child_tree st Hlen Hcur Hft Htu Hfits Hfork)
    as (Hok & Hall & _ & Hfresh & _).
  split.
  - eapply (copied_leaves_safe _ (tree_of st (pagetable (current_proc st))));
      [done | done | done | exact Hall].
  - intros f Hf. by destruct (Hfresh f Hf) as (_ & _ & ?).
Qed.

End ForkFrames.
(** * System calls and the frames of the page tables *)

Section SyscallFrames.
Context `{M : machine}.
Hypothesis wf : machine_wf = true.

Lemma fork_loop_length n va child st :
  length (ptable (match fork_loop n va child st with inl s | inr s => s end))
  = length (ptable st).
Proof.
  revert va st. induction n as [|n IH]; intros va st; simpl; [done|].
  destruct (fork_page child va st) as [st1|st1] eqn:Hstep.
  - rewrite IH. by destruct (fork_page_only_leaf _ _ _ _ Hstep) as [(-> & _) _].
  - destruct (fork_page_fail_shape _ _ _ _ Hstep) as (s & -> & Hp & _).
    destruct (syscall_exit_keeps child s) as (-> & _).
    by rewrite length_insert, Hp.
Qed.

Lemma syscall_fork_length st :
  length (ptable (syscall_fork st).2) = length (ptable st).
Proof.
  unfold syscall_fork. case_bool_decide; [done|].
  pose proof (kalloc_pagetable_frame st) as [Hkpt _].
  destruct (kalloc_pagetable st) as [root s1]. cbn [fst snd] in *.
  set (st2 := update_proc _ _ s1).
  assert (H2 : length (ptable st2) = length (ptable st)).
  { unfold st2, update_proc, set_ptable. simpl. by rewrite length_insert, Hkpt. }
  case_bool_decide; [done|].
  pose proof (fork_loop_length (pages_below MEMSIZE_VIRTUAL) 0
                (find_free_slot (NPROC - 1) 1 st) st2) as Hl.
  destruct (fork_loop _ _ _ st2) as [st3|st3]; cbn [snd]; [|congruence].
  unfold update_proc, set_ptable. simpl. rewrite length_insert. congruence.
Qed.

(** What fork, however it ends, does to the frames: no byte of a frame in
    use is written, and the frame table keeps its length. *)
Lemma fork_frames_kept st :
  length (ptable st) = NPROC →
  state (current_proc st) ≠ P_FREE →
  frame_table_ok st →
  tables_in_use st (pagetable (current_proc st)) →
  fork_fits st →
  frames_in_use_kept st (syscall_fork st).2
  ∧ frame_table_ok (syscall_fork st).2.
Proof.
  intros Hlen Hcur Hft Htu Hfits.
  assert (Hroot : refcount st (pagetable (current_proc st)) ≠ 0)
    by (apply Htu; by left).
  assert (Hnn : ∀ f, 0 ≤ refcount st f) by (intros f; by destruct (Hfits f)).
  unfold syscall_fork.
  pose proof (find_free_slot_spec (NPROC - 1) 1 st) as Hslot.
  set (child := find_free_slot (NPROC - 1) 1 st) in *.
  case_bool_decide as Hc; [done|].
  destruct Hslot as [?|[Hrange Hfree]]; [done|].
  pose proof (kalloc_pagetable_frame st) as [Hkpt Hkcur].
  pose proof (kalloc_pagetable_effect wf st) as Hke.
  pose proof (kalloc_pagetable_walk wf st _ Hft Hfits) as Hkw.
  assert (Hk0 : (kalloc_pagetable st).1 = 0 →
            frames_in_use_kept st (kalloc_pagetable st).2
            ∧ frame_table_ok (kalloc_pagetable st).2).
  { unfold kalloc_pagetable.
    destruct (kalloc_takes wf 0 st) as ((_ & _ & L) & _ & B & _).
    destruct (kalloc PAGESIZE st) as [pt s1]. cbn [fst snd] in *.
    case_bool_decide; [|done]. intros _. cbn [snd]. split; [done|].
    unfold frame_table_ok in *. congruence. }
  destruct (kalloc_pagetable st) as [root s1]. cbn [fst snd] in *.
  set (st2 := update_proc child (with_pagetable root) s1) in *.
  case_bool_decide as Hr0; [cbn [snd]; by apply Hk0|].
  destruct (Hke Hr0) as (_ & Hfree0 & Hempty & Hothers).
  destruct (Hkw Hr0) as (Hw & Hfresh & _).
  assert (Hch : (child < length (ptable s1))%nat) by (rewrite Hkpt; lia).
  assert (Hne : child ≠ current st).
  { intros Heq. apply Hcur. unfold current_proc. by rewrite <- Heq. }
  assert (Hpc : pagetable (proc_at st2 child) = root).
  { unfold st2. by rewrite proc_at_update_eq. }
  assert (Hcp : current_proc st2 = current_proc st).
  { unfold current_proc, st2.
    change (current (update_proc child (with_pagetable root) s1)) with (current s1).
    rewrite Hkcur, proc_at_update_ne by done. unfold proc_at. by rewrite Hkpt. }
  assert (Hrne : root ≠ pagetable (current_proc st)).
  { intros Heq. apply Hroot. by rewrite <- Heq. }
  assert (Hpar : tree_of st2 (pagetable (current_proc st))
                 = tree_of st (pagetable (current_proc st))).
  { change (tree_of st2 ?r) with (tree_of s1 r). apply Hothers. by intros ?. }
  destruct (fork_loop_walk wf (pages_below MEMSIZE_VIRTUAL) 0 child st st2 0 Hft Hnn)
    as (s & Hcase & ((L & _ & B & _) & _)).
  - lia.
  - by rewrite Hpc, Hcp.
  - rewrite Hpc, Hcp, Hpar, Z.add_0_l. exact Hw.
  - destruct Hcase as [-> | ->]; cbn [snd].
    + split; [exact B|]. unfold frame_table_ok in *.
      change (physpages (update_proc child _ s)) with (physpages s). congruence.
    + destruct (syscall_exit_keeps child s) as (_ & _ & _ & Hm & Hl). split.
      * intros f x Hal Hf Hx. rewrite Hm. by apply (B f x).
      * unfold frame_table_ok in *. congruence.
Qed.

(** After a fork that succeeds the page tables that lay on frames in use
    still do. *)
Lemma fork_tables_in_use st root :
  length (ptable st) = NPROC →
  state (current_proc st) ≠ P_FREE →
  frame_table_ok st →
  tables_in_use st (pagetable (current_proc st)) →
  fork_fits st →
  (syscall_fork st).1 ≠ -1 →
  tables_in_use st root →
  tables_in_use (syscall_fork st).2 root.
Proof.
  intros Hlen Hcur Hft Htu Hfits Hfork Hin.
  destruct (fork_child_tree wf st Hlen Hcur Hft Htu Hfits Hfork)
    as (_ & _ & _ & Hfresh & (_ & R & _ & T & _) & _).
  assert (Hnn : ∀ f, 0 ≤ refcount st f) by (intros f; by destruct (Hfits f)).
  assert (Hne : root ≠ pagetable (proc_at (syscall_fork st).2
                                   (Z.to_nat (syscall_fork st).1))).
  { intros Heq. destruct (Hfresh root) as (_ & Hz & _); [rewrite <- Heq; by left|].
    apply (Hin root); [by left | done]. }
  intros f Hf. unfold table_frames in Hf. rewrite (T root Hne) in Hf.
  specialize (Hin f Hf). specialize (R f). specialize (Hnn f). lia.
Qed.

(** X26: one system call, in a kernel with its [NPROC] descriptors and a
    complete frame table, made by a live process, at a moment when the
    refcounts have room for the pages a fork would share, and when every
    live process has its page table on frames in use and the table keeps
    the three rules of [pagetable_safe].  Whatever the call and however it
    ends, every process that is live afterwards, a forked child included,
    has a table that keeps the three rules; no byte of a frame that was in
    use has changed, so that nothing the call wrote went to a frame of
    such a table; the kernel still has [NPROC] descriptors and a complete
    frame table.  Unless the call is [SYSCALL_EXIT] or a fork that returns
    -1, the page table of every process live afterwards is again on frames
    in use.  After an exit or a failed fork, which free frames, this is not
    shown, nor is the room in the refcounts after any call. *)
Theorem syscall_keeps_tables_safe (r : regstate) (st : kstate) :
  length (ptable st) = NPROC →
  state (current_proc st) ≠ P_FREE →
  frame_table_ok st →
  fork_fits st →
  (∀ i, state (proc_at st i) ≠ P_FREE →
        tables_in_use st (pagetable (proc_at st i))
        ∧ pagetable_safe (tree_of st (pagetable (proc_at st i)))) →
  let st0 := update_proc (current st) (with_regs r) st in
  let st' := sysresult_state (syscall r st) in
  (∀ j, state (proc_at st' j) ≠ P_FREE →
        pagetable_safe (tree_of st' (pagetable (proc_at st' j))))
  ∧ frames_in_use_kept st st'
  ∧ length (ptable st') = NPROC
  ∧ frame_table_ok st'
  ∧ (reg_rax r ≠ SYSCALL_EXIT →
     (reg_rax r = SYSCALL_FORK → (syscall_fork st0).1 ≠ -1) →
     ∀ j, state (proc_at st' j) ≠ P_FREE →
          tables_in_use st' (pagetable (proc_at st' j))).
Proof.
  intros Hlen Hcur Hft Hfits Hinv. cbv zeta. unfold syscall.
  set (st0 := update_proc (current st) (with_regs r) st).
  assert (Hk0 : ∀ j, state (proc_at st0 j) = state (proc_at st j)
                     ∧ pagetable (proc_at st0 j) = pagetable (proc_at st j))
    by (intros j; by apply update_proc_keeps).
  assert (Hlen0 : length (ptable st0) = NPROC)
    by (unfold st0, update_proc, set_ptable; simpl; by rewrite length_insert).
  assert (Hinv0 : ∀ i, state (proc_at st0 i) ≠ P_FREE →
            tables_in_use st0 (pagetable (proc_at st0 i))
            ∧ pagetable_safe (tree_of st0 (pagetable (proc_at st0 i)))).
  { intros i Hi. destruct (Hk0 i) as [Hs Hp]. rewrite Hs in Hi. rewrite Hp.
    by apply Hinv. }
  assert (Hcur0 : state (current_proc st0) ≠ P_FREE).
  { unfold current_proc. change (current st0) with (current st).
    by rewrite (proj1 (Hk0 (current st))). }
  assert (Hft0 : frame_table_ok st0) by exact Hft.
  assert (Hfits0 : fork_fits st0).
  { unfold fork_fits, current_proc. change (current st0) with (current st).
    rewrite (proj2 (Hk0 (current st))). exact Hfits. }
  assert (Hrax : reg_rax (regs (current_proc st0)) = reg_rax r).
  { unfold current_proc. change (current st0) with (current st). unfold st0.
    destruct (decide (current st < length (ptable st))%nat) as [Hlt|Hge].
    - by rewrite proc_at_update_eq.
    - exfalso. apply Hcur. unfold current_proc, proc_at.
      by rewrite lookup_ge_None_2 by lia. }
  change (frames_in_use_kept st) with (frames_in_use_kept st0).
  rewrite <- Hrax.
  clearbody st0. clear Hk0 Hinv Hcur Hlen Hft Hfits Hrax.
  assert (Hsame : (∀ j, state (proc_at st0 j) ≠ P_FREE →
                        pagetable_safe (tree_of st0 (pagetable (proc_at st0 j))))
                  ∧ frames_in_use_kept st0 st0
                  ∧ length (ptable st0) = NPROC
                  ∧ frame_table_ok st0
                  ∧ (reg_rax (regs (current_proc st0)) ≠ SYSCALL_EXIT →
                     (reg_rax (regs (current_proc st0)) = SYSCALL_FORK →
                      (syscall_fork st0).1 ≠ -1) →
                     ∀ j, state (proc_at st0 j) ≠ P_FREE →
                          tables_in_use st0 (pagetable (proc_at st0 j)))).
  { split; [intros j Hj; by apply Hinv0|]. split; [done|]. split; [done|].
    split; [done|]. intros _ _ j Hj. by apply Hinv0. }
  destruct (bool_decide (reg_rax (regs (current_proc st0)) = SYSCALL_PANIC));
    [exact Hsame|].
  destruct (bool_decide (reg_rax (regs (current_proc st0)) = SYSCALL_GETPID));
    [exact Hsame|].
  destruct (bool_decide (reg_rax (regs (current_proc st0)) = SYSCALL_YIELD)).
  { cbn [sysresult_state].
    set (f := λ p, with_regs (with_rax 0 (regs p)) p).
    assert (Hk : ∀ j, state (proc_at (update_proc (current st0) f st0) j)
                      = state (proc_at st0 j)
                      ∧ pagetable (proc_at (update_proc (current st0) f st0) j)
                        = pagetable (proc_at st0 j))
      by (intros j; by apply update_proc_keeps).
    split; [|split; [done|split; [|split; [done|]]]].
    - intros j. destruct (Hk j) as [-> ->]. by apply Hinv0.
    - unfold update_proc, set_ptable. simpl. by rewrite length_insert.
    - intros _ _ j. destruct (Hk j) as [-> ->]. by apply Hinv0. }
  destruct (bool_decide (reg_rax (regs (current_proc st0)) = SYSCALL_PAGE_ALLOC)).
  { destruct (syscall_page_alloc_ptable (reg_rdi (regs (current_proc st0))) st0)
      as [Hp _].
    pose proof (page_alloc_safe wf (reg_rdi (regs (current_proc st0))) st0) as Hpa.
    pose proof (page_alloc_takes wf (reg_rdi (regs (current_proc st0))) st0 Hft0) as Htk.
    destruct (syscall_page_alloc _ st0) as [v s]. cbn [fst snd sysresult_state] in *.
    split; [|split; [|split; [|split]]].
    - intros j. rewrite (proc_at_ptable st0 s) by done. intros Hj.
      apply Hpa. by apply Hinv0.
    - by destruct Htk as (_ & _ & B & _).
    - by rewrite Hp.
    - destruct Htk as ((_ & _ & L) & _). unfold frame_table_ok in *. congruence.
    - intros _ _ j. rewrite (proc_at_ptable st0 s) by done. intros Hj.
      eapply takes_frames_tables; [exact Htk|]. by apply Hinv0. }
  destruct (bool_decide (reg_rax (regs (current_proc st0)) = SYSCALL_FORK)) eqn:Hfk.
  { apply bool_decide_eq_true in Hfk.
    destruct (Hinv0 _ Hcur0) as [Htu0 (_ & Hkern & Hnz)].
    pose proof (fork_outcome wf st0) as Hout.
    pose proof (fork_leaves_live_descriptors_aux st0) as Hdesc.
    pose proof (fork_child_tree wf st0 Hlen0 Hcur0 Hft0 Htu0 Hfits0) as Hchild.
    pose proof (fork_frames_kept st0 Hlen0 Hcur0 Hft0 Htu0 Hfits0) as [Hkept Hft'].
    pose proof (fork_tables_in_use st0) as Huse.
    pose proof (syscall_fork_length st0) as Hl.
    destruct (syscall_fork st0) as [v s]. cbn [fst snd sysresult_state] in *.
    split; [|split; [done|split; [congruence|split; [done|]]]].
    - intros j Hj. destruct (proj2 (Hout j Hlen0) Hj) as [Hlive | [Hv ->]].
      + rewrite (Hdesc j Hlive). destruct (Hinv0 j Hlive) as [Hrc Hs].
        rewrite (proj1 (Hout j Hlen0)); [done|]. apply Hrc. by left.
      + destruct (Hchild Hv) as (Hok & Hall & _).
        eapply (copied_leaves_safe _ (tree_of st0 (pagetable (current_proc st0))));
          [done | done | done | exact Hall].
    - intros _ Hv j Hj. specialize (Hv Hfk).
      destruct (proj2 (Hout j Hlen0) Hj) as [Hlive | [_ ->]].
      + rewrite (Hdesc j Hlive).
        apply (Huse _ Hlen0 Hcur0 Hft0 Htu0 Hfits0 Hv). by apply Hinv0.
      + destruct (Hchild Hv) as (_ & _ & _ & Hfresh & _).
        intros f Hf. by destruct (Hfresh f Hf) as (_ & _ & ?). }
  destruct (bool_decide (reg_rax (regs (current_proc st0)) = SYSCALL_EXIT)) eqn:Hex;
    [|exact Hsame].
  apply bool_decide_eq_true in Hex.
  cbn [sysresult_state].
  destruct (syscall_exit_keeps (current st0) st0) as (Hp & _ & _ & Hm & Hl).
  split; [|split; [|split; [|split; [|done]]]].
  - intros j Hj.
    destruct (decide (j = current st0)) as [->|Hne];
      [by rewrite syscall_exit_state_free in Hj|].
    rewrite syscall_exit_others in * by done. rewrite tree_of_syscall_exit.
    by apply Hinv0.
  - intros f x _ _ _. by rewrite Hm.
  - by rewrite Hp, length_insert.
  - unfold frame_table_ok in *. congruence.
Qed.

End SyscallFrames.
(** * The checks, and what they establish *)

Section Checks.
Context `{M : machine}.

Lemma tables_in_use_sound st root :
  tables_in_use_check st root = true → tables_in_use st root.
Proof.
  unfold tables_in_use_check. rewrite forallb_forall. intros H f Hf.
  apply list_elem_of_In in Hf. specialize (H f Hf).
  apply negb_true_iff, bool_decide_eq_false in H. exact H.
Qed.

Lemma refcounts_fit_sound st k :
  refcounts_fit_check st k = true → refcounts_fit st k.
Proof.
  unfold refcounts_fit_check. intros [Hk Hall]%andb_prop f.
  apply bool_decide_eq_true in Hk. rewrite forallb_forall in Hall.
  unfold refcount. destruct (physpages st !! frame_index f) as [r|] eqn:E; simpl.
  - apply list_elem_of_lookup_2, list_elem_of_In in E.
    specialize (Hall r E). by apply bool_decide_eq_true in Hall.
  - split; [done | lia].
Qed.

End Checks.

(** * The memory viewer *)

Section MemoryViewer.
Context `{M : machine}.

Lemma memshow_search_spec n s st :
  0 ≤ s < Z.of_nat NPROC →
  0 ≤ (memshow_search n s st).2 < Z.of_nat NPROC
  ∧ match (memshow_search n s st).1 with
    | Some j =>
        ∃ d, 0 ≤ d < Z.of_nat n
          ∧ (memshow_search n s st).2 = (s + d) mod Z.of_nat NPROC
          ∧ j = Z.to_nat (memshow_search n s st).2
          ∧ can_show st j
          ∧ ∀ k, 0 ≤ k < d →
              ¬ can_show st (Z.to_nat ((s + k) mod Z.of_nat NPROC))
    | None =>
        (memshow_search n s st).2 = (s + Z.of_nat n) mod Z.of_nat NPROC
        ∧ ∀ k, 0 ≤ k < Z.of_nat n →
            ¬ can_show st (Z.to_nat ((s + k) mod Z.of_nat NPROC))
    end.
Proof.
  revert s. induction n as [|n IH]; intros s Hs.
  - simpl. split; [done|]. split; [|intros k Hk; lia].
    rewrite Z.add_0_r. by rewrite Z.mod_small.
  - cbn [memshow_search].
    destruct (bool_decide (state (proc_at st (Z.to_nat s)) ≠ P_FREE)
              && bool_decide (pagetable (proc_at st (Z.to_nat s)) ≠ 0)) eqn:Hc.
    + cbn [fst snd]. split; [done|]. exists 0.
      apply andb_prop in Hc as [H1 H2]. apply bool_decide_eq_true in H1, H2.
      split; [lia|]. split; [by rewrite Z.add_0_r, Z.mod_small|].
      split; [done|]. split; [done|]. intros k Hk. lia.
    + rewrite Z.rem_mod_nonneg by lia.
      set (s' := (s + 1) mod Z.of_nat NPROC).
      assert (Hs' : 0 ≤ s' < Z.of_nat NPROC) by (apply Z.mod_pos_bound; lia).
      assert (Hshift : ∀ k, (s' + k) mod Z.of_nat NPROC
                            = (s + (k + 1)) mod Z.of_nat NPROC).
      { intros k. unfold s'. rewrite Zplus_mod_idemp_l. f_equal. lia. }
      assert (Hno : ¬ can_show st (Z.to_nat s)).
      { intros [H1 H2]. apply andb_false_iff in Hc as [Hc|Hc];
          apply bool_decide_eq_false in Hc; done. }
      destruct (IH s' Hs') as [Hr IH']. split; [done|].
      destruct (memshow_search n s' st).1 as [j|].
      * destruct IH' as (d & Hd & Hsh & Hj & Hcan & Hbefore).
        exists (d + 1). split; [lia|]. split; [by rewrite Hsh, Hshift|].
        split; [done|]. split; [done|]. intros k Hk.
        destruct (decide (k = 0)) as [->|Hne].
        { by rewrite Z.add_0_r, Z.mod_small. }
        replace k with ((k - 1) + 1) by lia. rewrite <- Hshift.
        apply Hbefore. lia.
      * destruct IH' as [Hsh Hbefore]. split.
        { rewrite Hsh, Hshift. f_equal. lia. }
        intros k Hk. destruct (decide (k = 0)) as [->|Hne].
        { by rewrite Z.add_0_r, Z.mod_small. }
        replace k with ((k - 1) + 1) by lia. rewrite <- Hshift.
        apply Hbefore. lia.
Qed.

(** X28: [memshow] shows a live process with a page table whenever there
    is one: the first in cyclic order of the slots, from the slot shown
    last when less than [HZ / 2] ticks have passed since the last switch,
    from the next slot otherwise (and on the first call); it shows none
    exactly when no slot qualifies.  [showing] stays a valid index and
    names the process shown. *)
Theorem memshow_shows_live (ticks : Z) (ms : memshow_state) (st : kstate) :
  (0 < NPROC)%nat →
  0 ≤ showing ms < Z.of_nat NPROC →
  let switch := bool_decide (last_ticks ms = 0)
                || bool_decide ((ticks - last_ticks ms) mod 2 ^ 64 >= HZ / 2) in
  let start := if switch then (showing ms + 1) mod Z.of_nat NPROC else showing ms in
  let res := memshow ticks ms st in
  0 ≤ showing res.2 < Z.of_nat NPROC
  ∧ last_ticks res.2 = (if switch then ticks mod 2 ^ 32 else last_ticks ms)
  ∧ match res.1 with
    | Some j =>
        showing res.2 = Z.of_nat j ∧ can_show st j
        ∧ ∃ d, 0 ≤ d < Z.of_nat NPROC
            ∧ Z.of_nat j = (start + d) mod Z.of_nat NPROC
            ∧ ∀ k, 0 ≤ k < d →
                ¬ can_show st (Z.to_nat ((start + k) mod Z.of_nat NPROC))
    | None => showing res.2 = start ∧ ∀ j, (j < NPROC)%nat → ¬ can_show st j
    end.
Proof.
  intros HN Hs. cbv zeta. unfold memshow.
  set (switch := bool_decide (last_ticks ms = 0) || _).
  set (start := if switch then (showing ms + 1) mod Z.of_nat NPROC else showing ms).
  assert (Hstart : 0 ≤ start < Z.of_nat NPROC).
  { unfold start. destruct switch; [apply Z.mod_pos_bound; lia | done]. }
  assert (Hms1 : showing (if switch
                          then MemshowState (ticks mod 2 ^ 32)
                                 (Z.rem (showing ms + 1) (Z.of_nat NPROC))
                          else ms) = start).
  { unfold start. destruct switch; [|done]. simpl. by rewrite Z.rem_mod_nonneg by lia. }
  rewrite Hms1.
  pose proof (memshow_search_spec NPROC start st Hstart) as [Hr Hspec].
  destruct (memshow_search NPROC start st) as [p sh]. cbn [fst snd] in *.
  split; [done|]. split; [by destruct switch|].
  destruct p as [j|].
  - destruct Hspec as (d & Hd & Hsh & Hj & Hcan & Hbefore).
    assert (Hzj : Z.of_nat j = sh) by (rewrite Hj; lia).
    split; [done|]. split; [done|]. exists d. split; [done|].
    split; [by rewrite Hzj|done].
  - destruct Hspec as [Hsh Hbefore]. split.
    + rewrite Hsh. rewrite <- Zplus_mod_idemp_r, Z.mod_same by lia.
      cbn [showing]. by rewrite Z.add_0_r, Z.mod_small.
    + intros j Hj.
      assert (H0 : 0 ≤ start - 1 + Z.of_nat NPROC) by lia.
      destruct (round_reaches_slot (start - 1 + Z.of_nat NPROC) j H0 Hj)
        as (k & Hk & <-).
      replace (start - 1 + Z.of_nat NPROC + k)
        with (start + (k - 1) + 1 * Z.of_nat NPROC) by lia.
      rewrite Z.mod_add by lia. apply Hbefore. lia.
Qed.

End MemoryViewer.

(** * The theorems above at concrete states of the machine of kernel.cc *)

Section Instances.
Local Existing Instance weensy.

Lemma booted1_frames : length (physpages booted1) = NPAGES.
Proof. vm_compute. reflexivity. Qed.

Lemma booted1_slots : length (ptable booted1) = NPROC.
Proof. vm_compute. reflexivity. Qed.

Lemma booted1_forks : (syscall_fork booted1).1 ≠ -1.
Proof. vm_compute. discriminate. Qed.

Lemma full_no_free : ∀ pa, is_frame pa → ¬ frame_free full pa.
Proof.
  apply (no_free_frame weensy_wf).
  - vm_compute. reflexivity.
  - apply (bool_decide_unpack _). vm_compute. exact I.
Qed.


(** Fork with all sixteen descriptors in use. *)
Lemma fork_no_free_slot_witness : syscall_fork crowded = (-1, crowded).
Proof.
  apply (fork_no_free_slot (M := weensy) crowded).
  intros j Hj.
  do 16 (destruct j as [|j]; [first [lia | vm_compute; discriminate]|]).
  simpl in Hj. lia.
Defined.

(** Fork with every frame in use. *)
Lemma fork_out_of_frames_witness :
  (syscall_fork full).1 = -1
  ∧ physpages (syscall_fork full).2 = physpages full
  ∧ physmem (syscall_fork full).2 = physmem full
  ∧ pagetables (syscall_fork full).2 = pagetables full.
Proof.
  exact (fork_out_of_frames (M := weensy) weensy_wf full full_no_free).
Defined.

(** The fork of process 1 right after boot. *)
Lemma fork_child_descriptor_witness :
  ∃ child : nat,
    (syscall_fork booted1).1 = Z.of_nat child
    ∧ (1 ≤ child < NPROC)%nat
    ∧ state (proc_at booted1 child) = P_FREE
    ∧ (∀ j, (1 ≤ j < child)%nat → state (proc_at booted1 j) ≠ P_FREE)
    ∧ state (proc_at (syscall_fork booted1).2 child) = P_RUNNABLE
    ∧ pid (proc_at (syscall_fork booted1).2 child) = Z.of_nat child
    ∧ regs (proc_at (syscall_fork booted1).2 child)
      = with_rax 0 (regs (current_proc booted1))
    ∧ ∀ j, j ≠ child → proc_at (syscall_fork booted1).2 j = proc_at booted1 j.
Proof.
  exact (fork_child_descriptor (M := weensy) booted1 booted1_slots booted1_forks).
Defined.

(** The parent of that fork keeps its descriptor. *)
Lemma fork_leaves_live_descriptors_witness :
  proc_at (syscall_fork booted1).2 1 = proc_at booted1 1.
Proof.
  apply (fork_leaves_live_descriptors (M := weensy) booted1 1).
  vm_compute. discriminate.
Defined.


(** Process 1 forks while process 2 is loaded. *)
Lemma syscall_leaves_other_processes_witness :
  proc_at (sysresult_state (syscall (with_rax SYSCALL_FORK regs_zero) booted2)) 2
  = proc_at booted2 2.
Proof.
  apply (syscall_leaves_other_processes (M := weensy)
           (with_rax SYSCALL_FORK regs_zero) booted2 2).
  - vm_compute. discriminate.
  - vm_compute. discriminate.
Defined.


(** The same request with every frame in use. *)
Lemma page_alloc_out_of_frames_witness :
  syscall_page_alloc 0x101000 full = (-1, full).
Proof.
  exact (page_alloc_out_of_frames (M := weensy) weensy_wf 0x101000 full full_no_free).
Defined.

(** Loading [pgm_small] as process 1 at boot. *)
Lemma process_setup_descriptor_witness :
  state (proc_at booted1 1) = P_RUNNABLE
  ∧ pid (proc_at booted1 1) = 1
  ∧ regs (proc_at booted1 1) = Regstate 0 0 (pgm_entry pgm_small) MEMSIZE_VIRTUAL
  ∧ length (ptable booted1) = length (ptable boot)
  ∧ (∀ j, j ≠ 1%nat → proc_at booted1 j = proc_at boot j)
  ∧ let t := tree_of booted1 (pagetable (proc_at booted1 1)) in
    vmiter_perm t (MEMSIZE_VIRTUAL - PAGESIZE) = Z.lor (Z.lor PTE_W PTE_P) PTE_U
    ∧ is_frame (vmiter_pa t (MEMSIZE_VIRTUAL - PAGESIZE))
    ∧ refcount boot (vmiter_pa t (MEMSIZE_VIRTUAL - PAGESIZE)) = 0.
Proof.
  assert (Hs : is_Some (process_setup 1 pgm_small boot))
    by (apply (bool_decide_unpack _); vm_compute; exact I).
  destruct Hs as [s Hs]. unfold booted1. rewrite Hs. cbn [default from_option id].
  apply (process_setup_descriptor (M := weensy) weensy_wf 1 pgm_small boot s).
  - vm_compute. lia.
  - exact Hs.
Defined.

(** Booting without a command. *)
Lemma kernel_start_default_boot_witness :
  let res := kernel_start None images boot in
  res.1 = 1
  ∧ (∀ c, images c = None → kernel_start (Some c) images boot = res)
  ∧ (∀ s, res.2 ≠ KSpin s)
  ∧ ∀ st', res.2 = KRun st' →
      current st' = 1%nat
      ∧ loaded_as 1 (default empty_image (images "allocator")) st'
      ∧ loaded_as 2 (default empty_image (images "allocator2")) st'
      ∧ loaded_as 3 (default empty_image (images "allocator3")) st'
      ∧ loaded_as 4 (default empty_image (images "allocator4")) st'
      ∧ ∀ j, (j < length (ptable boot))%nat → j = 0%nat ∨ (4 < j)%nat →
          state (proc_at st' j) = P_FREE ∧ pid (proc_at st' j) = Z.of_nat j.
Proof.
  apply (kernel_start_default_boot (M := weensy) weensy_wf images boot).
  vm_compute. lia.
Defined.

(** Booting with the command [allocator]. *)
Lemma kernel_start_command_boot_witness :
  ∃ st', (kernel_start (Some "allocator") images boot).2 = KRun st'
    ∧ current st' = 1%nat
    ∧ loaded_as 1 pgm_small st'
    ∧ ∀ j, (j < length (ptable boot))%nat → j ≠ 1%nat →
        state (proc_at st' j) = P_FREE ∧ pid (proc_at st' j) = Z.of_nat j.
Proof.
  assert (Hr : match (kernel_start (Some "allocator") images boot).2 with
               | KRun _ => true | _ => false end = true)
    by (vm_compute; reflexivity).
  destruct (kernel_start (Some "allocator") images boot).2 as [st'| |] eqn:E;
    [|discriminate Hr|discriminate Hr].
  exists st'. split; [reflexivity|].
  apply (kernel_start_command_boot (M := weensy) weensy_wf
           "allocator" pgm_small images boot st').
  - vm_compute. lia.
  - reflexivity.
  - exact E.
Defined.

(** With processes 1 and 2 loaded and 1 running, [schedule] runs 2. *)
Lemma schedule_round_robin_witness :
  let st' := set_current 2 booted2 in
  st' = set_current (current st') booted2
  ∧ state (current_proc st') = P_RUNNABLE
  ∧ ∃ d, 1 ≤ d ≤ Z.of_nat NPROC
      ∧ current st' = Z.to_nat ((pid (current_proc booted2) + d) mod Z.of_nat NPROC)
      ∧ ∀ k, 1 ≤ k < d →
          state (proc_at booted2
                   (Z.to_nat ((pid (current_proc booted2) + k) mod Z.of_nat NPROC)))
          ≠ P_RUNNABLE.
Proof.
  apply (schedule_round_robin (M := weensy) booted2 (set_current 2 booted2)).
  - vm_compute. discriminate.
  - vm_compute. lia.
  - unfold schedule, schedule_spins.
    replace (schedule_loop NPROC (pid (current_proc booted2)) booted2)
      with (Some 2%nat) by (vm_compute; reflexivity).
    unfold run. rewrite bool_decide_eq_true_2; [reflexivity|].
    vm_compute. reflexivity.
Defined.

Lemma schedule_runs_iff_runnable_witness :
  ((∃ s, (s < NPROC)%nat ∧ state (proc_at booted2 s) = P_RUNNABLE) →
   ∃ j, (∀ n, (NPROC ≤ n)%nat → schedule_spins n booted2 = KRun (set_current j booted2))
        ∧ state (proc_at booted2 j) = P_RUNNABLE)
  ∧ ((∀ s, (s < NPROC)%nat → state (proc_at booted2 s) ≠ P_RUNNABLE) →
     ∀ n, schedule_spins n booted2 = KSpin booted2).
Proof.
  apply (schedule_runs_iff_runnable (M := weensy) booted2).
  - vm_compute. discriminate.
  - vm_compute. lia.
Defined.

(** Process 1 faults on a write to a page it may not write. *)
Lemma exception_user_page_fault_witness :
  let res := exception 14 32 0 regs_zero 14 7 5 booted2 in
  res.1 = 5
  ∧ proc_at (kresult_state res.2) (current booted2)
    = with_state P_FAULTED (with_regs regs_zero (current_proc booted2))
  ∧ (∀ st', res.2 = KRun st' → current st' ≠ current booted2)
  ∧ physpages (kresult_state res.2) = physpages booted2
  ∧ physmem (kresult_state res.2) = physmem booted2
  ∧ pagetables (kresult_state res.2) = pagetables booted2.
Proof.
  apply (exception_user_page_fault (M := weensy) 14 32 0 ltac:(discriminate)
           regs_zero 7 5 booted2).
  - vm_compute. lia.
  - vm_compute. discriminate.
Defined.

(** A general protection fault (13) stops the kernel. *)
Lemma exception_panics_iff_witness :
  (∃ st', (exception 14 32 0 regs_zero 13 0 5 booted2).2 = KPanic st')
  ↔ (13 = 14 ∧ Z.land 0 PTE_U = 0) ∨ (13 ≠ 14 ∧ 13 ≠ 32 + 0).
Proof.
  apply (exception_panics_iff (M := weensy) 14 32 0 ltac:(discriminate)
           regs_zero 13 0 5 booted2).
  - vm_compute. discriminate.
  - vm_compute. lia.
  - vm_compute. lia.
Defined.

(** The timer interrupts process 1. *)
Lemma exception_timer_resumes_witness :
  let res := exception 14 32 0 regs_zero (32 + 0) 0 5 booted2 in
  res.1 = (5 + 1) mod 2 ^ 64
  ∧ ∃ j, res.2 = KRun (set_current j
                        (update_proc (current booted2) (with_regs regs_zero) booted2))
       ∧ state (proc_at booted2 j) = P_RUNNABLE.
Proof.
  apply (exception_timer_resumes (M := weensy) 14 32 0 regs_zero 0 5 booted2).
  - vm_compute. lia.
  - vm_compute. lia.
  - vm_compute. reflexivity.
  - vm_compute. reflexivity.
  - vm_compute. reflexivity.
Defined.

Lemma booted1_safe :
  pagetable_safe (tree_of booted1 (pagetable (current_proc booted1))).
Proof.
  split.
  - apply leaves_rooted_sound. vm_compute. reflexivity.
  - apply leaves_ok_sound. vm_compute. reflexivity.
Qed.

Lemma booted1_tables : tables_in_use booted1 (pagetable (current_proc booted1)).
Proof. apply tables_in_use_sound. vm_compute. reflexivity. Qed.

Lemma booted1_fits : fork_fits booted1.
Proof. apply refcounts_fit_sound. vm_compute. reflexivity. Qed.

Lemma booted1_live : state (current_proc booted1) ≠ P_FREE.
Proof. vm_compute. discriminate. Qed.

(** Process 1 asks for the page after its code. *)
Lemma page_alloc_one_entry_witness :
  let root := pagetable (current_proc booted1) in
  let st' := (syscall_page_alloc 0x101000 booted1).2 in
  pagetable_safe (tree_of st' root)
  ∧ tables_in_use st' root
  ∧ (root ≠ pagetable (current_proc booted1) → tree_of st' root = tree_of booted1 root)
  ∧ (∀ va, va / PAGESIZE ≠ 0x101000 / PAGESIZE →
       pte (tree_of st' root) va = pte (tree_of booted1 root) va)
  ∧ (∀ f, refcount booted1 f ≠ 0 → refcount st' f = refcount booted1 f)
  ∧ frames_in_use_kept booted1 st'
  ∧ ptable st' = ptable booted1 ∧ current st' = current booted1.
Proof.
  exact (page_alloc_one_entry (M := weensy) weensy_wf 0x101000 booted1
           (pagetable (current_proc booted1))
           booted1_frames booted1_tables booted1_safe).
Defined.

(** [pgm_small] loaded as process 1 at boot. *)
Lemma process_setup_table_safe_witness :
  let root := pagetable (proc_at booted1 1) in
  let t := tree_of booted1 root in
  pagetable_safe t ∧ tables_fresh boot booted1 root ∧ user_frames_fresh boot booted1 root
  ∧ (∀ seg f x, seg ∈ pgm_segments pgm_small → f ∈ table_frames booted1 root →
       f ≤ x < f + PAGESIZE → loader_writes t seg x = false)
  ∧ frames_in_use_kept boot booted1
  ∧ (∀ f, refcount boot f ≠ 0 → refcount booted1 f = refcount boot f)
  ∧ (∀ r, r ≠ root → tree_of booted1 r = tree_of boot r).
Proof.
  assert (Hs : is_Some (process_setup 1 pgm_small boot))
    by (apply (bool_decide_unpack _); vm_compute; exact I).
  assert (Hnz : pagetable (proc_at booted1 1) ≠ 0) by (vm_compute; discriminate).
  assert (Hc : Forall (λ seg, segment_consecutive
                                (tree_of booted1 (pagetable (proc_at booted1 1))) seg
                              = true) (pgm_segments pgm_small)).
  { constructor; [vm_compute; reflexivity | constructor]. }
  destruct Hs as [s Hs].
  assert (Hb : booted1 = s) by (unfold booted1; by rewrite Hs).
  rewrite Hb in *.
  apply (process_setup_table_safe (M := weensy) weensy_wf 1 pgm_small boot s).
  - vm_compute. lia.
  - vm_compute. reflexivity.
  - repeat constructor; vm_compute; discriminate.
  - exact Hs.
  - exact Hnz.
  - exact Hc.
Defined.

(** The fork of process 1 right after boot. *)
Lemma fork_child_mappings_witness :
  let st' := (syscall_fork booted1).2 in
  let child := Z.to_nat (syscall_fork booted1).1 in
  let croot := pagetable (proc_at st' child) in
  let p := tree_of booted1 (pagetable (current_proc booted1)) in
  let c := tree_of st' croot in
  tree_of st' (pagetable (current_proc booted1)) = p
  ∧ (∀ va, va mod PAGESIZE = 0 →
      (0 ≤ va < MEMSIZE_VIRTUAL →
       vmiter_perm c va = vmiter_perm p va
       ∧ if copied_page p va
         then is_frame (vmiter_pa c va) ∧ vmiter_pa c va ≠ 0
              ∧ refcount booted1 (vmiter_pa c va) = 0
              ∧ refcount st' (vmiter_pa c va) ≠ 0
              ∧ vmiter_pa c va ∉ table_frames st' croot
         else vmiter_pa c va = vmiter_pa p va)
      ∧ (¬ 0 ≤ va < MEMSIZE_VIRTUAL → vmiter_present c va = false))
  ∧ (∀ x y, x mod PAGESIZE = 0 → y mod PAGESIZE = 0 →
       0 ≤ x < MEMSIZE_VIRTUAL → 0 ≤ y < MEMSIZE_VIRTUAL → x ≠ y →
       copied_page p x = true → copied_page p y = true →
       vmiter_pa c x ≠ vmiter_pa c y)
  ∧ tables_fresh booted1 st' croot
  ∧ (∀ f, refcount booted1 f ≤ refcount st' f)
  ∧ frames_in_use_kept booted1 st'.
Proof.
  exact (fork_child_mappings (M := weensy) weensy_wf booted1
           booted1_slots booted1_live booted1_frames booted1_tables booted1_fits
           booted1_forks).
Defined.

Lemma fork_child_table_safe_witness :
  let st' := (syscall_fork booted1).2 in
  let child := Z.to_nat (syscall_fork booted1).1 in
  pagetable_safe (tree_of st' (pagetable (proc_at st' child)))
  ∧ tables_in_use st' (pagetable (proc_at st' child)).
Proof.
  exact (fork_child_table_safe (M := weensy) weensy_wf booted1
           booted1_slots booted1_live booted1_frames booted1_tables booted1_fits
           (proj1 (proj2 booted1_safe)) (proj2 (proj2 booted1_safe))
           booted1_forks).
Defined.


(** The step at the code page of process 1, which is read-only. *)
Lemma fork_page_shares_readonly_witness :
  ∃ st1, fork_page 2 0x100000 fork_ready = inl st1
    ∧ let p := tree_of fork_ready (pagetable (current_proc fork_ready)) in
      let c := tree_of st1 (pagetable (proc_at fork_ready 2)) in
      vmiter_pa c 0x100000 = vmiter_pa p 0x100000
      ∧ vmiter_perm c 0x100000 = vmiter_perm p 0x100000
      ∧ refcount st1 (vmiter_pa p 0x100000)
        = wrap_refcount (refcount fork_ready (vmiter_pa p 0x100000) + 1)
      ∧ ∀ off, 0 ≤ off < PAGESIZE →
          physmem st1 (vmiter_pa p 0x100000 + off)
          = physmem fork_ready (vmiter_pa p 0x100000 + off).
Proof.
  assert (Hr : match fork_page 2 0x100000 fork_ready with
               | inl _ => true | inr _ => false end = true)
    by (vm_compute; reflexivity).
  destruct (fork_page 2 0x100000 fork_ready) as [st1|] eqn:E; [|discriminate Hr].
  exists st1. split; [reflexivity|].
  apply (fork_page_shares_readonly (M := weensy) weensy_wf 2 0x100000 fork_ready st1).
  - vm_compute. reflexivity.
  - exact E.
  - reflexivity.
  - vm_compute. discriminate.
  - vm_compute. discriminate.
  - vm_compute. reflexivity.
  - vm_compute. reflexivity.
  - unfold is_frame. apply (bool_decide_unpack _). vm_compute. exact I.
  - vm_compute. discriminate.
Defined.

(** Process 1 forks while process 2 is loaded: the child is process 3. *)
Lemma syscall_keeps_tables_safe_witness :
  let r := with_rax SYSCALL_FORK regs_zero in
  let st0 := update_proc (current booted2) (with_regs r) booted2 in
  let st' := sysresult_state (syscall r booted2) in
  (∀ j, state (proc_at st' j) ≠ P_FREE →
        pagetable_safe (tree_of st' (pagetable (proc_at st' j))))
  ∧ frames_in_use_kept booted2 st'
  ∧ length (ptable st') = NPROC
  ∧ frame_table_ok st'
  ∧ (reg_rax r ≠ SYSCALL_EXIT →
     (reg_rax r = SYSCALL_FORK → (syscall_fork st0).1 ≠ -1) →
     ∀ j, state (proc_at st' j) ≠ P_FREE →
          tables_in_use st' (pagetable (proc_at st' j))).
Proof.
  cbv zeta.
  assert (H1 : length (ptable booted2) = NPROC) by (vm_compute; reflexivity).
  assert (H2 : state (current_proc booted2) ≠ P_FREE) by (vm_compute; discriminate).
  assert (H3 : frame_table_ok booted2) by (vm_compute; reflexivity).
  assert (H4 : fork_fits booted2)
    by (apply refcounts_fit_sound; vm_compute; reflexivity).
  assert (H5 : ∀ i, state (proc_at booted2 i) ≠ P_FREE →
             tables_in_use booted2 (pagetable (proc_at booted2 i))
             ∧ pagetable_safe (tree_of booted2 (pagetable (proc_at booted2 i)))).
  { assert (Hst : state <$> ptable booted2
                  = [P_FREE; P_RUNNABLE; P_RUNNABLE] ++ replicate 13 P_FREE)
      by (vm_compute; reflexivity).
    intros i Hi. rewrite state_at, Hst in Hi. clear Hst.
    destruct i as [|[|[|i]]].
    - exfalso. apply Hi. reflexivity.
    - split; [apply tables_in_use_sound; vm_compute; reflexivity|].
      split; [apply leaves_rooted_sound | apply leaves_ok_sound];
        vm_compute; reflexivity.
    - split; [apply tables_in_use_sound; vm_compute; reflexivity|].
      split; [apply leaves_rooted_sound | apply leaves_ok_sound];
        vm_compute; reflexivity.
    - exfalso. apply Hi. cbn [app lookup list_lookup].
      destruct (replicate 13 P_FREE !! i) as [x|] eqn:E; [|reflexivity].
      apply lookup_replicate in E as [-> _]. reflexivity. }
  exact (syscall_keeps_tables_safe (M := weensy) weensy_wf
           (with_rax SYSCALL_FORK regs_zero) booted2 H1 H2 H3 H4 H5).
Defined.

(** The boot without a command, every name loading [pgm_small]. *)
Lemma kernel_start_tables_safe_witness :
  let st' := kresult_state (kernel_start None images boot).2 in
  processes_safe st' ∧ tables_private st'
  ∧ ∀ i, state (proc_at st' i) ≠ P_FREE ↔ i ∈ (boot_programs None images).*1.
Proof.
  cbv zeta.
  assert (H1 : frame_table_ok boot) by (vm_compute; reflexivity).
  assert (H2 : (4 < length (ptable boot))%nat) by (vm_compute; lia).
  assert (Hr : match (kernel_start None images boot).2 with
               | KRun _ => true | _ => false end = true)
    by (vm_compute; reflexivity).
  assert (E : (kernel_start None images boot).2
              = KRun (kresult_state (kernel_start None images boot).2)).
  { revert Hr. destruct (kernel_start None images boot).2;
      [reflexivity | discriminate | discriminate]. }
  assert (Hp : boot_programs None images
               = [(1%nat, pgm_small); (2%nat, pgm_small);
                  (3%nat, pgm_small); (4%nat, pgm_small)])
    by reflexivity.
  apply (kernel_start_tables_safe (M := weensy) weensy_wf None images boot _ H1 H2 E).
  intros i pgm Hin. rewrite Hp in Hin. clear -Hin.
  assert (Hseg : Forall segment_in_range (pgm_segments pgm_small))
    by (repeat constructor; vm_compute; discriminate).
  repeat (apply elem_of_cons in Hin as [[= -> ->] | Hin];
          [split; [vm_compute; discriminate|];
           split; [exact Hseg|];
           constructor; [vm_compute; reflexivity | constructor]|]).
  by apply elem_of_nil in Hin.
Defined.

(** The first call of [memshow], with processes 1 and 2 loaded. *)
Lemma memshow_shows_live_witness :
  let ms := MemshowState 0 0 in
  let switch := bool_decide (last_ticks ms = 0)
                || bool_decide ((1 - last_ticks ms) mod 2 ^ 64 >= HZ / 2) in
  let start := if switch then (showing ms + 1) mod Z.of_nat NPROC else showing ms in
  let res := memshow 1 ms booted2 in
  0 ≤ showing res.2 < Z.of_nat NPROC
  ∧ last_ticks res.2 = (if switch then 1 mod 2 ^ 32 else last_ticks ms)
  ∧ match res.1 with
    | Some j =>
        showing res.2 = Z.of_nat j ∧ can_show booted2 j
        ∧ ∃ d, 0 ≤ d < Z.of_nat NPROC
            ∧ Z.of_nat j = (start + d) mod Z.of_nat NPROC
            ∧ ∀ k, 0 ≤ k < d →
                ¬ can_show booted2 (Z.to_nat ((start + k) mod Z.of_nat NPROC))
    | None => showing res.2 = start ∧ ∀ j, (j < NPROC)%nat → ¬ can_show booted2 j
    end.
Proof.
  apply (memshow_shows_live (M := weensy) 1 (MemshowState 0 0) booted2).
  - vm_compute. lia.
  - change (0 ≤ 0 < 16). lia.
Defined.

End Instances.

